(* ===== verification/_CoqProject ===== *)
-Q . S2P
Prelude.v
GoString.v
Strconv.v
Pb.v
Json.v
RoomId.v
Chan.v
Broker.v
Kafka.v
KafkaGroup.v
Hub.v
HubSpec.v
HubRedis.v
Pods.v
Presence.v
RoomStore.v
Postgres.v
Mongo.v
Indexes.v
Sha1.v
Storage.v
Server.v
History.v
Paging.v
Frames.v
Chat.v
Typing.v
Delivery.v
Config.v
Auth.v
Grpc.v
Main.v
