(* ===== verification/Prelude.v ===== *)
(** * chat-service: a verification library

    A model of the chat service under src/ (Go), definition by definition, with the
    theorems that say what each part does. Paths below are relative to src/app.

    ** The program and its parts

    A client opens a bidirectional stream ([Chat]) for one room and calls unary methods
    beside it. The gRPC server routes every frame and request; the hub fans a message
    out to the clients of its room on this process, and through a broker (Redis pub/sub,
    Kafka or none) to the other processes. Messages, conversations and groups are stored
    in MongoDB, rooms, members, last activity and read cursors in PostgreSQL, the presence
    of users in Redis or in memory, room metadata in Redis or in memory when neither
    database answers, and files in an object storage that clients reach by presigned URLs.
    Start-up reads the configuration, picks the backends and puts an auth interceptor
    before the handlers.

    ** The files, in the order of their dependencies

    - Prelude: results, outcomes (a value or a panic), 64- and 32-bit integers with their
      wrap-around, times as nanoseconds since 1970, record updates, tactics.
    - GoString, Strconv: the functions of strings, sort, fmt, unicode/utf8 and strconv that
      the program uses, on byte strings.
    - Pb (pb/chat.pb.go): the messages and enums, one record per message with its zero.
    - Json: [encoding/json] on ServerMessage (chat/hub.go), with the escapes of strings.
    - RoomId: [normalizeRoomID] (server/grpc_server.go), [roomIDAliases] and
      [splitRoomID] (repository/mongodb.go).
    - Chan: Go channels behind handles.
    - Broker: the interface [Broker] with its laws as type classes; Noop and Redis
      (broker/broker.go, redis_broker.go). Kafka (broker/kafka_broker.go): the registry
      as slices over shared arrays, the consumer as a loop with a program counter, the
      writer and the reader that [NewKafkaBroker] makes. KafkaGroup: several pods that read
      one topic with one consumer group, their steps interleaved, and the trace of what
      entered the log and who fetched it.
    - Hub (chat/hub.go): rooms in 64 shards, clients and messages behind pointers, the
      operations ([Hub.op]), and [Hub.step], their interleavings with the broker's own
      moves. HubSpec: the room service that the hub promises ([Rooms]: seats and inboxes)
      and the abstraction of a hub to it. HubRedis: the hub over Redis. Pods: several
      pods over one Redis, each with its hub, every step a step of one pod on the shared
      service.
    - Presence (chat/presence.go): the interface, the Redis store over a key-value service
      with expiry, the local store with its pointers. RoomStore (chat/room_store.go).
    - Postgres (repository/postgres.go): the statements as a datatype with their effect
      on tables ([run]), the database as a class whose laws say that a statement either
      has that effect or none, and the repository over it.
    - Mongo (repository/mongodb.go): collections of documents, the driver's calls as a
      class with the documented laws, and all methods of [MessageRepository]. Indexes (the
      same file, 22-95 and 178-222): the documents as BSON by their tags, [ensureIndexes].
    - Sha1, Storage (storage/): the interface and its four implementations; Cloudinary's
      signature down to the SHA-1.
    - Server (server/grpc_server.go): the state over the interfaces, each handler as a
      function from the state to an outcome of a new state and a response or status;
      goroutines are tasks that run later, in any order. [ChatServer.call] is the sum of
      all requests. History: a message from [SendMessage] through its goroutine and the
      database to [GetMessages]. Paging: [GetMessages] called page after page. Frames: what
      becomes of a frame without an id or a time, or with another's id. Chat (the same file, 52-140): a stream as a handler and a
      sender that take one step at a time, and the system of many streams, calls and tasks.
      Typing: the types that protobuf gives to frames and requests, kept by that system.
      Delivery: that system against the room service of HubSpec.
    - Config (config/config.go), Auth (interceptors/auth.go). Grpc (pb/chat_grpc.pb.go): the
      twenty unary methods as the library calls them, from bytes through the interceptor to
      Server. Main (cmd/server/main.go, logger/logger.go): the choice of the backends, the wiring,
      the listener and the shutdown.

    Every interface that the code calls is a type class, with its laws in a second one;
    clients are proved against the class, and each implementation is an instance. Each
    library or service has an instance in memory ([MemRedis], [MemKafka], [MemKV],
    [MemDB], [MemMongo], [MemBuckets], [OneToken]) that shows its laws can hold and on which the
    witnesses evaluate.

    ** What the theorems show

    - Streams and hub: no interleaving panics, rooms hold exactly the streams between
      [Register] and [Unregister], the counter is their number ([streams_are_safe],
      [hub_safe]); a broadcast reaches exactly its room ([broadcast_exact]); a broken
      stream stays until a [Send] fails ([disconnected_stream_stays],
      [failed_send_releases]); two defects of the Redis fan-out.
    - The hub against its specification: each operation is the operation of [Rooms] on the
      abstract state, a 257th message for a client that does not read is lost, and nothing
      else is ([hub_refines_rooms]).
    - The process against the same specification: each action is at most one operation of
      [Rooms], and what a stream has sent is what its client took ([process_refines_rooms]);
      a frame's message reaches each stream of its room ([frame_is_delivered]).
    - Types: every message a hub holds is a value that protobuf and JSON can carry, whatever
      clients send and brokers deliver ([messages_stay_typed]).
    - Several pods: over Redis no interleaving of the pods panics and each pod's hub keeps
      its invariant ([pods_are_safe]); a message published by one pod reaches each client of
      its room on another exactly once ([other_pods_hear_once]); over Kafka the rooms keep
      their order ([room_order_kept]) but only one pod hears a message ([one_pod_hears]).
    - Brokers: the Kafka registry refines a map from rooms to sets of channels, dispatch
      ends and delivers, and a cancel races with it.
    - Sending and reading: an acknowledged message is served, once its goroutine has run,
      under every alias of its room ([sent_message_is_served]), unless the room's id ends in
      white space ([padded_room_has_no_history]) or the shutdown comes first
      ([acknowledged_message_is_lost]); a frame without an id or a time is stored under ones
      that its receivers cannot use ([nameless_frame], [timeless_frame], [resent_frame]).
    - Paging: a walk from page to page ends and shows each message once when their times
      differ ([walk_serves_every_message]), loses messages that share a millisecond
      ([same_millisecond_is_skipped]), and circles at the epoch ([epoch_page_never_ends]).
    - Identifiers and text: all spellings of a direct room meet in one id, the id is
      injective, the JSON of a message reads back.
    - Stores: the tables' invariant, direct rooms are created once, pages of history are
      complete and bounded, only the owner's documents change, ownership transfer, and a document
      is refused exactly if a unique index says so ([conflicts_are_unique_indexes]); and what
      goes wrong: unread counts, types, member counts, deleted texts, cut previews.
    - Requests: uploads are checked, room lists merge without loss, group rooms.
    - The whole process: from start-up on, after any streams, calls and goroutines, every unary
      call is answered without a panic, and with authentication on changes nothing without an
      accepted token ([started_process_answers]).
    - Access: the auth gate, calls that do the same for every caller ([caller_is_not_checked]),
      the claimed owner, authentication failing open, the upload signature that covers a
      smuggled parameter.
    - Configuration: the precedence of sources, the split of the broker list.
    Theorems without an id are proved too, and other files or findings use them.

    ** Bounds and fuel

    Recursion is structural throughout, but for [Sha1.chunk], whose fuel is the length of
    the text (every turn takes at least one byte off), the Kafka consumer, whose
    termination is a theorem ([dispatch_delivers]), and [walk], which ends within one page more
    than there are messages. Integers are Z with [wrap_i64],
    [wrap_i32] and [wrap_u32] where the code can overflow; the counters' theorems carry
    the bound 2^63 where the exact number is claimed.

    ** Not modelled, and why

    Log lines (output only; the logger's level is in Main); of the generated gRPC code the client
    stubs and the Unimplemented server, which the program does not use, and how the library
    finds a method by its name; protobuf reflection and the decoding of requests, a parameter;
    the sockets, TLS, connection pools and the drivers' internals (parameters with laws);
    in [main] the health and reflection services and the delivery of signals (the shutdown
    starts when one arrives, and whether the calls end within its five seconds is an argument);
    the Close methods, which only close the drivers' clients. An operation of a
    database or of the hub is one step: the driver's own concurrency is below the model. A
    context's cancellation reaches the model where a channel or subscription ends; the
    heartbeat may tick while its stream lives. *)

From stdpp Require Export base gmap strings list pretty sorting.
From Stdlib Require Export ZArith Lia.

#[export] Set Default Goal Selector "!".

Declare Scope go_scope.
Delimit Scope go_scope with go.

(** Lemmas that close the common side conditions of the development. *)
Create HintDb chat.

(** ** Results: Go's [(value, error)] pairs in which the error decides *)

Inductive result (E A : Type) : Type :=
  | Ok (a : A)
  | Err (e : E).
Arguments Ok {E A} a.
Arguments Err {E A} e.

#[global] Instance result_eq_dec `{EqDecision E, EqDecision A} : EqDecision (result E A).
Proof. solve_decision. Defined.

Definition is_ok {E A} (r : result E A) : bool := match r with Ok _ => true | Err _ => false end.

Definition result_map {E A B} (f : A → B) (r : result E A) : result E B :=
  match r with Ok a => Ok (f a) | Err e => Err e end.

Lemma is_ok_true {E A} (r : result E A) : is_ok r = true ↔ ∃ a, r = Ok a.
Proof. destruct r; naive_solver. Qed.

Lemma result_map_ok {E A B} (f : A → B) (r : result E A) b :
  result_map f r = Ok b ↔ ∃ a, r = Ok a ∧ b = f a.
Proof. destruct r; naive_solver. Qed.

(** ** Panics: an operation that may stop the process *)

(** [Done] is a normal return, [Panic] Go's run-time panic with its message. *)
Inductive outcome (A : Type) : Type :=
  | Done (a : A)
  | Panic (msg : string).
Arguments Done {A} a.
Arguments Panic {A} msg.

Definition outcome_bind {A B} (m : outcome A) (k : A → outcome B) : outcome B :=
  match m with Done a => k a | Panic s => Panic s end.

Definition no_panic {A} (m : outcome A) : Prop := ∃ a, m = Done a.

Lemma no_panic_bind {A B} (m : outcome A) (k : A → outcome B) :
  no_panic m → (∀ a, m = Done a → no_panic (k a)) → no_panic (outcome_bind m k).
Proof. intros [a ->] Hk. by apply Hk. Qed.

#[export] Hint Resolve no_panic_bind : chat.

(** ** Machine integers *)

Definition wrap_u32 (z : Z) : Z := z `mod` 2 ^ 32.
Definition wrap_i32 (z : Z) : Z := (z + 2 ^ 31) `mod` 2 ^ 32 - 2 ^ 31.
Definition wrap_i64 (z : Z) : Z := (z + 2 ^ 63) `mod` 2 ^ 64 - 2 ^ 63.

Definition is_i32 (z : Z) : Prop := (- 2 ^ 31 ≤ z < 2 ^ 31)%Z.
Definition is_i64 (z : Z) : Prop := (- 2 ^ 63 ≤ z < 2 ^ 63)%Z.

Lemma wrap_i64_small z : is_i64 z → wrap_i64 z = z.
Proof. unfold wrap_i64, is_i64. intros. rewrite Z.mod_small; lia. Qed.

Lemma wrap_i32_small z : is_i32 z → wrap_i32 z = z.
Proof. unfold wrap_i32, is_i32. intros. rewrite Z.mod_small; lia. Qed.

Lemma wrap_i32_range z : is_i32 (wrap_i32 z).
Proof.
  unfold wrap_i32, is_i32.
  pose proof (Z.mod_pos_bound (z + 2 ^ 31) (2 ^ 32) ltac:(lia)). lia.
Qed.

Lemma wrap_u32_range z : (0 ≤ wrap_u32 z < 2 ^ 32)%Z.
Proof. apply Z.mod_pos_bound. lia. Qed.

#[export] Hint Resolve wrap_i32_range wrap_u32_range : chat.

(** ** Instants: [time.Time] as nanoseconds since the Unix epoch

    A Go [time.Time] in UTC is an instant; the model keeps it as an unbounded
    number of nanoseconds, so that the zero value (1 January of year 1) is an
    ordinary, very negative, number. *)

Abbreviation GoTime := Z (only parsing).

(** [time.Time{}]: 62135596800 seconds before the epoch. *)
Definition zero_time : GoTime := (-62135596800 * 10 ^ 9)%Z.

(** [Time.IsZero] *)
Definition IsZero (t : GoTime) : bool := (t =? zero_time)%Z.

(** [time.UnixMilli] *)
Definition of_unix_milli (ms : Z) : GoTime := (ms * 10 ^ 6)%Z.

(** [Time.UnixMilli]: seconds times 1000 plus the milliseconds, on 64 bits. *)
Definition to_unix_milli (t : GoTime) : Z := wrap_i64 (t `div` 10 ^ 6).

Lemma to_unix_milli_range t : is_i64 (to_unix_milli t).
Proof.
  unfold to_unix_milli, wrap_i64, is_i64. pose proof (Z.mod_pos_bound (t `div` 10 ^ 6 + 2 ^ 63) (2 ^ 64)). lia.
Qed.

Lemma to_of_unix_milli ms : is_i64 ms → to_unix_milli (of_unix_milli ms) = ms.
Proof.
  intros H. unfold to_unix_milli, of_unix_milli.
  rewrite Z.div_mul by lia. by apply wrap_i64_small.
Qed.

Lemma IsZero_of_unix_milli ms : IsZero (of_unix_milli ms) = true ↔ ms = (-62135596800000)%Z.
Proof. unfold IsZero, of_unix_milli, zero_time. rewrite Z.eqb_eq. lia. Qed.

Lemma IsZero_true t : IsZero t = true ↔ t = zero_time.
Proof. apply Z.eqb_eq. Qed.

(** ** Field assignment

    A record type with an [Eta] instance (its constructor applied to its
    projections) gets [r <| F := x |>], Go's [r.F = x] on a copy. *)

Class Eta (R : Type) := eta : R → R.
Class Setter {R T : Type} (F : R → T) := set_field : (T → T) → R → R.
Arguments set_field {R T} F {_} f r /.

Ltac derive_setter :=
  match goal with
  | |- @Setter ?R ?T ?F =>
      let i := constr:(_ : Eta R) in
      let i := eval red in i in
      let f := fresh "f" in let r := fresh "r" in
      intros f r;
      let e := eval cbv beta in (i r) in
      lazymatch eval pattern (F r) in e with
      | (fun _ => ?b) _ => fail "the record's constructor does not mention the field"
      | ?g _ => let b := eval cbv beta in (g (f (F r))) in exact b
      end
  end.
#[global] Hint Extern 1 (Setter _) => derive_setter : typeclass_instances.

Notation "r <| F := x |>" := (set_field F (λ _, x) r)
  (at level 12, left associativity, F at level 9, x at level 200,
   format "r  <| F  :=  x |>").

(** ** Lists *)

(** [append] of a possibly absent value. *)
Definition cons_if {A} (b : bool) (a : A) (l : list A) : list A := if b then a :: l else l.

(** The element at the first index a test accepts, split off the list. *)
Fixpoint split_at_first {A} (p : A → bool) (l : list A) : option (list A * A * list A) :=
  match l with
  | [] => None
  | x :: r =>
      if p x then Some ([], x, r)
      else '(l1, y, l2) ← split_at_first p r; Some (x :: l1, y, l2)
  end.

Lemma split_at_first_Some {A} (p : A → bool) l l1 x l2 :
  split_at_first p l = Some (l1, x, l2) →
  l = l1 ++ x :: l2 ∧ p x = true ∧ Forall (λ y, p y = false) l1.
Proof.
  revert l1. induction l as [|y r IH]; intros l1 H; simpl in H; [done|].
  destruct (p y) eqn:Hp; simplify_eq; [done|].
  destruct (split_at_first p r) as [[[a b] c]|] eqn:E; simpl in H; simplify_eq.
  destruct (IH a eq_refl) as (-> & ? & ?). auto.
Qed.

Lemma split_at_first_None {A} (p : A → bool) l :
  split_at_first p l = None → Forall (λ y, p y = false) l.
Proof.
  induction l as [|y r IH]; intros H; simpl in H; [done|].
  destruct (p y) eqn:Hp; [done|].
  destruct (split_at_first p r) as [[[a b] c]|]; simpl in H; [done|auto].
Qed.

Lemma omap_agree {A B'} (f g : A → option B') l : Forall (λ x, f x = g x) l → omap f l = omap g l.
Proof. induction 1 as [|x l Hx _ IH]; [done|]. simpl. rewrite Hx. destruct (g x); [f_equal|]; exact IH. Qed.

Lemma length_omap_Some {A B'} (f : A → option B') l : Forall (λ x, is_Some (f x)) l → length (omap f l) = length l.
Proof. induction 1 as [|x l [y Hy] _ IH]; [done|]. simpl. rewrite Hy. simpl. f_equal. exact IH. Qed.

Lemma NoDup_fmap_eq {A B'} (f : A → B') l x y : NoDup (f <$> l) → x ∈ l → y ∈ l → f x = f y → x = y.
Proof.
  intros Hnd (i & Hi)%list_elem_of_lookup_1 (j & Hj)%list_elem_of_lookup_1 Hf.
  assert (i = j) as ->; [|congruence].
  eapply (NoDup_lookup _ i j (f x) Hnd); rewrite list_lookup_fmap; [by rewrite Hi|by rewrite Hj, Hf].
Qed.

(** ** Tactics *)

(** Case on the conditional of the goal or of a hypothesis, keeping its equation. *)
Ltac case_cond :=
  match goal with
  | |- context [if ?b then _ else _] => let H := fresh "Hc" in destruct b eqn:H
  | H : context [if ?b then _ else _] |- _ => let H' := fresh "Hc" in destruct b eqn:H'
  end.

(** Turn the boolean tests of the context into propositions. *)
Ltac bool_facts :=
  repeat match goal with
  | H : _ && _ = true |- _ => apply andb_true_iff in H as [? ?]
  | H : _ || _ = false |- _ => apply orb_false_iff in H as [? ?]
  | H : negb _ = true |- _ => apply negb_true_iff in H
  | H : negb _ = false |- _ => apply negb_false_iff in H
  | H : String.eqb _ _ = true |- _ => apply String.eqb_eq in H
  | H : String.eqb _ _ = false |- _ => apply String.eqb_neq in H
  | H : Z.eqb _ _ = true |- _ => apply Z.eqb_eq in H
  | H : Z.eqb _ _ = false |- _ => apply Z.eqb_neq in H
  | H : Z.ltb _ _ = true |- _ => apply Z.ltb_lt in H
  | H : Z.ltb _ _ = false |- _ => apply Z.ltb_ge in H
  | H : Z.leb _ _ = true |- _ => apply Z.leb_le in H
  | H : Z.leb _ _ = false |- _ => apply Z.leb_gt in H
  | H : bool_decide _ = true |- _ => apply bool_decide_eq_true in H
  | H : bool_decide _ = false |- _ => apply bool_decide_eq_false in H
  end.

(** Close a decidable closed goal by evaluating its decision. *)
Ltac decide_now := apply (bool_decide_unpack _); vm_compute; exact I.
