(* ===== verification/GoString.v ===== *)
(** * Go strings

    A Go string is a sequence of bytes. The development writes it as a
    [string] whose characters are bytes, and this file holds what the program
    uses of the packages strings, sort, fmt and unicode/utf8: slicing, prefix
    tests, Split and Join on a one-byte separator, TrimSpace (with the
    multi-byte white space of Unicode), ToUpper and ToLower, ReplaceAll of one
    byte, sorting, decimal formatting and the validity of UTF-8. *)

From S2P Require Import Prelude.
From Stdlib Require Import Ascii.
From Stdlib Require String.

Abbreviation byte := ascii (only parsing).

(** ** Bytes of a string and back *)

Abbreviation bytes := String.list_ascii_of_string.
Abbreviation str := String.string_of_list_ascii.

Lemma str_bytes s : str (bytes s) = s.
Proof. apply String.string_of_list_ascii_of_string. Qed.
Lemma bytes_str l : bytes (str l) = l.
Proof. apply String.list_ascii_of_string_of_list_ascii. Qed.

Lemma bytes_inj s t : bytes s = bytes t → s = t.
Proof. intros H. by rewrite <- (str_bytes s), H, str_bytes. Qed.

Lemma bytes_app s t : bytes (s +:+ t) = bytes s ++ bytes t.
Proof. induction s; simpl; f_equal; done. Qed.

Lemma str_app l k : str (l ++ k) = str l +:+ str k.
Proof. apply bytes_inj. by rewrite bytes_app, !bytes_str. Qed.

Lemma bytes_nil s : bytes s = [] ↔ s = "".
Proof. split; [|by intros ->]. intros H. by apply bytes_inj. Qed.

Lemma length_bytes s : length (bytes s) = String.length s.
Proof. induction s; simpl; auto. Qed.

Lemma string_app_assoc (a b c : string) : (a +:+ b) +:+ c = a +:+ (b +:+ c).
Proof. apply bytes_inj. by rewrite !bytes_app, <- app_assoc. Qed.

Lemma string_app_nil (a : string) : a +:+ "" = a.
Proof. apply bytes_inj. by rewrite bytes_app, app_nil_r. Qed.

(** [len(s)] *)
Abbreviation slen := String.length.

(** [s[:n]] and [s[n:]], for [n] within the string. *)
Definition slice_to (n : nat) (s : string) : string := str (take n (bytes s)).
Definition slice_from (n : nat) (s : string) : string := str (drop n (bytes s)).
(** [s[i] == c] *)
Definition byte_at (i : nat) (s : string) : option byte := bytes s !! i.

Lemma slice_split n s : slice_to n s +:+ slice_from n s = s.
Proof.
  apply bytes_inj. unfold slice_to, slice_from.
  by rewrite bytes_app, !bytes_str, take_drop.
Qed.

Lemma length_slice_to n s : slen (slice_to n s) = n `min` slen s.
Proof. unfold slice_to. by rewrite <- !length_bytes, bytes_str, length_take. Qed.
Lemma length_slice_from n s : slen (slice_from n s) = slen s - n.
Proof. unfold slice_from. by rewrite <- !length_bytes, bytes_str, length_drop. Qed.

(** ** Prefixes *)

(** [strings.HasPrefix] *)
Definition HasPrefix (s p : string) : bool := String.prefix p s.

(** [strings.TrimPrefix] *)
Definition TrimPrefix (s p : string) : string :=
  if HasPrefix s p then slice_from (slen p) s else s.

Lemma HasPrefix_app p s : HasPrefix (p +:+ s) p = true.
Proof.
  unfold HasPrefix. induction p as [|c p IH]; [by destruct s|].
  simpl. destruct (ascii_dec c c); [apply IH|done].
Qed.

Lemma HasPrefix_true s p : HasPrefix s p = true ↔ ∃ r, s = p +:+ r.
Proof.
  split; [|intros [r ->]; apply HasPrefix_app].
  revert s. unfold HasPrefix. induction p as [|c p IH]; intros s H; [by exists s|].
  destruct s as [|d s]; [done|]. simpl in H.
  destruct (ascii_dec c d) as [->|]; [|done].
  destruct (IH s H) as [r ->]. by exists r.
Qed.

Lemma slice_from_app p s : slice_from (slen p) (p +:+ s) = s.
Proof.
  apply bytes_inj. unfold slice_from.
  by rewrite bytes_str, bytes_app, <- length_bytes, drop_app_length.
Qed.

Lemma slice_to_app p s : slice_to (slen p) (p +:+ s) = p.
Proof.
  apply bytes_inj. unfold slice_to.
  by rewrite bytes_str, bytes_app, <- length_bytes, take_app_length.
Qed.

Lemma TrimPrefix_app p s : TrimPrefix (p +:+ s) p = s.
Proof. unfold TrimPrefix. by rewrite HasPrefix_app, slice_from_app. Qed.

(** ** Split and Join on a one-byte separator *)

Fixpoint split_bytes (sep : byte) (l : list byte) : list (list byte) :=
  match l with
  | [] => [[]]
  | c :: r =>
      if ascii_dec c sep then [] :: split_bytes sep r
      else match split_bytes sep r with
           | [] => [[c]]
           | w :: ws => (c :: w) :: ws
           end
  end.

(** [strings.Split(s, sep)] *)
Definition Split (s : string) (sep : byte) : list string := str <$> split_bytes sep (bytes s).

(** [strings.Join(parts, sep)] *)
Definition Join (parts : list string) (sep : string) : string := String.concat sep parts.

Lemma split_bytes_ne sep l : split_bytes sep l ≠ [].
Proof. destruct l as [|c r]; simpl; [done|]. by repeat case_match. Qed.

Lemma split_bytes_nosep sep l : sep ∉ l → split_bytes sep l = [l].
Proof.
  induction l as [|c r IH]; intros H; [done|]. simpl.
  destruct (ascii_dec c sep) as [->|]; [set_solver|].
  by rewrite IH by set_solver.
Qed.

Lemma split_bytes_app sep l r :
  sep ∉ l → split_bytes sep (l ++ sep :: r) = l :: split_bytes sep r.
Proof.
  induction l as [|c l IH]; intros H; simpl.
  - by destruct (ascii_dec sep sep).
  - destruct (ascii_dec c sep) as [->|]; [set_solver|].
    by rewrite IH by set_solver.
Qed.

Lemma Join_Split s sep : Join (Split s sep) (String sep "") = s.
Proof.
  unfold Join, Split. rewrite <- (str_bytes s) at 2.
  induction (bytes s) as [|c r IH]; [done|]. simpl.
  pose proof (split_bytes_ne sep r) as Hne.
  destruct (ascii_dec c sep) as [->|]; destruct (split_bytes sep r) as [|w ws] eqn:E;
    try done; csimpl in *.
  - by rewrite IH.
  - destruct ws; simpl in *; by rewrite <- IH.
Qed.

(** The separator does not occur in a field. *)
Definition lacks (sep : byte) (s : string) : Prop := sep ∉ bytes s.

#[global] Instance lacks_dec sep s : Decision (lacks sep s).
Proof. unfold lacks. apply _. Defined.

Lemma Split_cons a b sep : lacks sep a → Split (a +:+ String sep b) sep = a :: Split b sep.
Proof.
  intros H. unfold Split. rewrite bytes_app. simpl.
  rewrite split_bytes_app by done. simpl. by rewrite str_bytes.
Qed.

Lemma Split_nosep s sep : lacks sep s → Split s sep = [s].
Proof. intros H. unfold Split. rewrite split_bytes_nosep by done. simpl. by rewrite str_bytes. Qed.

Lemma Split_ne s sep : Split s sep ≠ [].
Proof.
  unfold Split. pose proof (split_bytes_ne sep (bytes s)).
  by destruct (split_bytes sep (bytes s)).
Qed.

(** ** White space *)

Definition code (c : byte) : N := N_of_ascii c.

(** The white space of [unicode.IsSpace] by the length of its encoding: the
    Latin-1 range on one byte (with U+0085 and U+00A0 on two), and U+1680,
    U+2000 to U+200A, U+2028, U+2029, U+202F, U+205F, U+3000 on three. *)
Definition space1 (c : byte) : bool :=
  let n := code c in ((9 <=? n) && (n <=? 13) || (n =? 32))%N.
Definition space2 (c d : byte) : bool :=
  ((code c =? 194) && ((code d =? 133) || (code d =? 160)))%N.
Definition space3 (c d e : byte) : bool :=
  let n := code e in
  ((code c =? 225) && (code d =? 154) && (n =? 128)
   || (code c =? 226) && (code d =? 128) &&
        ((128 <=? n) && (n <=? 138) || (n =? 168) || (n =? 169) || (n =? 175))
   || (code c =? 226) && (code d =? 129) && (n =? 159)
   || (code c =? 227) && (code d =? 128) && (n =? 128))%N.

(** Drop the leading white space, for a given recogniser of its sequences. *)
Fixpoint trim_with (s1 : byte → bool) (s2 : byte → byte → bool) (s3 : byte → byte → byte → bool)
    (l : list byte) : list byte :=
  match l with
  | [] => []
  | c :: r =>
      if s1 c then trim_with s1 s2 s3 r
      else match r with
           | [] => l
           | d :: r2 =>
               if s2 c d then trim_with s1 s2 s3 r2
               else match r2 with
                    | [] => l
                    | e :: r3 => if s3 c d e then trim_with s1 s2 s3 r3 else l
                    end
           end
  end.

Definition trim_left (l : list byte) : list byte := trim_with space1 space2 space3 l.
Definition trim_right (l : list byte) : list byte :=
  reverse (trim_with space1 (λ d c, space2 c d) (λ e d c, space3 c d e) (reverse l)).

(** [strings.TrimSpace] *)
Definition TrimSpace (s : string) : string := str (trim_right (trim_left (bytes s))).

Example TrimSpace_1 : TrimSpace "  dm:a:b 	" = "dm:a:b". Proof. reflexivity. Qed.

Section trim.
Context (s1 : byte → bool) (s2 : byte → byte → bool) (s3 : byte → byte → byte → bool).

(** Does the list begin with a sequence that is dropped? *)
Definition head_space (l : list byte) : bool :=
  match l with
  | [] => false
  | [c] => s1 c
  | [c; d] => s1 c || s2 c d
  | c :: d :: e :: _ => s1 c || s2 c d || s3 c d e
  end.

Lemma trim_with_unfold l :
  head_space l = false → trim_with s1 s2 s3 l = l.
Proof.
  destruct l as [|c [|d [|e r]]]; simpl; intros H; bool_facts; try done.
  - by rewrite H.
  - by rewrite H, H0.
  - by rewrite H, H1, H0.
Qed.

Lemma trim_with_cons c r :
  trim_with s1 s2 s3 (c :: r) =
    if s1 c then trim_with s1 s2 s3 r
    else match r with
         | [] => [c]
         | d :: r2 =>
             if s2 c d then trim_with s1 s2 s3 r2
             else match r2 with
                  | [] => [c; d]
                  | e :: r3 => if s3 c d e then trim_with s1 s2 s3 r3 else c :: d :: e :: r3
                  end
         end.
Proof. by destruct r as [|? [|??]]. Qed.

(** Each step drops a sequence or stops in front of something else. *)
Lemma trim_with_cases l :
  (trim_with s1 s2 s3 l = l ∧ head_space l = false)
  ∨ ∃ k l', k ≠ [] ∧ l = k ++ l' ∧ trim_with s1 s2 s3 l = trim_with s1 s2 s3 l'.
Proof.
  destruct l as [|c r]; [by left|]. rewrite trim_with_cons.
  destruct (s1 c) eqn:E1; [right; by exists [c], r|].
  destruct r as [|d r]; [left; by simpl|].
  destruct (s2 c d) eqn:E2; [right; by exists [c; d], r|].
  destruct r as [|e r]; [left; simpl; by rewrite E1, E2|].
  destruct (s3 c d e) eqn:E3; [right; by exists [c; d; e], r|].
  left. simpl. by rewrite E1, E2, E3.
Qed.

Lemma trim_with_head l : head_space (trim_with s1 s2 s3 l) = false.
Proof.
  induction l as [l IH] using (induction_ltof1 _ length). unfold ltof in IH.
  destruct (trim_with_cases l) as [[-> ?]|(k & l' & Hk & -> & ->)]; [done|].
  apply IH. rewrite length_app. destruct k; simpl; [done|lia].
Qed.

Lemma trim_with_suffix l : trim_with s1 s2 s3 l `suffix_of` l.
Proof.
  induction l as [l IH] using (induction_ltof1 _ length). unfold ltof in IH.
  destruct (trim_with_cases l) as [[-> ?]|(k & l' & Hk & -> & ->)]; [done|].
  apply suffix_app_r, IH. rewrite length_app. destruct k; simpl; [done|lia].
Qed.

Lemma head_space_prefix l k : head_space (l ++ k) = false → head_space l = false.
Proof.
  destruct l as [|c [|d [|e r]]]; simpl; intros H; try done.
  - destruct k as [|? [|??]]; simpl in H; bool_facts; done.
  - destruct k; simpl in H; bool_facts; [by apply orb_false_iff|].
    by apply orb_false_iff.
Qed.

(** A byte that is part of no sequence shields what comes before it. *)
Definition shields (x : byte) : Prop :=
  s1 x = false ∧ (∀ c, s2 c x = false ∧ s2 x c = false)
  ∧ (∀ c d, s3 c x d = false ∧ s3 c d x = false ∧ s3 x c d = false).

Lemma head_space_shield x l k :
  shields x → l ≠ [] → head_space l = false → head_space (l ++ x :: k) = false.
Proof.
  intros (H1 & H2 & H3) Hne H.
  destruct l as [|c [|d [|e r]]]; simpl in *; [done|..].
  - destruct k as [|e k]; simpl; rewrite H, (proj1 (H2 c)); [done|].
    by rewrite (proj1 (H3 c e)).
  - bool_facts. rewrite H, H0. simpl. by rewrite (proj1 (proj2 (H3 c d))).
  - done.
Qed.

Lemma head_space_shield_head x k : shields x → head_space (x :: k) = false.
Proof.
  intros (H1 & H2 & H3). destruct k as [|d [|e k]]; simpl; [done|..];
    rewrite H1, (proj2 (H2 d)); [done|]. by rewrite (proj2 (proj2 (H3 d e))).
Qed.
End trim.

(** Below 128 only the one-byte white space counts. *)
Definition shield_byte (x : byte) : Prop := (code x < 128)%N ∧ space1 x = false.

#[global] Instance shield_byte_dec x : Decision (shield_byte x).
Proof. unfold shield_byte. apply _. Defined.

Section shield_byte.
Context (x : byte) (Hx : shield_byte x).

Lemma shield_eqb n : (128 ≤ n)%N → (code x =? n)%N = false.
Proof. destruct Hx. intros. apply N.eqb_neq. lia. Qed.

Lemma shield_leb : (128 <=? code x)%N = false.
Proof. destruct Hx. apply N.leb_gt. lia. Qed.

Lemma shield_space2_l c : space2 x c = false.
Proof. unfold space2. by rewrite !shield_eqb by lia. Qed.
Lemma shield_space2_r c : space2 c x = false.
Proof. unfold space2. rewrite !shield_eqb by lia. apply andb_false_r. Qed.
Lemma shield_space3_1 c d : space3 x c d = false.
Proof. unfold space3. by rewrite !shield_eqb by lia. Qed.
Lemma shield_space3_2 c d : space3 c x d = false.
Proof. unfold space3. rewrite !shield_eqb by lia. by rewrite !andb_false_r. Qed.
Lemma shield_space3_3 c d : space3 c d x = false.
Proof. unfold space3. rewrite !shield_eqb, shield_leb by lia. by rewrite !andb_false_r. Qed.

Lemma shield_byte_left : shields space1 space2 space3 x.
Proof.
  split; [apply Hx|split].
  - intros c. split; [apply shield_space2_r|apply shield_space2_l].
  - intros c d. split; [apply shield_space3_2|split; [apply shield_space3_3|apply shield_space3_1]].
Qed.

Lemma shield_byte_right : shields space1 (λ d c, space2 c d) (λ e d c, space3 c d e) x.
Proof.
  split; [apply Hx|split].
  - intros c. split; [apply shield_space2_l|apply shield_space2_r].
  - intros c d. split; [apply shield_space3_2|split; [apply shield_space3_1|apply shield_space3_3]].
Qed.
End shield_byte.

(** ** What TrimSpace leaves *)

(** No white space at either end. *)
Definition trimmed (s : string) : Prop := TrimSpace s = s.

#[global] Instance trimmed_dec s : Decision (trimmed s).
Proof. unfold trimmed. apply _. Defined.

Lemma trim_right_prefix l : trim_right l `prefix_of` l.
Proof.
  unfold trim_right.
  destruct (trim_with_suffix space1 (λ d c, space2 c d) (λ e d c, space3 c d e) (reverse l))
    as [k Hk].
  apply (f_equal reverse) in Hk. rewrite reverse_involutive, reverse_app in Hk.
  exists (reverse k). done.
Qed.

Lemma trim_right_idem l : trim_right (trim_right l) = trim_right l.
Proof.
  unfold trim_right at 1. f_equal. unfold trim_right. rewrite !reverse_involutive.
  f_equal. apply trim_with_unfold, trim_with_head.
Qed.

Lemma TrimSpace_trimmed s : trimmed (TrimSpace s).
Proof.
  unfold trimmed, TrimSpace. rewrite bytes_str. f_equal.
  set (l := trim_left (bytes s)).
  assert (trim_left (trim_right l) = trim_right l) as ->; [|apply trim_right_idem].
  apply trim_with_unfold. destruct (trim_right_prefix l) as [k Hk].
  apply (head_space_prefix _ _ _ _ k). rewrite <- Hk. apply trim_with_head.
Qed.

(** A string that begins with a shielding byte, and ends with one or with
    another shielding byte and a trimmed rest, is trimmed. *)
Lemma trimmed_shield x y p s :
  shield_byte x → shield_byte y → trimmed s → s ≠ "" →
  trimmed (String x (p +:+ String y s)).
Proof.
  intros Hx Hy Hs Hne. unfold trimmed, TrimSpace. apply bytes_inj. rewrite bytes_str.
  assert (trim_left (bytes (String x (p +:+ String y s))) = bytes (String x (p +:+ String y s)))
    as ->.
  { apply trim_with_unfold. simpl. by apply head_space_shield_head, shield_byte_left. }
  unfold trim_right.
  assert (Hhs : head_space space1 (λ d c, space2 c d) (λ e d c, space3 c d e)
            (reverse (bytes s)) = false).
  { unfold trimmed, TrimSpace in Hs. rewrite <- Hs at 1. rewrite bytes_str.
    unfold trim_right. rewrite reverse_involutive. apply trim_with_head. }
  rewrite trim_with_unfold; [by rewrite reverse_involutive|].
  simpl. rewrite bytes_app. simpl.
  rewrite reverse_cons, reverse_app, reverse_cons, <- !app_assoc. simpl.
  apply head_space_shield; [by apply shield_byte_right| |done].
  intros H. apply (f_equal reverse) in H. rewrite reverse_involutive in H.
  by apply Hne, bytes_nil.
Qed.

(** ** Case mapping, replacement *)

Definition upper1 (c : byte) : byte :=
  if ((97 <=? code c) && (code c <=? 122))%N then ascii_of_N (code c - 32) else c.
Definition lower1 (c : byte) : byte :=
  if ((65 <=? code c) && (code c <=? 90))%N then ascii_of_N (code c + 32) else c.

(** [strings.ToUpper] as far as ASCII results go: besides a to z, the runes
    U+0131 and U+017F have the ASCII capitals I and S. Other runes map to runes
    outside ASCII and are kept as they are, which no table of the program tells
    apart. *)
Fixpoint to_upper (l : list byte) : list byte :=
  match l with
  | [] => []
  | c :: r =>
      match r with
      | d :: r' =>
          if ((code c =? 196) && (code d =? 177))%N then "I"%char :: to_upper r'
          else if ((code c =? 197) && (code d =? 191))%N then "S"%char :: to_upper r'
          else upper1 c :: to_upper r
      | [] => [upper1 c]
      end
  end.
Definition ToUpper (s : string) : string := str (to_upper (bytes s)).

(** [strings.ToLower] in the same way: U+0130 lowers to i and U+212A to k. *)
Fixpoint to_lower (l : list byte) : list byte :=
  match l with
  | [] => []
  | c :: r =>
      match r with
      | d :: r' =>
          if ((code c =? 196) && (code d =? 176))%N then "i"%char :: to_lower r'
          else match r' with
               | e :: r'' =>
                   if ((code c =? 226) && (code d =? 132) && (code e =? 170))%N
                   then "k"%char :: to_lower r''
                   else lower1 c :: to_lower r
               | [] => lower1 c :: to_lower r
               end
      | [] => [lower1 c]
      end
  end.
Definition ToLower (s : string) : string := str (to_lower (bytes s)).

(** [strings.ReplaceAll] of one byte by another. *)
Definition ReplaceAll (s : string) (old new : byte) : string :=
  str ((λ c, if ascii_dec c old then new else c) <$> bytes s).

Lemma ReplaceAll_lacks s old new : old ≠ new → lacks old (ReplaceAll s old new).
Proof.
  intros Hne. unfold lacks, ReplaceAll. rewrite bytes_str, list_elem_of_fmap.
  intros (c & Heq & _). by destruct (ascii_dec c old).
Qed.

Lemma length_ReplaceAll s old new : slen (ReplaceAll s old new) = slen s.
Proof.
  unfold ReplaceAll. by rewrite <- !length_bytes, bytes_str, length_fmap.
Qed.

(** ** Sorting *)

(** [sort.Strings]: the order on strings is the byte-wise one, and is total, so
    the result does not depend on the algorithm. *)
Definition sort_strings (l : list string) : list string := merge_sort String.le l.

Lemma sort_strings_perm l : sort_strings l ≡ₚ l.
Proof. apply merge_sort_Permutation. Qed.

Lemma sort_strings_unique l k : l ≡ₚ k → sort_strings l = sort_strings k.
Proof.
  intros H. apply (Sorted_unique String.le).
  - apply Sorted_merge_sort. apply _.
  - apply Sorted_merge_sort. apply _.
  - by rewrite !sort_strings_perm.
Qed.

Lemma sort_strings_pair a b :
  sort_strings [a; b] = if decide (String.le a b) then [a; b] else [b; a].
Proof.
  apply (Sorted_unique String.le).
  - apply Sorted_merge_sort. apply _.
  - case_decide; repeat constructor; [done|].
    by destruct (total String.le a b).
  - rewrite sort_strings_perm. case_decide; [done|]. apply Permutation_swap.
Qed.

Lemma sort_strings_pair_comm a b : sort_strings [a; b] = sort_strings [b; a].
Proof. apply sort_strings_unique, Permutation_swap. Qed.

(** ** Formatting *)

(** [fmt.Sprintf("%d", z)] *)
Definition itoa (z : Z) : string := pretty z.

(** ** UTF-8 *)

(** [utf8.ValidString], following the table of well-formed byte sequences. *)
Definition cont (c : byte) : bool := ((128 <=? code c) && (code c <=? 191))%N.
Definition in_range (a b : N) (c : byte) : bool := ((a <=? code c) && (code c <=? b))%N.

Fixpoint valid_utf8 (l : list byte) : bool :=
  match l with
  | [] => true
  | c :: r =>
      if (code c <? 128)%N then valid_utf8 r
      else match r with
      | [] => false
      | d :: r2 =>
          if in_range 194 223 c then cont d && valid_utf8 r2
          else match r2 with
          | [] => false
          | e :: r3 =>
              if in_range 224 239 c then
                (if (code c =? 224)%N then in_range 160 191 d
                 else if (code c =? 237)%N then in_range 128 159 d else cont d)
                && cont e && valid_utf8 r3
              else match r3 with
              | [] => false
              | f :: r4 =>
                  in_range 240 244 c
                  && (if (code c =? 240)%N then in_range 144 191 d
                      else if (code c =? 244)%N then in_range 128 143 d else cont d)
                  && cont e && cont f && valid_utf8 r4
              end
          end
      end
  end.
Definition ValidString (s : string) : bool := valid_utf8 (bytes s).

Example utf8_clip : ValidString "📎 " = true ∧ ValidString (slice_to 2 "📎 ") = false.
Proof. split; reflexivity. Qed.
Example sort_ex : sort_strings ["bob"; "alice"] = ["alice"; "bob"]. Proof. reflexivity. Qed.

Lemma valid_utf8_app l k : valid_utf8 l = true → valid_utf8 (l ++ k) = valid_utf8 k.
Proof.
  induction l as [l IH] using (induction_ltof1 _ length); unfold ltof in IH.
  destruct l as [|c r]; [done|]. intros Hv. simpl in Hv |- *.
  destruct (code c <? 128)%N; [apply IH; [simpl; lia|done]|].
  destruct r as [|d r2]; [done|]. simpl.
  destruct (in_range 194 223 c).
  { apply andb_true_iff in Hv as [-> Hv]. apply IH; [simpl; lia|done]. }
  destruct r2 as [|e r3]; [done|]. simpl. destruct (in_range 224 239 c).
  { apply andb_true_iff in Hv as [Hv Hr]. rewrite Hv. apply IH; [simpl; lia|done]. }
  destruct r3 as [|f r4]; [done|]. simpl. apply andb_true_iff in Hv as [Hv Hr]. rewrite Hv.
  apply IH; [simpl; lia|done].
Qed.

Lemma ValidString_app s t : ValidString s = true → ValidString (s +:+ t) = ValidString t.
Proof. unfold ValidString. rewrite bytes_app. apply valid_utf8_app. Qed.
