(* ===== verification/Strconv.v ===== *)
(** * Decimal numbers

    What the program uses of [strconv]: [FormatInt] and [Itoa] are [itoa] of
    GoString.v; here are [ParseInt] in base 10 and [Atoi], with the digits of
    what [itoa] writes. *)

From S2P Require Import Prelude GoString.
From Stdlib Require Import Ascii.

(** Facts of byte comparisons. *)
Ltac range_facts :=
  unfold in_range, cont in *;
  repeat match goal with
  | H : context [if ?b then _ else _] |- _ => destruct b eqn:?
  | H : _ && _ = true |- _ => apply andb_true_iff in H as [? ?]
  | H : (_ <=? _)%N = true |- _ => apply N.leb_le in H
  | H : (_ =? _)%N = true |- _ => apply N.eqb_eq in H
  end.

Definition is_digit (c : byte) : bool := in_range 48 57 c.

(** The value of a digit sequence. *)
Definition digits_val (ds : list byte) : Z := foldl (λ z c, (z * 10 + Z.of_N (code c) - 48)%Z) 0%Z ds.

Lemma digits_val_app a b : digits_val (a ++ b) = foldl (λ z c, (z * 10 + Z.of_N (code c) - 48)%Z) (digits_val a) b.
Proof. unfold digits_val. apply foldl_app. Qed.

Lemma pretty_char n :
  (n < 10)%N → is_digit (pretty_N_char n) = true ∧ code (pretty_N_char n) = (48 + n)%N.
Proof.
  intros H. assert (n = 0 ∨ n = 1 ∨ n = 2 ∨ n = 3 ∨ n = 4 ∨ n = 5 ∨ n = 6 ∨ n = 7 ∨ n = 8 ∨ n = 9)%N
    as Hn by lia.
  by destruct Hn as [->|[->|[->|[->|[->|[->|[->|[->|[->| ->]]]]]]]]].
Qed.

Lemma pretty_N_go_digits n s :
  ∃ ds, bytes (pretty_N_go n s) = ds ++ bytes s ∧ Forall (λ c, is_digit c = true) ds
    ∧ digits_val ds = Z.of_N n ∧ ((0 < n)%N → ∃ c r, ds = c :: r ∧ (code c ≠ 48)%N).
Proof.
  revert s. induction (N.lt_wf_0 n) as [n _ IH]; intros s.
  destruct (decide (n = 0)%N) as [->|Hn].
  { exists []. rewrite pretty_N_go_0. by split_and!; [..|lia]. }
  rewrite pretty_N_go_step by lia.
  destruct (IH (n `div` 10)%N) with (s := String (pretty_N_char (n `mod` 10)) s)
    as (ds & Hb & Hd & Hv & Hh); [apply N.div_lt; lia|].
  destruct (pretty_char (n `mod` 10)) as [Hc1 Hc2]; [by apply N.mod_lt|].
  exists (ds ++ [pretty_N_char (n `mod` 10)]). split_and!.
  - rewrite Hb, <- app_assoc. done.
  - apply Forall_app. split; [done|]. by constructor.
  - rewrite digits_val_app, Hv. cbn [foldl]. rewrite Hc2. pose proof (N.div_mod' n 10). lia.
  - intros _. destruct (decide (n `div` 10 = 0)%N) as [H0|H0].
    + assert (ds = []) as ->; [|].
      { rewrite H0 in Hb. rewrite pretty_N_go_0 in Hb. simpl in Hb.
        apply (f_equal length) in Hb. rewrite length_app in Hb. simpl in Hb. destruct ds; [done|simpl in Hb; lia]. }
      eexists _, []. split; [done|]. rewrite Hc2. pose proof (N.div_mod' n 10). lia.
    + destruct Hh as (c & r & -> & Hc); [by apply N.neq_0_lt_0|]. by eexists c, _.
Qed.

(** The digits of a number as [itoa] writes them: not empty, and without a
    leading zero unless the number is zero. *)
Lemma pretty_digits n :
  ∃ ds, bytes (pretty n) = ds ∧ Forall (λ c, is_digit c = true) ds ∧ digits_val ds = Z.of_N n
    ∧ (ds = ["0"%char] ∨ ∃ c r, ds = c :: r ∧ (code c ≠ 48)%N).
Proof.
  unfold pretty, pretty_N. case_decide as Hn; [subst; eexists; split_and!; [done|by repeat constructor|done|by left]|].
  destruct (pretty_N_go_digits n "") as (ds & Hb & Hd & Hv & Hh).
  exists ds. rewrite Hb, app_nil_r. split_and!; [done..|]. right. apply Hh. lia.
Qed.

Lemma itoa_head z : ∃ c r, bytes (itoa z) = c :: r ∧ (is_digit c = true ∨ c = "-"%char).
Proof.
  unfold itoa. destruct z as [|p|p]; [by eexists _, _; split; [|left]| |by eexists _, _; split; [|right]].
  change (bytes (pretty (Z.pos p))) with (bytes (pretty (Npos p))).
  destruct (pretty_digits (Npos p)) as (ds & -> & Hd & _ & [->|(c & r & -> & _)]);
    eexists _, _; (split; [done|]); left; by apply Forall_cons in Hd as [? _].
Qed.


(** [strconv.ParseInt(s, 10, 64)]: an optional sign and digits. Out of range it
    returns the nearest value with an error, and zero with one for anything else. *)
Inductive num_error : Type := ErrSyntax | ErrRange.

Definition parse_signed (neg : bool) (ds : list byte) : Z * option num_error :=
  if bool_decide (ds = []) then (0%Z, Some ErrSyntax)
  else if forallb is_digit ds then
    let z := if neg then (- digits_val ds)%Z else digits_val ds in
    if (z <? - 2 ^ 63)%Z then ((- 2 ^ 63)%Z, Some ErrRange)
    else if (2 ^ 63 - 1 <? z)%Z then ((2 ^ 63 - 1)%Z, Some ErrRange)
    else (z, None)
  else (0%Z, Some ErrSyntax).

Definition ParseInt (s : string) : Z * option num_error :=
  match bytes s with
  | c :: r => if (code c =? 45)%N then parse_signed true r
              else if (code c =? 43)%N then parse_signed false r else parse_signed false (c :: r)
  | [] => (0%Z, Some ErrSyntax)
  end.

(** [strconv.Atoi] *)
Definition Atoi (s : string) : option Z := match ParseInt s with (z, None) => Some z | _ => None end.

Lemma parse_signed_ok (neg : bool) ds z :
  ds ≠ [] → Forall (λ c, is_digit c = true) ds → is_i64 z →
  (if neg then - digits_val ds else digits_val ds)%Z = z → parse_signed neg ds = (z, None).
Proof.
  intros Hne Hd Hz Hv. unfold parse_signed, is_i64 in *. rewrite bool_decide_false by done.
  assert (Hall : forallb is_digit ds = true).
  { apply forallb_forall. intros c Hc. rewrite Forall_forall in Hd. by apply Hd, list_elem_of_In. }
  rewrite Hall, Hv, (proj2 (Z.ltb_ge _ _)), (proj2 (Z.ltb_ge _ _)) by lia. done.
Qed.

Lemma ParseInt_itoa z : is_i64 z → ParseInt (itoa z) = (z, None).
Proof.
  intros Hz. unfold itoa, ParseInt. destruct z as [|p|p]; [done|..].
  - change (bytes (pretty (Z.pos p))) with (bytes (pretty (Npos p))).
    destruct (pretty_digits (Npos p)) as (ds & -> & Hd & Hv & Hh). destruct ds as [|c r].
    { by destruct Hh as [|(? & ? & ? & _)]. }
    assert (Hc : (48 ≤ code c)%N).
    { apply Forall_cons in Hd as [Hc _]. unfold is_digit in Hc. by range_facts. }
    rewrite !(proj2 (N.eqb_neq _ _)) by lia. by apply parse_signed_ok.
  - change (bytes (pretty (Z.neg p))) with ("-"%char :: bytes (pretty (Npos p))).
    destruct (pretty_digits (Npos p)) as (ds & -> & Hd & Hv & Hh).
    apply parse_signed_ok; [|done|done|by rewrite Hv].
    intros ->. by destruct Hh as [|(? & ? & ? & _)].
Qed.

Example ParseInt_ex : ParseInt "+07" = (7%Z, None) ∧ ParseInt "7x" = (0%Z, Some ErrSyntax).
Proof. split; reflexivity. Qed.
