(* ===== verification/Pb.v ===== *)
(** * Messages of the wire protocol

    The enums and messages of [app/pb/chat.pb.go]. A protobuf enum of proto3 is
    open: any 32-bit integer arrives unchanged, so an enum is its integer with
    the named values as constants, and the server's [switch] statements compare
    integers. A message is a record of its fields under the names
    [<Message>_<Field>]; the runtime's private fields (state, sizeCache,
    unknownFields) are left out, and a message that a handler receives is never
    nil, so the generated getters are the projections. *)

From S2P Require Import Prelude GoString.

Abbreviation MessageType := Z (only parsing).
Abbreviation RoomType := Z (only parsing).
Abbreviation EventType := Z (only parsing).
Abbreviation MessageStatus := Z (only parsing).

Definition MessageType_MESSAGE_TYPE_TEXT : MessageType := 0%Z.
Definition MessageType_MESSAGE_TYPE_IMAGE : MessageType := 1%Z.
Definition MessageType_MESSAGE_TYPE_VIDEO : MessageType := 2%Z.
Definition MessageType_MESSAGE_TYPE_AUDIO : MessageType := 3%Z.
Definition MessageType_MESSAGE_TYPE_FILE : MessageType := 4%Z.
Definition RoomType_ROOM_TYPE_DM : RoomType := 0%Z.
Definition RoomType_ROOM_TYPE_GROUP : RoomType := 1%Z.
Definition EventType_EVENT_TYPE_MESSAGE : EventType := 0%Z.
Definition EventType_EVENT_TYPE_TYPING_START : EventType := 1%Z.
Definition EventType_EVENT_TYPE_TYPING_STOP : EventType := 2%Z.
Definition EventType_EVENT_TYPE_READ_RECEIPT : EventType := 3%Z.
Definition EventType_EVENT_TYPE_REACTION : EventType := 4%Z.
Definition EventType_EVENT_TYPE_DELETE : EventType := 5%Z.
Definition EventType_EVENT_TYPE_PRESENCE : EventType := 6%Z.
Definition EventType_EVENT_TYPE_EDIT : EventType := 7%Z.
Definition MessageStatus_MESSAGE_STATUS_SENDING : MessageStatus := 0%Z.
Definition MessageStatus_MESSAGE_STATUS_SENT : MessageStatus := 1%Z.
Definition MessageStatus_MESSAGE_STATUS_DELIVERED : MessageStatus := 2%Z.
Definition MessageStatus_MESSAGE_STATUS_READ : MessageStatus := 3%Z.

(** [MessageType_value], the names of the message types. *)
Definition MessageType_value : list (string * MessageType) :=
  [("MESSAGE_TYPE_TEXT", 0%Z);
   ("MESSAGE_TYPE_IMAGE", 1%Z);
   ("MESSAGE_TYPE_VIDEO", 2%Z);
   ("MESSAGE_TYPE_AUDIO", 3%Z);
   ("MESSAGE_TYPE_FILE", 4%Z)].
(** [MessageType_name] *)
Definition MessageType_name : list (MessageType * string) :=
  [(0%Z, "MESSAGE_TYPE_TEXT");
   (1%Z, "MESSAGE_TYPE_IMAGE");
   (2%Z, "MESSAGE_TYPE_VIDEO");
   (3%Z, "MESSAGE_TYPE_AUDIO");
   (4%Z, "MESSAGE_TYPE_FILE")].

(** [MessageType.String()]: the name, or the number of a value without one. *)
Definition MessageType_String (x : MessageType) : string :=
  match list_find (λ p, p.1 = x) MessageType_name with
  | Some (_, (_, n)) => n
  | None => itoa x
  end.

Record ClientMessage : Type := mkClientMessage {
  ClientMessage_RoomId : string;
  ClientMessage_UserId : string;
  ClientMessage_MessageId : string;
  ClientMessage_Text : string;
  ClientMessage_SentAtUnixMs : Z;
  ClientMessage_Type : MessageType;
  ClientMessage_MediaKey : string;
  ClientMessage_MediaName : string;
  ClientMessage_MediaSizeBytes : Z;
  ClientMessage_MediaMimeType : string;
  ClientMessage_EventType : EventType;
  ClientMessage_ReplyToMessageId : string;
  ClientMessage_ReactionEmoji : string
}.

Record ServerMessage : Type := mkServerMessage {
  ServerMessage_RoomId : string;
  ServerMessage_UserId : string;
  ServerMessage_MessageId : string;
  ServerMessage_Text : string;
  ServerMessage_SentAtUnixMs : Z;
  ServerMessage_DeliveredAtUnixMs : Z;
  ServerMessage_Type : MessageType;
  ServerMessage_MediaKey : string;
  ServerMessage_MediaName : string;
  ServerMessage_MediaSizeBytes : Z;
  ServerMessage_MediaMimeType : string;
  ServerMessage_MediaUrl : string;
  ServerMessage_EventType : EventType;
  ServerMessage_ReplyToMessageId : string;
  ServerMessage_ReactionEmoji : string;
  ServerMessage_IsDeleted : bool;
  ServerMessage_EditedAtUnixMs : Z;
  ServerMessage_Status : MessageStatus;
  ServerMessage_IsOnline : bool;
  ServerMessage_LastSeenUnixMs : Z
}.

Record GetMessagesRequest : Type := mkGetMessagesRequest {
  GetMessagesRequest_RoomId : string;
  GetMessagesRequest_UserId : string;
  GetMessagesRequest_Limit : Z;
  GetMessagesRequest_BeforeUnixMs : Z
}.

Record GetMessagesResponse : Type := mkGetMessagesResponse {
  GetMessagesResponse_Messages : list ServerMessage;
  GetMessagesResponse_HasMore : bool
}.

Record UploadRequest : Type := mkUploadRequest {
  UploadRequest_UserId : string;
  UploadRequest_RoomId : string;
  UploadRequest_FileName : string;
  UploadRequest_MimeType : string;
  UploadRequest_FileSizeBytes : Z
}.

Record UploadResponse : Type := mkUploadResponse {
  UploadResponse_MediaKey : string;
  UploadResponse_UploadUrl : string;
  UploadResponse_ExpiresAtUnixMs : Z
}.

Record GetDownloadUrlRequest : Type := mkGetDownloadUrlRequest {
  GetDownloadUrlRequest_UserId : string;
  GetDownloadUrlRequest_MediaKey : string
}.

Record GetDownloadUrlResponse : Type := mkGetDownloadUrlResponse {
  GetDownloadUrlResponse_Url : string;
  GetDownloadUrlResponse_ExpiresAtUnixMs : Z
}.

Record CreateRoomRequest : Type := mkCreateRoomRequest {
  CreateRoomRequest_CreatedBy : string;
  CreateRoomRequest_Name : string;
  CreateRoomRequest_Type : RoomType;
  CreateRoomRequest_MemberIds : list string
}.

Record CreateRoomResponse : Type := mkCreateRoomResponse {
  CreateRoomResponse_RoomId : string;
  CreateRoomResponse_Name : string
}.

Record GetPresenceRequest : Type := mkGetPresenceRequest {
  GetPresenceRequest_UserIds : list string
}.

Record PresenceInfo : Type := mkPresenceInfo {
  PresenceInfo_UserId : string;
  PresenceInfo_IsOnline : bool;
  PresenceInfo_LastSeenUnixMs : Z
}.

Record GetPresenceResponse : Type := mkGetPresenceResponse {
  GetPresenceResponse_Users : list PresenceInfo
}.

Record GetUserRoomsRequest : Type := mkGetUserRoomsRequest {
  GetUserRoomsRequest_UserId : string
}.

Record UserRoom : Type := mkUserRoom {
  UserRoom_RoomId : string;
  UserRoom_RoomType : RoomType;
  UserRoom_Name : string;
  UserRoom_LastMessage : string;
  UserRoom_LastMessageAt : Z;
  UserRoom_HasUnread : bool;
  UserRoom_MemberIds : list string
}.

Record GetUserRoomsResponse : Type := mkGetUserRoomsResponse {
  GetUserRoomsResponse_Rooms : list UserRoom
}.

Record ConversationDetail : Type := mkConversationDetail {
  ConversationDetail_ConversationId : string;
  ConversationDetail_Type : RoomType;
  ConversationDetail_Participants : list string;
  ConversationDetail_GroupName : string;
  ConversationDetail_GroupPhoto : string;
  ConversationDetail_Description : string;
  ConversationDetail_MemberCount : Z;
  ConversationDetail_LastMessage : string;
  ConversationDetail_LastMessageId : string;
  ConversationDetail_LastMessageAt : Z;
  ConversationDetail_CreatedBy : string;
  ConversationDetail_CreatedAt : Z
}.

Record GroupMember : Type := mkGroupMember {
  GroupMember_Id : string;
  GroupMember_ConversationId : string;
  GroupMember_UserId : string;
  GroupMember_Role : string;
  GroupMember_JoinedAt : Z;
  GroupMember_Status : string
}.

Record GetConversationRequest : Type := mkGetConversationRequest {
  GetConversationRequest_ConversationId : string;
  GetConversationRequest_UserId : string
}.

Record GetConversationResponse : Type := mkGetConversationResponse {
  GetConversationResponse_Conversation : ConversationDetail;
  GetConversationResponse_Members : list GroupMember
}.

Record SendMessageRequest : Type := mkSendMessageRequest {
  SendMessageRequest_ConversationId : string;
  SendMessageRequest_SenderId : string;
  SendMessageRequest_Content : string;
  SendMessageRequest_MessageType : MessageType;
  SendMessageRequest_MediaKey : string;
  SendMessageRequest_MediaName : string;
  SendMessageRequest_MediaSizeBytes : Z;
  SendMessageRequest_MediaMimeType : string;
  SendMessageRequest_ReplyToMessageId : string
}.

Record SendMessageResponse : Type := mkSendMessageResponse {
  SendMessageResponse_Message : ServerMessage
}.

Record SearchMessagesRequest : Type := mkSearchMessagesRequest {
  SearchMessagesRequest_ConversationId : string;
  SearchMessagesRequest_Query : string;
  SearchMessagesRequest_Limit : Z
}.

Record SearchMessagesResponse : Type := mkSearchMessagesResponse {
  SearchMessagesResponse_Messages : list ServerMessage
}.

Record DeleteMessageRequest : Type := mkDeleteMessageRequest {
  DeleteMessageRequest_MessageId : string;
  DeleteMessageRequest_UserId : string;
  DeleteMessageRequest_ConversationId : string
}.

Record DeleteMessageResponse : Type := mkDeleteMessageResponse {
  DeleteMessageResponse_Success : bool
}.

Record EditMessageRequest : Type := mkEditMessageRequest {
  EditMessageRequest_MessageId : string;
  EditMessageRequest_UserId : string;
  EditMessageRequest_ConversationId : string;
  EditMessageRequest_NewContent : string
}.

Record EditMessageResponse : Type := mkEditMessageResponse {
  EditMessageResponse_Message : ServerMessage
}.

Record MarkMessageReadRequest : Type := mkMarkMessageReadRequest {
  MarkMessageReadRequest_ConversationId : string;
  MarkMessageReadRequest_UserId : string;
  MarkMessageReadRequest_MessageId : string
}.

Record MarkMessageReadResponse : Type := mkMarkMessageReadResponse {
  MarkMessageReadResponse_Success : bool
}.

Record GetUnreadCountRequest : Type := mkGetUnreadCountRequest {
  GetUnreadCountRequest_UserId : string;
  GetUnreadCountRequest_ConversationId : string
}.

Record GetUnreadCountResponse : Type := mkGetUnreadCountResponse {
  GetUnreadCountResponse_TotalUnreadCount : Z
}.

Record CreateGroupRequest : Type := mkCreateGroupRequest {
  CreateGroupRequest_CreatedBy : string;
  CreateGroupRequest_GroupName : string;
  CreateGroupRequest_GroupPhoto : string;
  CreateGroupRequest_Description : string;
  CreateGroupRequest_MemberIds : list string
}.

Record CreateGroupResponse : Type := mkCreateGroupResponse {
  CreateGroupResponse_Conversation : ConversationDetail
}.

Record AddGroupMemberRequest : Type := mkAddGroupMemberRequest {
  AddGroupMemberRequest_ConversationId : string;
  AddGroupMemberRequest_UserId : string;
  AddGroupMemberRequest_OperatorId : string;
  AddGroupMemberRequest_Role : string
}.

Record AddGroupMemberResponse : Type := mkAddGroupMemberResponse {
  AddGroupMemberResponse_Success : bool
}.

Record RemoveGroupMemberRequest : Type := mkRemoveGroupMemberRequest {
  RemoveGroupMemberRequest_ConversationId : string;
  RemoveGroupMemberRequest_UserId : string;
  RemoveGroupMemberRequest_OperatorId : string
}.

Record RemoveGroupMemberResponse : Type := mkRemoveGroupMemberResponse {
  RemoveGroupMemberResponse_Success : bool
}.

Record LeaveGroupRequest : Type := mkLeaveGroupRequest {
  LeaveGroupRequest_ConversationId : string;
  LeaveGroupRequest_UserId : string
}.

Record LeaveGroupResponse : Type := mkLeaveGroupResponse {
  LeaveGroupResponse_Success : bool
}.

Record PromoteAdminRequest : Type := mkPromoteAdminRequest {
  PromoteAdminRequest_ConversationId : string;
  PromoteAdminRequest_UserId : string;
  PromoteAdminRequest_OperatorId : string
}.

Record PromoteAdminResponse : Type := mkPromoteAdminResponse {
  PromoteAdminResponse_Success : bool
}.

Record TransferOwnershipRequest : Type := mkTransferOwnershipRequest {
  TransferOwnershipRequest_ConversationId : string;
  TransferOwnershipRequest_CurrentOwnerId : string;
  TransferOwnershipRequest_NewOwnerId : string
}.

Record TransferOwnershipResponse : Type := mkTransferOwnershipResponse {
  TransferOwnershipResponse_Success : bool
}.

Record DeleteGroupRequest : Type := mkDeleteGroupRequest {
  DeleteGroupRequest_ConversationId : string;
  DeleteGroupRequest_OwnerId : string
}.

Record DeleteGroupResponse : Type := mkDeleteGroupResponse {
  DeleteGroupResponse_Success : bool
}.

#[global] Instance ServerMessage_eq_dec : EqDecision ServerMessage.
Proof. solve_decision. Defined.
#[global] Instance PresenceInfo_eq_dec : EqDecision PresenceInfo.
Proof. solve_decision. Defined.
#[global] Instance UserRoom_eq_dec : EqDecision UserRoom.
Proof. solve_decision. Defined.

(** ** Composite literals

    A Go literal [&pb.ServerMessage{F: x, ...}] starts from the zero value and
    sets the fields it names, in the model [ServerMessage_zero <| F := x |> ...]. *)

Definition ClientMessage_zero : ClientMessage :=
  mkClientMessage "" "" "" "" 0%Z 0%Z "" "" 0%Z "" 0%Z "" "".
#[global] Instance ClientMessage_eta : Eta ClientMessage := λ r,
  mkClientMessage
    (r.(ClientMessage_RoomId)) (r.(ClientMessage_UserId)) (r.(ClientMessage_MessageId))
    (r.(ClientMessage_Text)) (r.(ClientMessage_SentAtUnixMs)) (r.(ClientMessage_Type))
    (r.(ClientMessage_MediaKey)) (r.(ClientMessage_MediaName))
    (r.(ClientMessage_MediaSizeBytes)) (r.(ClientMessage_MediaMimeType))
    (r.(ClientMessage_EventType)) (r.(ClientMessage_ReplyToMessageId))
    (r.(ClientMessage_ReactionEmoji)).
Definition ServerMessage_zero : ServerMessage :=
  mkServerMessage "" "" "" "" 0%Z 0%Z 0%Z "" "" 0%Z "" "" 0%Z "" "" false 0%Z 0%Z false 0%Z.
#[global] Instance ServerMessage_eta : Eta ServerMessage := λ r,
  mkServerMessage
    (r.(ServerMessage_RoomId)) (r.(ServerMessage_UserId)) (r.(ServerMessage_MessageId))
    (r.(ServerMessage_Text)) (r.(ServerMessage_SentAtUnixMs))
    (r.(ServerMessage_DeliveredAtUnixMs)) (r.(ServerMessage_Type))
    (r.(ServerMessage_MediaKey)) (r.(ServerMessage_MediaName))
    (r.(ServerMessage_MediaSizeBytes)) (r.(ServerMessage_MediaMimeType))
    (r.(ServerMessage_MediaUrl)) (r.(ServerMessage_EventType))
    (r.(ServerMessage_ReplyToMessageId)) (r.(ServerMessage_ReactionEmoji))
    (r.(ServerMessage_IsDeleted)) (r.(ServerMessage_EditedAtUnixMs))
    (r.(ServerMessage_Status)) (r.(ServerMessage_IsOnline))
    (r.(ServerMessage_LastSeenUnixMs)).
Definition PresenceInfo_zero : PresenceInfo :=
  mkPresenceInfo "" false 0%Z.
#[global] Instance PresenceInfo_eta : Eta PresenceInfo := λ r,
  mkPresenceInfo
    (r.(PresenceInfo_UserId)) (r.(PresenceInfo_IsOnline))
    (r.(PresenceInfo_LastSeenUnixMs)).
Definition UserRoom_zero : UserRoom :=
  mkUserRoom "" 0%Z "" "" 0%Z false [].
#[global] Instance UserRoom_eta : Eta UserRoom := λ r,
  mkUserRoom
    (r.(UserRoom_RoomId)) (r.(UserRoom_RoomType)) (r.(UserRoom_Name))
    (r.(UserRoom_LastMessage)) (r.(UserRoom_LastMessageAt)) (r.(UserRoom_HasUnread))
    (r.(UserRoom_MemberIds)).
Definition ConversationDetail_zero : ConversationDetail :=
  mkConversationDetail "" 0%Z [] "" "" "" 0%Z "" "" 0%Z "" 0%Z.
#[global] Instance ConversationDetail_eta : Eta ConversationDetail := λ r,
  mkConversationDetail
    (r.(ConversationDetail_ConversationId)) (r.(ConversationDetail_Type))
    (r.(ConversationDetail_Participants)) (r.(ConversationDetail_GroupName))
    (r.(ConversationDetail_GroupPhoto)) (r.(ConversationDetail_Description))
    (r.(ConversationDetail_MemberCount)) (r.(ConversationDetail_LastMessage))
    (r.(ConversationDetail_LastMessageId)) (r.(ConversationDetail_LastMessageAt))
    (r.(ConversationDetail_CreatedBy)) (r.(ConversationDetail_CreatedAt)).
