(* ===== verification/Json.v ===== *)
(** * JSON

    What the program uses of [encoding/json]: [Marshal] of a message, with its
    [omitempty] tags and the escaping of strings, and [Unmarshal] of any text
    into a message, with the checks of the syntax, the matching of keys up to
    case, and the errors of values that do not fit their field. *)

From S2P Require Import Prelude GoString Strconv Pb.
From Stdlib Require Import Ascii.

(** [json.Marshal] and [json.Unmarshal] at a type; [canon] is what survives. *)
Class JsonCodec (A : Type) := {
  Marshal : A → string;
  Unmarshal : string → option A
}.

Class JsonLaws (A : Type) `{JsonCodec A} := {
  json_ok : A → Prop;
  canon : A → A;
  Unmarshal_Marshal m : json_ok m → Unmarshal (Marshal m) = Some (canon m)
}.

(** ** UTF-8 in pieces *)

(** A text cut into its encoded characters and its stray bytes. *)
Inductive chunk : Type :=
  | Rune (l : list byte)
  | Stray (b : byte).

(** What [utf8.DecodeRune] accepts as the 2, 3 or 4 bytes of a character. *)
Definition rune2 (c d : byte) : bool := in_range 194 223 c && cont d.
Definition rune3 (c d e : byte) : bool :=
  in_range 224 239 c
  && (if (code c =? 224)%N then in_range 160 191 d
      else if (code c =? 237)%N then in_range 128 159 d else cont d)
  && cont e.
Definition rune4 (c d e f : byte) : bool :=
  in_range 240 244 c
  && (if (code c =? 240)%N then in_range 144 191 d
      else if (code c =? 244)%N then in_range 128 143 d else cont d)
  && cont e && cont f.

Fixpoint chunks (l : list byte) : list chunk :=
  match l with
  | [] => []
  | c :: r =>
      if (code c <? 128)%N then Rune [c] :: chunks r
      else match r with
      | d :: r2 =>
          if rune2 c d then Rune [c; d] :: chunks r2
          else match r2 with
          | e :: r3 =>
              if rune3 c d e then Rune [c; d; e] :: chunks r3
              else match r3 with
              | f :: r4 =>
                  if rune4 c d e f then Rune [c; d; e; f] :: chunks r4 else Stray c :: chunks r
              | [] => Stray c :: chunks r
              end
          | [] => Stray c :: chunks r
          end
      | [] => Stray c :: chunks r
      end
  end.

(** The bytes of U+FFFD. *)
Definition replacement : list byte := ["239"; "191"; "189"]%char.

Definition chunk_bytes (k : chunk) : list byte :=
  match k with Rune l => l | Stray _ => replacement end.
Definition sanitize (l : list byte) : list byte := chunks l ≫= chunk_bytes.

(** ** Encoding *)

Definition hex_digit (n : N) : byte :=
  ascii_of_N (if (n <? 10)%N then 48 + n else 87 + n)%N.

(** The escapes of [appendString] with HTML escaping on. *)
Definition escape_byte (c : byte) : list byte :=
  let n := code c in
  if (n =? 34)%N then bytes "\" ++ [c]
  else if (n =? 92)%N then bytes "\\"
  else if (n =? 8)%N then bytes "\b"
  else if (n =? 12)%N then bytes "\f"
  else if (n =? 10)%N then bytes "\n"
  else if (n =? 13)%N then bytes "\r"
  else if (n =? 9)%N then bytes "\t"
  else if (n <? 32)%N || (n =? 60)%N || (n =? 62)%N || (n =? 38)%N
  then bytes "\u00" ++ [hex_digit (n / 16); hex_digit (n mod 16)]
  else [c].

Definition escape_chunk (k : chunk) : list byte :=
  match k with
  | Stray _ => bytes "\ufffd"
  | Rune [c] => escape_byte c
  | Rune l =>
      if bool_decide (l = ["226"; "128"; "168"]%char) then bytes "\u2028"
      else if bool_decide (l = ["226"; "128"; "169"]%char) then bytes "\u2029"
      else l
  end.
Definition escape (l : list byte) : list byte := chunks l ≫= escape_chunk.

Definition quote : byte := ascii_of_N 34.
Definition enc_string (l : list byte) : list byte := quote :: escape l ++ [quote].

(** A field's value, by its Go type: string, int64, int32 (the enums), bool. *)
Inductive field : Type :=
  | FStr (s : string)
  | FInt64 (z : Z)
  | FInt32 (z : Z)
  | FBool (b : bool).

(** [omitempty] drops the zero value. *)
Definition is_empty (v : field) : bool :=
  match v with
  | FStr s => String.eqb s ""
  | FInt64 z | FInt32 z => (z =? 0)%Z
  | FBool b => negb b
  end.

Definition enc_value (v : field) : list byte :=
  match v with
  | FStr s => enc_string (bytes s)
  | FInt64 z | FInt32 z => bytes (itoa z)
  | FBool b => bytes (if b then "true" else "false")
  end.
Definition enc_member (kv : string * field) : list byte :=
  enc_string (bytes kv.1) ++ ":"%char :: enc_value kv.2.
Fixpoint enc_members (l : list (string * field)) : list byte :=
  match l with
  | [] => []
  | [kv] => enc_member kv
  | kv :: l => enc_member kv ++ ","%char :: enc_members l
  end.
Definition enc_object (l : list (string * field)) : list byte :=
  "{"%char :: enc_members (filter (λ kv, is_empty kv.2 = false) l) ++ ["}"%char].

(** ** Parsing *)

(** A parsed text. A number keeps its sign, its digits, and whether it has a
    fraction or an exponent. *)
Inductive json : Type :=
  | JNull
  | JBool (b : bool)
  | JNum (neg : bool) (digits : list byte) (integral : bool)
  | JStr (l : list byte)
  | JArr (l : list json)
  | JObj (l : list (list byte * json)).

Definition is_ws (c : byte) : bool :=
  let n := code c in ((n =? 32) || (n =? 9) || (n =? 10) || (n =? 13))%N.
Fixpoint skip_ws (l : list byte) : list byte :=
  match l with c :: r => if is_ws c then skip_ws r else l | [] => [] end.

Fixpoint span (p : byte → bool) (l : list byte) : list byte * list byte :=
  match l with
  | c :: r => if p c then let '(a, b) := span p r in (c :: a, b) else ([], l)
  | [] => ([], [])
  end.

Definition hex_val (c : byte) : option N :=
  if in_range 48 57 c then Some (code c - 48)%N
  else if in_range 97 102 c then Some (code c - 87)%N
  else if in_range 65 70 c then Some (code c - 55)%N
  else None.
Definition hex4 (a b c d : byte) : option N :=
  w ← hex_val a; x ← hex_val b; y ← hex_val c; z ← hex_val d;
  Some (((w * 16 + x) * 16 + y) * 16 + z)%N.

(** [utf8.AppendRune] *)
Definition enc_rune (n : N) : list byte :=
  if (n <? 128)%N then [ascii_of_N n]
  else if (n <? 2048)%N then [ascii_of_N (192 + n / 64); ascii_of_N (128 + n mod 64)]
  else if (55296 <=? n)%N && (n <=? 57343)%N then replacement
  else if (n <? 65536)%N
  then [ascii_of_N (224 + n / 4096); ascii_of_N (128 + n / 64 mod 64); ascii_of_N (128 + n mod 64)]
  else [ascii_of_N (240 + n / 262144); ascii_of_N (128 + n / 4096 mod 64);
        ascii_of_N (128 + n / 64 mod 64); ascii_of_N (128 + n mod 64)].

Definition is_high (n : N) : bool := (55296 <=? n)%N && (n <? 56320)%N.
Definition is_low (n : N) : bool := (56320 <=? n)%N && (n <? 57344)%N.

Definition simple_escape (c : byte) : option byte :=
  let n := code c in
  if (n =? 34)%N || (n =? 92)%N || (n =? 47)%N then Some c
  else if (n =? 98)%N then Some (ascii_of_N 8)
  else if (n =? 102)%N then Some (ascii_of_N 12)
  else if (n =? 110)%N then Some (ascii_of_N 10)
  else if (n =? 114)%N then Some (ascii_of_N 13)
  else if (n =? 116)%N then Some (ascii_of_N 9)
  else None.

(** A string body up to its closing quote, with the escapes replaced and raw
    bytes kept; [prefix] puts bytes in front of the result. *)
Definition prefix (l : list byte) (r : option (list byte * list byte)) : option (list byte * list byte) :=
  '(s, rest) ← r; Some (l ++ s, rest).

Fixpoint unescape (l : list byte) : option (list byte * list byte) :=
  match l with
  | [] => None
  | c :: r =>
      if (code c =? 34)%N then Some ([], r)
      else if (code c <? 32)%N then None
      else if (code c =? 92)%N then
        match r with
        | e :: r1 =>
            if (code e =? 117)%N then
              match r1 with
              | h1 :: h2 :: h3 :: h4 :: r5 =>
                  match hex4 h1 h2 h3 h4 with
                  | None => None
                  | Some n =>
                      match r5 with
                      | b :: u :: g1 :: g2 :: g3 :: g4 :: r6 =>
                          match hex4 g1 g2 g3 g4 with
                          | Some m =>
                              if (code b =? 92)%N && (code u =? 117)%N && is_high n && is_low m
                              then prefix (enc_rune (65536 + (n - 55296) * 1024 + (m - 56320))) (unescape r6)
                              else prefix (enc_rune n) (unescape r5)
                          | None => prefix (enc_rune n) (unescape r5)
                          end
                      | _ => prefix (enc_rune n) (unescape r5)
                      end
                  end
              | _ => None
              end
            else match simple_escape e with
                 | Some b => prefix [b] (unescape r1)
                 | None => None
                 end
        | [] => None
        end
      else prefix [c] (unescape r)
  end.

(** A string after its opening quote. *)
Definition parse_string (l : list byte) : option (list byte * list byte) :=
  '(s, rest) ← unescape l; Some (sanitize s, rest).

(** The digits after a point, and those of an exponent: at least one. *)
Definition parse_frac (l : list byte) : option (bool * list byte) :=
  match l with
  | c :: r => if (code c =? 46)%N
              then match span is_digit r with ([], _) => None | (_, r) => Some (true, r) end
              else Some (false, l)
  | [] => Some (false, l)
  end.
Definition parse_exp (l : list byte) : option (bool * list byte) :=
  match l with
  | c :: r =>
      if (code c =? 101)%N || (code c =? 69)%N then
        let r := match r with s :: r' => if (code s =? 43)%N || (code s =? 45)%N then r' else r | [] => r end in
        match span is_digit r with ([], _) => None | (_, r) => Some (true, r) end
      else Some (false, l)
  | [] => Some (false, l)
  end.
(** A single zero, or digits that do not begin with one. *)
Definition parse_digits (l : list byte) : option (list byte * list byte) :=
  match l with
  | c :: r => if (code c =? 48)%N then Some ([c], r)
              else match span is_digit l with ([], _) => None | d => Some d end
  | [] => None
  end.
Definition parse_number (l : list byte) : option (json * list byte) :=
  let '(neg, l) := match l with c :: r => if (code c =? 45)%N then (true, r) else (false, l) | [] => (false, l) end in
  '(ds, l) ← parse_digits l;
  '(f, l) ← parse_frac l; '(e, l) ← parse_exp l;
  Some (JNum neg ds (negb f && negb e), l).

Definition literal (w : string) (v : json) (l : list byte) : option (json * list byte) :=
  if bool_decide (take (slen w) l = bytes w) then Some (v, drop (slen w) l) else None.

(** Values nest at most 10000 deep ([maxNestingDepth]); [fuel] bounds the number
    of values and members, at most the length of the text. *)
Fixpoint parse_value (fuel depth : nat) (l : list byte) : option (json * list byte) :=
  match fuel with
  | 0 => None
  | S fuel =>
      match skip_ws l with
      | [] => None
      | c :: r =>
          if (code c =? 34)%N then '(s, r) ← parse_string r; Some (JStr s, r)
          else if (code c =? 123)%N then
            match depth with
            | 0 => None
            | S depth =>
                match skip_ws r with
                | d :: r' => if (code d =? 125)%N then Some (JObj [], r')
                             else '(ms, r) ← parse_members fuel depth r; Some (JObj ms, r)
                | [] => None
                end
            end
          else if (code c =? 91)%N then
            match depth with
            | 0 => None
            | S depth =>
                match skip_ws r with
                | d :: r' => if (code d =? 93)%N then Some (JArr [], r')
                             else '(vs, r) ← parse_elems fuel depth r; Some (JArr vs, r)
                | [] => None
                end
            end
          else if (code c =? 116)%N then literal "true" (JBool true) (c :: r)
          else if (code c =? 102)%N then literal "false" (JBool false) (c :: r)
          else if (code c =? 110)%N then literal "null" JNull (c :: r)
          else parse_number (c :: r)
      end
  end
with parse_members (fuel depth : nat) (l : list byte) : option (list (list byte * json) * list byte) :=
  match fuel with
  | 0 => None
  | S fuel =>
      match skip_ws l with
      | c :: r =>
          if (code c =? 34)%N then
            '(k, r) ← parse_string r;
            match skip_ws r with
            | c :: r =>
                if (code c =? 58)%N then
                  '(v, r) ← parse_value fuel depth r;
                  match skip_ws r with
                  | c :: r => if (code c =? 44)%N
                              then '(ms, r) ← parse_members fuel depth r; Some ((k, v) :: ms, r)
                              else if (code c =? 125)%N then Some ([(k, v)], r) else None
                  | [] => None
                  end
                else None
            | [] => None
            end
          else None
      | [] => None
      end
  end
with parse_elems (fuel depth : nat) (l : list byte) : option (list json * list byte) :=
  match fuel with
  | 0 => None
  | S fuel =>
      '(v, r) ← parse_value fuel depth l;
      match skip_ws r with
      | c :: r => if (code c =? 44)%N
                  then '(vs, r) ← parse_elems fuel depth r; Some (v :: vs, r)
                  else if (code c =? 93)%N then Some ([v], r) else None
      | [] => None
      end
  end.

Definition maxNestingDepth : nat := N.to_nat 10000.

(** [checkValid] and the scan: one value, with nothing but white space after it. *)
Definition parse (l : list byte) : option json :=
  '(v, r) ← parse_value (2 * length l + 2) maxNestingDepth l;
  match skip_ws r with [] => Some v | _ => None end.

(** ** Decoding *)

(** [strconv.ParseInt(_, 10, bits)] of a literal without fraction or exponent. *)
Definition parse_int (bits : Z) (neg : bool) (ds : list byte) : option Z :=
  let z := if neg then (- digits_val ds)%Z else digits_val ds in
  if (- 2 ^ (bits - 1) <=? z)%Z && (z <? 2 ^ (bits - 1))%Z then Some z else None.

(** A value stored in a field: [null] leaves it, and a value of another kind or
    a number out of range is an error. *)
Definition store (old : field) (v : json) : option field :=
  match v, old with
  | JNull, _ => Some old
  | JStr l, FStr _ => Some (FStr (str l))
  | JBool b, FBool _ => Some (FBool b)
  | JNum neg ds true, FInt64 _ => FInt64 <$> parse_int 64 neg ds
  | JNum neg ds true, FInt32 _ => FInt32 <$> parse_int 32 neg ds
  | _, _ => None
  end.

(** [foldName]: ASCII letters to upper case, U+017F to S and U+212A to K. *)
Definition upper1 (c : byte) : byte := if in_range 97 122 c then ascii_of_N (code c - 32) else c.
Fixpoint fold_name (l : list byte) : list byte :=
  match l with
  | c :: (d :: r') as r =>
      if ((code c =? 197) && (code d =? 191))%N then "S"%char :: fold_name r'
      else match r' with
           | e :: r'' => if ((code c =? 226) && (code d =? 132) && (code e =? 170))%N
                         then "K"%char :: fold_name r'' else upper1 c :: fold_name r
           | [] => upper1 c :: fold_name r
           end
  | [c] => [upper1 c]
  | [] => []
  end.

(** The field a key names: the one of that very name, else the first equal up to
    case. *)
Definition find_field (k : list byte) (fs : list (string * field)) : option nat :=
  match list_find (λ f, bytes f.1 = k) fs with
  | Some (i, _) => Some i
  | None => fst <$> list_find (λ f, fold_name (bytes f.1) = fold_name k) fs
  end.

(** The members in order, each stored in its field; unknown keys are skipped.
    An ill-fitting value makes the whole call return an error. *)
Fixpoint assign (ms : list (list byte * json)) (fs : list (string * field)) : option (list (string * field)) :=
  match ms with
  | [] => Some fs
  | (k, v) :: ms =>
      match find_field k fs with
      | None => assign ms fs
      | Some i =>
          '(name, old) ← fs !! i; new ← store old v; assign ms (<[i := (name, new)]> fs)
      end
  end.

Definition dec_object (zero : list (string * field)) (s : string) : option (list (string * field)) :=
  match parse (bytes s) with
  | Some (JObj ms) => assign ms zero
  | Some JNull => Some zero
  | _ => None
  end.

(** ** Messages *)

(** The fields of a [pb.ServerMessage] with the names of their tags. *)
Definition message_fields (m : ServerMessage) : list (string * field) :=
  [("room_id", FStr (ServerMessage_RoomId m));
   ("user_id", FStr (ServerMessage_UserId m));
   ("message_id", FStr (ServerMessage_MessageId m));
   ("text", FStr (ServerMessage_Text m));
   ("sent_at_unix_ms", FInt64 (ServerMessage_SentAtUnixMs m));
   ("delivered_at_unix_ms", FInt64 (ServerMessage_DeliveredAtUnixMs m));
   ("type", FInt32 (ServerMessage_Type m));
   ("media_key", FStr (ServerMessage_MediaKey m));
   ("media_name", FStr (ServerMessage_MediaName m));
   ("media_size_bytes", FInt64 (ServerMessage_MediaSizeBytes m));
   ("media_mime_type", FStr (ServerMessage_MediaMimeType m));
   ("media_url", FStr (ServerMessage_MediaUrl m));
   ("event_type", FInt32 (ServerMessage_EventType m));
   ("reply_to_message_id", FStr (ServerMessage_ReplyToMessageId m));
   ("reaction_emoji", FStr (ServerMessage_ReactionEmoji m));
   ("is_deleted", FBool (ServerMessage_IsDeleted m));
   ("edited_at_unix_ms", FInt64 (ServerMessage_EditedAtUnixMs m));
   ("status", FInt32 (ServerMessage_Status m));
   ("is_online", FBool (ServerMessage_IsOnline m));
   ("last_seen_unix_ms", FInt64 (ServerMessage_LastSeenUnixMs m))].

Definition of_fields (fs : list (string * field)) : option ServerMessage :=
  match snd <$> fs with
  | [FStr a1; FStr a2; FStr a3; FStr a4; FInt64 a5; FInt64 a6; FInt32 a7; FStr a8; FStr a9;
     FInt64 a10; FStr a11; FStr a12; FInt32 a13; FStr a14; FStr a15; FBool a16; FInt64 a17;
     FInt32 a18; FBool a19; FInt64 a20] =>
      Some (mkServerMessage a1 a2 a3 a4 a5 a6 a7 a8 a9 a10 a11 a12 a13 a14 a15 a16 a17 a18 a19 a20)
  | _ => None
  end.

#[global] Instance message_codec : JsonCodec ServerMessage :=
  {| Marshal m := str (enc_object (message_fields m));
     Unmarshal s := dec_object (message_fields ServerMessage_zero) s ≫= of_fields |}.

Example marshal_ex :
  Unmarshal (Marshal (ServerMessage_zero <| ServerMessage_Text := "h<i" |>
    <| ServerMessage_SentAtUnixMs := (-1502)%Z |> <| ServerMessage_IsOnline := true |>)) =
  Some (ServerMessage_zero <| ServerMessage_Text := "h<i" |>
    <| ServerMessage_SentAtUnixMs := (-1502)%Z |> <| ServerMessage_IsOnline := true |>).
Proof. vm_compute. reflexivity. Qed.

(** ** Strings survive encoding *)

Definition chunk_ok (k : chunk) : Prop :=
  match k with
  | Rune [c] => (code c <? 128)%N = true
  | Rune [c; d] => rune2 c d = true
  | Rune [c; d; e] => rune3 c d e = true
  | Rune [c; d; e; f] => rune4 c d e f = true
  | Rune _ => False
  | Stray _ => True
  end.

Lemma chunks_ok l : Forall chunk_ok (chunks l).
Proof.
  induction l as [l IH] using (induction_ltof1 _ length); unfold ltof in IH.
  destruct l as [|c r]; simpl; [done|]. destruct (code c <? 128)%N eqn:H1.
  { constructor; [done|]. apply IH. simpl. lia. }
  assert (Hs : Forall chunk_ok (Stray c :: chunks r)) by (constructor; [done|]; apply IH; simpl; lia).
  destruct r as [|d r2]; [done|]. destruct (rune2 c d) eqn:H2.
  { constructor; [done|]. apply IH. simpl. lia. }
  destruct r2 as [|e r3]; [done|]. destruct (rune3 c d e) eqn:H3.
  { constructor; [done|]. apply IH. simpl. lia. }
  destruct r3 as [|f r4]; [done|]. destruct (rune4 c d e f) eqn:H4; [|done].
  constructor; [done|]. apply IH. simpl. lia.
Qed.

Ltac byte_range := unfold rune2, rune3, rune4 in *; range_facts.

Lemma chunk_high k l :
  k = Rune l → chunk_ok k → match l with [_] => True | _ => Forall (λ c, (128 ≤ code c)%N) l end.
Proof.
  intros -> Hk. destruct l as [|c [|d [|e [|f [|]]]]]; simpl in Hk; try done;
    byte_range; repeat constructor; lia.
Qed.

Lemma prefix_prefix a b r : prefix a (prefix b r) = prefix (a ++ b) r.
Proof. destruct r as [[s t]|]; simpl; [|done]. by rewrite app_assoc. Qed.

Lemma unescape_raw l t : Forall (λ c, (128 ≤ code c)%N) l → unescape (l ++ t) = prefix l (unescape t).
Proof.
  induction 1 as [|c l Hc _ IH]; simpl; [by destruct (unescape t) as [[]|]|].
  rewrite (proj2 (N.eqb_neq (code c) 34)), (proj2 (N.ltb_ge (code c) 32)),
    (proj2 (N.eqb_neq (code c) 92)) by lia.
  by rewrite IH, prefix_prefix.
Qed.

Lemma unescape_u h1 h2 h3 h4 n t :
  hex4 h1 h2 h3 h4 = Some n → is_high n = false →
  unescape ("\"%char :: "u"%char :: h1 :: h2 :: h3 :: h4 :: t) = prefix (enc_rune n) (unescape t).
Proof.
  intros Hn Hh. cbn -[hex4 enc_rune is_high unescape]. cbn -[hex4 enc_rune is_high]. rewrite Hn.
  destruct t as [|b [|u [|g1 [|g2 [|g3 [|g4 r6]]]]]]; try done.
  destruct (hex4 g1 g2 g3 g4); [|done]. by rewrite Hh, !andb_false_r.
Qed.

Lemma unescape_byte c t :
  (code c <? 128)%N = true → unescape (escape_byte c ++ t) = prefix [c] (unescape t).
Proof.
  destruct c as [[] [] [] [] [] [] [] []]; intros H; try discriminate H;
    first [reflexivity | etransitivity; [eapply unescape_u; reflexivity|reflexivity]].
Qed.

Lemma unescape_chunk k t :
  chunk_ok k → unescape (escape_chunk k ++ t) = prefix (chunk_bytes k) (unescape t).
Proof.
  intros Hk. destruct k as [l|b].
  2: { etransitivity; [eapply unescape_u; reflexivity|reflexivity]. }
  pose proof (chunk_high _ l eq_refl Hk) as Hl. destruct l as [|c l]; [done|].
  destruct l as [|d l]; [by apply unescape_byte|]. unfold escape_chunk. simpl chunk_bytes.
  case_bool_decide as H1.
  { rewrite H1. etransitivity; [eapply unescape_u; reflexivity|reflexivity]. }
  case_bool_decide as H2.
  { rewrite H2. etransitivity; [eapply unescape_u; reflexivity|reflexivity]. }
  by apply unescape_raw.
Qed.

Lemma unescape_escape l t : unescape (escape l ++ quote :: t) = Some (sanitize l, t).
Proof.
  unfold escape, sanitize. induction (chunks_ok l) as [|k ks Hk _ IH]; [done|].
  rewrite !bind_cons, <- app_assoc, unescape_chunk, IH by done. done.
Qed.

Lemma chunks_chunk k t : chunk_ok k → chunks (chunk_bytes k ++ t) = Rune (chunk_bytes k) :: chunks t.
Proof.
  intros Hk. destruct k as [l|b]; [|done].
  destruct l as [|c [|d [|e [|f [|]]]]]; simpl in Hk |- *; try done.
  - by rewrite Hk.
  - destruct (code c <? 128)%N eqn:H; [|by rewrite Hk]. byte_range. apply N.ltb_lt in H. lia.
  - destruct (code c <? 128)%N eqn:H; [byte_range; apply N.ltb_lt in H; lia|].
    destruct (rune2 c d) eqn:H2; [byte_range; lia|]. by rewrite Hk.
  - destruct (code c <? 128)%N eqn:H; [byte_range; apply N.ltb_lt in H; lia|].
    destruct (rune2 c d) eqn:H2; [byte_range; lia|].
    destruct (rune3 c d e) eqn:H3; [byte_range; lia|]. by rewrite Hk.
Qed.

Lemma chunks_sanitize l : chunks (sanitize l) = (λ k, Rune (chunk_bytes k)) <$> chunks l.
Proof.
  unfold sanitize. induction (chunks_ok l) as [|k ks Hk _ IH]; [done|].
  by rewrite bind_cons, chunks_chunk, IH.
Qed.

Lemma sanitize_idem l : sanitize (sanitize l) = sanitize l.
Proof.
  unfold sanitize at 1. rewrite chunks_sanitize. unfold sanitize.
  induction (chunks l) as [|k ks IH]; [done|].
  rewrite fmap_cons, !bind_cons, IH. done.
Qed.

Lemma parse_string_escape l t : parse_string (escape l ++ quote :: t) = Some (sanitize l, t).
Proof. unfold parse_string. rewrite unescape_escape. simpl. by rewrite sanitize_idem. Qed.

(** ** Numbers survive encoding *)

(** What may follow a number in an object. *)
Definition ends_value (t : list byte) : Prop :=
  match t with c :: _ => c = ","%char ∨ c = "}"%char | [] => False end.

Lemma span_all p ds t : Forall (λ c, p c = true) ds → (∀ c r, t = c :: r → p c = false) → span p (ds ++ t) = (ds, t).
Proof.
  intros Hd Ht. induction Hd as [|c ds Hc _ IH]; simpl.
  - destruct t as [|c r]; [done|]. simpl. by rewrite (Ht c r).
  - by rewrite Hc, IH.
Qed.

Lemma parse_number_digits (neg : bool) ds t :
  ends_value t → Forall (λ c, is_digit c = true) ds →
  (ds = ["0"%char] ∨ ∃ c r, ds = c :: r ∧ (code c ≠ 48)%N) →
  parse_number ((if neg then ["-"%char] else []) ++ ds ++ t) = Some (JNum neg ds true, t).
Proof.
  intros Ht Hd Hds.
  assert (Hfe : parse_frac t = Some (false, t) ∧ parse_exp t = Some (false, t)).
  { destruct t as [|c r]; [done|]. by destruct Ht as [->| ->]. }
  destruct Hfe as [Hf He].
  assert (Hsp : span is_digit (ds ++ t) = (ds, t)).
  { apply span_all; [done|]. intros c r ->. by destruct Ht as [->| ->]. }
  assert (Hi : parse_digits (ds ++ t) = Some (ds, t)).
  { unfold parse_digits. rewrite Hsp. destruct Hds as [->|(c & r & -> & Hc)]; [done|]. simpl.
    by rewrite (proj2 (N.eqb_neq _ _) Hc). }
  assert (Hneg : ∀ c r, ds ++ t = c :: r → (code c =? 45)%N = false).
  { intros c r Heq. destruct ds as [|d ds]; [by destruct Hds as [|(? & ? & ? & _)]|].
    injection Heq as -> _. apply Forall_cons in Hd as [Hd _]. unfold is_digit in Hd. byte_range.
    apply N.eqb_neq. lia. }
  unfold parse_number. destruct neg; simpl.
  - rewrite Hi. simpl. by rewrite Hf; simpl; rewrite He.
  - destruct (ds ++ t) as [|c r]; [done|]. rewrite (Hneg c r), Hi by done. simpl.
    by rewrite Hf; simpl; rewrite He.
Qed.

Lemma parse_number_itoa z t :
  ends_value t → ∃ ds, parse_number (bytes (itoa z) ++ t) = Some (JNum (z <? 0)%Z ds true, t)
    ∧ (if (z <? 0)%Z then - digits_val ds else digits_val ds)%Z = z.
Proof.
  intros Ht. unfold itoa. destruct z as [|p|p].
  - exists ["0"%char]. split; [|done].
    apply (parse_number_digits false ["0"%char]); [done|by repeat constructor|by left].
  - destruct (pretty_digits (Npos p)) as (ds & Hb & Hd & Hv & Hh). exists ds.
    change (bytes (pretty (Z.pos p))) with (bytes (pretty (Npos p))). rewrite Hb. split; [|done].
    by apply (parse_number_digits false ds).
  - destruct (pretty_digits (Npos p)) as (ds & Hb & Hd & Hv & Hh). exists ds.
    change (bytes (pretty (Z.neg p))) with ("-"%char :: bytes (pretty (Npos p))). rewrite Hb.
    split; [|simpl; rewrite Hv; done]. by apply (parse_number_digits true ds).
Qed.

(** ** Objects survive encoding *)

(** What a field's text parses to. *)
Definition parses_as (v : field) (j : json) : Prop :=
  match v with
  | FStr s => j = JStr (sanitize (bytes s))
  | FInt64 z | FInt32 z =>
      ∃ ds, j = JNum (z <? 0)%Z ds true ∧ (if (z <? 0)%Z then - digits_val ds else digits_val ds)%Z = z
  | FBool b => j = JBool b
  end.

(** A value that begins with a digit or a sign is a number. *)
Lemma parse_value_number f d c r :
  is_digit c = true ∨ c = "-"%char → parse_value (S f) d (c :: r) = parse_number (c :: r).
Proof.
  intros Hc. assert (Hr : (code c = 45 ∨ 48 ≤ code c ≤ 57)%N).
  { destruct Hc as [Hc| ->]; [|by left]. unfold is_digit in Hc. byte_range. lia. }
  assert (Hne : ∀ n, (n ≠ 45)%N → (n < 48 ∨ 57 < n)%N → (code c =? n)%N = false).
  { intros n ? ?. apply N.eqb_neq. lia. }
  cbn [parse_value]. unfold skip_ws, is_ws. rewrite !Hne by lia. simpl. by rewrite !Hne by lia.
Qed.

Lemma parse_value_enc v f d t :
  ends_value t → ∃ j, parse_value (S f) d (enc_value v ++ t) = Some (j, t) ∧ parses_as v j.
Proof.
  intros Ht.
  assert (Hint : ∀ z, ∃ j, parse_value (S f) d (bytes (itoa z) ++ t) = Some (j, t) ∧ parses_as (FInt64 z) j).
  { intros z. destruct (parse_number_itoa z t Ht) as (ds & Hp & Hv).
    destruct (itoa_head z) as (c & r & Hcr & Hc). rewrite Hcr in *. simpl app in *.
    rewrite parse_value_number by done. eexists. split; [done|]. by exists ds. }
  destruct v as [s|z|z|b]; [|apply Hint|apply Hint|destruct b; by eexists].
  eexists. split; [|done]. cbn [enc_value]. unfold enc_string. simpl app. rewrite <- app_assoc.
  cbn [parse_value]. simpl skip_ws. cbv iota beta. change (code quote =? 34)%N with true. cbv iota.
  change ([quote] ++ t) with (quote :: t). by rewrite parse_string_escape.
Qed.

Lemma enc_member_app kv t :
  enc_member kv ++ t = quote :: escape (bytes kv.1) ++ quote :: ":"%char :: enc_value kv.2 ++ t.
Proof. unfold enc_member, enc_string. simpl. by rewrite <- !app_assoc. Qed.

(** What an encoded member parses to. *)
Definition member_parse (kv : string * field) (m : list byte * json) : Prop :=
  m.1 = sanitize (bytes kv.1) ∧ parses_as kv.2 m.2.

Lemma parse_members_enc l f d t :
  l ≠ [] → length l + 1 ≤ f →
  ∃ ms, parse_members f d (enc_members l ++ "}"%char :: t) = Some (ms, t) ∧ Forall2 member_parse l ms.
Proof.
  intros Hne. revert f. induction l as [|kv l IH]; intros f Hf; [done|].
  destruct f as [|[|f]]; simpl in Hf; [lia..|].
  assert (Hone : ∀ u, ends_value u → ∃ j, parses_as kv.2 j ∧
    parse_members (S (S f)) d (enc_member kv ++ u) =
    match skip_ws u with
    | c :: r => if (code c =? 44)%N
                then '(ms, r) ← parse_members (S f) d r; Some ((sanitize (bytes kv.1), j) :: ms, r)
                else if (code c =? 125)%N then Some ([(sanitize (bytes kv.1), j)], r) else None
    | [] => None
    end).
  { intros u Hu. destruct (parse_value_enc kv.2 f d u Hu) as (j & Hp & Hj). exists j. split; [done|].
    rewrite enc_member_app. cbn [parse_members]. simpl skip_ws. cbv iota beta.
    change (code quote =? 34)%N with true. cbv iota. rewrite parse_string_escape.
    cbn [mbind option_bind].
    match goal with |- context [skip_ws (":"%char :: ?x)] =>
      change (skip_ws (":"%char :: x)) with (":"%char :: x) end. cbv iota beta.
    change (code ":"%char =? 58)%N with true. cbv iota. rewrite Hp. done. }
  destruct l as [|kv' l].
  - destruct (Hone ("}"%char :: t)) as (j & Hj & Hp); [by right|].
    eexists. split; [exact Hp|]. by repeat constructor.
  - destruct (Hone (","%char :: enc_members (kv' :: l) ++ "}"%char :: t)) as (j & Hj & Hp); [by left|].
    destruct (IH ltac:(done) (S f)) as (ms & Hms & Hall); [simpl in *; lia|].
    exists ((sanitize (bytes kv.1), j) :: ms). split; [|by constructor].
    change (enc_members (kv :: kv' :: l)) with (enc_member kv ++ ","%char :: enc_members (kv' :: l)).
    rewrite <- app_assoc. etransitivity; [exact Hp|].
    change (skip_ws (","%char :: enc_members (kv' :: l) ++ "}"%char :: t))
      with (","%char :: enc_members (kv' :: l) ++ "}"%char :: t). cbv iota beta.
    change (code ","%char =? 44)%N with true. cbv iota. by rewrite Hms.
Qed.

Lemma length_enc_members l : length l ≤ length (enc_members l).
Proof.
  assert (Hm : ∀ kv, 1 ≤ length (enc_member kv)).
  { intros kv. unfold enc_member, enc_string. simpl. lia. }
  induction l as [|kv [|kv' l] IH]; simpl in *; [lia|pose proof (Hm kv); lia|].
  rewrite length_app. simpl. pose proof (Hm kv). lia.
Qed.

Lemma parse_enc_object l :
  ∃ ms, parse (enc_object l) = Some (JObj ms)
    ∧ Forall2 member_parse (filter (λ kv, is_empty kv.2 = false) l) ms.
Proof.
  unfold parse, enc_object. set (k := filter _ l). set (enc := enc_members k ++ ["}"%char]).
  pose proof (length_enc_members k) as Hlen.
  assert (Hd : ∃ d, maxNestingDepth = S d) by (exists (N.to_nat 9999); vm_compute; reflexivity).
  destruct Hd as [d ->]. replace (2 * _ + 2) with (S (2 * length enc + 3)) by (simpl; lia).
  cbn [parse_value]. change (skip_ws ("{"%char :: enc)) with ("{"%char :: enc). cbv iota beta.
  change (code "{"%char =? 34)%N with false. change (code "{"%char =? 123)%N with true. cbv iota.
  destruct k as [|kv k'] eqn:Ek.
  - exists []. by split; [|constructor].
  - assert (Hhead : ∃ r, enc = quote :: r).
    { unfold enc. destruct k'; simpl; by eexists. }
    destruct Hhead as [r Hr]. destruct (parse_members_enc k (2 * length enc + 3) d []) as (ms & Hp & Hall).
    { by rewrite Ek. }
    { unfold enc. rewrite length_app, Ek. simpl. simpl in Hlen. lia. }
    exists ms. rewrite Ek in Hp, Hall. split; [|done]. 
    assert (Hs : skip_ws enc = quote :: r) by by rewrite Hr. rewrite Hs. cbv iota beta.
    change (code quote =? 125)%N with false. cbv iota. unfold enc in Hp |- *. rewrite Hp. done.
Qed.

(** ** Decoding an encoded object *)

Definition clean (s : string) : string := str (sanitize (bytes s)).
Definition canon_field (v : field) : field := match v with FStr s => FStr (clean s) | v => v end.
Definition zero_field (v : field) : field :=
  match v with FStr _ => FStr "" | FInt64 _ => FInt64 0 | FInt32 _ => FInt32 0 | FBool _ => FBool false end.
Definition field_ok (v : field) : Prop :=
  match v with FInt64 z => is_i64 z | FInt32 z => is_i32 z | _ => True end.

Lemma canon_zero v : is_empty v = true → canon_field v = zero_field v.
Proof.
  destruct v as [s|z|z|b]; simpl; intros H; bool_facts; by subst.
Qed.

Lemma parse_int_ok bits z ds :
  (- 2 ^ (bits - 1) ≤ z < 2 ^ (bits - 1))%Z →
  (if (z <? 0)%Z then - digits_val ds else digits_val ds)%Z = z →
  parse_int bits (z <? 0)%Z ds = Some z.
Proof.
  intros Hz Hd. unfold parse_int. rewrite Hd. destruct Hz as [H1 H2].
  apply Z.leb_le in H1. apply Z.ltb_lt in H2. by rewrite H1, H2.
Qed.

Lemma store_parsed v j : field_ok v → parses_as v j → store (zero_field v) j = Some (canon_field v).
Proof.
  destruct v as [s|z|z|b]; simpl.
  - by intros _ ->.
  - intros Hz (ds & -> & Hd). simpl. by rewrite parse_int_ok.
  - intros Hz (ds & -> & Hd). simpl. by rewrite parse_int_ok.
  - by intros _ ->.
Qed.

Definition zf (kv : string * field) : string * field := (kv.1, zero_field kv.2).
Definition cf (kv : string * field) : string * field := (kv.1, canon_field kv.2).

Lemma find_field_middle pre kv post :
  NoDup (fst <$> pre ++ kv :: post) →
  find_field (bytes kv.1) ((cf <$> pre) ++ zf kv :: (zf <$> post)) = Some (length pre).
Proof.
  intros Hnd. unfold find_field.
  rewrite (proj2 (list_find_Some _ _ (length pre) (zf kv))); [done|]. split_and!.
  - rewrite list_lookup_middle; [done|]. by rewrite length_fmap.
  - done.
  - intros j y Hj Hlt Heq. apply bytes_inj in Heq.
    rewrite lookup_app_l, list_lookup_fmap in Hj by (by rewrite length_fmap).
    destruct (pre !! j) as [x|] eqn:Ex; [|done]. injection Hj as <-.
    rewrite fmap_app in Hnd. apply NoDup_app in Hnd as (_ & Hnd & _).
    apply (Hnd x.1); [apply list_elem_of_fmap; exists x; split; [done|by eapply list_elem_of_lookup_2]|].
    rewrite fmap_cons. simpl in Heq. rewrite Heq. by left.
Qed.

(** Fields are stored one by one; dropped ones keep their zero value. *)
Lemma assign_parsed pre post ms :
  NoDup (fst <$> pre ++ post) → Forall (λ kv, field_ok kv.2 ∧ sanitize (bytes kv.1) = bytes kv.1) post →
  Forall2 member_parse (filter (λ kv, is_empty kv.2 = false) post) ms →
  assign ms ((cf <$> pre) ++ (zf <$> post)) = Some (cf <$> pre ++ post).
Proof.
  revert pre ms. induction post as [|kv post IH]; intros pre ms Hnd Hok Hms.
  { apply Forall2_nil_inv_l in Hms as ->. by rewrite !app_nil_r. }
  apply Forall_cons in Hok as [[Hok Hsan] Hoks].
  assert (Hpre : (cf <$> pre) ++ cf kv :: (zf <$> post) = (cf <$> pre ++ [kv]) ++ (zf <$> post)).
  { by rewrite fmap_app, <- app_assoc. }
  assert (Happ : pre ++ kv :: post = (pre ++ [kv]) ++ post) by by rewrite <- app_assoc.
  rewrite filter_cons in Hms. destruct (is_empty kv.2) eqn:He; case_decide; try done.
  - rewrite fmap_cons. replace (zf kv) with (cf kv) by (unfold cf, zf; by rewrite canon_zero).
    rewrite Hpre, Happ. apply IH; [by rewrite <- Happ|done|done].
  - apply Forall2_cons_inv_l in Hms as ([k j] & ms' & [Hk Hj] & Hms & ->). simpl in Hk, Hj.
    rewrite Hsan in Hk. subst k. cbn [assign]. rewrite fmap_cons, find_field_middle by done.
    rewrite list_lookup_middle by (by rewrite length_fmap). simpl.
    rewrite (store_parsed _ _ Hok Hj). simpl.
    rewrite insert_app_r_alt by (rewrite length_fmap; done).
    rewrite length_fmap, Nat.sub_diag. simpl. change (kv.1, canon_field kv.2) with (cf kv).
    rewrite Hpre, Happ. apply IH; [by rewrite <- Happ|done|done].
Qed.

Lemma dec_enc_object fs :
  NoDup (fst <$> fs) → Forall (λ kv, field_ok kv.2 ∧ sanitize (bytes kv.1) = bytes kv.1) fs →
  dec_object (zf <$> fs) (str (enc_object fs)) = Some (cf <$> fs).
Proof.
  intros Hnd Hok. unfold dec_object. rewrite bytes_str.
  destruct (parse_enc_object fs) as (ms & -> & Hms). by apply (assign_parsed []).
Qed.

(** The message that arrives: every stray byte of its strings is a U+FFFD. *)
Definition canon_message (m : ServerMessage) : ServerMessage :=
  m <| ServerMessage_RoomId := clean (ServerMessage_RoomId m) |>
    <| ServerMessage_UserId := clean (ServerMessage_UserId m) |>
    <| ServerMessage_MessageId := clean (ServerMessage_MessageId m) |>
    <| ServerMessage_Text := clean (ServerMessage_Text m) |>
    <| ServerMessage_MediaKey := clean (ServerMessage_MediaKey m) |>
    <| ServerMessage_MediaName := clean (ServerMessage_MediaName m) |>
    <| ServerMessage_MediaMimeType := clean (ServerMessage_MediaMimeType m) |>
    <| ServerMessage_MediaUrl := clean (ServerMessage_MediaUrl m) |>
    <| ServerMessage_ReplyToMessageId := clean (ServerMessage_ReplyToMessageId m) |>
    <| ServerMessage_ReactionEmoji := clean (ServerMessage_ReactionEmoji m) |>.

(** The widths of the Go fields. *)
Record message_wf (m : ServerMessage) : Prop := {
  wf_sent : is_i64 (ServerMessage_SentAtUnixMs m);
  wf_delivered : is_i64 (ServerMessage_DeliveredAtUnixMs m);
  wf_type : is_i32 (ServerMessage_Type m);
  wf_size : is_i64 (ServerMessage_MediaSizeBytes m);
  wf_event : is_i32 (ServerMessage_EventType m);
  wf_edited : is_i64 (ServerMessage_EditedAtUnixMs m);
  wf_status : is_i32 (ServerMessage_Status m);
  wf_seen : is_i64 (ServerMessage_LastSeenUnixMs m)
}.

Lemma message_roundtrip m : message_wf m → Unmarshal (Marshal m) = Some (canon_message m).
Proof.
  intros [????????]. unfold Unmarshal, Marshal. simpl.
  assert (Hz : zf <$> message_fields m = message_fields ServerMessage_zero) by done.
  rewrite <- Hz, dec_enc_object.
  - done.
  - apply (bool_decide_unpack _). vm_compute. exact I.
  - unfold message_fields. repeat (apply Forall_cons_2;
      [split; [cbn; first [exact I | assumption] | vm_compute; reflexivity]|]).
    apply Forall_nil_2.
Qed.

(** What is read back fits its fields, whoever wrote the text. *)
Lemma parse_int_range bits neg ds z :
  parse_int bits neg ds = Some z → (- 2 ^ (bits - 1) ≤ z < 2 ^ (bits - 1))%Z.
Proof.
  unfold parse_int. set (y := if neg then _ else _). case_match eqn:E; [|done]. intros [= <-].
  apply andb_true_iff in E as [H1%Z.leb_le H2%Z.ltb_lt]. done.
Qed.

Lemma store_ok old v new : field_ok old → store old v = Some new → field_ok new.
Proof.
  intros Ho. destruct v as [|b|neg ds []|l| |], old; simpl; try (by intros [= <-]); try done.
  - destruct (parse_int 64 neg ds) as [y|] eqn:E; [|done]. intros [= <-]. exact (parse_int_range _ _ _ _ E).
  - destruct (parse_int 32 neg ds) as [y|] eqn:E; [|done]. intros [= <-]. exact (parse_int_range _ _ _ _ E).
Qed.

Lemma assign_ok ms fs fs' :
  Forall (λ kv, field_ok kv.2) fs → assign ms fs = Some fs' → Forall (λ kv, field_ok kv.2) fs'.
Proof.
  revert fs. induction ms as [|[k v] ms IH]; intros fs Hf; simpl; [by intros [= <-]|].
  destruct (find_field k fs) as [i|]; [|by apply IH]. destruct (fs !! i) as [[name old]|] eqn:Ei; [|done]. simpl.
  destruct (store old v) as [new|] eqn:Es; [|done]. simpl. apply IH. apply Forall_insert; [done|]. simpl.
  apply (store_ok old v); [|done]. by apply (Forall_lookup_1 _ _ _ _ Hf Ei).
Qed.

Lemma unmarshal_wf raw m : Unmarshal raw = Some m → message_wf m.
Proof.
  unfold Unmarshal. simpl. unfold dec_object. intros H.
  assert (Hz : Forall (λ kv, field_ok kv.2) (message_fields ServerMessage_zero)).
  { unfold message_fields. repeat (apply Forall_cons_2; [first [exact I|split; vm_compute; congruence]|]).
    apply Forall_nil_2. }
  assert (∃ fs, Forall (λ kv, field_ok kv.2) fs ∧ of_fields fs = Some m) as (fs & Hf & Hm).
  { destruct (parse _) as [[]|]; try done; simpl in H; [by eexists|].
    destruct (assign _ _) as [fs|] eqn:E; [|done]. exists fs. split; [by eapply assign_ok|done]. }
  clear H. unfold of_fields in Hm. apply (Forall_fmap snd field_ok) in Hf.
  destruct (snd <$> fs) as [|v1 [|v2 [|v3 [|v4 [|v5 [|v6 [|v7 [|v8 [|v9 [|v10 l]]]]]]]]]]; try done;
    repeat match type of Hm with context [match ?v with _ => _ end] => destruct v; try done end.
  injection Hm as <-. rewrite !Forall_cons in Hf. by constructor; apply Hf.
Qed.

#[global] Instance message_laws : JsonLaws ServerMessage :=
  {| json_ok := message_wf; canon := canon_message; Unmarshal_Marshal := message_roundtrip |}.

Lemma chunks_valid l : valid_utf8 l = true → sanitize l = l.
Proof.
  unfold sanitize. induction l as [l IH] using (induction_ltof1 _ length); unfold ltof in IH.
  destruct l as [|c r]; [done|]. intros Hv. simpl in Hv |- *.
  destruct (code c <? 128)%N; [simpl; rewrite IH; [done|simpl; lia|done]|].
  destruct r as [|d r2]; [done|]. unfold rune2, rune3.
  destruct (in_range 194 223 c) eqn:E2.
  { apply andb_true_iff in Hv as [-> Hv]. simpl. rewrite IH; [done|simpl; lia|done]. }
  simpl. destruct r2 as [|e r3]; [done|]. destruct (in_range 224 239 c) eqn:E3.
  { apply andb_true_iff in Hv as [Hv Hr]. apply andb_true_iff in Hv as [Hd He].
    simpl. rewrite Hd, He. simpl. rewrite IH; [done|simpl; lia|done]. }
  simpl. destruct r3 as [|f r4]; [done|]. apply andb_true_iff in Hv as [Hr Hv].
  unfold rune4. rewrite Hr. simpl. rewrite IH; [done|simpl; lia|done].
Qed.

Definition message_strings (m : ServerMessage) : list string :=
  omap (λ kv, match kv.2 with FStr s => Some s | _ => None end) (message_fields m).

Lemma clean_valid s : ValidString s = true → clean s = s.
Proof. intros H. unfold clean. by rewrite chunks_valid, str_bytes. Qed.

(** ** Properties *)

(** C15: A message survives the broker: decoding what [Broadcast] publishes gives
    the message back, for every text, with quotes, control characters and HTML
    escaped on the way; only bytes that are not UTF-8 are replaced. *)
Theorem message_survives m :
  message_wf m →
  Unmarshal (Marshal m) = Some (canon_message m)
  ∧ (Forall (λ s, ValidString s = true) (message_strings m) → canon_message m = m).
Proof.
  intros Hwf. split; [by apply message_roundtrip|]. intros Hv. destruct m.
  unfold message_strings in Hv. simpl in Hv. rewrite !Forall_cons in Hv.
  destruct Hv as (? & ? & ? & ? & ? & ? & ? & ? & ? & ? & _).
  unfold canon_message. simpl. by rewrite !clean_valid.
Qed.

Lemma message_survives_witness :
  Unmarshal (Marshal (ServerMessage_zero <| ServerMessage_Text := "<é> \ 📎" |>)) =
    Some (ServerMessage_zero <| ServerMessage_Text := "<é> \ 📎" |>).
Proof.
  destruct (message_survives (ServerMessage_zero <| ServerMessage_Text := "<é> \ 📎" |>)) as [H1 H2].
  - constructor; vm_compute; split; congruence.
  - rewrite H1, H2; [reflexivity|]. decide_now.
Defined.
