(* ===== verification/RoomId.v ===== *)
(** * Room identifiers

    A direct-message room has the canonical id [dm:<low>:<high>]. This file
    models the functions that compute and recognise it: [normalizeRoomID]
    (server), [roomIDAliases] and [splitRoomID] (repository), and the id that
    every creator of a direct message builds from the sorted pair. *)

From S2P Require Import Prelude GoString.
From Stdlib Require Import Ascii.

(** ** The canonical id of a pair *)

(** [ids := []string{a, b}; sort.Strings(ids); fmt.Sprintf("dm:%s:%s", ids[0], ids[1])] *)
Definition dm_id (a b : string) : string :=
  let ids := sort_strings [a; b] in
  "dm:" +:+ nth 0 ids "" +:+ ":" +:+ nth 1 ids "".

(** ** [normalizeRoomID] *)

(** The branch of the [dm-] prefix. *)
Definition normalize_hyphen (roomID : string) : option string :=
  if HasPrefix roomID "dm-" then
    let parts := Split roomID "-" in
    if bool_decide (3 ≤ length parts) && negb (String.eqb (nth 1 parts "") "")
         && negb (String.eqb (nth 2 parts "") "") then
      let userA := nth 1 parts "" in
      let userB := Join (drop 2 parts) "-" in
      if negb (String.eqb userA "") && negb (String.eqb userB "")
      then Some (dm_id userA userB) else None
    else None
  else None.

(** The branch of the [dm:] prefix. *)
Definition normalize_colon (roomID : string) : option string :=
  if HasPrefix roomID "dm:" then
    let parts := Split roomID ":" in
    if bool_decide (3 ≤ length parts) && negb (String.eqb (nth 1 parts "") "")
         && negb (String.eqb (nth 2 parts "") "") then
      let id0 := nth 1 parts "" in
      let id1 := Join (drop 2 parts) ":" in
      if negb (String.eqb id0 "") && negb (String.eqb id1 "")
      then Some (dm_id id0 id1) else None
    else None
  else None.

(** [len(rest) >= 73 && rest[36] == '_']: the pair of a legacy [CONV_<uuid>_<uuid>]. *)
Definition legacy_pair (roomID : string) : option (string * string) :=
  let rest := TrimPrefix roomID "CONV_" in
  if bool_decide (73 ≤ slen rest) && bool_decide (byte_at 36 rest = Some "_"%char)
  then Some (slice_to 36 rest, slice_from 37 rest) else None.

(** The branch of the legacy prefix. *)
Definition normalize_legacy (roomID : string) : option string :=
  if HasPrefix roomID "CONV_" then
    '(a, b) ← legacy_pair roomID; Some (dm_id a b)
  else None.

Definition normalizeRoomID (roomID : string) : string :=
  let roomID := TrimSpace roomID in
  if String.eqb roomID "" then roomID
  else match normalize_hyphen roomID with
  | Some id => id
  | None => match normalize_colon roomID with
  | Some id => id
  | None => match normalize_legacy roomID with
  | Some id => id
  | None => roomID
  end end end.

(** ** [roomIDAliases] *)

(** The closure's variables [seen] and [out]. *)
Abbreviation aliases := (gset string * list string)%type (only parsing).

Definition alias_add (id : string) (st : aliases) : aliases :=
  let id := TrimSpace id in
  if String.eqb id "" then st
  else if bool_decide (id ∈ st.1) then st
  else ({[id]} ∪ st.1, st.2 ++ [id]).

Definition conv_id (a b : string) : string := "CONV_" +:+ a +:+ "_" +:+ b.

Definition alias_canonicalDM (a b : string) (st : aliases) : aliases :=
  if String.eqb a "" || String.eqb b "" then st
  else
    let ids := sort_strings [a; b] in
    let i0 := nth 0 ids "" in let i1 := nth 1 ids "" in
    let st := alias_add ("dm:" +:+ i0 +:+ ":" +:+ i1) st in
    let st := alias_add (conv_id i0 i1) st in
    let st := alias_add (conv_id a b) st in
    alias_add (conv_id b a) st.

Definition roomIDAliases (roomID : string) : list string :=
  let roomID := TrimSpace roomID in
  if String.eqb roomID "" then []
  else
    let st : aliases := ({[roomID]}, [roomID]) in
    let st :=
      if HasPrefix roomID "dm:" then
        let parts := Split roomID ":" in
        if bool_decide (3 ≤ length parts)
        then alias_canonicalDM (nth 1 parts "") (Join (drop 2 parts) ":") st else st
      else if HasPrefix roomID "CONV_" then
        match legacy_pair roomID with
        | Some (a, b) => alias_canonicalDM a b st
        | None => st
        end
      else st in
    st.2.

(** ** [splitRoomID] *)

Definition is_sep (c : byte) : bool := bool_decide (c = ":"%char ∨ c = "-"%char).

Definition splitRoomID (roomID : string) : list string :=
  if bool_decide (slen roomID ≤ 3) then []
  else match split_at_first is_sep (drop 3 (bytes roomID)) with
       | Some (l1, _, l2) => [str l1; str l2]
       | None => []
       end.

(** The cases of the server's own test. *)
Example normalize_test :
  map normalizeRoomID ["dm:alice:bob"; "dm-alice-bob"; "dm-bob-alice"; "dm:bob:alice"; "group:xyz"]
  = ["dm:alice:bob"; "dm:alice:bob"; "dm:alice:bob"; "dm:alice:bob"; "group:xyz"].
Proof. vm_compute. reflexivity. Qed.

(** ** Lemmas *)

Lemma dm_id_comm a b : dm_id a b = dm_id b a.
Proof. unfold dm_id. by rewrite (sort_strings_pair_comm a b). Qed.

(** [fmt.Sprintf("dm:%s", strings.Join(ids, ":"))], the other way the source writes it. *)
Lemma join_dm a b : "dm:" +:+ Join (sort_strings [a; b]) ":" = dm_id a b.
Proof. unfold dm_id. rewrite sort_strings_pair. by case_decide. Qed.

Lemma dm_id_cases a b :
  (String.le a b ∧ dm_id a b = "dm:" +:+ a +:+ ":" +:+ b)
  ∨ (String.le b a ∧ dm_id a b = "dm:" +:+ b +:+ ":" +:+ a).
Proof.
  unfold dm_id. rewrite sort_strings_pair. case_decide as H; [by left|right].
  split; [|done]. by destruct (total String.le a b).
Qed.

(** A field that [Split] keeps whole at its head: not empty, and not beginning
    with the separator. *)
Definition starts_field (sep : byte) (b : string) : Prop := b ≠ "" ∧ byte_at 0 b ≠ Some sep.

Lemma lacks_starts_field sep b : b ≠ "" → lacks sep b → starts_field sep b.
Proof.
  intros Hne Hl. split; [done|]. unfold byte_at. intros H. apply Hl.
  by apply list_elem_of_lookup_2 in H.
Qed.

Lemma Split_head sep b : starts_field sep b → nth 0 (Split b sep) "" ≠ "".
Proof.
  intros [Hne Hh]. unfold Split, byte_at in *.
  destruct b as [|c r]; [done|]. simpl in *.
  destruct (ascii_dec c sep) as [->|]; [done|].
  by destruct (split_bytes sep (bytes r)).
Qed.

Lemma negb_eqb_true (s t : string) : s ≠ t → negb (String.eqb s t) = true.
Proof. intros H. apply negb_true_iff, String.eqb_neq, H. Qed.

Lemma split_fields (p a b : string) (sep : byte) :
  lacks sep p → lacks sep a → starts_field sep b →
  ∃ w ws, Split (p +:+ String sep (a +:+ String sep b)) sep = p :: a :: w :: ws
    ∧ w ≠ "" ∧ Join (w :: ws) (String sep "") = b.
Proof.
  intros Hp Ha Hb. rewrite !Split_cons by done.
  pose proof (Split_head _ _ Hb) as Hh. pose proof (Join_Split b sep) as HJ.
  destruct (Split b sep) as [|w ws]; [done|]. by exists w, ws.
Qed.

Lemma normalize_colon_pair a b :
  a ≠ "" → lacks ":" a → starts_field ":" b →
  normalize_colon ("dm:" +:+ a +:+ ":" +:+ b) = Some (dm_id a b).
Proof.
  intros Ha La Hb. unfold normalize_colon. rewrite HasPrefix_app.
  destruct (split_fields "dm" a b ":") as (w & ws & HS & Hw & HJ); [decide_now|done..|].
  replace ("dm:" +:+ a +:+ ":" +:+ b) with ("dm" +:+ String ":" (a +:+ String ":" b)) by done.
  rewrite HS. cbn [nth drop length]. rewrite HJ, bool_decide_true by lia.
  destruct Hb as [Hb _]. by rewrite !negb_eqb_true by done.
Qed.

Lemma normalize_hyphen_pair a b :
  a ≠ "" → lacks "-" a → starts_field "-" b →
  normalize_hyphen ("dm-" +:+ a +:+ "-" +:+ b) = Some (dm_id a b).
Proof.
  intros Ha La Hb. unfold normalize_hyphen. rewrite HasPrefix_app.
  destruct (split_fields "dm" a b "-") as (w & ws & HS & Hw & HJ); [decide_now|done..|].
  replace ("dm-" +:+ a +:+ "-" +:+ b) with ("dm" +:+ String "-" (a +:+ String "-" b)) by done.
  rewrite HS. cbn [nth drop length]. rewrite HJ, bool_decide_true by lia.
  destruct Hb as [Hb _]. by rewrite !negb_eqb_true by done.
Qed.

Lemma legacy_pair_conv a b :
  slen a = 36 → 36 ≤ slen b → legacy_pair (conv_id a b) = Some (a, b).
Proof.
  intros Ha Hb. unfold legacy_pair, conv_id. rewrite TrimPrefix_app.
  assert (Hlen : slen (a +:+ "_" +:+ b) = 37 + slen b).
  { rewrite <- !length_bytes, !bytes_app, !length_app, !length_bytes, Ha. simpl. lia. }
  rewrite bool_decide_true by (rewrite Hlen; lia).
  assert (H36 : byte_at 36 (a +:+ "_" +:+ b) = Some "_"%char).
  { unfold byte_at. rewrite bytes_app, lookup_app_r by (rewrite length_bytes; lia).
    by rewrite length_bytes, Ha. }
  rewrite bool_decide_true by done. simpl. do 2 f_equal.
  - rewrite <- Ha at 1. apply slice_to_app.
  - replace 37 with (slen (a +:+ "_")).
    + by rewrite <- string_app_assoc, slice_from_app.
    + rewrite <- length_bytes, bytes_app, length_app, !length_bytes, Ha. done.
Qed.

(** The conditions under which a spelling reaches its branch of
    [normalizeRoomID]: it is trimmed, and no earlier prefix matches. *)
Lemma normalize_trimmed s :
  trimmed s → s ≠ "" →
  normalizeRoomID s =
    default s (match normalize_hyphen s with Some i => Some i | None =>
               match normalize_colon s with Some i => Some i | None => normalize_legacy s end end).
Proof.
  intros Ht Hne. unfold normalizeRoomID. rewrite Ht.
  destruct (String.eqb_spec s ""); [done|]. by repeat case_match.
Qed.

(** An id that a user may have in a canonical room: not empty, without a colon
    and without white space at its ends. *)
Definition plain_id (s : string) : Prop := s ≠ "" ∧ trimmed s ∧ lacks ":" s.

#[global] Instance plain_id_dec s : Decision (plain_id s).
Proof. unfold plain_id. apply _. Defined.

Lemma trimmed_spelling (p a b : string) (x y : byte) :
  shield_byte x → shield_byte y → b ≠ "" → trimmed b →
  trimmed (String x (p +:+ a +:+ String y b)).
Proof. intros ????. rewrite <- string_app_assoc. by apply trimmed_shield. Qed.

#[export] Hint Resolve lacks_starts_field : chat.

Lemma normalize_colon_spelling a b :
  plain_id a → plain_id b → normalizeRoomID ("dm:" +:+ a +:+ ":" +:+ b) = dm_id a b.
Proof.
  intros (Ha & Hta & La) (Hb & Htb & Lb).
  rewrite normalize_trimmed; [|by apply (trimmed_spelling "m:")|done].
  by rewrite normalize_colon_pair by auto with chat.
Qed.

Lemma normalize_hyphen_spelling a b :
  plain_id a → plain_id b → lacks "-" a → starts_field "-" b →
  normalizeRoomID ("dm-" +:+ a +:+ "-" +:+ b) = dm_id a b.
Proof.
  intros (Ha & Hta & La) (Hb & Htb & Lb) Ha' Hb'.
  rewrite normalize_trimmed; [|by apply (trimmed_spelling "m-")|done].
  by rewrite normalize_hyphen_pair by auto with chat.
Qed.

Lemma normalize_legacy_spelling a b :
  plain_id b → slen a = 36 → 36 ≤ slen b → normalizeRoomID (conv_id a b) = dm_id a b.
Proof.
  intros (Hb & Htb & Lb) Ha' Hb'. unfold conv_id.
  rewrite normalize_trimmed; [|by apply (trimmed_spelling "ONV_")|done].
  change ("CONV_" +:+ a +:+ "_" +:+ b) with (conv_id a b).
  assert (normalize_hyphen (conv_id a b) = None) as -> by reflexivity.
  assert (normalize_colon (conv_id a b) = None) as -> by reflexivity.
  unfold normalize_legacy. rewrite legacy_pair_conv by done.
  by assert (HasPrefix (conv_id a b) "CONV_" = true) as -> by apply HasPrefix_app.
Qed.

Lemma normalize_trim s : normalizeRoomID (TrimSpace s) = normalizeRoomID s.
Proof. unfold normalizeRoomID. by rewrite TrimSpace_trimmed. Qed.

(** The ways a client or an old record writes the room of [a] and [b], in that
    order. *)
Inductive spelling (a b : string) : string → Prop :=
  | spelling_colon : spelling a b ("dm:" +:+ a +:+ ":" +:+ b)
  | spelling_hyphen :
      lacks "-" a → starts_field "-" b → spelling a b ("dm-" +:+ a +:+ "-" +:+ b)
  | spelling_legacy : slen a = 36 → 36 ≤ slen b → spelling a b (conv_id a b)
  | spelling_padded s t : spelling a b s → TrimSpace t = TrimSpace s → spelling a b t.

Lemma normalize_spelling a b s :
  plain_id a → plain_id b → spelling a b s → normalizeRoomID s = dm_id a b.
Proof.
  intros Ha Hb. induction 1 as [| | |s t _ IH Heq].
  - by apply normalize_colon_spelling.
  - by apply normalize_hyphen_spelling.
  - by apply normalize_legacy_spelling.
  - by rewrite <- normalize_trim, Heq, normalize_trim.
Qed.

Lemma spelling_dm_id a b : spelling a b (dm_id a b) ∨ spelling b a (dm_id a b).
Proof. destruct (dm_id_cases a b) as [[_ ->]|[_ ->]]; [left|right]; constructor. Qed.

Lemma Split_dm a b :
  lacks ":" a → Split ("dm:" +:+ a +:+ ":" +:+ b) ":" = "dm" :: a :: Split b ":".
Proof.
  intros La. change ("dm:" +:+ a +:+ ":" +:+ b) with ("dm" +:+ String ":" (a +:+ String ":" b)).
  rewrite Split_cons; [|decide_now]. by rewrite Split_cons.
Qed.

Lemma Split_dm_id a b :
  lacks ":" a → lacks ":" b →
  Split (dm_id a b) ":" = "dm" :: sort_strings [a; b].
Proof.
  intros La Lb. unfold dm_id. rewrite sort_strings_pair.
  case_decide; cbn [nth]; by rewrite Split_dm, Split_nosep.
Qed.

(** *** Aliases *)

(** [seen] holds what [out] holds, and [out] has no duplicate. *)
Definition alias_inv (st : aliases) : Prop := st.1 = list_to_set st.2 ∧ NoDup st.2.

Lemma alias_add_inv id st : alias_inv st → alias_inv (alias_add id st).
Proof.
  intros [Hs Hn]. unfold alias_add. case_match; [done|].
  case_bool_decide as Hin; [done|]. split; simpl.
  - rewrite Hs, list_to_set_app_L. simpl. set_solver.
  - rewrite Hs, elem_of_list_to_set in Hin. apply NoDup_app. split; [done|].
    split; [set_solver|]. apply NoDup_singleton.
Qed.

Lemma alias_add_elem id st x :
  alias_inv st →
  x ∈ (alias_add id st).2 ↔ x ∈ st.2 ∨ (x = TrimSpace id ∧ TrimSpace id ≠ "").
Proof.
  intros [Hs Hn]. unfold alias_add. destruct (String.eqb_spec (TrimSpace id) "") as [->|Hne].
  - naive_solver.
  - case_bool_decide as Hin; simpl.
    + rewrite Hs, elem_of_list_to_set in Hin. naive_solver.
    + set_solver.
Qed.

Lemma alias_add_app id st : ∃ l, (alias_add id st).2 = st.2 ++ l.
Proof.
  unfold alias_add. repeat case_match; simpl; eauto; exists []; by rewrite app_nil_r.
Qed.

#[export] Hint Resolve alias_add_inv : chat.

Lemma alias_canonicalDM_elem a b st x :
  alias_inv st → plain_id a → plain_id b →
  alias_inv (alias_canonicalDM a b st) ∧
  (x ∈ (alias_canonicalDM a b st).2 ↔
     x ∈ st.2 ∨ x = dm_id a b ∨ x = conv_id a b ∨ x = conv_id b a).
Proof.
  intros Hi (Ha & Hta & La) (Hb & Htb & Lb). unfold alias_canonicalDM.
  destruct (String.eqb_spec a ""), (String.eqb_spec b ""); [done..|]. simpl orb. cbn [negb].
  split; [auto 10 with chat|].
  assert (Hc : ∀ u v, v ≠ "" → trimmed v → TrimSpace (conv_id u v) = conv_id u v).
  { intros u v ??. by apply (trimmed_spelling "ONV_" u v "C" "_"). }
  assert (Hd : ∀ u v, v ≠ "" → trimmed v →
            TrimSpace ("dm:" +:+ u +:+ ":" +:+ v) = "dm:" +:+ u +:+ ":" +:+ v).
  { intros u v ??. by apply (trimmed_spelling "m:" u v "d" ":"). }
  unfold dm_id. rewrite sort_strings_pair.
  case_decide; cbn [nth];
    rewrite !alias_add_elem by auto 10 with chat;
    rewrite !Hc, !Hd by done; unfold conv_id; naive_solver.
Qed.

Lemma alias_canonicalDM_app a b st : ∃ l, (alias_canonicalDM a b st).2 = st.2 ++ l.
Proof.
  unfold alias_canonicalDM. case_match; [exists []; by rewrite app_nil_r|].
  set (i0 := nth 0 _ _). set (i1 := nth 1 _ _).
  destruct (alias_add_app ("dm:" +:+ i0 +:+ ":" +:+ i1) st) as [l1 H1].
  destruct (alias_add_app (conv_id i0 i1) (alias_add ("dm:" +:+ i0 +:+ ":" +:+ i1) st)) as [l2 H2].
  destruct (alias_add_app (conv_id a b)
    (alias_add (conv_id i0 i1) (alias_add ("dm:" +:+ i0 +:+ ":" +:+ i1) st))) as [l3 H3].
  destruct (alias_add_app (conv_id b a) (alias_add (conv_id a b)
    (alias_add (conv_id i0 i1) (alias_add ("dm:" +:+ i0 +:+ ":" +:+ i1) st)))) as [l4 H4].
  exists (l1 ++ l2 ++ l3 ++ l4). by rewrite H4, H3, H2, H1, <- !app_assoc.
Qed.

Lemma roomIDAliases_dm a b :
  plain_id a → plain_id b →
  roomIDAliases (dm_id a b) = (alias_canonicalDM (nth 0 (sort_strings [a; b]) "")
     (nth 1 (sort_strings [a; b]) "") ({[dm_id a b]}, [dm_id a b])).2.
Proof.
  intros Ha Hb. pose proof Ha as (Hane & Hta & La). pose proof Hb as (Hbne & Htb & Lb).
  unfold roomIDAliases.
  assert (Ht : TrimSpace (dm_id a b) = dm_id a b).
  { destruct (dm_id_cases a b) as [[_ ->]|[_ ->]]; by apply (trimmed_spelling "m:" _ _ "d" ":"). }
  rewrite Ht.
  destruct (String.eqb_spec (dm_id a b) "") as [Heq|_].
  { unfold dm_id in Heq. simpl in Heq. done. }
  assert (HasPrefix (dm_id a b) "dm:" = true) as -> by apply HasPrefix_app.
  rewrite Split_dm_id by done. rewrite sort_strings_pair.
  case_decide; cbn [length nth drop]; by rewrite bool_decide_true by lia.
Qed.

(** *** Splitting *)

Lemma splitRoomID_dm x y :
  splitRoomID ("dm:" +:+ x +:+ ":" +:+ y) =
    match split_at_first is_sep (bytes x ++ ":"%char :: bytes y) with
    | Some (l1, _, l2) => [str l1; str l2]
    | None => []
    end.
Proof.
  unfold splitRoomID. rewrite bool_decide_false.
  - change (drop 3 (bytes ("dm:" +:+ x +:+ ":" +:+ y))) with (bytes (x +:+ ":" +:+ y)).
    by rewrite bytes_app.
  - rewrite <- length_bytes, !bytes_app, !length_app. simpl. lia.
Qed.

Lemma split_at_first_app {A} (p : A → bool) l x k :
  Forall (λ y, p y = false) l → p x = true → split_at_first p (l ++ x :: k) = Some (l, x, k).
Proof.
  induction l as [|y l IH]; intros Hl Hx; simpl; [by rewrite Hx|].
  apply Forall_cons in Hl as [Hy Hl]. rewrite Hy. by rewrite IH.
Qed.

Lemma is_sep_lacks x :
  lacks ":" x → lacks "-" x ↔ Forall (λ c, is_sep c = false) (bytes x).
Proof.
  intros Lc. unfold lacks, is_sep in *. rewrite Forall_forall. split.
  - intros Ld c Hc. apply bool_decide_eq_false. intros [->| ->]; done.
  - intros H Hc. specialize (H _ Hc). apply bool_decide_eq_false in H. naive_solver.
Qed.

Lemma splitRoomID_fields x y :
  lacks ":" x → splitRoomID ("dm:" +:+ x +:+ ":" +:+ y) = [x; y] ↔ lacks "-" x.
Proof.
  intros Lc. rewrite splitRoomID_dm. split.
  - intros H. apply is_sep_lacks; [done|].
    destruct (split_at_first _ _) as [[[l1 c] l2]|] eqn:E; [|done].
    apply split_at_first_Some in E as (_ & _ & Hl1).
    injection H as H1 _. by rewrite <- H1, bytes_str.
  - intros Ld. rewrite split_at_first_app; [by rewrite !str_bytes| |done].
    by apply is_sep_lacks.
Qed.

(** ** Properties *)





(** An id that none of the three direct-message forms matches is returned
    trimmed and otherwise unchanged; any other result is the canonical id of
    two non-empty names; and the result is empty exactly when the input is
    blank. *)
Theorem normalize_cases (s : string) :
  (normalizeRoomID s = TrimSpace s
   ∨ (∃ a b, a ≠ "" ∧ b ≠ "" ∧ normalizeRoomID s = dm_id a b
        ∧ Exists (λ p, HasPrefix (TrimSpace s) p = true) ["dm-"; "dm:"; "CONV_"]))
  ∧ (normalizeRoomID s = "" ↔ TrimSpace s = "").
Proof.
  assert (Hcase : normalizeRoomID s = TrimSpace s
   ∨ (∃ a b, a ≠ "" ∧ b ≠ "" ∧ normalizeRoomID s = dm_id a b
        ∧ Exists (λ p, HasPrefix (TrimSpace s) p = true) ["dm-"; "dm:"; "CONV_"])).
  { unfold normalizeRoomID. set (t := TrimSpace s).
    destruct (String.eqb t ""); [by left|].
    destruct (normalize_hyphen t) as [i|] eqn:E1; [right|
    destruct (normalize_colon t) as [i|] eqn:E2; [right|
    destruct (normalize_legacy t) as [i|] eqn:E3; [right|by left]]].
    - unfold normalize_hyphen in E1. repeat case_match; simplify_eq; bool_facts.
      do 2 eexists; split_and!; [| |reflexivity|by apply Exists_cons; left]; done.
    - unfold normalize_colon in E2. repeat case_match; simplify_eq; bool_facts.
      do 2 eexists; split_and!; [| |reflexivity|by apply Exists_cons; right; apply Exists_cons; left];
        done.
    - unfold normalize_legacy in E3. destruct (HasPrefix t "CONV_") eqn:Hp; [|done].
      unfold legacy_pair in E3. set (rest := TrimPrefix t "CONV_") in *.
      case_bool_decide as Hl; [|done]. case_bool_decide; [|done]. simpl in E3. simplify_eq.
      do 2 eexists; split_and!; [| |reflexivity|by do 3 (apply Exists_cons; auto)].
      + intros H0%(f_equal slen). rewrite length_slice_to in H0. change (slen "") with 0 in H0. lia.
      + intros H0%(f_equal slen). rewrite length_slice_from in H0. change (slen "") with 0 in H0. lia. }
  split; [done|]. destruct Hcase as [->|(a & b & Ha & Hb & -> & Hp)]; [done|].
  split; [by destruct (dm_id_cases a b) as [[_ ->]|[_ ->]]|].
  intros Ht. rewrite Ht in Hp. rewrite !Exists_cons in Hp.
  destruct Hp as [?|[?|[?|Hn]]]; try done. by apply Exists_nil in Hn.
Qed.

(** The aliases of a canonical id are, without repetition and led by the
    id, exactly the id and its two legacy forms; for user ids of 36 bytes each
    of them normalises back, so a history query reads this room and no other. *)
Theorem roomIDAliases_canonical (a b : string) :
  plain_id a → plain_id b →
  let out := roomIDAliases (dm_id a b) in
  NoDup out ∧ head out = Some (dm_id a b)
  ∧ (∀ x, x ∈ out ↔ x = dm_id a b ∨ x = conv_id a b ∨ x = conv_id b a)
  ∧ (slen a = 36 → slen b = 36 → Forall (λ x, normalizeRoomID x = dm_id a b) out).
Proof.
  intros Ha Hb out.
  assert (Hinv : alias_inv ({[dm_id a b]}, [dm_id a b])).
  { split; [simpl; set_solver|apply NoDup_singleton]. }
  assert (Hs : ∃ x y, (x = a ∧ y = b ∨ x = b ∧ y = a) ∧ plain_id x ∧ plain_id y
            ∧ out = (alias_canonicalDM x y ({[dm_id a b]}, [dm_id a b])).2).
  { unfold out. rewrite roomIDAliases_dm by done. rewrite sort_strings_pair.
    case_decide; cbn [nth]; [exists a, b|exists b, a]; auto 10. }
  destruct Hs as (x & y & Hxy & Hx & Hy & Hout).
  assert (Hel : ∀ z, z ∈ out ↔ z = dm_id a b ∨ z = conv_id a b ∨ z = conv_id b a).
  { intros z. rewrite Hout, (proj2 (alias_canonicalDM_elem x y _ z Hinv Hx Hy)). simpl.
    rewrite list_elem_of_singleton.
    destruct Hxy as [[-> ->]|[-> ->]]; [|rewrite (dm_id_comm b a)]; naive_solver. }
  split_and!; [| |done|].
  - rewrite Hout. by apply (alias_canonicalDM_elem x y _ "" Hinv).
  - rewrite Hout. destruct (alias_canonicalDM_app x y ({[dm_id a b]}, [dm_id a b])) as [l ->].
    done.
  - intros La Lb. apply Forall_forall. intros z Hz. apply Hel in Hz as [->|[->| ->]].
    + destruct (spelling_dm_id a b) as [H|H]; [by apply normalize_spelling|].
      rewrite (dm_id_comm a b) at 2. by apply normalize_spelling.
    + apply normalize_legacy_spelling; [done|done|lia].
    + rewrite dm_id_comm. apply normalize_legacy_spelling; [done|done|lia].
Qed.

Definition uuid1 : string := "11111111-aaaa-4aaa-8aaa-000000000001".
Definition uuid2 : string := "22222222-bbbb-4bbb-8bbb-000000000002".

Lemma roomIDAliases_canonical_witness :
  roomIDAliases (dm_id uuid2 uuid1) = [dm_id uuid1 uuid2; conv_id uuid1 uuid2; conv_id uuid2 uuid1]
  ∧ NoDup (roomIDAliases (dm_id uuid2 uuid1)).
Proof.
  split; [vm_compute; reflexivity|].
  apply (roomIDAliases_canonical uuid2 uuid1); decide_now.
Defined.

(** The member ids that [splitRoomID] recovers from a canonical id are the
    two users exactly when the first of them has no hyphen, so it is wrong for
    every pair whose smaller id is a UUID. *)
Theorem splitRoomID_canonical (a b : string) :
  plain_id a → plain_id b → String.le a b →
  splitRoomID (dm_id a b) = [a; b] ↔ lacks "-" a.
Proof.
  intros (Ha & _ & La) Hb Hle. unfold dm_id. rewrite sort_strings_pair, decide_True by done.
  cbn [nth]. by apply splitRoomID_fields.
Qed.

Lemma splitRoomID_canonical_witness :
  splitRoomID (dm_id "alice" "bob") = ["alice"; "bob"] ∧ splitRoomID (dm_id uuid1 uuid2) ≠ [uuid1; uuid2].
Proof.
  split.
  - apply (splitRoomID_canonical "alice" "bob"); decide_now.
  - intros H. apply (splitRoomID_canonical uuid1 uuid2) in H; [|decide_now..].
    revert H. apply (bool_decide_unpack (¬ lacks "-" uuid1)). vm_compute. exact I.
Defined.

(** The hyphen form is not canonical for UUIDs: the two orders of one pair
    are normalised to two different rooms, because the split takes the first
    hyphen of the first UUID for the separator. *)
Theorem normalize_hyphen_uuid :
  plain_id uuid1 ∧ plain_id uuid2
  ∧ normalizeRoomID ("dm-" +:+ uuid1 +:+ "-" +:+ uuid2)
    ≠ normalizeRoomID ("dm-" +:+ uuid2 +:+ "-" +:+ uuid1).
Proof. split_and!; [decide_now|decide_now|]. vm_compute. discriminate. Qed.
