(* ===== verification/Chan.v ===== *)
(** * Go channels

    A buffered channel: its queued values, its capacity and whether it was
    closed. The program uses the non-blocking send of [select] with a
    [default], [close], and receives in [range] loops. *)

From S2P Require Import Prelude.

Record chan (A : Type) : Type := mkChan {
  chan_buf : list A;
  chan_cap : nat;
  chan_closed : bool
}.
Arguments mkChan {A}.
Arguments chan_buf {A}.
Arguments chan_cap {A}.
Arguments chan_closed {A}.

(** [make(chan A, n)] *)
Definition make_chan {A} (n : nat) : chan A := mkChan [] n false.

(** [select { case ch <- x: default: }]: sending on a closed channel panics, a
    full channel drops the value. *)
Definition try_send {A} (x : A) (ch : chan A) : outcome (chan A) :=
  if chan_closed ch then Panic "send on closed channel"
  else if bool_decide (length (chan_buf ch) < chan_cap ch)
       then Done (mkChan (chan_buf ch ++ [x]) (chan_cap ch) false)
       else Done ch.

(** [close(ch)] *)
Definition close_chan {A} (ch : chan A) : outcome (chan A) :=
  if chan_closed ch then Panic "close of closed channel"
  else Done (mkChan (chan_buf ch) (chan_cap ch) true).

(** One receive: [None] when nothing is queued. A closed channel still yields
    what it holds. *)
Definition recv_chan {A} (ch : chan A) : option (A * chan A) :=
  match chan_buf ch with
  | [] => None
  | x :: r => Some (x, mkChan r (chan_cap ch) (chan_closed ch))
  end.

(** What [try_send] leaves in an open channel. *)
Definition offered {A} (x : A) (ch : chan A) : chan A :=
  if bool_decide (length (chan_buf ch) < chan_cap ch)
  then mkChan (chan_buf ch ++ [x]) (chan_cap ch) (chan_closed ch) else ch.

Lemma try_send_open {A} (x : A) ch : chan_closed ch = false → try_send x ch = Done (offered x ch).
Proof.
  intros H. unfold try_send, offered. rewrite H. by case_bool_decide.
Qed.

Lemma chan_closed_offered {A} (x : A) ch : chan_closed (offered x ch) = chan_closed ch.
Proof. unfold offered. by case_bool_decide. Qed.

Lemma chan_cap_offered {A} (x : A) ch : chan_cap (offered x ch) = chan_cap ch.
Proof. unfold offered. by case_bool_decide. Qed.

(** A channel never holds more than its capacity. *)
Definition chan_ok {A} (ch : chan A) : Prop := length (chan_buf ch) ≤ chan_cap ch.

Lemma chan_ok_offered {A} (x : A) ch : chan_ok ch → chan_ok (offered x ch).
Proof.
  unfold chan_ok, offered. intros H. case_bool_decide; [|done].
  simpl. rewrite length_app. simpl. lia.
Qed.

Lemma chan_ok_recv {A} (x : A) ch ch' : chan_ok ch → recv_chan ch = Some (x, ch') → chan_ok ch'.
Proof.
  unfold chan_ok, recv_chan. destruct (chan_buf ch); [done|]. intros ? [= <- <-]. simpl in *. lia.
Qed.

#[export] Hint Resolve chan_ok_offered chan_ok_recv : chat.

(** ** Channels by handle

    Channels are shared by reference: a table maps handles to channels, and
    [make] hands out the next handle. *)

Record chans (A : Type) : Type := mkChans {
  ct_tab : gmap nat (chan A);
  ct_next : nat
}.
Arguments mkChans {A}.
Arguments ct_tab {A}.
Arguments ct_next {A}.

Definition ct_empty {A} : chans A := mkChans ∅ 0.

Definition ct_make {A} (n : nat) (t : chans A) : chans A * nat :=
  (mkChans (<[ct_next t := make_chan n]> (ct_tab t)) (S (ct_next t)), ct_next t).

Definition ct_set {A} (s : nat) (ch : chan A) (t : chans A) : chans A :=
  mkChans (<[s := ch]> (ct_tab t)) (ct_next t).

Definition ct_close {A} (s : nat) (t : chans A) : outcome (chans A) :=
  match ct_tab t !! s with
  | Some ch => outcome_bind (close_chan ch) (λ ch', Done (ct_set s ch' t))
  | None => Panic "close of nil channel"
  end.

(** A non-blocking send; on a nil channel the [default] branch is taken. *)
Definition ct_try_send {A} (x : A) (s : nat) (t : chans A) : outcome (chans A) :=
  match ct_tab t !! s with
  | Some ch => outcome_bind (try_send x ch) (λ ch', Done (ct_set s ch' t))
  | None => Done t
  end.

Definition ct_recv {A} (s : nat) (t : chans A) : option (A * chans A) :=
  ch ← ct_tab t !! s; '(x, ch') ← recv_chan ch; Some (x, ct_set s ch' t).

Section table.
Context {A : Type}.
Implicit Types (t : chans A) (s : nat).

(** The handles of open channels; no handle is handed out twice. *)
Definition ct_open t : gset nat := dom (filter (λ p, chan_closed p.2 = false) (ct_tab t)).
Definition ct_fresh t : Prop := ∀ s, is_Some (ct_tab t !! s) → s < ct_next t.

Lemma elem_ct_open s t :
  s ∈ ct_open t ↔ ∃ ch, ct_tab t !! s = Some ch ∧ chan_closed ch = false.
Proof.
  unfold ct_open. rewrite elem_of_dom. split.
  - intros [ch H%map_lookup_filter_Some]. naive_solver.
  - intros (ch & H & Hc). exists ch. by apply map_lookup_filter_Some.
Qed.

Lemma ct_open_set s ch t :
  ct_open (ct_set s ch t) = if chan_closed ch then ct_open t ∖ {[s]} else {[s]} ∪ ct_open t.
Proof.
  apply set_eq. intros k. rewrite elem_ct_open. unfold ct_set. simpl.
  destruct (decide (k = s)) as [->|Hne].
  - rewrite lookup_insert_eq. destruct (chan_closed ch) eqn:E.
    + split; [intros (c & [= <-] & ?); congruence|].
      intros [_ []]%elem_of_difference. by apply elem_of_singleton.
    + split; [|intros _; by exists ch]. intros _. apply elem_of_union_l.
      by apply elem_of_singleton.
  - rewrite lookup_insert_ne by done. rewrite <- elem_ct_open.
    destruct (chan_closed ch); set_solver.
Qed.

Lemma ct_fresh_set s ch t : ct_fresh t → is_Some (ct_tab t !! s) → ct_fresh (ct_set s ch t).
Proof.
  intros Hf Hs k. unfold ct_set. simpl. destruct (decide (k = s)) as [->|Hne]; [auto|].
  rewrite lookup_insert_ne by done. apply Hf.
Qed.

Lemma ct_make_spec n t t' s :
  ct_fresh t → ct_make n t = (t', s) →
  ct_fresh t' ∧ s ∉ ct_open t ∧ ct_open t' = {[s]} ∪ ct_open t
  ∧ ct_tab t' = <[s := make_chan n]> (ct_tab t) ∧ ct_tab t !! s = None.
Proof.
  intros Hf [= <- <-]. assert (Hn : ct_tab t !! ct_next t = None).
  { destruct (ct_tab t !! ct_next t) eqn:E; [|done].
    specialize (Hf (ct_next t) ltac:(eauto)). lia. }
  split_and!; [|..|done|done].
  - intros k. simpl. destruct (decide (k = ct_next t)) as [->|Hne]; [lia|].
    rewrite lookup_insert_ne by done. intros Hk%Hf. lia.
  - rewrite elem_ct_open. intros (ch & H & _). congruence.
  - apply set_eq. intros k. rewrite elem_of_union, !elem_ct_open. simpl.
    destruct (decide (k = ct_next t)) as [->|Hne].
    + rewrite lookup_insert_eq, elem_of_singleton. split; [by left|].
      intros _. by exists (make_chan n).
    + rewrite lookup_insert_ne, elem_of_singleton by done. split; [by right|].
      by intros [?|?].
Qed.

Lemma ct_close_spec s t :
  ct_fresh t → s ∈ ct_open t →
  ∃ t', ct_close s t = Done t' ∧ ct_fresh t' ∧ ct_open t' = ct_open t ∖ {[s]}.
Proof.
  intros Hf (ch & Hs & Hc)%elem_ct_open. unfold ct_close, close_chan. rewrite Hs, Hc. simpl.
  eexists. split_and!; [done|by apply ct_fresh_set|]. by rewrite ct_open_set.
Qed.

(** What a channel holds after another, or itself, is closed. *)
Lemma ct_close_lookup s k t t' :
  ct_close s t = Done t' → ct_tab t' !! k =
    if decide (s = k) then (λ ch, mkChan (chan_buf ch) (chan_cap ch) true) <$> ct_tab t !! k else ct_tab t !! k.
Proof.
  unfold ct_close, close_chan. destruct (ct_tab t !! s) as [ch|] eqn:E; [|done].
  destruct (chan_closed ch); [done|]. simpl. intros [= <-]. unfold ct_set. simpl.
  case_decide; [subst; by rewrite lookup_insert_eq, E|]. by rewrite lookup_insert_ne.
Qed.

Lemma ct_recv_spec s t x t' :
  ct_fresh t → ct_recv s t = Some (x, t') → ct_fresh t' ∧ ct_open t' = ct_open t.
Proof.
  intros Hf H. unfold ct_recv in H.
  destruct (ct_tab t !! s) as [ch|] eqn:Hs; simpl in H; [|done].
  unfold recv_chan in H. destruct (chan_buf ch) as [|y r]; simpl in H; [done|].
  injection H as <- <-. split; [by apply ct_fresh_set|]. rewrite ct_open_set. simpl.
  destruct (chan_closed ch) eqn:E.
  - assert (s ∉ ct_open t); [|set_solver]. rewrite elem_ct_open. intros (c & ? & ?). congruence.
  - assert (s ∈ ct_open t); [|set_solver]. rewrite elem_ct_open. by exists ch.
Qed.

Lemma ct_try_send_spec x s t :
  ct_fresh t → s ∈ ct_open t →
  ∃ ch, ct_tab t !! s = Some ch ∧ ct_try_send x s t = Done (ct_set s (offered x ch) t)
    ∧ ct_fresh (ct_set s (offered x ch) t) ∧ ct_open (ct_set s (offered x ch) t) = ct_open t.
Proof.
  intros Hf Hin. pose proof Hin as (ch & Hs & Hc)%elem_ct_open. exists ch.
  unfold ct_try_send. rewrite Hs, try_send_open by done. split_and!; [done|done|..].
  - by apply ct_fresh_set.
  - rewrite ct_open_set, chan_closed_offered, Hc. set_solver.
Qed.

(** The value offered to every channel of a list. *)
Definition offer_all (d : A) (l : list nat) (tb : chans A) : chans A :=
  foldl (λ tb ch, match ct_tab tb !! ch with
                  | Some c => ct_set ch (offered d c) tb | None => tb end) tb l.

Lemma offer_all_lookup d l tb ch :
  NoDup l →
  ct_tab (offer_all d l tb) !! ch =
    if decide (ch ∈ l) then offered d <$> ct_tab tb !! ch else ct_tab tb !! ch.
Proof.
  intros Hnd. revert tb. induction Hnd as [|x l Hx Hnd IH]; intros tb; simpl.
  { destruct (decide (ch ∈ [])) as [Hn|_]; [by apply not_elem_of_nil in Hn|done]. }
  rewrite IH. destruct (decide (ch = x)) as [->|Hne].
  - rewrite (decide_False (P := x ∈ l)), (decide_True (P := x ∈ x :: l)) by (done || by left).
    destruct (ct_tab tb !! x) as [c|] eqn:E; simpl; [by rewrite lookup_insert_eq|done].
  - assert (He : ct_tab (match ct_tab tb !! x with Some c => ct_set x (offered d c) tb | None => tb end)
      !! ch = ct_tab tb !! ch).
    { destruct (ct_tab tb !! x); simpl; [by rewrite lookup_insert_ne|done]. }
    rewrite He. destruct (decide (ch ∈ l)) as [Hin|Hin].
    + destruct (decide (ch ∈ x :: l)) as [_|Hn]; [done|destruct Hn; by right].
    + destruct (decide (ch ∈ x :: l)) as [Hn|_]; [|done]. by apply elem_of_cons in Hn as [?|?].
Qed.

Lemma ct_open_offer_all d l tb :
  ct_fresh tb → (∀ ch, ch ∈ l → ch ∈ ct_open tb) →
  ct_fresh (offer_all d l tb) ∧ ct_open (offer_all d l tb) = ct_open tb.
Proof.
  revert tb. induction l as [|x l IH]; intros tb Hf Hl; [done|]. simpl.
  destruct (ct_try_send_spec d x tb Hf) as (c & Hc & _ & Hf' & Ho); [apply Hl; by left|].
  rewrite Hc. rewrite <- Ho. apply IH; [done|]. intros ch Hch. rewrite Ho. apply Hl. by right.
Qed.
End table.
