(* ===== verification/Broker.v ===== *)
(** * Brokers

    The interface [broker.Broker] and its three implementations: [Noop], the
    Redis broker and the Kafka broker. A subscription is the pair of a receive
    channel and a [cancel] function; both are named by one number, the handle
    that [Subscribe] returns. *)

From S2P Require Import Prelude GoString Chan.

(** ** The interface *)

(** [Publish] and [Subscribe] are the methods of the Go interface; [Cancel] and
    [Recv] are what a holder of the results can do: call [cancel()], and receive
    from the channel. The subscriber's context is a number. *)
Class Broker (B : Type) := {
  Publish : string → string → B → B * option string;
  Subscribe : nat → string → B → B * nat;
  Cancel : nat → B → outcome B;
  Recv : nat → B → option (string * B)
}.

(** What the hub relies on: a subscription is live from [Subscribe] to its
    [Cancel], cancelling a live one does not panic, and nothing else ends or
    creates one. *)
Class BrokerLaws (B : Type) `{Broker B} := {
  broker_ok : B → Prop;
  live : B → gset nat;
  Publish_live r d b :
    broker_ok b → broker_ok (Publish r d b).1 ∧ live (Publish r d b).1 = live b;
  Subscribe_live c r b b' s :
    broker_ok b → Subscribe c r b = (b', s) →
    broker_ok b' ∧ s ∉ live b ∧ live b' = {[s]} ∪ live b;
  Cancel_live s b :
    broker_ok b → s ∈ live b →
    ∃ b', Cancel s b = Done b' ∧ broker_ok b' ∧ live b' = live b ∖ {[s]};
  Recv_live s b d b' :
    broker_ok b → Recv s b = Some (d, b') → broker_ok b' ∧ live b' = live b
}.

(** ** Noop *)

Module Noop.

(** [Noop{}] has no fields; the channels its [Subscribe] made live in a table. *)
Abbreviation t := (chans string).

Definition publish (_ _ : string) (b : t) : t * option string := (b, None).

(** [ch := make(chan []byte)]: unbuffered, and nothing ever sends on it. *)
Definition subscribe (_ : nat) (_ : string) (b : t) : t * nat := ct_make 0 b.

(** [cancel := func() { close(ch) }] *)
Definition cancel (s : nat) (b : t) : outcome t := ct_close s b.

#[global] Instance noop_broker : Broker t :=
  {| Publish := publish; Subscribe := subscribe; Cancel := cancel; Recv := ct_recv |}.

#[global] Program Instance noop_laws : BrokerLaws t :=
  {| broker_ok := ct_fresh; live := ct_open |}.
Next Obligation. done. Qed.
Next Obligation. intros c r b b' s Hf H. by destruct (ct_make_spec _ _ _ _ Hf H) as (? & ? & ? & _). Qed.
Next Obligation. intros s b Hf Hs. by apply ct_close_spec. Qed.
Next Obligation. intros s b d b' Hf H. exact (ct_recv_spec _ _ _ _ Hf H). Qed.

End Noop.

(** ** Redis *)

(** The Redis service as its client library shows it, for Pub/Sub: open
    subscriptions by handle, each with its channel name and the messages that
    [ReceiveMessage] has yet to return. *)
Class RedisPubSub (S : Type) := {
  rps_subscribe : string → S → S * nat;
  rps_publish : string → string → S → S * option string;
  rps_receive : nat → S → option (string * S);
  rps_close : nat → S → S;
  rps_queue : S → gmap nat (string * list string);
  rps_issued : S → gset nat
}.

(** Documented behaviour: PUBLISH reaches every current subscriber of the
    channel, the publishing process's own subscriptions included, in order. A
    subscription object is never handed out twice. *)
Class RedisPubSubLaws (S : Type) `{RedisPubSub S} := {
  rps_subscribe_ok c s s' k :
    rps_subscribe c s = (s', k) →
    k ∉ rps_issued s ∧ rps_issued s' = {[k]} ∪ rps_issued s
    ∧ rps_queue s' = <[k := (c, [])]> (rps_queue s);
  rps_publish_ok c d s s' :
    rps_publish c d s = (s', None) → rps_issued s' = rps_issued s ∧
    rps_queue s' = (λ q, (q.1, if String.eqb q.1 c then q.2 ++ [d] else q.2)) <$> rps_queue s;
  rps_publish_err c d s s' e :
    rps_publish c d s = (s', Some e) → rps_issued s' = rps_issued s ∧ rps_queue s' = rps_queue s;
  rps_receive_ok k s :
    match rps_queue s !! k with
    | Some (c, d :: q) =>
        ∃ s', rps_receive k s = Some (d, s') ∧ rps_issued s' = rps_issued s
          ∧ rps_queue s' = <[k := (c, q)]> (rps_queue s)
    | _ => rps_receive k s = None
    end;
  rps_close_ok k s :
    rps_issued (rps_close k s) = rps_issued s ∧ rps_queue (rps_close k s) = delete k (rps_queue s)
}.

Module Redis.
Section redis.
Context {S : Type} `{PS : RedisPubSub S}.

(** The broker: whether it or its client is nil, the service behind the client,
    and what its [Subscribe] calls created: the channels, and by channel the
    subscription, the context and whether the receiving goroutine still runs. *)
Record t : Type := mk {
  nil_client : bool;
  srv : S;
  tab : chans string;
  pumps : gmap nat (nat * nat * bool);
  done_ctx : gset nat
}.

#[global] Instance t_eta : Eta t := λ r,
  mk (r.(nil_client)) (r.(srv)) (r.(tab)) (r.(pumps)) (r.(done_ctx)).

(** [channel(roomID)] *)
Definition channel (roomID : string) : string := "room:" +:+ roomID.

Definition publish (roomID data : string) (b : t) : t * option string :=
  if nil_client b then (b, None)
  else let '(s', e) := rps_publish (channel roomID) data (srv b) in (b <| srv := s' |>, e).

Definition subscribe (ctx : nat) (roomID : string) (b : t) : t * nat :=
  let '(tab', ch) := ct_make 128 (tab b) in
  if nil_client b then (b <| tab := tab' |>, ch)
  else
    let '(s', ps) := rps_subscribe (channel roomID) (srv b) in
    (b <| tab := tab' |> <| srv := s' |> <| pumps := <[ch := (ps, ctx, true)]> (pumps b) |>, ch).

(** [cancel]: close the channel of a broker without client, the subscription of
    another. *)
Definition cancel (ch : nat) (b : t) : outcome t :=
  if nil_client b then outcome_bind (ct_close ch (tab b)) (λ tab', Done (b <| tab := tab' |>))
  else match pumps b !! ch with
       | Some (ps, _, _) => Done (b <| srv := rps_close ps (srv b) |>)
       | None => Done b
       end.

Definition recv (ch : nat) (b : t) : option (string * t) :=
  '(d, tab') ← ct_recv ch (tab b); Some (d, b <| tab := tab' |>).

(** One turn of the goroutine that [Subscribe] starts. [ReceiveMessage] fails
    when the context is done or the subscription closed, and the goroutine then
    closes the channel and ends; otherwise it sends the next message, blocking
    ([None]) while the channel is full or nothing was published. *)
Definition pump (ch : nat) (b : t) : option (outcome t) :=
  match pumps b !! ch with
  | Some (ps, ctx, true) =>
      if bool_decide (ctx ∈ done_ctx b) || bool_decide (rps_queue (srv b) !! ps = None) then
        Some (outcome_bind (ct_close ch (tab b)) (λ tab',
          Done (b <| tab := tab' |> <| pumps := <[ch := (ps, ctx, false)]> (pumps b) |>)))
      else match ct_tab (tab b) !! ch, rps_receive ps (srv b) with
           | Some c, Some (d, s') =>
               if bool_decide (length (chan_buf c) < chan_cap c)
               then Some (outcome_bind (ct_try_send d ch (tab b)) (λ tab',
                      Done (b <| tab := tab' |> <| srv := s' |>)))
               else None
           | _, _ => None
           end
  | _ => None
  end.

(** A stream's context is cancelled. *)
Definition ctx_cancel (ctx : nat) (b : t) : t := b <| done_ctx := {[ctx]} ∪ done_ctx b |>.

#[global] Instance redis_broker : Broker t :=
  {| Publish := publish; Subscribe := subscribe; Cancel := cancel; Recv := recv |}.

(** The subscriptions not yet cancelled. *)
Definition sub_open (b : t) : gset nat :=
  dom (filter (λ p, is_Some (rps_queue (srv b) !! p.2.1.1)) (pumps b)).
Definition redis_live (b : t) : gset nat := if nil_client b then ct_open (tab b) else sub_open b.

(** Handles are fresh, two channels never share a subscription, and a goroutine
    that runs has an open channel. *)
Record redis_ok (b : t) : Prop := {
  ok_tab : ct_fresh (tab b);
  ok_pumps ch p :
    pumps b !! ch = Some p → is_Some (ct_tab (tab b) !! ch) ∧ p.1.1 ∈ rps_issued (srv b);
  ok_inj ch1 ch2 p1 p2 :
    pumps b !! ch1 = Some p1 → pumps b !! ch2 = Some p2 → p1.1.1 = p2.1.1 → ch1 = ch2;
  ok_run ch ps ctx :
    nil_client b = false → pumps b !! ch = Some (ps, ctx, true) → ch ∈ ct_open (tab b)
}.

Lemma elem_sub_open ch b :
  ch ∈ sub_open b ↔ ∃ p, pumps b !! ch = Some p ∧ is_Some (rps_queue (srv b) !! p.1.1).
Proof.
  unfold sub_open. rewrite elem_of_dom. split.
  - intros [p Hp]. apply map_lookup_filter_Some in Hp as [Hp Hq]. by exists p.
  - intros (p & Hp & Hq). exists p. by apply map_lookup_filter_Some.
Qed.

(** The laws of the service give those of the broker. *)
Section laws.
Context `{!RedisPubSubLaws S}.

Lemma sub_open_srv b b' :
  pumps b' = pumps b →
  (∀ k, is_Some (rps_queue (srv b') !! k) ↔ is_Some (rps_queue (srv b) !! k)) →
  sub_open b' = sub_open b.
Proof.
  intros Hp Hq. apply set_eq. intros ch. rewrite !elem_sub_open, Hp. by setoid_rewrite Hq.
Qed.

Lemma publish_ok r d b :
  redis_ok b → redis_ok (publish r d b).1 ∧ redis_live (publish r d b).1 = redis_live b.
Proof.
  intros Hok. unfold publish. destruct (nil_client b) eqn:Hn; [done|].
  destruct (rps_publish _ _ _) as [s' [e|]] eqn:E; simpl; unfold redis_live; simpl; rewrite Hn.
  - apply rps_publish_err in E as [Hi Hq]. split; [|apply sub_open_srv; simpl; rewrite ?Hq; done].
    destruct Hok. constructor; simpl; [done|rewrite Hi; eauto|eauto..].
  - apply rps_publish_ok in E as [Hi Hq]. split.
    + destruct Hok. constructor; simpl; [done|rewrite Hi; eauto|eauto..].
    + apply sub_open_srv; [done|]. intros k. simpl. rewrite Hq, lookup_fmap. apply fmap_is_Some.
Qed.

Lemma subscribe_ok c r b b' ch :
  redis_ok b → subscribe c r b = (b', ch) →
  redis_ok b' ∧ ch ∉ redis_live b ∧ redis_live b' = {[ch]} ∪ redis_live b.
Proof.
  intros Hok H. unfold subscribe in H. destruct (ct_make 128 (tab b)) as [tab' k] eqn:Em.
  destruct (ct_make_spec _ _ _ _ (ok_tab _ Hok) Em) as (Hf & Hnin & Hopen & Htab & Hnone).
  assert (Hsome : ∀ k', is_Some (ct_tab (tab b) !! k') → is_Some (ct_tab tab' !! k')).
  { intros k' Hk'. rewrite Htab. apply lookup_insert_is_Some'. by right. }
  unfold redis_live. destruct (nil_client b) eqn:Hn.
  - injection H as <- <-. simpl. rewrite Hn. split_and!; [|done|done].
    destruct Hok as [? Hp ? ?]. constructor; simpl; [done| |done|congruence].
    intros ch' p Hch'. destruct (Hp ch' p Hch'). auto.
  - destruct (rps_subscribe _ _) as [s' ps] eqn:Es. injection H as <- <-.
    destruct (rps_subscribe_ok _ _ _ _ Es) as (Hni & Hi & Hq). simpl. rewrite Hn.
    destruct Hok as [? Hp Hinj Hrun].
    assert (Hkn : pumps b !! k = None).
    { destruct (pumps b !! k) as [p|] eqn:E; [|done]. destruct (Hp k p E) as [[? ?] _]. congruence. }
    split_and!.
    + constructor; simpl; [done|..].
      * intros ch' p [[<- <-]|[Hne Hp']]%lookup_insert_Some.
        -- split; [rewrite Htab, lookup_insert_eq; by eexists|simpl; set_solver].
        -- destruct (Hp ch' p Hp'). split; [auto|set_solver].
      * intros ch1 ch2 p1 p2 [[<- <-]|[Hne1 H1]]%lookup_insert_Some
          [[<- <-]|[Hne2 H2]]%lookup_insert_Some Heq; simpl in *; [done|..].
        -- destruct (Hp _ _ H2) as [_ ?]. congruence.
        -- destruct (Hp _ _ H1) as [_ ?]. congruence.
        -- by eapply Hinj.
      * intros ch' ps' ctx' _ [[<- _]|[_ Hp']]%lookup_insert_Some; rewrite Hopen; [set_solver|].
        apply elem_of_union_r. by eapply Hrun.
    + rewrite elem_sub_open. intros (p & Hk & _). congruence.
    + apply set_eq. intros ch'. rewrite elem_of_union, elem_of_singleton, !elem_sub_open. simpl.
      destruct (decide (k = ch')) as [->|Hne].
      * rewrite lookup_insert_eq, Hq. split; [by left|]. intros _.
        eexists; split; [done|]. simpl. by rewrite lookup_insert_eq.
      * rewrite lookup_insert_ne by done. rewrite Hq. split.
        -- intros (p & Hp1 & Hp2). right. exists p. split; [done|].
           destruct (Hp _ _ Hp1) as [_ Hin]. rewrite lookup_insert_ne in Hp2 by congruence. done.
        -- intros [?|(p & Hp1 & Hp2)]; [congruence|]. exists p. split; [done|].
           destruct (Hp _ _ Hp1) as [_ Hin]. by rewrite lookup_insert_ne by congruence.
Qed.

Lemma cancel_ok ch b :
  redis_ok b → ch ∈ redis_live b →
  ∃ b', cancel ch b = Done b' ∧ redis_ok b' ∧ redis_live b' = redis_live b ∖ {[ch]}.
Proof.
  intros Hok Hin. unfold cancel, redis_live in *. destruct (nil_client b) eqn:Hn.
  - destruct (ct_close_spec _ _ (ok_tab _ Hok) Hin) as (tab' & Hc & Hf & Ho). pose proof Hc as Hc'.
    rewrite Hc. simpl. eexists. split; [done|]. simpl. rewrite Hn. split; [|done].
    destruct Hok as [? Hp ? ?]. constructor; simpl; [done| |done|congruence].
    intros ch' p Hch'. destruct (Hp ch' p Hch') as [Hs ?]. split; [|done].
    unfold ct_close in Hc'. destruct (ct_tab (tab b) !! ch) as [c|]; [|done].
    unfold close_chan in Hc'. destruct (chan_closed c); [done|]. injection Hc' as <-. simpl.
    apply lookup_insert_is_Some'. by right.
  - pose proof Hin as ([[ps c] a] & Hp & Hq)%elem_sub_open. rewrite Hp. eexists. split; [done|].
    simpl. rewrite Hn. destruct (rps_close_ok ps (srv b)) as [Hi Hcl]. split.
    + destruct Hok as [? Hp' ? Hrun]. constructor; simpl; [done|rewrite Hi; eauto|done|intros ? ? ? _; by apply Hrun].
    + apply set_eq. intros ch'. rewrite elem_of_difference, elem_of_singleton, !elem_sub_open. simpl.
      rewrite Hcl. split.
      * intros (p & Hp1 & Hp2). destruct (decide (p.1.1 = ps)) as [Heq|Hne].
        -- rewrite Heq, lookup_delete_eq in Hp2. by destruct Hp2.
        -- rewrite lookup_delete_ne in Hp2 by done. split; [by exists p|].
          intros ->. rewrite Hp in Hp1. by injection Hp1 as <-.
      * intros [(p & Hp1 & Hp2) Hne]. exists p. split; [done|]. rewrite lookup_delete_ne; [done|].
        intros Heq. apply Hne. apply (ok_inj _ Hok _ _ _ _ Hp1 Hp). by simpl.
Qed.

Lemma recv_ok ch b d b' :
  redis_ok b → recv ch b = Some (d, b') → redis_ok b' ∧ redis_live b' = redis_live b.
Proof.
  intros Hok H. unfold recv in H. destruct (ct_recv ch (tab b)) as [[d' tab']|] eqn:E; [|done].
  injection H as <- <-. destruct (ct_recv_spec _ _ _ _ (ok_tab _ Hok) E) as [Hf Ho].
  split; [|unfold redis_live; simpl; by rewrite Ho].
  destruct Hok as [? Hp ? ?]. constructor; simpl; [done| |done|by rewrite Ho].
  intros ch' p Hch'. destruct (Hp ch' p Hch') as [Hs ?]. split; [|done].
  unfold ct_recv in E. destruct (ct_tab (tab b) !! ch) as [c|] eqn:Hc; simpl in E; [|done].
  destruct (recv_chan c) as [[y c']|]; simpl in E; [|done]. injection E as <- <-. simpl.
  apply lookup_insert_is_Some'. by right.
Qed.

(** A turn of the goroutine does not panic and keeps the subscriptions. *)
Lemma pump_ok ch b o :
  redis_ok b → nil_client b = false → pump ch b = Some o →
  ∃ b', o = Done b' ∧ redis_ok b' ∧ redis_live b' = redis_live b ∧ nil_client b' = false ∧ done_ctx b' = done_ctx b.
Proof.
  intros Hok Hn H. unfold pump in H. destruct (pumps b !! ch) as [[[ps ctx] run]|] eqn:Hp; [|done].
  destruct run; [|done]. unfold redis_live. rewrite Hn. pose proof (ok_run _ Hok _ _ _ Hn Hp) as Hopen.
  destruct (bool_decide (ctx ∈ done_ctx b) || bool_decide (rps_queue (srv b) !! ps = None)).
  - destruct (ct_close_spec _ _ (ok_tab _ Hok) Hopen) as (tab' & Hc & Hf & Ho). pose proof Hc as Hc'.
    rewrite Hc in H. injection H as <-. eexists. split; [reflexivity|]. simpl. rewrite Hn.
    assert (Hk : ∀ k, is_Some (ct_tab (tab b) !! k) → is_Some (ct_tab tab' !! k)).
    { unfold ct_close in Hc'. destruct (ct_tab (tab b) !! ch) as [c|] eqn:E; [|done].
      destruct (close_chan c); [|done]. injection Hc' as <-.
      intros k Hk. simpl. apply lookup_insert_is_Some'. by right. }
    split_and!; [|apply set_eq; intros ch'|done..].
    + destruct Hok as [? Hpu Hinj Hrun]. constructor; simpl; [done|..].
      * intros ch' p [[<- <-]|[Hne H']]%lookup_insert_Some; simpl.
        -- destruct (Hpu _ _ Hp). auto.
        -- destruct (Hpu _ _ H'). auto.
      * intros ch1 ch2 p1 p2 [[<- <-]|[Hne1 H1]]%lookup_insert_Some
          [[<- <-]|[Hne2 H2]]%lookup_insert_Some Heq; simpl in *; [done|..];
          [apply (Hinj _ _ _ _ Hp H2 Heq)|apply (Hinj _ _ _ _ H1 Hp Heq)|by eapply Hinj].
      * intros ch' ps' ctx' _ [[_ ?]|[Hne H']]%lookup_insert_Some; [done|]. rewrite Ho.
        apply elem_of_difference. split; [by apply (Hrun ch' ps' ctx' Hn)|]. rewrite elem_of_singleton. congruence.
    + rewrite !elem_sub_open. simpl. destruct (decide (ch = ch')) as [<-|Hne].
      * rewrite lookup_insert_eq, Hp. split; intros (p & [= <-] & Hq); eexists; (split; [done|exact Hq]).
      * by rewrite lookup_insert_ne.
  - destruct (ct_tab (tab b) !! ch) as [c|] eqn:Hc; [|done]. pose proof (rps_receive_ok ps (srv b)) as Hr.
    destruct (rps_receive ps (srv b)) as [[d s']|] eqn:Hrec; [|done]. case_bool_decide; [|done].
    destruct (rps_queue (srv b) !! ps) as [[nm [|d' q]]|] eqn:Hq; [done| |done].
    destruct Hr as (s2 & [= <- <-] & Hi & Hqs).
    destruct (ct_try_send_spec d ch (tab b) (ok_tab _ Hok) Hopen) as (c' & Hc' & Hs & Hf & Ho).
    rewrite Hs in H. injection H as <-. eexists. split; [reflexivity|]. simpl. rewrite Hn.
    split_and!; [|apply sub_open_srv; [done|]|done..].
    + destruct Hok as [_ Hpu Hinj Hrun]. constructor; simpl; [done| |done|].
      * intros ch' p H'. destruct (Hpu _ _ H') as [H1 H2]. split; [|by rewrite Hi].
        simpl. apply lookup_insert_is_Some'. by right.
      * intros ch' ps' ctx' _ H'. rewrite Ho. by apply (Hrun ch' ps' ctx').
    + intros k. simpl. rewrite Hqs, lookup_insert_is_Some'. split; [intros [<-|?]; [by eexists|done]|by right].
Qed.

#[global] Instance redis_laws : BrokerLaws t :=
  {| broker_ok := redis_ok; live := redis_live; Publish_live := publish_ok;
     Subscribe_live := subscribe_ok; Cancel_live := cancel_ok; Recv_live := recv_ok |}.

End laws.
End redis.
Arguments t S : clear implicits.
End Redis.

(** ** A Redis service in memory, to evaluate the broker with *)

Module MemRedis.

Record t : Type := mk { queues : gmap nat (string * list string); issued : gset nat }.

Definition subscribe (c : string) (s : t) : t * nat :=
  let k := fresh (issued s) in
  (mk (<[k := (c, [])]> (queues s)) ({[k]} ∪ issued s), k).

Definition publish (c d : string) (s : t) : t * option string :=
  (mk ((λ q, (q.1, if String.eqb q.1 c then q.2 ++ [d] else q.2)) <$> queues s) (issued s), None).

Definition receive (k : nat) (s : t) : option (string * t) :=
  match queues s !! k with
  | Some (c, d :: q) => Some (d, mk (<[k := (c, q)]> (queues s)) (issued s))
  | _ => None
  end.

Definition close (k : nat) (s : t) : t := mk (delete k (queues s)) (issued s).

#[global] Instance mem_pubsub : RedisPubSub t :=
  {| rps_subscribe := subscribe; rps_publish := publish; rps_receive := receive;
     rps_close := close; rps_queue := queues; rps_issued := issued |}.

#[global] Program Instance mem_pubsub_laws : RedisPubSubLaws t.
Next Obligation. intros c s s' k [= <- <-]. split; [apply is_fresh|done]. Qed.
Next Obligation. by intros c d s s' [= <-]. Qed.
Next Obligation. done. Qed.
Next Obligation.
  intros k s. unfold rps_queue, rps_receive. simpl. unfold receive.
  destruct (queues s !! k) as [[c [|d q]]|]; [done|by eexists|done].
Qed.
Next Obligation. done. Qed.

Definition empty : t := mk ∅ ∅.

End MemRedis.
