(* ===== verification/Kafka.v ===== *)
(** * The Kafka broker

    [app/broker/kafka_broker.go]. The registry of local subscribers is a map
    from rooms to Go slices, and [cancel] deletes from a slice in place, so the
    model keeps the backing arrays: a slice is a pointer to an array and a
    length, and two slices may share an array. The consumer goroutine copies a
    slice under the lock and then sends without it; its loop is a program
    counter, and its steps interleave with those of the subscribers. *)

From S2P Require Import Prelude GoString Chan Broker.

(** The Kafka client: [Writer.WriteMessages] of one message with its key, and
    [Reader.FetchMessage]. *)
Class KafkaClient (S : Type) := {
  kafka_write : string → string → S → S * option string;
  kafka_fetch : S → option (string * string * S)
}.

(** A slice of channel handles; the nil slice has no array. *)
Record slice : Type := mkSlice { sl_arr : option nat; sl_len : nat }.
Definition nil_slice : slice := mkSlice None 0.

Module Kafka.
Section kafka.
Context {K : Type} `{KC : KafkaClient K}.
(** The capacity that [append] gives a new array for [n] elements. *)
Context (grow : nat → nat).

Record t : Type := mk {
  srv : K;
  tab : chans string;                     (** the channels *)
  arrays : gmap nat (list nat);           (** backing arrays, of handles *)
  next_arr : nat;
  subs : gmap string slice;               (** [b.subs] *)
  room_of : gmap nat string;              (** the [roomID] each [cancel] closed over *)
  pc : option (string * slice * nat)      (** the consumer's [data], [channels], index *)
}.
#[global] Instance t_eta : Eta t := λ r,
  mk r.(srv) r.(tab) r.(arrays) r.(next_arr) r.(subs) r.(room_of) r.(pc).

(** [cfg.Topic == ""] and [cfg.GroupID == ""] *)
Record KafkaConfig : Type := mkConfig { Brokers : list string; Topic : string; GroupID : string }.
Definition defaultTopic : string := "chat-messages".
Definition defaultGroupID : string := "chat-service".

(** [kafka.WriterConfig] and [kafka.ReaderConfig] as they are filled in; times in nanoseconds. *)
Inductive balancer : Type := HashOfKey.
Inductive acks : Type := RequireOne.
Inductive offset : Type := LastOffset.

Record Writer : Type := mkWriter {
  w_Addr : list string; w_Topic : string; w_Balancer : balancer; w_RequiredAcks : acks; w_Async : bool;
  w_AllowAutoTopicCreation : bool; w_WriteTimeout : Z; w_BatchTimeout : Z; w_BatchSize : Z
}.
Record Reader : Type := mkReader {
  r_Brokers : list string; r_GroupID : string; r_Topic : string; r_MinBytes : Z; r_MaxBytes : Z; r_MaxWait : Z;
  r_CommitInterval : Z; r_StartOffset : offset
}.

(** [NewKafkaBroker]: the writer and the reader, or the error of an empty address list. *)
Definition NewKafkaBroker (cfg : KafkaConfig) : result string (Writer * Reader) :=
  match Brokers cfg with
  | [] => Err "kafka: at least one broker address is required"
  | _ =>
      let topic := if String.eqb (Topic cfg) "" then defaultTopic else Topic cfg in
      let group := if String.eqb (GroupID cfg) "" then defaultGroupID else GroupID cfg in
      Ok (mkWriter (Brokers cfg) topic HashOfKey RequireOne true true (5 * 10 ^ 9) (5 * 10 ^ 6) 100,
          mkReader (Brokers cfg) group topic 1 (Z.shiftl 1 20) (10 * 10 ^ 6) (10 ^ 9) LastOffset)
  end.

Definition publish (roomID data : string) (b : t) : t * option string :=
  let '(s', e) := kafka_write roomID data (srv b) in (b <| srv := s' |>, e).

(** The array behind a slice, and the elements the slice shows. *)
Definition backing (sl : slice) (b : t) : list nat :=
  match sl_arr sl with Some a => default [] (arrays b !! a) | None => [] end.
Definition elems (sl : slice) (b : t) : list nat := take (sl_len sl) (backing sl b).

(** [append(list, ch)]: in place when the array has room, else in a new array. *)
Definition append_one (sl : slice) (ch : nat) (b : t) : t * slice :=
  match sl_arr sl with
  | Some a =>
      if bool_decide (sl_len sl < length (backing sl b)) then
        (b <| arrays := <[a := <[sl_len sl := ch]> (backing sl b)]> (arrays b) |>,
         mkSlice (Some a) (sl_len sl + 1))
      else
        (b <| arrays := <[next_arr b := elems sl b ++ [ch]
                ++ replicate (grow (sl_len sl + 1) - (sl_len sl + 1)) 0]> (arrays b) |>
           <| next_arr := next_arr b + 1 |>,
         mkSlice (Some (next_arr b)) (sl_len sl + 1))
  | None =>
      (b <| arrays := <[next_arr b := [ch] ++ replicate (grow 1 - 1) 0]> (arrays b) |>
         <| next_arr := next_arr b + 1 |>,
       mkSlice (Some (next_arr b)) 1)
  end.

Definition lookup_subs (roomID : string) (b : t) : slice := default nil_slice (subs b !! roomID).

Definition subscribe (_ : nat) (roomID : string) (b : t) : t * nat :=
  let '(tab', ch) := ct_make 256 (tab b) in
  let b := b <| tab := tab' |> <| room_of := <[ch := roomID]> (room_of b) |> in
  let '(b, sl) := append_one (lookup_subs roomID b) ch b in
  (b <| subs := <[roomID := sl]> (subs b) |>, ch).

(** [append(list[:i], list[i+1:]...)]: the elements behind [i] move down by one
    in the array itself, and the slot behind the new length keeps its value. *)
Definition delete_at (i : nat) (sl : slice) (b : t) : t * slice :=
  match sl_arr sl with
  | Some a =>
      let arr := backing sl b in
      let arr' := take i arr ++ drop (S i) (take (sl_len sl) arr) ++ drop (sl_len sl - 1) arr in
      (b <| arrays := <[a := arr']> (arrays b) |>, mkSlice (Some a) (sl_len sl - 1))
  | None => (b, sl)
  end.

(** The [cancel] function of a subscription. *)
Definition cancel (ch : nat) (b : t) : outcome t :=
  match room_of b !! ch with
  | None => Done b
  | Some roomID =>
      let sl := lookup_subs roomID b in
      let b :=
        match list_find (λ c, c = ch) (elems sl b) with
        | Some (i, _) => let '(b, sl') := delete_at i sl b in b <| subs := <[roomID := sl']> (subs b) |>
        | None => b
        end in
      let b :=
        if bool_decide (sl_len (lookup_subs roomID b) = 0)
        then b <| subs := delete roomID (subs b) |> else b in
      outcome_bind (ct_close ch (tab b)) (λ tab', Done (b <| tab := tab' |>))
  end.

Definition recv (ch : nat) (b : t) : option (string * t) :=
  '(d, tab') ← ct_recv ch (tab b); Some (d, b <| tab := tab' |>).

#[global] Instance kafka_broker : Broker t :=
  {| Publish := publish; Subscribe := subscribe; Cancel := cancel; Recv := recv |}.

(** ** The consumer goroutine *)

(** One step of [consume]: fetch a message and copy the room's slice under the
    lock; send to the channel at the index; or commit and start over. [None]:
    nothing to fetch. *)
Definition consume (b : t) : option (outcome t) :=
  match pc b with
  | None =>
      match kafka_fetch (srv b) with
      | Some (key, value, s') =>
          Some (Done (b <| srv := s' |> <| pc := Some (value, lookup_subs key b, 0) |>))
      | None => None
      end
  | Some (data, channels, i) =>
      if bool_decide (i < sl_len channels) then
        match backing channels b !! i with
        | Some ch => Some (outcome_bind (ct_try_send data ch (tab b)) (λ tab',
                       Done (b <| tab := tab' |> <| pc := Some (data, channels, i + 1) |>)))
        | None => None
        end
      else Some (Done (b <| pc := None |>))
  end.

(** The consumer alone, from a fetched message to its commit. *)
Fixpoint dispatch (n : nat) (b : t) : option (outcome t) :=
  match n with
  | 0 => Some (Done b)
  | S n =>
      match consume b with
      | Some (Done b') => match pc b' with None => Some (Done b') | Some _ => dispatch n b' end
      | r => r
      end
  end.

(** ** The registry *)

(** The subscribers of every room, as the slices show them. *)
Definition registry (b : t) : gmap string (list nat) := (λ sl, elems sl b) <$> subs b.

(** Every slice of the registry has an array of its own, long enough, and is
    not empty; handles are fresh. *)
Record reg_ok (b : t) : Prop := {
  reg_tab : ct_fresh (tab b);
  reg_slice r sl :
    subs b !! r = Some sl →
    ∃ a arr, sl_arr sl = Some a ∧ arrays b !! a = Some arr ∧ a < next_arr b
      ∧ 0 < sl_len sl ≤ length arr;
  reg_inj r1 r2 sl1 sl2 :
    subs b !! r1 = Some sl1 → subs b !! r2 = Some sl2 → sl_arr sl1 = sl_arr sl2 → r1 = r2
}.

(** The specification: what each operation does to the subscriber lists. *)
Definition spec_subscribe (r : string) (ch : nat) (reg : gmap string (list nat)) :=
  <[r := default [] (reg !! r) ++ [ch]]> reg.
Definition remove_first (ch : nat) (l : list nat) : list nat :=
  match list_find (λ c, c = ch) l with Some (i, _) => delete i l | None => l end.
Definition spec_cancel (r : string) (ch : nat) (reg : gmap string (list nat)) :=
  match remove_first ch (default [] (reg !! r)) with
  | [] => delete r reg
  | l => <[r := l]> reg
  end.

Lemma elems_eq sl a arr b :
  sl_arr sl = Some a → arrays b !! a = Some arr → elems sl b = take (sl_len sl) arr.
Proof. intros H1 H2. unfold elems, backing. by rewrite H1, H2. Qed.

Lemma registry_elems r b : default [] (registry b !! r) = elems (lookup_subs r b) b.
Proof.
  unfold registry, lookup_subs. rewrite lookup_fmap. by destruct (subs b !! r).
Qed.

(** Writing a slice's own array changes no other room's list. *)
Lemma registry_set r sl a arr b b' :
  reg_ok b → subs b' = <[r := sl]> (subs b) → sl_arr sl = Some a →
  arrays b' = <[a := arr]> (arrays b) →
  (∀ r' sl', r' ≠ r → subs b !! r' = Some sl' → sl_arr sl' ≠ Some a) →
  registry b' = <[r := take (sl_len sl) arr]> (registry b).
Proof.
  intros Hok Hs Ha Harr Hother. apply map_eq. intros r'. unfold registry.
  rewrite lookup_fmap, Hs. destruct (decide (r = r')) as [<-|Hne].
  - rewrite !lookup_insert_eq. simpl. f_equal. apply (elems_eq _ a); [done|].
    by rewrite Harr, lookup_insert_eq.
  - rewrite !lookup_insert_ne, lookup_fmap by done. destruct (subs b !! r') as [sl'|] eqn:E; [|done].
    simpl. f_equal. destruct (reg_slice _ Hok _ _ E) as (a' & arr' & Ha' & Harr' & _).
    rewrite (elems_eq _ a' arr'), (elems_eq _ a' arr'); [done..|].
    rewrite Harr, lookup_insert_ne; [done|]. intros <-. by apply (Hother r' sl').
Qed.

Lemma reg_ok_set r sl a arr b b' :
  reg_ok b → ct_fresh (tab b') → subs b' = <[r := sl]> (subs b) → sl_arr sl = Some a →
  arrays b' = <[a := arr]> (arrays b) → next_arr b ≤ next_arr b' → a < next_arr b' →
  0 < sl_len sl ≤ length arr →
  (∀ r' sl', r' ≠ r → subs b !! r' = Some sl' → sl_arr sl' ≠ Some a) → reg_ok b'.
Proof.
  intros [Ht Hsl Hinj] Htab Hs Ha Harr Hnext Hlt Hlen Hother. constructor; [done|..].
  - intros r' sl'. rewrite Hs. intros [[<- <-]|[Hne H']]%lookup_insert_Some.
    + exists a, arr. rewrite Harr, lookup_insert_eq. done.
    + destruct (Hsl _ _ H') as (a' & arr' & Ha' & Harr' & Hlt' & Hlen'). exists a', arr'.
      rewrite Harr, lookup_insert_ne; [split_and!; [done..|lia|lia|lia]|].
      intros <-. by apply (Hother r' sl').
  - intros r1 r2 sl1 sl2. rewrite Hs.
    intros [[<- <-]|[Hne1 H1]]%lookup_insert_Some [[<- <-]|[Hne2 H2]]%lookup_insert_Some Heq;
      [done|..].
    + exfalso. apply (Hother r2 sl2); [done|done|]. by rewrite <- Heq.
    + exfalso. apply (Hother r1 sl1); [done|done|]. by rewrite Heq.
    + by eapply Hinj.
Qed.

Lemma subs_other_array b r sl a :
  reg_ok b → subs b !! r = Some sl → sl_arr sl = Some a →
  ∀ r' sl', r' ≠ r → subs b !! r' = Some sl' → sl_arr sl' ≠ Some a.
Proof. intros Hok H Ha r' sl' Hne H' Heq. apply Hne. eapply reg_inj; eauto. congruence. Qed.

Lemma subs_fresh_array b :
  reg_ok b → ∀ r' sl', subs b !! r' = Some sl' → sl_arr sl' ≠ Some (next_arr b).
Proof.
  intros Hok r' sl' H' Heq. destruct (reg_slice _ Hok _ _ H') as (a & ? & Ha & _ & Hlt & _).
  rewrite Heq in Ha. injection Ha as <-. lia.
Qed.

(** [append] to a room's slice: the array it writes, and what it leaves there. *)
Lemma append_one_spec r ch b :
  reg_ok b →
  ∃ a arr,
    let sl := lookup_subs r b in
    let b' := (append_one sl ch b).1 in let sl' := (append_one sl ch b).2 in
    sl_arr sl' = Some a ∧ arrays b' = <[a := arr]> (arrays b) ∧ subs b' = subs b
    ∧ tab b' = tab b ∧ next_arr b ≤ next_arr b' ∧ a < next_arr b' ∧ 0 < sl_len sl' ≤ length arr
    ∧ take (sl_len sl') arr = elems sl b ++ [ch]
    ∧ (∀ r' sl', r' ≠ r → subs b !! r' = Some sl' → sl_arr sl' ≠ Some a).
Proof.
  intros Hok. unfold lookup_subs. destruct (subs b !! r) as [sl|] eqn:E; simpl.
  - destruct (reg_slice _ Hok _ _ E) as (a & arr & Ha & Harr & Hlt & Hlen).
    assert (Hb : backing sl b = arr) by (unfold backing; by rewrite Ha, Harr).
    unfold append_one, elems. rewrite Ha, Hb. case_bool_decide as Hcap; simpl.
    + exists a, (<[sl_len sl:=ch]> arr). split_and!; try done.
      * lia.
      * rewrite length_insert. lia.
      * replace (sl_len sl + 1) with (S (sl_len sl)) by lia.
        rewrite (take_S_r _ _ ch) by (by apply list_lookup_insert_eq).
        by rewrite take_insert_ge by lia.
      * by eapply subs_other_array.
    + eexists (next_arr b), _. split_and!; try done.
      * lia.
      * lia.
      * lia.
      * rewrite !length_app, length_take. simpl. lia.
      * rewrite take_app, length_take, (take_ge (take _ _)) by (rewrite length_take; lia).
        by replace (sl_len sl + 1 - sl_len sl `min` length arr) with 1 by lia.
      * intros r' sl' _. by apply subs_fresh_array.
  - eexists (next_arr b), _. split_and!; try done; [lia|lia|lia|simpl; lia|].
    intros r' sl' _. by apply subs_fresh_array.
Qed.

Lemma subscribe_spec c r b b' ch :
  reg_ok b → subscribe c r b = (b', ch) →
  reg_ok b' ∧ registry b' = spec_subscribe r ch (registry b)
  ∧ ch ∉ ct_open (tab b) ∧ ct_open (tab b') = {[ch]} ∪ ct_open (tab b).
Proof.
  intros Hok H. unfold subscribe in H. destruct (ct_make 256 (tab b)) as [tab' k] eqn:Em.
  destruct (ct_make_spec _ _ _ _ (reg_tab _ Hok) Em) as (Hf & Hnin & Hopen & _ & _).
  set (b1 := b <| tab := tab' |> <| room_of := _ |>) in H.
  assert (Hok1 : reg_ok b1) by (destruct Hok; by constructor).
  destruct (append_one_spec r k b1 Hok1) as (a & arr & Ha & Harr & Hs & Ht & Hn & Hlt & Hlen & Htk & Ho).
  destruct (append_one (lookup_subs r b1) k b1) as [b2 sl] eqn:Ea. injection H as <- <-.
  simpl in *. split_and!.
  - apply (reg_ok_set r sl a arr b1 _ Hok1); simpl; try done; [by rewrite Ht|by rewrite Hs].
  - rewrite (registry_set r sl a arr b1 _ Hok1); simpl; try done; [|by rewrite Hs].
    rewrite Htk. unfold spec_subscribe. by rewrite registry_elems.
  - done.
  - by rewrite Ht.
Qed.

Lemma delete_at_list i len (arr : list nat) :
  i < len → len ≤ length arr →
  length (take i arr ++ drop (S i) (take len arr) ++ drop (len - 1) arr) = length arr
  ∧ take (len - 1) (take i arr ++ drop (S i) (take len arr) ++ drop (len - 1) arr)
    = delete i (take len arr).
Proof.
  intros Hi Hlen. assert (Hd : delete i (take len arr) = take i arr ++ drop (S i) (take len arr)).
  { rewrite delete_take_drop, take_take. do 2 f_equal. lia. }
  assert (Hl : length (delete i (take len arr)) = len - 1).
  { rewrite length_delete; rewrite ?length_take; [lia|].
    apply lookup_lt_is_Some. rewrite length_take. lia. }
  rewrite app_assoc, <- Hd. split.
  - rewrite length_app, Hl, length_drop. lia.
  - rewrite <- Hl at 1. apply take_app_length.
Qed.

Lemma remove_first_notin ch l : ch ∉ l → remove_first ch l = l.
Proof.
  intros H. unfold remove_first. destruct (list_find _ l) as [[i c]|] eqn:E; [|done].
  apply list_find_Some in E as (Hi & -> & _). apply list_elem_of_lookup_2 in Hi. done.
Qed.

(** The slice that the deletion leaves in the registry, before an empty one is
    dropped. *)
Lemma delete_at_spec r b sl i c :
  reg_ok b → subs b !! r = Some sl → elems sl b !! i = Some c →
  ∃ a arr,
    let b' := (delete_at i sl b).1 in let sl' := (delete_at i sl b).2 in
    sl_arr sl' = Some a ∧ sl_arr sl = Some a ∧ arrays b' = <[a := arr]> (arrays b) ∧ subs b' = subs b
    ∧ tab b' = tab b ∧ next_arr b' = next_arr b ∧ a < next_arr b ∧ sl_len sl' ≤ length arr
    ∧ take (sl_len sl') arr = delete i (elems sl b) ∧ sl_len sl' = length (delete i (elems sl b)).
Proof.
  intros Hok E Hi. destruct (reg_slice _ Hok _ _ E) as (a & arr & Ha & Harr & Hlt & Hlen).
  pose proof (elems_eq _ _ _ _ Ha Harr) as Hel.
  assert (Hb : backing sl b = arr) by (unfold backing; by rewrite Ha, Harr).
  assert (Hil : i < sl_len sl).
  { apply lookup_lt_Some in Hi. rewrite Hel, length_take in Hi. lia. }
  destruct (delete_at_list i (sl_len sl) arr Hil) as [H1 H2]; [lia|].
  unfold delete_at. rewrite Ha, Hb. simpl. exists a. eexists. split_and!; try done.
  - rewrite H1. lia.
  - rewrite H2. by rewrite Hel.
  - rewrite Hel, <- H2, length_take, H1. lia.
Qed.

(** Dropping a room's slice, whatever was written to its array. *)
Lemma registry_drop r sl a arr b b' :
  reg_ok b → subs b !! r = Some sl → sl_arr sl = Some a → tab b' = tab b →
  subs b' = delete r (subs b) → arrays b' = <[a := arr]> (arrays b) → next_arr b' = next_arr b →
  reg_ok b' ∧ registry b' = delete r (registry b).
Proof.
  intros Hok E Ha Ht Hs Harr Hn. pose proof (subs_other_array _ _ _ _ Hok E Ha) as Ho. split.
  - destruct Hok as [Htab Hsl Hinj]. constructor; [by rewrite Ht|..].
    + intros r' sl'. rewrite Hs. intros [Hne H']%lookup_delete_Some.
      destruct (Hsl _ _ H') as (a' & arr' & Ha' & Harr' & Hlt & Hlen). exists a', arr'.
      rewrite Harr, Hn, lookup_insert_ne; [done|]. intros <-. by apply (Ho r' sl').
    + intros r1 r2 sl1 sl2. rewrite Hs.
      intros [_ H1]%lookup_delete_Some [_ H2]%lookup_delete_Some. eauto.
  - apply map_eq. intros r'. unfold registry. rewrite lookup_fmap, Hs.
    destruct (decide (r = r')) as [<-|Hne]; [by rewrite !lookup_delete_eq|].
    rewrite !lookup_delete_ne, lookup_fmap by done. destruct (subs b !! r') as [sl'|] eqn:E'; [|done].
    simpl. f_equal. destruct (reg_slice _ Hok _ _ E') as (a' & arr' & Ha' & Harr' & _).
    rewrite (elems_eq _ a' arr'), (elems_eq _ a' arr'); [done..|].
    rewrite Harr, lookup_insert_ne; [done|]. intros <-. by apply (Ho r' sl').
Qed.

(** [cancel] on the registry, for a room that has subscribers. *)
Definition unsubscribe (r : string) (ch : nat) (b : t) : t :=
  let sl := lookup_subs r b in
  let b :=
    match list_find (λ c, c = ch) (elems sl b) with
    | Some (i, _) => let '(b, sl') := delete_at i sl b in b <| subs := <[r := sl']> (subs b) |>
    | None => b
    end in
  if bool_decide (sl_len (lookup_subs r b) = 0) then b <| subs := delete r (subs b) |> else b.

Lemma cancel_unfold ch b :
  cancel ch b =
    match room_of b !! ch with
    | None => Done b
    | Some r => outcome_bind (ct_close ch (tab (unsubscribe r ch b)))
                  (λ tab', Done (unsubscribe r ch b <| tab := tab' |>))
    end.
Proof. done. Qed.

Lemma elems_nil sl b : elems sl b = [] → 0 < sl_len sl → backing sl b = [].
Proof. unfold elems. destruct (backing sl b); [done|]. destruct (sl_len sl); simpl; [lia|done]. Qed.

Lemma unsubscribe_spec r ch b :
  reg_ok b →
  reg_ok (unsubscribe r ch b) ∧ registry (unsubscribe r ch b) = spec_cancel r ch (registry b)
  ∧ tab (unsubscribe r ch b) = tab b.
Proof using Type.
  intros Hok. unfold unsubscribe, spec_cancel, remove_first. rewrite registry_elems. cbv zeta.
  destruct (subs b !! r) as [sl|] eqn:E.
  - assert (Hl0 : lookup_subs r b = sl) by (unfold lookup_subs; by rewrite E).
    rewrite !Hl0. destruct (reg_slice _ Hok _ _ E) as (a & arr & Ha & Harr & Hlt & Hlen).
    destruct (list_find _ (elems sl b)) as [[i c]|] eqn:Hf.
    + apply list_find_Some in Hf as (Hi & -> & _).
      destruct (delete_at_spec r b sl i ch Hok E Hi)
        as (a' & arr' & Ha' & Haa & Harr' & Hs & Ht & Hn & Hlt' & Hlen' & Htk & Hl).
      destruct (delete_at i sl b) as [b1 sl'] eqn:Hd. simpl in *.
      unfold lookup_subs. simpl. rewrite lookup_insert_eq. simpl.
      destruct (delete i (elems sl b)) as [|y l] eqn:Hdel; simpl in Hl.
      * rewrite bool_decide_true by done. simpl.
        destruct (registry_drop r sl a' arr' b (b1 <| subs := delete r (<[r:=sl']> (subs b1)) |>))
          as [H1 H2]; try done; simpl; by rewrite delete_insert_eq, Hs.
      * rewrite bool_decide_false by lia. split_and!; [..|done].
        -- apply (reg_ok_set r sl' a' arr' b _ Hok); simpl; try done;
             [rewrite Ht; apply Hok|by rewrite Hs|lia|lia|lia|by eapply subs_other_array].
        -- rewrite (registry_set r sl' a' arr' b _ Hok); simpl; try done;
             [by rewrite Htk|by rewrite Hs|by eapply subs_other_array].
    + rewrite Hl0, bool_decide_false by lia. split_and!; [done| |done].
      destruct (elems sl b) as [|y l] eqn:Hel.
      * apply elems_nil in Hel; [|lia]. unfold backing in Hel. rewrite Ha, Harr in Hel.
        simpl in Hel. subst. simpl in Hlen. lia.
      * rewrite insert_id; [done|]. unfold registry. by rewrite lookup_fmap, E, <- Hel.
  - assert (Hl0 : lookup_subs r b = nil_slice) by (unfold lookup_subs; by rewrite E).
    rewrite !Hl0. simpl. rewrite Hl0. simpl.
    assert (Hd : delete r (subs b) = subs b) by by apply delete_id.
    rewrite Hd. split_and!; [by destruct b| |done].
    symmetry. rewrite delete_id; [by destruct b|]. unfold registry. by rewrite lookup_fmap, E.
Qed.

Lemma cancel_spec r ch b :
  reg_ok b → room_of b !! ch = Some r → ch ∈ ct_open (tab b) →
  ∃ b', cancel ch b = Done b' ∧ reg_ok b' ∧ registry b' = spec_cancel r ch (registry b)
    ∧ ct_open (tab b') = ct_open (tab b) ∖ {[ch]}.
Proof using Type.
  intros Hok Hr Hin. destruct (unsubscribe_spec r ch b Hok) as (Hok' & Hreg & Ht).
  rewrite cancel_unfold, Hr, Ht.
  destruct (ct_close_spec _ _ (reg_tab _ Hok) Hin) as (tab' & -> & Hf & Ho). simpl.
  eexists. split_and!; [done|destruct Hok'; by constructor|done|done].
Qed.

(** The registry lists under a room exactly the open channels subscribed to it,
    each once. *)
Record kafka_ok (b : t) : Prop := {
  k_reg : reg_ok b;
  k_room ch : ch ∈ ct_open (tab b) → is_Some (room_of b !! ch);
  k_nodup r : NoDup (default [] (registry b !! r));
  k_elem r ch :
    ch ∈ default [] (registry b !! r) ↔ ch ∈ ct_open (tab b) ∧ room_of b !! ch = Some r
}.

Lemma spec_subscribe_lookup r ch reg r' :
  default [] (spec_subscribe r ch reg !! r') =
    default [] (reg !! r') ++ (if decide (r = r') then [ch] else []).
Proof.
  unfold spec_subscribe. case_decide as Heq.
  - subst. by rewrite lookup_insert_eq.
  - by rewrite lookup_insert_ne, app_nil_r.
Qed.

Lemma spec_cancel_lookup r ch reg r' :
  default [] (spec_cancel r ch reg !! r') =
    if decide (r = r') then remove_first ch (default [] (reg !! r')) else default [] (reg !! r').
Proof using Type.
  unfold spec_cancel. case_decide as Heq.
  - subst. destruct (remove_first _ _).
    + by rewrite lookup_delete_eq.
    + by rewrite lookup_insert_eq.
  - destruct (remove_first _ _).
    + by rewrite lookup_delete_ne.
    + by rewrite lookup_insert_ne.
Qed.

Lemma remove_first_spec ch l :
  NoDup l → NoDup (remove_first ch l) ∧ ∀ x, x ∈ remove_first ch l ↔ x ∈ l ∧ x ≠ ch.
Proof using Type. clear grow.
  intros Hnd. unfold remove_first. destruct (list_find _ l) as [[i c]|] eqn:E.
  - apply list_find_Some in E as (Hi & -> & _).
    rewrite <- (take_drop_middle l i ch Hi) in Hnd. rewrite delete_take_drop.
    apply NoDup_app in Hnd as (H1 & H2 & [H3 H4]%NoDup_cons). split.
    + apply NoDup_app. split_and!; [done| |done]. intros x Hx Hx'. apply (H2 x Hx). by right.
    + intros x. rewrite <- (take_drop_middle l i ch Hi) at 3.
      rewrite !elem_of_app, elem_of_cons. split; [|naive_solver].
      intros [Hx|Hx]; (split; [naive_solver|intros ->]); [|done].
      apply (H2 _ Hx). by left.
  - split; [done|]. intros x. split; [|by intros []]. intros Hx. split; [done|]. intros ->.
    apply list_find_None in E. rewrite Forall_forall in E. by apply (E ch).
Qed.

Lemma subscribe_room c r b b' ch :
  subscribe c r b = (b', ch) → room_of b' = <[ch := r]> (room_of b).
Proof.
  unfold subscribe. destruct (ct_make 256 (tab b)) as [tab' k]. unfold append_one.
  repeat case_match; intros [= <- <-]; simplify_eq/=; done.
Qed.

Lemma cancel_room ch b b' : cancel ch b = Done b' → room_of b' = room_of b.
Proof using Type.
  rewrite cancel_unfold. destruct (room_of b !! ch) as [r|]; [|by intros [= <-]].
  destruct (ct_close _ _); [|done]. simpl. intros [= <-]. simpl.
  unfold unsubscribe, delete_at. repeat case_match; simplify_eq/=; done.
Qed.

Lemma kafka_subscribe_ok c r b b' ch :
  kafka_ok b → subscribe c r b = (b', ch) →
  kafka_ok b' ∧ ch ∉ ct_open (tab b) ∧ ct_open (tab b') = {[ch]} ∪ ct_open (tab b).
Proof.
  intros [Hreg Hroom Hnd Hel] H. pose proof (subscribe_room _ _ _ _ _ H) as Hro.
  destruct (subscribe_spec _ _ _ _ _ Hreg H) as (Hreg' & Hr & Hnin & Ho).
  assert (Hnot : ∀ r', ch ∉ default [] (registry b !! r')) by (intros r' [? _]%Hel; done).
  split; [|done]. constructor; [done|..].
  - intros k. rewrite Ho, Hro. intros [->%elem_of_singleton|Hk]%elem_of_union.
    + rewrite lookup_insert_eq. by eexists.
    + apply lookup_insert_is_Some'. right. by apply Hroom.
  - intros r'. rewrite Hr, spec_subscribe_lookup. case_decide; [|by rewrite app_nil_r].
    apply NoDup_app. split_and!; [done|set_solver|apply NoDup_singleton].
  - intros r' k. rewrite Hr, spec_subscribe_lookup, elem_of_app, Hel, Ho, Hro, elem_of_union,
      elem_of_singleton.
    destruct (decide (k = ch)) as [->|Hne].
    + rewrite lookup_insert_eq. case_decide; set_solver.
    + rewrite lookup_insert_ne by done. case_decide; set_solver.
Qed.

Lemma kafka_cancel_ok ch b :
  kafka_ok b → ch ∈ ct_open (tab b) →
  ∃ b', cancel ch b = Done b' ∧ kafka_ok b' ∧ ct_open (tab b') = ct_open (tab b) ∖ {[ch]}.
Proof using Type. clear grow.
  intros [Hreg Hroom Hnd Hel] Hin. destruct (Hroom _ Hin) as [r Hr].
  destruct (cancel_spec r ch b Hreg Hr Hin) as (b' & Hc & Hreg' & Hre & Ho).
  pose proof (cancel_room _ _ _ Hc) as Hro. exists b'. split_and!; [done| |done].
  constructor; [done|..].
  - intros k. rewrite Ho, Hro. intros [Hk _]%elem_of_difference. by apply Hroom.
  - intros r'. rewrite Hre, spec_cancel_lookup. case_decide; [|done]. by apply remove_first_spec.
  - intros r' k. rewrite Hre, spec_cancel_lookup, Ho, Hro, elem_of_difference, elem_of_singleton.
    case_decide as Heq.
    + subst. rewrite (proj2 (remove_first_spec ch _ (Hnd r'))), Hel. naive_solver.
    + rewrite Hel. split; [|naive_solver]. intros [? Hk]. split_and!; [done| |done].
      intros ->. congruence.
Qed.

#[global] Program Instance kafka_laws : BrokerLaws t :=
  {| broker_ok := kafka_ok; live b := ct_open (tab b);
     Subscribe_live := kafka_subscribe_ok; Cancel_live := kafka_cancel_ok |}.
Next Obligation.
  intros r d b [Hreg ???]. simpl. unfold publish. destruct (kafka_write _ _ _) as [s' e]. simpl.
  split; [|done]. constructor; simpl; try done. destruct Hreg. by constructor.
Qed.
Next Obligation.
  intros ch b d b' [Hreg Hroom Hnd Hel] H. simpl in H. unfold recv in H.
  destruct (ct_recv ch (tab b)) as [[d' tab']|] eqn:E; [|done]. injection H as <- <-.
  destruct (ct_recv_spec _ _ _ _ (reg_tab _ Hreg) E) as [Hf Ho]. simpl. split; [|done].
  constructor; simpl; [destruct Hreg; by constructor|rewrite Ho; done|done|rewrite Ho; done].
Qed.

(** ** Dispatching one message *)

(** From a position in the copied slice, while nothing else runs. *)
Lemma dispatch_rest d sl a arr k i b :
  pc b = Some (d, sl, i) → sl_arr sl = Some a → arrays b !! a = Some arr → sl_len sl ≤ length arr →
  i + k = sl_len sl → ct_fresh (tab b) → (∀ ch, ch ∈ take (sl_len sl) arr → ch ∈ ct_open (tab b)) →
  dispatch (S k) b =
    Some (Done (b <| tab := offer_all d (drop i (take (sl_len sl) arr)) (tab b) |> <| pc := None |>)).
Proof.
  intros Hpc Ha Harr Hlen. revert i b Hpc Harr. induction k as [|k IH]; intros i b Hpc Harr Hik Hf Hin.
  - simpl. unfold consume. rewrite Hpc, bool_decide_false by lia. simpl.
    rewrite drop_ge by (rewrite length_take; lia). simpl. by destruct b.
  - assert (Hb : backing sl b = arr) by (unfold backing; by rewrite Ha, Harr).
    destruct (lookup_lt_is_Some_2 (take (sl_len sl) arr) i) as [ch Hch];
      [rewrite length_take; lia|].
    rewrite (drop_S _ _ _ Hch). assert (Hch' : arr !! i = Some ch).
    { by rewrite lookup_take_Some in Hch; destruct Hch. }
    destruct (ct_try_send_spec d ch (tab b) Hf) as (c & Hc & Hsend & Hf' & Ho).
    { apply Hin. by eapply list_elem_of_lookup_2. }
    change (dispatch (S (S k)) b) with
      (match consume b with
       | Some (Done b') => match pc b' with None => Some (Done b') | Some _ => dispatch (S k) b' end
       | r => r end).
    unfold consume at 1. rewrite Hpc, bool_decide_true, Hb, Hch', Hsend by lia. cbv beta iota delta [outcome_bind].
    replace (pc _) with (Some (d, sl, i + 1)) by done. cbv iota.
    rewrite (IH (i + 1)); [|done|done|lia|done|].
    + simpl. rewrite Hc. by replace (i + 1) with (S i) by lia.
    + intros ch' Hch1. simpl. rewrite Ho. by apply Hin.
Qed.

Lemma reg_elems_open b r ch : kafka_ok b → ch ∈ elems (lookup_subs r b) b → ch ∈ ct_open (tab b).
Proof. intros Hok H. rewrite <- registry_elems in H. by apply (k_elem _ Hok) in H as [? _]. Qed.

(** The consumer alone delivers a fetched message and comes back to its loop's
    head within [n + 2] steps for [n] subscribers. *)
Lemma dispatch_fetched b key value s' :
  kafka_ok b → pc b = None → kafka_fetch (srv b) = Some (key, value, s') →
  dispatch (sl_len (lookup_subs key b) + 2) b =
    Some (Done (b <| srv := s' |>
                  <| tab := offer_all value (default [] (registry b !! key)) (tab b) |>)).
Proof.
  intros Hok Hpc Hfetch. rewrite registry_elems. set (sl := lookup_subs key b).
  replace (sl_len sl + 2) with (S (S (sl_len sl))) by lia.
  change (dispatch (S (S (sl_len sl))) b) with
    (match consume b with
     | Some (Done b') => match pc b' with None => Some (Done b') | Some _ => dispatch (S (sl_len sl)) b' end
     | r => r end).
  unfold consume at 1. rewrite Hpc, Hfetch. replace (pc _) with (Some (value, sl, 0)) by done. cbv iota.
  destruct (subs b !! key) as [sl0|] eqn:E.
  - assert (Hsl : sl = sl0) by (unfold sl, lookup_subs; by rewrite E).
    destruct (reg_slice _ (k_reg _ Hok) _ _ E) as (a & arr & Ha & Harr & Hlt & Hlen).
    rewrite (dispatch_rest value sl a arr (sl_len sl) 0); simpl; try done.
    + rewrite (elems_eq sl a arr), drop_0; [|by rewrite Hsl|done].
      by destruct b; simpl in *; subst.
    + by rewrite Hsl.
    + rewrite Hsl. lia.
    + apply Hok.
    + intros ch Hch. apply (reg_elems_open b key); [done|]. fold sl.
      rewrite (elems_eq sl a arr); [done|by rewrite Hsl|done].
  - assert (Hsl : lookup_subs key b = nil_slice) by (unfold lookup_subs; by rewrite E).
    subst sl. rewrite Hsl. cbn [dispatch sl_len nil_slice]. unfold consume. cbn.
    case_bool_decide; [lia|]. destruct b; cbn in *. by subst.
Qed.

Lemma kafka_ok_offer b s' d l :
  kafka_ok b → (∀ ch, ch ∈ l → ch ∈ ct_open (tab b)) →
  kafka_ok (b <| srv := s' |> <| tab := offer_all d l (tab b) |>).
Proof.
  intros [Hreg Hroom Hnd Hel] Hl. destruct (ct_open_offer_all d l (tab b) (reg_tab _ Hreg) Hl) as [Hf Ho].
  constructor; simpl; try rewrite Ho; try done. destruct Hreg. by constructor.
Qed.

(** What a cancellation leaves in the array of its room's slice; the consumer's
    position does not move. *)
Lemma unsubscribe_array r ch b sl a arr i :
  lookup_subs r b = sl → sl_arr sl = Some a → arrays b !! a = Some arr →
  list_find (λ c, c = ch) (take (sl_len sl) arr) = Some (i, ch) →
  pc (unsubscribe r ch b) = pc b ∧
  arrays (unsubscribe r ch b) !! a =
    Some (take i arr ++ drop (S i) (take (sl_len sl) arr) ++ drop (sl_len sl - 1) arr).
Proof.
  intros Hsl Ha Harr Hf. unfold unsubscribe. rewrite Hsl.
  assert (Hb : backing sl b = arr) by (unfold backing; by rewrite Ha, Harr).
  rewrite (elems_eq sl a arr), Hf by done. unfold delete_at. rewrite Ha, Hb. simpl.
  split; case_bool_decide; try done; simpl; by rewrite lookup_insert_eq.
Qed.

(** ** Properties *)

(** C16: The slice-based registry implements lists: [Subscribe] appends the new
    channel to its room's list and [cancel] removes exactly that channel,
    dropping an empty room; no other room's list changes although slices are
    edited in place, and cancelling a live subscription never panics. *)
Theorem registry_refines b c r b1 ch ch' r' :
  kafka_ok b → subscribe c r b = (b1, ch) →
  ch' ∈ ct_open (tab b) → room_of b !! ch' = Some r' →
  (kafka_ok b1 ∧ registry b1 = spec_subscribe r ch (registry b)
   ∧ ch ∉ ct_open (tab b) ∧ ct_open (tab b1) = {[ch]} ∪ ct_open (tab b)) ∧
  ∃ b2, cancel ch' b = Done b2 ∧ kafka_ok b2 ∧ registry b2 = spec_cancel r' ch' (registry b)
    ∧ ct_open (tab b2) = ct_open (tab b) ∖ {[ch']}.
Proof.
  intros Hok Hsub Hin Hroom. split.
  - destruct (kafka_subscribe_ok _ _ _ _ _ Hok Hsub) as (? & ? & ?).
    by destruct (subscribe_spec _ _ _ _ _ (k_reg _ Hok) Hsub) as (_ & ? & _).
  - destruct (kafka_cancel_ok _ _ Hok Hin) as (b2 & Hc & Hok2 & Ho). exists b2.
    destruct (cancel_spec _ _ _ (k_reg _ Hok) Hroom Hin) as (b2' & Hc' & _ & Hreg & _).
    rewrite Hc in Hc'. by injection Hc' as <-.
Qed.


(** The copied slice outlives the lock, so a subscriber that leaves between
    the fetch and the send stops the process: for every state in which the last
    message fetched has at least one subscriber, if that subscriber's [cancel]
    runs before the consumer's next step, the step panics. *)
Theorem cancel_races_consumer b b1 data sl i ch b2 :
  kafka_ok b → pc b = None → consume b = Some (Done b1) → pc b1 = Some (data, sl, i) →
  elems sl b = [ch] → cancel ch b1 = Done b2 →
  consume b2 = Some (Panic "send on closed channel").
Proof.
  intros Hok Hpc Hcons Hpc1 Hel Hcan. unfold consume in Hcons. rewrite Hpc in Hcons.
  destruct (kafka_fetch (srv b)) as [[[key value] s']|] eqn:Hf; [|done]. injection Hcons as <-.
  simpl in Hpc1. injection Hpc1 as <- <- <-.
  set (b1 := b <| srv := s' |> <| pc := Some (value, lookup_subs key b, 0) |>) in *.
  assert (Hok1 : kafka_ok b1) by (destruct Hok as [[] ? ? ?]; split; [by constructor|done..]).
  assert (Hreg : ch ∈ default [] (registry b !! key)) by (rewrite registry_elems, Hel; by left).
  apply (k_elem _ Hok) in Hreg as [Hopen Hroom]. set (sl := lookup_subs key b) in *.
  destruct (subs b !! key) as [sl0|] eqn:E; last first.
  { unfold sl, lookup_subs in Hel. by rewrite E in Hel. }
  assert (Hsl : sl0 = sl) by (unfold sl, lookup_subs; by rewrite E). subst sl0.
  destruct (reg_slice _ (k_reg _ Hok) _ _ E) as (a & arr & Ha & Harr & Hlt & Hlen).
  pose proof Hel as Hel'. rewrite (elems_eq _ a arr) in Hel' by done.
  assert (Hl1 : sl_len sl = 1).
  { apply (f_equal length) in Hel'. rewrite length_take in Hel'. simpl in Hel'. lia. }
  rewrite Hl1 in Hel'. change (cancel ch b1 = Done b2) in Hcan. rewrite cancel_unfold in Hcan.
  change (room_of b1 !! ch) with (room_of b !! ch) in Hcan. rewrite Hroom in Hcan.
  destruct (unsubscribe_spec key ch b1 (k_reg _ Hok1)) as (_ & _ & Htab).
  destruct (unsubscribe_array key ch b1 sl a arr 0) as [Hpc2 Hback]; [done..| |].
  { rewrite Hl1, Hel'. simpl. by rewrite decide_True. }
  change (pc b1) with (Some (value, sl, 0)) in Hpc2.
  set (u := unsubscribe key ch b1) in *. clearbody u. rewrite Htab in Hcan.
  change (tab b1) with (tab b) in Hcan.
  apply elem_ct_open in Hopen as (c & Hc & Hcl). unfold ct_close, close_chan in Hcan.
  rewrite Hc, Hcl in Hcan. simpl in Hcan. injection Hcan as <-.
  unfold consume. simpl. rewrite Hpc2, bool_decide_true by lia. unfold backing.
  simpl. rewrite Ha, Hback, Hl1. destruct arr as [|x arr]; [done|]. injection Hel' as ->.
  simpl. unfold ct_try_send, ct_set. simpl. by rewrite lookup_insert_eq.
Qed.

(** [append(list[:i], list[i+1:]...)] writes the array that a running
    dispatch still walks: if the first of three subscribers leaves right after
    its send, the second is never sent the message and the third is sent it
    twice, although both stay subscribed. *)
Theorem cancel_skips_subscriber b key value s' c0 c1 c2 :
  kafka_ok b → pc b = None → kafka_fetch (srv b) = Some (key, value, s') →
  registry b !! key = Some [c0; c1; c2] →
  ∃ b1 b2 b3,
    dispatch 2 b = Some (Done b1) ∧ cancel c0 b1 = Done b2 ∧ dispatch 3 b2 = Some (Done b3)
    ∧ registry b3 !! key = Some [c1; c2]
    ∧ ct_tab (tab b3) !! c1 = ct_tab (tab b) !! c1
    ∧ ct_tab (tab b3) !! c2 = offered value ∘ offered value <$> ct_tab (tab b) !! c2.
Proof using KC. clear grow.
  intros Hok Hpc Hf Hreg. set (sl := lookup_subs key b).
  pose proof (registry_elems key b) as Hel. rewrite Hreg in Hel. simpl in Hel. fold sl in Hel.
  pose proof (k_nodup _ Hok key) as Hnd. rewrite Hreg in Hnd. simpl in Hnd.
  assert (Hin : ∀ c, c ∈ [c0; c1; c2] → c ∈ ct_open (tab b) ∧ room_of b !! c = Some key).
  { intros c Hc. apply (k_elem _ Hok). by rewrite Hreg. }
  destruct (subs b !! key) as [sl0|] eqn:E; last first.
  { unfold registry in Hreg. by rewrite lookup_fmap, E in Hreg. }
  assert (Hsl : sl0 = sl) by (unfold sl, lookup_subs; by rewrite E). subst sl0.
  destruct (reg_slice _ (k_reg _ Hok) _ _ E) as (a & arr & Ha & Harr & Hlt & Hlen).
  rewrite (elems_eq _ a arr) in Hel by done.
  assert (Hl : sl_len sl = 3).
  { apply (f_equal length) in Hel. rewrite length_take in Hel. simpl in Hel. lia. }
  rewrite Hl in *. destruct arr as [|x0 [|x1 [|x2 arr]]]; simpl in Hlen; try lia.
  injection Hel as <- <- <-.
  (* fetch and the first send *)
  set (b1 := b <| srv := s' |> <| tab := offer_all value [c0] (tab b) |> <| pc := Some (value, sl, 1) |>).
  assert (Hd : dispatch 2 b = Some (Done b1)).
  { destruct (Hin c0) as [Ho0 _]; [by left|].
    destruct (ct_try_send_spec value c0 (tab b)) as (c & Hc & Hs & _); [apply Hok|done|].
    cbn [dispatch]. unfold consume at 1. rewrite Hpc, Hf. cbn. fold sl. rewrite bool_decide_true by lia.
    unfold backing. simpl. rewrite Ha, Harr. simpl. rewrite Hs. unfold b1. simpl. by rewrite Hc. }
  assert (Hok1 : kafka_ok b1).
  { destruct (kafka_ok_offer b s' value [c0] Hok) as [[] ? ? ?];
      [intros c ->%list_elem_of_singleton; apply Hin; by left|]. by split; [constructor|..]. }
  exists b1. destruct (kafka_cancel_ok c0 b1 Hok1) as (b2 & Hcan & Hok2 & Ho2).
  { destruct (ct_open_offer_all value [c0] (tab b)) as [_ Ho]; [apply Hok| |].
    - intros c ->%list_elem_of_singleton. apply Hin. by left.
    - simpl. simpl in Ho. rewrite Ho. apply Hin. by left. }
  assert (Hr1 : room_of b1 !! c0 = Some key) by (apply Hin; by left).
  pose proof (unsubscribe_array key c0 b1 sl a (c0 :: c1 :: c2 :: arr) 0) as Hu.
  destruct Hu as [Hpc2 Harr2]; [done..|by rewrite Hl; simpl; rewrite decide_True|].
  pose proof Hcan as Hcan'. rewrite cancel_unfold, Hr1 in Hcan'.
  destruct (unsubscribe_spec key c0 b1 (k_reg _ Hok1)) as (_ & Hreg2 & Htab2). rewrite Htab2 in Hcan'.
  assert (Ho1 : ct_open (tab b1) = ct_open (tab b)).
  { destruct (ct_open_offer_all value [c0] (tab b)) as [_ Ho]; [apply Hok| |exact Ho].
    intros c ->%list_elem_of_singleton. apply Hin. by left. }
  apply NoDup_cons in Hnd as [Hn0 [Hn1 _]%NoDup_cons]. rewrite list_elem_of_singleton in Hn1.
  rewrite elem_of_cons, list_elem_of_singleton in Hn0.
  destruct (ct_close c0 (tab b1)) as [tab'|] eqn:Hclose; [|done]. injection Hcan' as <-.
  set (u := unsubscribe key c0 b1) in *. set (b2 := u <| tab := tab' |>) in *.
  assert (Hc12 : ∀ c, c ≠ c0 → ct_tab tab' !! c = ct_tab (tab b) !! c).
  { intros c Hne. unfold ct_close in Hclose. destruct (ct_tab (tab b1) !! c0) as [x|]; [|done].
    destruct (close_chan x); [|done]. injection Hclose as <-. simpl. rewrite lookup_insert_ne by done.
    destruct (ct_tab (tab b) !! c0); simpl; [by rewrite lookup_insert_ne|done]. }
  assert (Hmem : Forall (λ c, c ∈ ct_open (tab b) ∧ c ≠ c0) [c1; c2; c2]).
  { apply Forall_forall. intros c Hc. assert (Hc' : c = c1 ∨ c = c2)
      by (rewrite !elem_of_cons, elem_of_nil in Hc; tauto).
    split; [apply Hin; rewrite !elem_of_cons; tauto|].
    intros ->. apply Hn0. destruct Hc'; [by left|by right]. }
  exists b2. eexists. split; [done|]. split; [done|]. split.
  { apply (dispatch_rest value sl a (c1 :: c2 :: c2 :: arr) 2 1 b2); try done.
    - unfold b2. simpl. rewrite Harr2. by rewrite Hl.
    - rewrite Hl. simpl. lia.
    - apply Hok2.
    - rewrite Hl. intros c Hc. change (c ∈ ct_open tab'). simpl in Ho2, Ho1.
      rewrite Ho2, Ho1. apply elem_of_difference. rewrite elem_of_singleton.
      rewrite Forall_forall in Hmem. by apply Hmem. }
  rewrite Hl. simpl. split.
  - change (registry u !! key = Some [c1; c2]). rewrite Hreg2. unfold spec_cancel.
    change (registry b1) with (registry b). rewrite Hreg. unfold remove_first. simpl.
    rewrite decide_True by done. simpl. by rewrite lookup_insert_eq.
  - assert (Hne2 : c2 ≠ c0) by (intros ->; apply Hn0; by right).
    rewrite !(Hc12 c2) by done. destruct (Hin c2) as [(x & Hx & _)%elem_ct_open _];
      [by do 2 right; left|].
    rewrite Hx. simpl. rewrite lookup_insert_eq. simpl. rewrite lookup_insert_eq.
    rewrite !lookup_insert_ne by done. split; [|done].
    apply Hc12. intros ->. apply Hn0. by left.
Qed.

End kafka.
Arguments t K : clear implicits.
End Kafka.

(** ** A one-partition topic in memory, to evaluate the broker with *)

Module MemKafka.

Definition write (key value : string) (q : list (string * string)) :
  list (string * string) * option string := (q ++ [(key, value)], None).
Definition fetch (q : list (string * string)) : option (string * string * list (string * string)) :=
  match q with (k, v) :: q => Some (k, v, q) | [] => None end.

#[global] Instance mem_kafka : KafkaClient (list (string * string)) :=
  {| kafka_write := write; kafka_fetch := fetch |}.

(** The capacities 1, 2, 4, 8, ... of the Go run time's small slices. *)
Definition grow (n : nat) : nat := 2 ^ Nat.log2_up n.

Definition empty : Kafka.t (list (string * string)) := Kafka.mk [] ct_empty ∅ 0 ∅ ∅ None.

(** [n] subscribers of the room ["r"], and the broker they leave. *)
Fixpoint subscribed (n : nat) : Kafka.t (list (string * string)) :=
  match n with
  | 0 => (Kafka.publish "r" "hi" empty).1
  | S n => (Kafka.subscribe grow 0 "r" (subscribed n)).1
  end.

Lemma subscribed_ok n : Kafka.kafka_ok (subscribed n).
Proof.
  induction n as [|n IH]; simpl.
  - constructor; simpl.
    + constructor; simpl; [by intros ? []|done|done].
    + by intros ch (? & ? & ?)%elem_ct_open.
    + intros r. unfold Kafka.registry. simpl. rewrite fmap_empty, lookup_empty. apply NoDup_nil_2.
    + intros r ch. unfold Kafka.registry. simpl. rewrite fmap_empty, lookup_empty. simpl.
      rewrite elem_of_nil, elem_ct_open. by split; [|intros [(? & ? & ?) _]].
  - destruct (Kafka.subscribe grow 0 "r" (subscribed n)) as [b' ch] eqn:E.
    by apply (Kafka.kafka_subscribe_ok grow 0 "r" _ _ _ IH) in E as [? _].
Qed.

End MemKafka.

Lemma registry_refines_witness :
  ∃ b1 b2 : Kafka.t (list (string * string)), Kafka.cancel 0 (MemKafka.subscribed 2) = Done b2
    ∧ Kafka.registry b1 = {["r" := [0; 1; 2]]} ∧ Kafka.registry b2 = {["r" := [1]]}.
Proof.
  destruct (Kafka.registry_refines MemKafka.grow (MemKafka.subscribed 2) 0 "r"
    (MemKafka.subscribed 3) 2 0 "r") as [(_ & H1 & _) (b2 & H2 & _ & H3 & _)].
  - apply MemKafka.subscribed_ok.
  - vm_compute. reflexivity.
  - decide_now.
  - vm_compute. reflexivity.
  - exists (MemKafka.subscribed 3), b2. split; [exact H2|]. rewrite H1, H3. split; decide_now.
Defined.


Lemma cancel_races_consumer_witness :
  ∃ b1 b2, Kafka.consume (MemKafka.subscribed 1) = Some (Done b1) ∧ Kafka.cancel 0 b1 = Done b2
    ∧ Kafka.consume b2 = Some (Panic "send on closed channel").
Proof.
  eexists _, _. split; [vm_compute; reflexivity|]. split; [vm_compute; reflexivity|].
  eapply (Kafka.cancel_races_consumer (MemKafka.subscribed 1)).
  - apply MemKafka.subscribed_ok.
  - vm_compute. reflexivity.
  - vm_compute. reflexivity.
  - vm_compute. reflexivity.
  - vm_compute. reflexivity.
  - vm_compute. reflexivity.
Defined.

Lemma cancel_skips_subscriber_witness :
  ∃ b1 b2 b3, Kafka.dispatch 2 (MemKafka.subscribed 3) = Some (Done b1)
    ∧ Kafka.cancel 0 b1 = Done b2 ∧ Kafka.dispatch 3 b2 = Some (Done b3)
    ∧ ct_tab (Kafka.tab b3) !! 1 = Some (mkChan [] 256 false)
    ∧ ct_tab (Kafka.tab b3) !! 2 = Some (mkChan ["hi"; "hi"] 256 false).
Proof.
  destruct (Kafka.cancel_skips_subscriber (MemKafka.subscribed 3) "r" "hi" [] 0 1 2)
    as (b1 & b2 & b3 & H1 & H2 & H3 & _ & H4 & H5).
  - apply MemKafka.subscribed_ok.
  - vm_compute. reflexivity.
  - vm_compute. reflexivity.
  - vm_compute. reflexivity.
  - exists b1, b2, b3. split_and!; [exact H1|exact H2|exact H3|rewrite H4|rewrite H5]; vm_compute; reflexivity.
Defined.
