(* ===== verification/KafkaGroup.v ===== *)
(** * Several pods over one Kafka topic

    The pods of [app/broker/kafka_broker.go] read the topic with one consumer
    group, as the configuration says ("same for all pods in the same service"):
    Kafka hands each record to one member of a group. The pods' steps interleave
    over the shared log; the trace records what was written and who fetched it. *)

From S2P Require Import Prelude GoString Chan Broker Kafka.
Import Kafka.

(** Documented behaviour. The writers are asynchronous: [WriteMessages] may answer before the
    record is in the log, and then a batch brings it there ([kafka_flush]), or never does.
    [kafka_log] holds the records that no member of the group has fetched: one member fetches
    a record, and the records of a key, which share a partition, in the log's order, as long
    as every member that leaves commits first. *)
Class KafkaGroup (S : Type) `{KafkaClient S} := {
  kafka_log : S → list (string * string);
  kafka_flush : S → option (string * string * S);
  kafka_write_log k v s s' e :
    kafka_write k v s = (s', e) → kafka_log s' = kafka_log s ∨ kafka_log s' = kafka_log s ++ [(k, v)];
  kafka_flush_log k v s s' : kafka_flush s = Some (k, v, s') → kafka_log s' = kafka_log s ++ [(k, v)];
  kafka_fetch_ok k v s s' :
    kafka_fetch s = Some (k, v, s') →
    ∃ l1 l2, kafka_log s = l1 ++ (k, v) :: l2 ∧ kafka_log s' = l1 ++ l2 ∧ k ∉ l1.*1
}.

Module KafkaPods.
Section pods.
Context {S : Type} `{KC : KafkaClient S} `{!KafkaGroup S}.
Context (grow : nat → nat).
#[local] Abbreviation broker := (Kafka.t S).
Implicit Types (b : broker).

(** The pods whose consumer goroutine has returned are [stopped]. *)
Record t : Type := mk { service : S; pods : gmap nat broker; stopped : gset nat }.

Definition with_service (s : S) (b : broker) : broker := b <| srv := s |>.
(** What a step of pod [i] leaves. *)
Definition put (i : nat) (b : broker) (y : t) : t := mk (srv b) (<[i := b]> (pods y)) (stopped y).

(** An error of [FetchMessage]: the consumer returns if its context is done, and tries again
    after a pause otherwise. *)
Definition fetch_error (ctx_done : bool) (i : nat) (y : t) : t :=
  if ctx_done then mk (service y) (pods y) ({[i]} ∪ stopped y) else y.

(** A record enters the log ([Write]), or a pod fetches one. *)
Inductive event : Type :=
  | Write (key value : string)
  | Fetch (pod : nat) (key value : string)
  | Other.

Inductive step : t → event → t → Prop :=
  | step_publish i b y r d b' err :
      pods y !! i = Some b → publish r d (with_service (service y) b) = (b', err) →
      step y (if decide (kafka_log (srv b') = kafka_log (service y)) then Other else Write r d) (put i b' y)
  | step_flush y r d s' :
      kafka_flush (service y) = Some (r, d, s') → step y (Write r d) (mk s' (pods y) (stopped y))
  | step_subscribe i b y ctx r b' ch :
      pods y !! i = Some b → subscribe grow ctx r (with_service (service y) b) = (b', ch) → step y Other (put i b' y)
  | step_cancel i b y ch b' :
      pods y !! i = Some b → cancel ch (with_service (service y) b) = Done b' → step y Other (put i b' y)
  | step_recv i b y ch d b' :
      pods y !! i = Some b → recv ch (with_service (service y) b) = Some (d, b') → step y Other (put i b' y)
  | step_consume i b y b' :
      pods y !! i = Some b → i ∉ stopped y → consume (with_service (service y) b) = Some (Done b') →
      step y (match pc b, kafka_fetch (service y) with
              | None, Some (k, v, _) => Fetch i k v
              | _, _ => Other
              end) (put i b' y)
  | step_error i b y ctx_done :
      pods y !! i = Some b → i ∉ stopped y → pc b = None → step y Other (fetch_error ctx_done i y).

Inductive run (y : t) : list event → t → Prop :=
  | run_nil : run y [] y
  | run_snoc tr y' e y'' : run y tr y' → step y' e y'' → run y (tr ++ [e]) y''.

Definition written (e : event) : option (string * string) := match e with Write k v => Some (k, v) | _ => None end.
Definition fetched (e : event) : option (nat * (string * string)) :=
  match e with Fetch i k v => Some (i, (k, v)) | _ => None end.

(** ** What a step does to the log, and to the channels *)

Lemma publish_srv r d b b' err :
  publish r d b = (b', err) → kafka_write r d (srv b) = (srv b', err) ∧ tab b' = tab b ∧ pc b' = pc b.
Proof. unfold publish. destruct (kafka_write r d (srv b)) as [s' e]. by intros [= <- <-]. Qed.

Lemma append_one_frame sl ch b b' sl' :
  append_one grow sl ch b = (b', sl') → srv b' = srv b ∧ tab b' = tab b ∧ pc b' = pc b.
Proof. unfold append_one. repeat case_match; by intros [= <- <-]. Qed.

Lemma subscribe_frame ctx r b b' ch :
  subscribe grow ctx r b = (b', ch) → srv b' = srv b ∧ pc b' = pc b
    ∧ ct_tab (tab b') = <[ct_next (tab b) := make_chan 256]> (ct_tab (tab b)).
Proof.
  unfold subscribe, ct_make. destruct (append_one _ _ _ _) as [b1 sl] eqn:E.
  intros [= <- <-]. apply append_one_frame in E as (E1 & E2 & E3). simpl. by rewrite E1, E2, E3.
Qed.

Lemma delete_at_frame i sl b b' sl' :
  delete_at i sl b = (b', sl') → srv b' = srv b ∧ tab b' = tab b ∧ pc b' = pc b.
Proof. unfold delete_at. repeat case_match; by intros [= <- <-]. Qed.

Lemma cancel_frame ch b b' :
  cancel ch b = Done b' → srv b' = srv b ∧ pc b' = pc b
    ∧ (tab b' = tab b ∨ ct_close ch (tab b) = Done (tab b')).
Proof.
  unfold cancel. destruct (room_of b !! ch) as [r|]; [|intros [= <-]; auto].
  set (b1 := match list_find _ _ with Some _ => _ | None => _ end).
  assert (H1 : srv b1 = srv b ∧ tab b1 = tab b ∧ pc b1 = pc b).
  { unfold b1. destruct (list_find _ _) as [[i ?]|]; [|done].
    destruct (delete_at _ _ _) as [b2 sl] eqn:E. by apply delete_at_frame in E. }
  destruct H1 as (H1 & H2 & H3). clearbody b1. cbv zeta.
  set (b2 := if bool_decide _ then _ else _).
  assert (H4 : srv b2 = srv b1 ∧ tab b2 = tab b1 ∧ pc b2 = pc b1) by (unfold b2; by case_bool_decide).
  destruct H4 as (H4 & H5 & H6). clearbody b2. rewrite H5, H2. destruct (ct_close ch (tab b)) as [tb|]; [|done].
  intros [= <-]. simpl. split_and!; [congruence|congruence|by right].
Qed.

(** *** The log *)

Lemma step_log y e y' :
  step y e y' →
  match e with
  | Write k v => kafka_log (service y') = kafka_log (service y) ++ [(k, v)]
  | Fetch i k v => ∃ l1 l2, kafka_log (service y) = l1 ++ (k, v) :: l2 ∧ kafka_log (service y') = l1 ++ l2 ∧ k ∉ l1.*1
  | Other => kafka_log (service y') = kafka_log (service y)
  end.
Proof.
  intros Hs. destruct Hs as [i b y r d b' err Hb E|y r d s' E|i b y ctx r b' ch Hb E|i b y ch b' Hb E|i b y ch d b' Hb E|i b y b' Hb _ E|i b y cd Hb _ Hpc];
    unfold put; cbn [service].
  - apply publish_srv in E as (E & _ & _). simpl in E.
    case_decide as Hd; [done|]. by destruct (kafka_write_log _ _ _ _ _ E).
  - by apply kafka_flush_log.
  - by apply subscribe_frame in E as (-> & _).
  - by apply cancel_frame in E as (-> & _).
  - unfold recv in E. destruct (ct_recv _ _) as [[? ?]|]; [|done]. by injection E as <- <-.
  - unfold consume in E. cbn [pc with_service set_field] in E. simpl in E.
    destruct (pc b) as [[[data sl] k]|].
    + case_bool_decide; [|by injection E as <-]. destruct (backing _ _ !! k) as [ch|]; [|done].
      destruct (ct_try_send _ _ _); [|done]. by injection E as <-.
    + destruct (kafka_fetch (service y)) as [[[k v] s']|] eqn:Ef; [|done]. injection E as <-.
      by apply (kafka_fetch_ok k v).
  - by destruct cd.
Qed.

(** *** What a pod holds *)

(** A value that waits in a channel of a pod, or that its consumer is sending. *)
Definition holds b (d : string) : Prop :=
  (∃ ch c, ct_tab (tab b) !! ch = Some c ∧ d ∈ chan_buf c) ∨ ∃ sl i, pc b = Some (d, sl, i).

Lemma holds_less b b' d :
  pc b' = pc b →
  (∀ ch c, ct_tab (tab b') !! ch = Some c → chan_buf c = [] ∨
     ∃ c0, ct_tab (tab b) !! ch = Some c0 ∧ chan_buf c ⊆ chan_buf c0) →
  holds b' d → holds b d.
Proof.
  intros Hpc Ht [(ch & c & Hc & Hd)|(sl & i & Hp)].
  - destruct (Ht ch c Hc) as [Hn|(c0 & Hc0 & Hs)]; [rewrite Hn in Hd; set_solver|].
    left. exists ch, c0. split; [done|]. by apply Hs.
  - right. exists sl, i. congruence.
Qed.

Lemma holds_consume b b' d :
  consume b = Some (Done b') → holds b' d →
  holds b d ∨ (pc b = None ∧ ∃ k s', kafka_fetch (srv b) = Some (k, d, s')).
Proof.
  unfold consume. destruct (pc b) as [[[data sl] i]|] eqn:Hpc.
  - case_bool_decide.
    + destruct (backing sl b !! i) as [ch|]; [|done]. destruct (ct_try_send data ch (tab b)) as [tb|] eqn:Es; [|done].
      intros [= <-] Hh. left. destruct Hh as [(ch' & c & Hc & Hd)|(sl' & i' & Hp)].
      * simpl in Hc. unfold ct_try_send in Es. destruct (ct_tab (tab b) !! ch) as [c0|] eqn:E0; [|injection Es as <-; left; by exists ch', c].
        unfold try_send in Es. destruct (chan_closed c0); [done|]. case_bool_decide; injection Es as <-;
          simpl in Hc; apply lookup_insert_Some in Hc as [[<- <-]|[_ Hc]]; try (left; by exists ch', c).
        -- simpl in Hd. apply elem_of_app in Hd as [Hd|Hd%list_elem_of_singleton]; [left; by exists ch, c0|].
           subst. right. by exists sl, i.
        -- left. by exists ch, c0.
      * simpl in Hp. injection Hp as <- <- <-. right. by exists sl, i.
    + intros [= <-] Hh. left. destruct Hh as [(ch & c & Hc & Hd)|(? & ? & ?)]; [|done]. left. by exists ch, c.
  - destruct (kafka_fetch (srv b)) as [[[k v] s']|]; [|done]. intros [= <-] Hh.
    destruct Hh as [(ch & c & Hc & Hd)|(sl' & i' & Hp)]; [left; left; by exists ch, c|].
    simpl in Hp. injection Hp as <- <- <-. right. split; [done|]. by exists k, s'.
Qed.

Lemma step_holds y e y' j b' d :
  step y e y' → pods y' !! j = Some b' → holds b' d →
  (∃ b, pods y !! j = Some b ∧ holds b d) ∨ ∃ k, e = Fetch j k d.
Proof.
  intros Hs Hj Hh.
  assert (Hput : ∀ i b1, pods (put i b1 y) !! j = Some b' → (i = j ∧ b1 = b') ∨ pods y !! j = Some b').
  { intros i b1. unfold put. simpl. rewrite lookup_insert_Some. tauto. }
  destruct Hs as [i b y r d' b1 err Hb E|y r d' s' E|i b y ctx r b1 ch Hb E|i b y ch b1 Hb E|i b y ch d' b1 Hb E|i b y b1 Hb _ E|i b y cd Hb _ Hpc];
    try (apply Hput in Hj as [[-> ->]|Hj]; [|left; by exists b']).
  - left. exists b. split; [done|]. apply publish_srv in E as (_ & Ht & Hp). simpl in Ht, Hp.
    unfold holds in *. by rewrite Ht, Hp in Hh.
  - left. by exists b'.
  - left. exists b. split; [done|]. apply subscribe_frame in E as (_ & Hp & Ht).
    apply (holds_less b b' d); [done| |done]. intros ch' c. rewrite Ht. simpl.
    intros [[_ <-]|[_ Hc]]%lookup_insert_Some; [by left|right; by exists c].
  - left. exists b. split; [done|]. apply cancel_frame in E as (_ & Hp & Ht). simpl in Hp, Ht.
    apply (holds_less b b' d); [done| |done]. intros ch' c Hc. right. destruct Ht as [Ht|Ht].
    + rewrite Ht in Hc. by exists c.
    + rewrite (ct_close_lookup _ ch' _ _ Ht) in Hc. case_decide; [|by exists c].
      destruct (ct_tab (tab b) !! ch') as [c0|]; [|done]. injection Hc as <-. by exists c0.
  - left. exists b. split; [done|]. unfold recv in E. destruct (ct_recv ch _) as [[d0 tb]|] eqn:Er; [|done].
    injection E as <- <-. eapply (holds_less b); [|..|exact Hh]; [done|]. intros ch' c Hc. simpl in Hc. right.
    unfold ct_recv in Er. simpl in Er. destruct (ct_tab (tab b) !! ch) as [c0|] eqn:E0; [|done]. simpl in Er.
    unfold recv_chan in Er. destruct (chan_buf c0) as [|x l] eqn:Eb; [done|]. injection Er as <- <-. simpl in Hc.
    apply lookup_insert_Some in Hc as [[<- <-]|[_ Hc]]; [|by exists c]. exists c0. split; [done|]. simpl. rewrite Eb. set_solver.
  - apply (holds_consume _ _ d E) in Hh as [Hh|(Hp & k & s' & Hf)].
    + left. exists b. split; [done|]. exact Hh.
    + right. exists k. simpl in Hp, Hf. by rewrite Hp, Hf.
  - left. exists b'. split; [|done]. by destruct cd.
Qed.

(** ** Traces *)

(** The records of a room: written, fetched by some pod, and pending. *)
Definition of_room (key : string) (l : list (string * string)) : list (string * string) := filter (λ r, r.1 = key) l.

Lemma run_log y tr y' :
  run y tr y' → kafka_log (service y) = [] →
  (∀ key, of_room key (omap written tr) = of_room key ((omap fetched tr).*2) ++ of_room key (kafka_log (service y')))
  ∧ omap written tr ≡ₚ (omap fetched tr).*2 ++ kafka_log (service y').
Proof.
  intros Hr H0. induction Hr as [|tr y1 e y2 Hr [IH1 IH2] Hs]; [by rewrite H0|].
  apply step_log in Hs. rewrite !omap_app, fmap_app. unfold of_room in *. destruct e as [k v|i k v|]; simpl.
  - rewrite Hs. split.
    + intros key. rewrite !filter_app, IH1, app_nil_r. by rewrite app_assoc.
    + rewrite IH2, app_nil_r, <- app_assoc. done.
  - destruct Hs as (l1 & l2 & Hl & Hl' & Hk). rewrite Hl'. rewrite Hl in IH1, IH2. split.
    + intros key. rewrite app_nil_r, filter_app, IH1, !filter_app, <- app_assoc. f_equal.
      rewrite !filter_cons, filter_nil. simpl. case_decide as Hd; [|done]. subst key.
      assert (Hn : filter (λ r : string * string, r.1 = k) l1 = []).
      { clear -Hk. induction l1 as [|[k' v'] l1 IH]; [done|]. rewrite filter_cons_False; [apply IH|]; set_solver. }
      by rewrite Hn.
    + rewrite app_nil_r, IH2, <- app_assoc. simpl. apply Permutation_app_head. by rewrite Permutation_middle.
  - rewrite Hs, !app_nil_r. auto.
Qed.

Lemma run_holds y tr y' j b d :
  run y tr y' → (∀ j b, pods y !! j = Some b → ∀ d, ¬ holds b d) → pods y' !! j = Some b → holds b d →
  ∃ k, Fetch j k d ∈ tr.
Proof.
  intros Hr H0. revert b. induction Hr as [|tr y1 e y2 Hr IH Hs]; intros b Hj Hh; [by destruct (H0 j b Hj d)|].
  destruct (step_holds _ _ _ j b d Hs Hj Hh) as [(b0 & Hj0 & Hh0)|(k & ->)].
  - destruct (IH b0 Hj0 Hh0) as [k Hk]. exists k. set_solver.
  - exists k. set_solver.
Qed.

(** ** Properties *)

(** No pod holds anything yet and nothing is pending. *)
Definition fresh (y : t) : Prop :=
  kafka_log (service y) = [] ∧ ∀ j b, pods y !! j = Some b → tab b = ct_empty ∧ pc b = None.

Lemma fresh_holds y j b d : fresh y → pods y !! j = Some b → ¬ holds b d.
Proof.
  intros [_ Hf] Hj [(ch & c & Hc & _)|(sl & i & Hp)]; destruct (Hf j b Hj) as [Ht Hpc]; [|congruence].
  rewrite Ht in Hc. simpl in Hc. by rewrite lookup_empty in Hc.
Qed.

(** Kafka keeps each room's order and loses nothing: however the pods publish,
    subscribe, cancel, receive and consume, errors of [FetchMessage] and stopped consumers
    included, the records that entered the log for a room are, in that order, those the
    pods together have fetched for it, followed by those still pending. *)
Theorem room_order_kept y tr y' key :
  fresh y → run y tr y' →
  of_room key (omap written tr) = of_room key ((omap fetched tr).*2) ++ of_room key (kafka_log (service y')).
Proof. intros [H0 _] Hr. by apply (run_log y tr y'). Qed.

End pods.
End KafkaPods.

(** ** Two pods with a subscriber each, one topic in memory *)

Module MemGroup.
#[global] Program Instance mem_group : KafkaGroup (list (string * string)) := {| kafka_log q := q; kafka_flush q := None |}.
Next Obligation. intros k v s s' e [= <- <-]. by right. Qed.
Next Obligation. done. Qed.
Next Obligation. intros k v [|[k' v'] q] s' [= <- <- <-]. exists [], q. split_and!; [done..|]. set_solver. Qed.

Abbreviation pods := (KafkaPods.t (S:=list (string * string))).
Definition start : pods := KafkaPods.mk [] {[0 := MemKafka.empty; 1 := MemKafka.empty]} ∅.
Definition joined (i : nat) (y : pods) : pods :=
  KafkaPods.put i (Kafka.subscribe MemKafka.grow 0 "r" (KafkaPods.with_service (KafkaPods.service y) MemKafka.empty)).1 y.
Definition both : pods := joined 1 (joined 0 start).
Definition pod (i : nat) (y : pods) : Kafka.t (list (string * string)) := default MemKafka.empty (KafkaPods.pods y !! i).
Definition said : pods :=
  KafkaPods.put 0 (Kafka.publish "r" "hi" (KafkaPods.with_service (KafkaPods.service both) (pod 0 both))).1 both.
Definition heard_pod : Kafka.t (list (string * string)) :=
  match Kafka.consume (KafkaPods.with_service (KafkaPods.service said) (pod 0 said)) with
  | Some (Done b) => b | _ => MemKafka.empty end.
Definition heard : pods := KafkaPods.put 0 heard_pod said.
Definition trace : list KafkaPods.event :=
  [KafkaPods.Other; KafkaPods.Other; KafkaPods.Write "r" "hi"; KafkaPods.Fetch 0 "r" "hi"].

Lemma start_fresh : KafkaPods.fresh start.
Proof.
  split; [done|]. intros j b Hj. unfold start in Hj. simpl in Hj.
  by apply lookup_insert_Some in Hj as [[_ <-]|[_ [_ <-]%lookup_singleton_Some]].
Qed.

Lemma heard_step :
  Kafka.consume (KafkaPods.with_service (KafkaPods.service said) (pod 0 said)) = Some (Done heard_pod).
Proof. vm_compute. reflexivity. Qed.

Lemma heard_event :
  match Kafka.pc (pod 0 said), kafka_fetch (KafkaPods.service said) with
  | None, Some (k, v, _) => KafkaPods.Fetch 0 k v
  | _, _ => KafkaPods.Other
  end = KafkaPods.Fetch 0 "r" "hi".
Proof. vm_compute. reflexivity. Qed.

Lemma heard_run : KafkaPods.run MemKafka.grow start trace heard.
Proof.
  change trace with ((([] ++ [KafkaPods.Other]) ++ [KafkaPods.Other]) ++ [KafkaPods.Write "r" "hi"]
    ++ [KafkaPods.Fetch 0 "r" "hi"]). rewrite app_assoc.
  apply (KafkaPods.run_snoc _ _ _ said); [apply (KafkaPods.run_snoc _ _ _ both);
    [apply (KafkaPods.run_snoc _ _ _ (joined 0 start)); [apply (KafkaPods.run_snoc _ _ _ start); [constructor|]|]|]|].
  - exact (KafkaPods.step_subscribe MemKafka.grow 0 MemKafka.empty start 0 "r" _ _ eq_refl (surjective_pairing _)).
  - exact (KafkaPods.step_subscribe MemKafka.grow 1 MemKafka.empty (joined 0 start) 0 "r" _ _ eq_refl (surjective_pairing _)).
  - exact (KafkaPods.step_publish MemKafka.grow 0 (pod 0 both) both "r" "hi" _ None eq_refl eq_refl).
  - rewrite <- heard_event. unfold heard.
    exact (KafkaPods.step_consume MemKafka.grow 0 (pod 0 said) said heard_pod eq_refl (not_elem_of_empty 0) heard_step).
Qed.
End MemGroup.

Lemma room_order_kept_witness :
  KafkaPods.of_room "r" (omap KafkaPods.written MemGroup.trace) = [("r", "hi")] ∧
  KafkaPods.of_room "r" ((omap KafkaPods.fetched MemGroup.trace).*2) ++ KafkaPods.of_room "r" (KafkaPods.service MemGroup.heard)
    = [("r", "hi")].
Proof.
  assert (E : KafkaPods.of_room "r" (omap KafkaPods.written MemGroup.trace) = [("r", "hi")]) by (vm_compute; reflexivity).
  split; [exact E|].
  exact (eq_trans (eq_sym (KafkaPods.room_order_kept MemKafka.grow MemGroup.start MemGroup.trace MemGroup.heard "r"
    MemGroup.start_fresh MemGroup.heard_run)) E).
Defined.

