(* ===== verification/Hub.v ===== *)
(** * The hub

    [app/chat/hub.go]: the rooms of this process, in 64 shards picked by an
    FNV-1a hash of the room id, the clients registered in each, and the
    forwarding of broker messages. Clients and messages are pointers: a table
    maps each to its contents, and a client's [Send] channel holds message
    pointers, so that every receiver of a broadcast shares one message. *)

From S2P Require Import Prelude GoString Pb Json Chan Broker.

Module Hub.

Record client : Type := mkClient { UserID : string; RoomID : string; Send : nat }.

Record room : Type := mkRoom { clients : gset nat; cancel : option nat }.
#[global] Instance room_eta : Eta room := λ r, mkRoom r.(clients) r.(cancel).

Definition numShards : nat := 64.

(** One round of FNV-1a on 32 bits. *)
Definition fnv_step (hash : Z) (b : Z) : Z := wrap_u32 (Z.lxor hash b * 16777619).
Definition fnv1a (s : string) : Z := foldl fnv_step 2166136261%Z (Z.of_N ∘ Ascii.N_of_ascii <$> bytes s).
Definition shard (roomID : string) : nat := Z.to_nat (fnv1a roomID `mod` Z.of_nat numShards).

Section hub.
Context {B : Type} `{BR : Broker B} `{JC : JsonCodec ServerMessage}.

Record t : Type := mk {
  shards : list (gmap string room);
  broker : B;
  connCnt : Z;                      (** [atomic.Int64] *)
  maxConns : Z;
  ptrs : gmap nat client;           (** the [*Client] pointers *)
  sends : chans nat;                (** the [Send] channels, of message pointers *)
  msgs : gmap nat ServerMessage;    (** the [*pb.ServerMessage] pointers *)
  next : nat                        (** the next pointer to hand out *)
}.
#[global] Instance t_eta : Eta t := λ h,
  mk h.(shards) h.(broker) h.(connCnt) h.(maxConns) h.(ptrs) h.(sends) h.(msgs) h.(next).

(** [NewHubWithLimit], given the broker (a nil one is replaced by [Noop]). *)
Definition NewHubWithLimit (b : B) (maxConns : Z) : t :=
  mk (replicate numShards ∅) b 0 maxConns ∅ ct_empty ∅ 0.
Definition NewHub (b : B) : t := NewHubWithLimit b 0.

Definition ConnCount (h : t) : Z := connCnt h.

(** [&pb.ServerMessage{...}] *)
Definition alloc (m : ServerMessage) (h : t) : t * nat :=
  (h <| msgs := <[next h := m]> (msgs h) |> <| next := next h + 1 |>, next h).

Definition NewClient (userID roomID : string) (h : t) : t * nat :=
  let '(tb, ch) := ct_make 256 (sends h) in
  (h <| sends := tb |> <| ptrs := <[next h := mkClient userID roomID ch]> (ptrs h) |>
     <| next := next h + 1 |>, next h).

(** [sh.rooms[roomID]] with [sh := h.shard(roomID)], and its updates. *)
Definition lookup_room (roomID : string) (h : t) : option room :=
  sh ← shards h !! shard roomID; sh !! roomID.
Definition put_room (roomID : string) (r : room) (h : t) : t :=
  h <| shards := alter (insert roomID r) (shard roomID) (shards h) |>.
Definition drop_room (roomID : string) (h : t) : t :=
  h <| shards := alter (delete roomID) (shard roomID) (shards h) |>.

Definition Register (ctx : nat) (c : nat) (h : t) : t :=
  match ptrs h !! c with
  | None => h
  | Some cl =>
      let '(h, r) :=
        match lookup_room (RoomID cl) h with
        | Some r => (h, r)
        | None => let '(b, s) := Subscribe ctx (RoomID cl) (broker h) in
                  (h <| broker := b |>, mkRoom ∅ (Some s))
        end in
      let h := put_room (RoomID cl) (r <| clients := {[c]} ∪ clients r |>) h in
      h <| connCnt := wrap_i64 (connCnt h + 1) |>
  end.

Definition Unregister (c : nat) (h : t) : outcome t :=
  match ptrs h !! c with
  | None => Done h
  | Some cl =>
      outcome_bind
        match lookup_room (RoomID cl) h with
        | None => Done h
        | Some r =>
            let r := r <| clients := clients r ∖ {[c]} |> in
            let h := put_room (RoomID cl) r h in
            outcome_bind (ct_close (Send cl) (sends h)) (λ tb,
              let h := h <| sends := tb |> in
              if bool_decide (clients r = ∅) then
                outcome_bind
                  match cancel r with
                  | Some s => outcome_bind (Cancel s (broker h)) (λ b, Done (h <| broker := b |>))
                  | None => Done h
                  end
                  (λ h, Done (drop_room (RoomID cl) h))
              else Done h)
        end
        (λ h, Done (h <| connCnt := wrap_i64 (connCnt h - 1) |>))
  end.

Definition AtCapacity (h : t) : bool := (0 <? maxConns h)%Z && (maxConns h <=? connCnt h)%Z.

(** [for c := range r.clients { select { case c.Send <- msg: default: } }] *)
Fixpoint deliver (p : nat) (cs : list nat) (h : t) : outcome t :=
  match cs with
  | [] => Done h
  | c :: cs =>
      match ptrs h !! c with
      | Some cl => outcome_bind (ct_try_send p (Send cl) (sends h)) (λ tb,
                     deliver p cs (h <| sends := tb |>))
      | None => deliver p cs h
      end
  end.

(** [Broadcast] of the message at [p]; the error of [Publish] is dropped. *)
Definition Broadcast (p : nat) (publish : bool) (h : t) : outcome t :=
  match msgs h !! p with
  | None => Panic "invalid memory address or nil pointer dereference"
  | Some msg =>
      let roomID := ServerMessage_RoomId msg in
      outcome_bind
        match lookup_room roomID h with
        | Some r => deliver p (elements (clients r)) h
        | None => Done h
        end
        (λ h, if publish
              then Done (h <| broker := (Publish roomID (Marshal msg) (broker h)).1 |>)
              else Done h)
  end.

(** A broadcast of a new message. *)
Definition Broadcast_new (m : ServerMessage) (publish : bool) (h : t) : outcome t :=
  let '(h, p) := alloc m h in Broadcast p publish h.

(** One turn of a [forwardFromBroker] loop on the channel [s], at the time [now];
    [None]: nothing to receive. *)
Definition forward (now : Z) (s : nat) (h : t) : option (outcome t) :=
  '(raw, b) ← Recv s (broker h);
  let h := h <| broker := b |> in
  match Unmarshal raw with
  | Some m =>
      let m := if (ServerMessage_DeliveredAtUnixMs m =? 0)%Z
               then m <| ServerMessage_DeliveredAtUnixMs := now |> else m in
      Some (Broadcast_new m false h)
  | None => Some (Done h)
  end.

(** ** The rooms *)

(** The clients of a room. *)
Definition members (roomID : string) (h : t) : gset nat :=
  match lookup_room roomID h with Some r => clients r | None => ∅ end.

Lemma shard_lt r : shard r < numShards.
Proof.
  unfold shard. pose proof (Z.mod_pos_bound (fnv1a r) (Z.of_nat numShards) ltac:(unfold numShards; lia)).
  lia.
Qed.

Lemma lookup_room_put r rm r' h :
  length (shards h) = numShards →
  lookup_room r' (put_room r rm h) = if decide (r = r') then Some rm else lookup_room r' h.
Proof.
  intros Hl. unfold lookup_room, put_room. simpl.
  destruct (lookup_lt_is_Some_2 (shards h) (shard r')) as [sh Hsh]; [rewrite Hl; apply shard_lt|].
  destruct (decide (r = r')) as [<-|Hne].
  - rewrite list_lookup_alter_eq, Hsh. simpl. by rewrite lookup_insert_eq.
  - destruct (decide (shard r = shard r')) as [He|He].
    + rewrite He, list_lookup_alter_eq, Hsh. simpl. by rewrite lookup_insert_ne.
    + by rewrite list_lookup_alter_ne.
Qed.

Lemma lookup_room_drop r r' h :
  length (shards h) = numShards →
  lookup_room r' (drop_room r h) = if decide (r = r') then None else lookup_room r' h.
Proof.
  intros Hl. unfold lookup_room, drop_room. simpl.
  destruct (lookup_lt_is_Some_2 (shards h) (shard r')) as [sh Hsh]; [rewrite Hl; apply shard_lt|].
  destruct (decide (r = r')) as [<-|Hne].
  - rewrite list_lookup_alter_eq, Hsh. simpl. by rewrite lookup_delete_eq.
  - destruct (decide (shard r = shard r')) as [He|He].
    + rewrite He, list_lookup_alter_eq, Hsh. simpl. by rewrite lookup_delete_ne.
    + by rewrite list_lookup_alter_ne.
Qed.

(** ** The invariant *)

Context `{!BrokerLaws B}.

(** [R] is the set of registered clients: a room exists exactly while it has a
    client, lists exactly the registered clients of its id, and owns a live
    subscription; every registered client has an open channel of its own; the
    counter counts the registered clients. *)
Record hub_inv (R : gset nat) (h : t) : Prop := {
  inv_shards : length (shards h) = numShards;
  inv_broker : broker_ok (broker h);
  inv_room r rm : lookup_room r h = Some rm →
    clients rm ≠ ∅ ∧ ∃ s, cancel rm = Some s ∧ s ∈ live (broker h);
  inv_sub r1 r2 rm1 rm2 :
    lookup_room r1 h = Some rm1 → lookup_room r2 h = Some rm2 → cancel rm1 = cancel rm2 → r1 = r2;
  inv_members c r : c ∈ members r h ↔ c ∈ R ∧ RoomID <$> ptrs h !! c = Some r;
  inv_sends : ct_fresh (sends h);
  inv_open c : c ∈ R → ∃ cl, ptrs h !! c = Some cl ∧ Send cl ∈ ct_open (sends h);
  inv_send_inj c1 c2 cl1 cl2 :
    c1 ∈ R → c2 ∈ R → ptrs h !! c1 = Some cl1 → ptrs h !! c2 = Some cl2 → Send cl1 = Send cl2 → c1 = c2;
  inv_ptr c : is_Some (ptrs h !! c) → c < next h;
  inv_cnt : connCnt h = wrap_i64 (Z.of_nat (size R))
}.

Lemma members_lookup r h rm : lookup_room r h = Some rm → members r h = clients rm.
Proof. unfold members. by intros ->. Qed.

Lemma members_put r rm r' h :
  length (shards h) = numShards →
  members r' (put_room r rm h) = if decide (r = r') then clients rm else members r' h.
Proof. intros Hl. unfold members. rewrite lookup_room_put by done. by case_decide. Qed.

Lemma members_drop r r' h :
  length (shards h) = numShards →
  members r' (drop_room r h) = if decide (r = r') then ∅ else members r' h.
Proof. intros Hl. unfold members. rewrite lookup_room_drop by done. by case_decide. Qed.

Lemma wrap_i64_add a b : wrap_i64 (wrap_i64 a + b) = wrap_i64 (a + b).
Proof.
  unfold wrap_i64. set (x := ((a + 2 ^ 63) `mod` 2 ^ 64)%Z).
  replace (x - 2 ^ 63 + b + 2 ^ 63)%Z with (x + b)%Z by lia.
  unfold x. rewrite Z.add_mod_idemp_l by lia. do 2 f_equal. lia.
Qed.

(** The subscription that [Register] gives a room, a fresh one or the room's. *)
Definition room_for (ctx : nat) (roomID : string) (h : t) : t * room :=
  match lookup_room roomID h with
  | Some r => (h, r)
  | None => let '(b, s) := Subscribe ctx roomID (broker h) in (h <| broker := b |>, mkRoom ∅ (Some s))
  end.

Lemma Register_unfold ctx c cl h :
  ptrs h !! c = Some cl →
  Register ctx c h =
    let '(h1, r) := room_for ctx (RoomID cl) h in
    put_room (RoomID cl) (r <| clients := {[c]} ∪ clients r |>) h1
      <| connCnt := wrap_i64 (connCnt h1 + 1) |>.
Proof. intros Hc. unfold Register. by rewrite Hc. Qed.

(** Everything but the broker is as before; the room it returns is the room's,
    with a live subscription no other room has. *)
Lemma room_for_spec ctx r R h h1 rm :
  hub_inv R h → room_for ctx r h = (h1, rm) →
  (∃ b, h1 = h <| broker := b |>) ∧ broker_ok (broker h1) ∧ live (broker h) ⊆ live (broker h1)
  ∧ clients rm = members r h
  ∧ (∃ s, cancel rm = Some s ∧ s ∈ live (broker h1))
  ∧ (∀ r' rm', r' ≠ r → lookup_room r' h = Some rm' → cancel rm' ≠ cancel rm).
Proof.
  intros Hinv H. unfold room_for in H. destruct (lookup_room r h) as [rm0|] eqn:E.
  - injection H as <- <-. destruct (inv_room _ _ Hinv _ _ E) as (_ & s & Hs & Hl). split_and!.
    + exists (broker h). by destruct h.
    + apply Hinv.
    + done.
    + by rewrite (members_lookup _ _ _ E).
    + by exists s.
    + intros r' rm' Hne H' Heq. by apply Hne, (inv_sub _ _ Hinv r' r rm' rm0).
  - destruct (Subscribe ctx r (broker h)) as [b s] eqn:Es. injection H as <- <-.
    destruct (Subscribe_live _ _ _ _ _ (inv_broker _ _ Hinv) Es) as (Hb & Hn & Hl). simpl.
    rewrite Hl. split_and!.
    + by exists b.
    + done.
    + apply union_subseteq_r.
    + unfold members. by rewrite E.
    + exists s. split; [done|]. apply elem_of_union_l. by apply elem_of_singleton.
    + intros r' rm' _ H'. destruct (inv_room _ _ Hinv _ _ H') as (_ & s' & Hs' & Hl').
      rewrite Hs'. intros [= ->]. done.
Qed.

Lemma Register_spec ctx c cl R h :
  hub_inv R h → ptrs h !! c = Some cl → c ∉ R → Send cl ∈ ct_open (sends h) →
  (∀ c' cl', c' ∈ R → ptrs h !! c' = Some cl' → Send cl' ≠ Send cl) →
  hub_inv ({[c]} ∪ R) (Register ctx c h)
  ∧ sends (Register ctx c h) = sends h ∧ ptrs (Register ctx c h) = ptrs h
  ∧ msgs (Register ctx c h) = msgs h
  ∧ ∀ r, members r (Register ctx c h) =
      if decide (RoomID cl = r) then {[c]} ∪ members r h else members r h.
Proof.
  intros Hinv Hc Hn Ho Hsd. rewrite (Register_unfold _ _ _ _ Hc).
  destruct (room_for ctx (RoomID cl) h) as [h1 rm] eqn:E.
  destruct (room_for_spec _ _ _ _ _ _ Hinv E) as ((b & ->) & Hb & Hlive & Hcl & Hsub & Hfr).
  assert (Hlen : length (shards (h <| broker := b |>)) = numShards) by apply Hinv.
  set (rm' := rm <| clients := {[c]} ∪ clients rm |>).
  set (h' := put_room (RoomID cl) rm' (h <| broker := b |>) <| connCnt := _ |>).
  assert (Hlk : ∀ r, lookup_room r h' = if decide (RoomID cl = r) then Some rm' else lookup_room r h).
  { intros r. exact (lookup_room_put (RoomID cl) rm' r (h <| broker := b |>) Hlen). }
  assert (Hmem : ∀ r, members r h' = if decide (RoomID cl = r) then {[c]} ∪ members r h else members r h).
  { intros r. unfold members at 1. rewrite Hlk. case_decide; [|done]. subst. simpl. by rewrite Hcl. }
  split_and!; try done. constructor; try done.
  - simpl. rewrite length_alter. apply Hinv.
  - intros r rm0. rewrite Hlk. case_decide.
    + intros [= <-]. split; [simpl; set_solver|done].
    + intros H'. destruct (inv_room _ _ Hinv _ _ H') as (? & s & ? & ?). split; [done|].
      exists s. split; [done|]. by apply Hlive.
  - intros r1 r2 rm1 rm2. rewrite !Hlk. repeat case_decide; subst; try done.
    + intros [= <-] H2 Heq. exfalso. by apply (Hfr r2 rm2).
    + intros H1 [= <-] Heq. exfalso. by apply (Hfr r1 rm1).
    + apply (inv_sub _ _ Hinv).
  - intros c' r. rewrite Hmem. simpl. destruct (decide (c' = c)) as [->|Hne].
    + rewrite Hc. simpl. case_decide.
      * subst. split; [intros _; split; [set_solver|done]|set_solver].
      * rewrite (inv_members _ _ Hinv), Hc. simpl. split; [by intros []|]. intros [_ Heq]. congruence.
    + case_decide; [rewrite elem_of_union, elem_of_singleton|];
        rewrite (inv_members _ _ Hinv); set_solver.
  - apply Hinv.
  - intros c' [->%elem_of_singleton|Hin]%elem_of_union; [by exists cl|].
    by apply (inv_open _ _ Hinv).
  - simpl. intros c1 c2 cl1 cl2 [->%elem_of_singleton|H1]%elem_of_union
      [->%elem_of_singleton|H2]%elem_of_union E1 E2 Heq; simplify_eq; try done.
    + exfalso. by apply (Hsd c2 cl2).
    + exfalso. by apply (Hsd c1 cl1).
    + by apply (inv_send_inj _ _ Hinv c1 c2 cl1 cl2).
  - apply Hinv.
  - simpl. rewrite (inv_cnt _ _ Hinv), wrap_i64_add. f_equal.
    rewrite size_union, size_singleton by set_solver. lia.
Qed.

(** What the rooms and the broker do not read. *)
Lemma hub_inv_ext R h h' :
  hub_inv R h → shards h' = shards h → broker_ok (broker h') → live (broker h') = live (broker h) →
  connCnt h' = connCnt h → ptrs h' = ptrs h → next h ≤ next h' →
  ct_fresh (sends h') → ct_open (sends h') = ct_open (sends h) →
  hub_inv R h' ∧ ∀ r, members r h' = members r h.
Proof.
  intros Hinv Hs Hb Hl Hc Hp Hn Hf Ho.
  assert (Hlk : ∀ r, lookup_room r h' = lookup_room r h) by (intros r; unfold lookup_room; by rewrite Hs).
  assert (Hm : ∀ r, members r h' = members r h) by (intros r; unfold members; by rewrite Hlk).
  split; [|done]. constructor; rewrite ?Hs, ?Hl, ?Hc, ?Hp, ?Ho; try apply Hinv; try done.
  - intros r rm. rewrite Hlk. apply Hinv.
  - intros r1 r2 rm1 rm2. rewrite !Hlk. apply Hinv.
  - intros c r. rewrite Hm. apply Hinv.
  - intros c Hc'. apply (inv_ptr _ _ Hinv) in Hc'. lia.
Qed.

Definition connect (ctx : nat) (userID roomID : string) (h : t) : t * nat :=
  let '(h, c) := NewClient userID roomID h in (Register ctx c h, c).

Lemma NewClient_spec u r R h h' c :
  hub_inv R h → NewClient u r h = (h', c) →
  hub_inv R h' ∧ c ∉ R ∧ (∀ r', members r' h' = members r' h)
  ∧ ∃ ch, ptrs h' = <[c := mkClient u r ch]> (ptrs h) ∧ ptrs h !! c = None ∧ ch ∈ ct_open (sends h')
    ∧ (∀ c' cl', c' ∈ R → ptrs h !! c' = Some cl' → Send cl' ≠ ch)
    ∧ ct_tab (sends h') = <[ch := make_chan 256]> (ct_tab (sends h)) ∧ ct_tab (sends h) !! ch = None.
Proof.
  intros Hinv H. unfold NewClient in H. destruct (ct_make 256 (sends h)) as [tb ch] eqn:E.
  injection H as <- <-. destruct (ct_make_spec _ _ _ _ (inv_sends _ _ Hinv) E) as (Hf & Hni & Ho & Ht & Hn).
  assert (Hnp : ptrs h !! next h = None).
  { destruct (ptrs h !! next h) eqn:Ep; [|done]. pose proof (inv_ptr _ _ Hinv (next h) ltac:(eauto)). lia. }
  assert (HnR : next h ∉ R).
  { intros Hin. destruct (inv_open _ _ Hinv _ Hin) as (cl & ? & _). congruence. }
  assert (Hother : ∀ c, c ∈ R → <[next h := mkClient u r ch]> (ptrs h) !! c = ptrs h !! c).
  { intros c Hc. rewrite lookup_insert_ne; [done|]. by intros <-. }
  split_and!; [|done|done|].
  - constructor; simpl; try apply Hinv; try done.
    + intros c r'. change (members r' _) with (members r' h). rewrite (inv_members _ _ Hinv).
      split; intros [Hc Hr]; (split; [done|]); [by rewrite Hother|by rewrite Hother in Hr].
    + intros c Hc. rewrite Hother by done. destruct (inv_open _ _ Hinv _ Hc) as (cl & Hcl & Hin).
      exists cl. split; [done|]. rewrite Ho. by apply elem_of_union_r.
    + intros c1 c2 cl1 cl2 H1 H2. rewrite !Hother by done. by apply (inv_send_inj _ _ Hinv).
    + intros c [<-|[_ Hc]]%lookup_insert_is_Some; [lia|].
      apply (inv_ptr _ _ Hinv) in Hc. lia.
  - exists ch. split_and!; try done.
    + simpl. rewrite Ho. apply elem_of_union_l. by apply elem_of_singleton.
    + intros c' cl' Hc' Hcl' <-. destruct (inv_open _ _ Hinv _ Hc') as (cl & ? & Hin). by simplify_eq.
Qed.

Lemma connect_spec ctx u r R h h' c :
  hub_inv R h → connect ctx u r h = (h', c) →
  hub_inv ({[c]} ∪ R) h' ∧ c ∉ R
  ∧ (∀ r', members r' h' = if decide (r = r') then {[c]} ∪ members r' h else members r' h)
  ∧ ∃ ch, ptrs h' = <[c := mkClient u r ch]> (ptrs h) ∧ ptrs h !! c = None
    ∧ ct_tab (sends h') = <[ch := make_chan 256]> (ct_tab (sends h)) ∧ ct_tab (sends h) !! ch = None.
Proof.
  intros Hinv H. unfold connect in H. destruct (NewClient u r h) as [h1 c1] eqn:E.
  injection H as <- <-.
  destruct (NewClient_spec _ _ _ _ _ _ Hinv E) as (Hi & Hn & Hm & ch & Hp & Hnp & Ho & Hs & Ht & Hnt).
  destruct (Register_spec ctx c1 (mkClient u r ch) R h1 Hi) as (Hi' & Hse & Hpt & _ & Hm'); try done.
  { by rewrite Hp, lookup_insert_eq. }
  { intros c' cl' Hc'. rewrite Hp, lookup_insert_ne by (intros ->; done). by apply Hs. }
  split_and!; [done|done|intros r'; rewrite Hm'; simpl; by rewrite Hm|].
  exists ch. by rewrite Hpt, Hse, Hp.
Qed.

(** The first client of a room opens its subscription, a later one shares it. *)
Lemma connect_room ctx u r R h h' c :
  hub_inv R h → connect ctx u r h = (h', c) →
  match lookup_room r h with
  | Some rm => broker h' = broker h ∧ lookup_room r h' = Some (rm <| clients := {[c]} ∪ clients rm |>)
  | None => ∃ s, Subscribe ctx r (broker h) = (broker h', s)
      ∧ lookup_room r h' = Some (mkRoom ({[c]} ∪ ∅) (Some s))
  end.
Proof.
  intros Hinv H. unfold connect in H. destruct (NewClient u r h) as [h1 c1] eqn:E.
  destruct (NewClient_spec _ _ _ _ _ _ Hinv E) as (Hi & _ & _ & ch & Hp & _). injection H as <- <-.
  assert (Hb : broker h1 = broker h ∧ ∀ r, lookup_room r h1 = lookup_room r h).
  { unfold NewClient in E. destruct (ct_make _ _). by injection E as <- <-. }
  destruct Hb as [Hb Hl].
  rewrite (Register_unfold _ _ (mkClient u r ch)) by (by rewrite Hp, lookup_insert_eq). simpl.
  unfold room_for. rewrite Hl, Hb. destruct (lookup_room r h) as [rm|].
  - split; [done|]. transitivity (lookup_room r (put_room r (rm <| clients := {[c1]} ∪ clients rm |>) h1)); [done|].
    rewrite lookup_room_put by apply Hi. by rewrite decide_True.
  - destruct (Subscribe ctx r (broker h)) as [b s] eqn:Es. exists s. split; [done|].
    transitivity (lookup_room r (put_room r (mkRoom ({[c1]} ∪ ∅) (Some s)) (h1 <| broker := b |>))); [done|].
    rewrite lookup_room_put by apply Hi. by rewrite decide_True.
Qed.

(** Removing a registered client from a room that keeps others, or with the
    room. The state is the one after [close] and, for the last client, [cancel]. *)
Lemma hub_inv_remove c cl R h h' :
  hub_inv R h → c ∈ R → ptrs h !! c = Some cl →
  length (shards h') = numShards → broker_ok (broker h') → ptrs h' = ptrs h → next h' = next h →
  ct_fresh (sends h') → ct_open (sends h') = ct_open (sends h) ∖ {[Send cl]} →
  connCnt h' = wrap_i64 (connCnt h - 1) →
  (∀ r, members r h' = members r h ∖ {[c]}) →
  (∀ r rm', lookup_room r h' = Some rm' → clients rm' ≠ ∅ ∧
    ∃ rm s, lookup_room r h = Some rm ∧ cancel rm' = cancel rm ∧ cancel rm = Some s ∧ s ∈ live (broker h')) →
  hub_inv (R ∖ {[c]}) h'.
Proof.
  intros Hinv Hin Hc Hl Hb Hp Hn Hf Ho Hcnt Hm Hroom. constructor; try done.
  - intros r rm' H'. destruct (Hroom _ _ H') as (? & rm & s & ? & Heq & ? & ?).
    split; [done|]. exists s. by rewrite Heq.
  - intros r1 r2 rm1 rm2 H1 H2 Heq. destruct (Hroom _ _ H1) as (_ & ? & ? & E1 & He1 & _).
    destruct (Hroom _ _ H2) as (_ & ? & ? & E2 & He2 & _). eapply (inv_sub _ _ Hinv); [done..|]. congruence.
  - intros c' r. rewrite Hm, Hp, !elem_of_difference, (inv_members _ _ Hinv). tauto.
  - intros c' [Hc' Hne]%elem_of_difference. rewrite Hp.
    destruct (inv_open _ _ Hinv _ Hc') as (cl' & Hcl' & Hop). exists cl'. split; [done|].
    rewrite Ho, elem_of_difference, elem_of_singleton. split; [done|]. intros Heq.
    apply Hne, elem_of_singleton. by apply (inv_send_inj _ _ Hinv c' c cl' cl).
  - intros c1 c2 cl1 cl2 [H1 _]%elem_of_difference [H2 _]%elem_of_difference. rewrite Hp.
    by apply (inv_send_inj _ _ Hinv).
  - rewrite Hp, Hn. apply Hinv.
  - rewrite Hcnt, (inv_cnt _ _ Hinv). unfold Z.sub. rewrite wrap_i64_add. f_equal.
    rewrite size_difference by (by apply singleton_subseteq_l). rewrite size_singleton.
    assert (size R ≠ 0); [|lia]. intros H0%size_empty_inv. set_solver.
Qed.

Lemma Unregister_spec c cl R h :
  hub_inv R h → c ∈ R → ptrs h !! c = Some cl →
  ∃ h' r0, Unregister c h = Done h' ∧ hub_inv (R ∖ {[c]}) h' ∧ ptrs h' = ptrs h ∧ msgs h' = msgs h
    ∧ ct_close (Send cl) (sends h) = Done (sends h')
    ∧ (∀ r, members r h' = members r h ∖ {[c]})
    ∧ lookup_room (RoomID cl) h = Some r0
    ∧ (if decide (members (RoomID cl) h ⊆ {[c]})
       then lookup_room (RoomID cl) h' = None ∧
         ∃ s, cancel r0 = Some s ∧ Cancel s (broker h) = Done (broker h')
       else broker h' = broker h ∧
         lookup_room (RoomID cl) h' = Some (r0 <| clients := clients r0 ∖ {[c]} |>)).
Proof.
  intros Hinv Hin Hc.
  assert (Hmc : c ∈ members (RoomID cl) h) by (apply (inv_members _ _ Hinv); by rewrite Hc).
  destruct (lookup_room (RoomID cl) h) as [r0|] eqn:Er; [|by unfold members in Hmc; rewrite Er in Hmc].
  pose proof (members_lookup _ _ _ Er) as Hm0.
  destruct (inv_room _ _ Hinv _ _ Er) as (_ & s & Hs & Hlive).
  destruct (inv_open _ _ Hinv _ Hin) as (cl' & Hcl' & Hop). simplify_eq.
  destruct (ct_close_spec _ _ (inv_sends _ _ Hinv) Hop) as (tb & Hclose & Hft & Hot).
  pose proof (inv_shards _ _ Hinv) as Hl.
  set (r1 := r0 <| clients := clients r0 ∖ {[c]} |>).
  set (h1 := put_room (RoomID cl) r1 h <| sends := tb |>).
  assert (Hlk1 : ∀ r, lookup_room r h1 = if decide (RoomID cl = r) then Some r1 else lookup_room r h).
  { intros r. exact (lookup_room_put (RoomID cl) r1 r h Hl). }
  assert (Hothers : ∀ r, RoomID cl ≠ r → members r h ∖ {[c]} = members r h).
  { intros r Hne. assert (c ∉ members r h); [|set_solver].
    rewrite (inv_members _ _ Hinv), Hc. simpl. intros [_ ?]. congruence. }
  assert (HU : Unregister c h =
    outcome_bind
      (if decide (members (RoomID cl) h ⊆ {[c]})
       then outcome_bind (Cancel s (broker h)) (λ b, Done (drop_room (RoomID cl) (h1 <| broker := b |>)))
       else Done h1)
      (λ h, Done (h <| connCnt := wrap_i64 (connCnt h - 1) |>))).
  { unfold Unregister, h1, r1. rewrite Hc, Er. simpl. rewrite Hclose, Hs. simpl. f_equal. rewrite Hm0.
    destruct (decide (clients r0 ⊆ {[c]})) as [Hd|Hd].
    - rewrite bool_decide_true by (by apply subseteq_empty_difference_L).
      by destruct (Cancel s (broker h)).
    - rewrite bool_decide_false; [done|]. intros He. by apply Hd, empty_difference_subseteq_L. }
  rewrite HU. clear HU.
  destruct (decide (members (RoomID cl) h ⊆ {[c]})) as [Hsub|Hsub].
  - destruct (Cancel_live _ _ (inv_broker _ _ Hinv) Hlive) as (b & Hcan & Hb & Hlb). rewrite Hcan.
    eexists _, r0. split; [reflexivity|].
    match goal with |- hub_inv _ ?x ∧ _ => set (h2 := x) end.
    assert (Hlk2 : ∀ r, lookup_room r h2 = if decide (RoomID cl = r) then None else lookup_room r h).
    { intros r. transitivity (lookup_room r (drop_room (RoomID cl) h1)); [done|].
      rewrite lookup_room_drop, Hlk1; [by repeat case_decide|]. simpl. by rewrite length_alter. }
    assert (Hm2 : ∀ r, members r h2 = members r h ∖ {[c]}).
    { intros r. unfold members at 1. rewrite Hlk2. case_decide; [subst; by rewrite subseteq_empty_difference_L|].
      by rewrite Hothers. }
    split_and!; try done.
    + apply (hub_inv_remove c cl R h); try done.
      * simpl. by rewrite !length_alter.
      * intros r rm'. rewrite Hlk2. case_decide; [done|]. intros H'.
        destruct (inv_room _ _ Hinv _ _ H') as (? & s' & Hs' & Hl'). split; [done|].
        exists rm', s'. split_and!; try done. simpl. rewrite Hlb.
        apply elem_of_difference. split; [done|]. rewrite elem_of_singleton. intros ->.
        assert (RoomID cl = r); [|done]. apply (inv_sub _ _ Hinv _ _ _ _ Er H'). congruence.
    + rewrite Hlk2. by rewrite decide_True.
    + by exists s.
  - eexists _, r0. split; [reflexivity|].
    match goal with |- hub_inv _ ?x ∧ _ => set (h2 := x) end.
    assert (Hlk2 : ∀ r, lookup_room r h2 = if decide (RoomID cl = r) then Some r1 else lookup_room r h).
    { intros r. by rewrite <- Hlk1. }
    assert (Hm2 : ∀ r, members r h2 = members r h ∖ {[c]}).
    { intros r. unfold members at 1. rewrite Hlk2. case_decide; [subst; simpl; by rewrite <- Hm0|].
      by rewrite Hothers. }
    split_and!; try done; [|by rewrite Hlk2, decide_True].
    apply (hub_inv_remove c cl R h); try done.
    + simpl. by rewrite length_alter.
    + apply Hinv.
    + intros r rm'. rewrite Hlk2. case_decide as Hd.
      * intros [= <-]. subst. split; [|by exists r0, s]. simpl. rewrite <- Hm0.
        intros He. by apply Hsub, empty_difference_subseteq_L.
      * intros H'. destruct (inv_room _ _ Hinv _ _ H') as (? & s' & ? & ?).
        split; [done|]. by exists rm', s'.
Qed.

(** ** Broadcasting *)

(** The [Send] channels of clients. *)
Definition sends_of (cs : list nat) (h : t) : list nat := omap (λ c, Send <$> ptrs h !! c) cs.

Lemma deliver_spec p cs R h :
  hub_inv R h → (∀ c, c ∈ cs → c ∈ R) →
  deliver p cs h = Done (h <| sends := offer_all p (sends_of cs h) (sends h) |>).
Proof.
  intros Hinv. revert h Hinv. induction cs as [|c cs IH]; intros h Hinv Hin; [by destruct h|].
  unfold sends_of. simpl. destruct (inv_open _ _ Hinv c) as (cl & Hcl & Ho); [apply Hin; by left|].
  destruct (ct_try_send_spec p _ _ (inv_sends _ _ Hinv) Ho) as (ch & Hch & Hs & Hf & Hop).
  rewrite Hcl, Hs. simpl. rewrite Hch.
  assert (Hinv' : hub_inv R (h <| sends := ct_set (Send cl) (offered p ch) (sends h) |>)).
  { apply (hub_inv_ext R h); try done. apply Hinv. }
  etransitivity; [apply (IH _ Hinv'); intros c' ?; apply Hin; by right|]. done.
Qed.

Lemma elem_sends_of c cl cs R h :
  hub_inv R h → (∀ c, c ∈ cs → c ∈ R) → c ∈ R → ptrs h !! c = Some cl →
  Send cl ∈ sends_of cs h ↔ c ∈ cs.
Proof.
  intros Hinv Hcs Hc Hcl. unfold sends_of. rewrite list_elem_of_omap. split.
  - intros (c' & Hin & Heq). destruct (ptrs h !! c') as [cl'|] eqn:E; [|done]. simpl in Heq.
    injection Heq as Heq. by rewrite <- (inv_send_inj _ _ Hinv c' c cl' cl) by auto.
  - intros Hin. exists c. by rewrite Hcl.
Qed.

Lemma NoDup_sends_of cs R h :
  hub_inv R h → (∀ c, c ∈ cs → c ∈ R) → NoDup cs → NoDup (sends_of cs h).
Proof.
  intros Hinv. induction cs as [|c cs IH]; intros Hcs Hnd; [constructor|].
  apply NoDup_cons in Hnd as [Hn Hnd]. unfold sends_of. simpl.
  destruct (inv_open _ _ Hinv c) as (cl & Hcl & _); [apply Hcs; by left|]. rewrite Hcl. simpl.
  constructor; [|apply IH; [|done]; intros c' ?; apply Hcs; by right].
  assert (Hcs' : ∀ c', c' ∈ cs → c' ∈ R) by (intros c' ?; apply Hcs; by right).
  change (Send cl ∉ sends_of cs h).
  by rewrite (elem_sends_of c cl cs R) by (done || apply Hcs; by left).
Qed.

(** A broadcast reaches the clients of the message's room and no others. *)
Lemma Broadcast_spec p pub m R h :
  hub_inv R h → msgs h !! p = Some m →
  ∃ h', Broadcast p pub h = Done h' ∧ hub_inv R h'
    ∧ (∀ r, members r h' = members r h) ∧ ptrs h' = ptrs h ∧ msgs h' = msgs h
    ∧ connCnt h' = connCnt h ∧ next h' = next h
    ∧ broker h' = (if pub then (Publish (ServerMessage_RoomId m) (Marshal m) (broker h)).1 else broker h)
    ∧ ∀ c cl, c ∈ R → ptrs h !! c = Some cl →
        ct_tab (sends h') !! Send cl =
          (if String.eqb (RoomID cl) (ServerMessage_RoomId m)
           then offered p <$> ct_tab (sends h) !! Send cl else ct_tab (sends h) !! Send cl).
Proof.
  intros Hinv Hm. set (r := ServerMessage_RoomId m). set (cs := elements (members r h)).
  assert (Hcs : ∀ c, c ∈ cs → c ∈ R).
  { intros c Hc%elem_of_elements. by apply (inv_members _ _ Hinv) in Hc as [? _]. }
  set (h1 := h <| sends := offer_all p (sends_of cs h) (sends h) |>).
  assert (Hopen : ∀ ch, ch ∈ sends_of cs h → ch ∈ ct_open (sends h)).
  { intros ch Hch. unfold sends_of in Hch. apply list_elem_of_omap in Hch as (c & Hc & Heq).
    destruct (inv_open _ _ Hinv c (Hcs _ Hc)) as (cl & Hcl & ?). rewrite Hcl in Heq. by injection Heq as <-. }
  destruct (ct_open_offer_all p _ _ (inv_sends _ _ Hinv) Hopen) as [Hf Ho].
  assert (Hd : match lookup_room r h with Some rm => deliver p (elements (clients rm)) h | None => Done h end
    = Done h1).
  { unfold h1. destruct (lookup_room r h) as [rm|] eqn:E.
    - unfold cs, members. rewrite E. apply (deliver_spec _ _ R); [done|].
      unfold cs, members in Hcs. by rewrite E in Hcs.
    - unfold cs, members. rewrite E, elements_empty. simpl. by destruct h. }
  unfold Broadcast. rewrite Hm. fold r. rewrite Hd.
  set (h2 := if pub then h1 <| broker := (Publish r (Marshal m) (broker h)).1 |> else h1).
  exists h2. destruct (Publish_live r (Marshal m) _ (inv_broker _ _ Hinv)) as [Hpo Hpl].
  destruct (hub_inv_ext R h h2 Hinv) as [Hi2 Hm2]; try (unfold h2; by destruct pub);
    try (unfold h2; destruct pub; simpl; by try apply Hinv).
  split; [unfold h2; by destruct pub|]. split_and!; try done; try (unfold h2; by destruct pub).
  intros c cl Hc Hcl. transitivity (ct_tab (offer_all p (sends_of cs h) (sends h)) !! Send cl).
  { unfold h2. by destruct pub. }
  rewrite offer_all_lookup by (apply (NoDup_sends_of _ R); [done..|apply NoDup_elements]).
  assert (Hiff : Send cl ∈ sends_of cs h ↔ RoomID cl = r).
  { rewrite (elem_sends_of c cl cs R) by done. unfold cs.
    rewrite elem_of_elements, (inv_members _ _ Hinv), Hcl. simpl.
    split; [intros [_ Heq]; congruence|by intros ->]. }
  destruct (String.eqb_spec (RoomID cl) r); case_decide; tauto.
Qed.

Lemma forward_message now s h raw b m :
  Recv s (broker h) = Some (raw, b) → Unmarshal raw = Some m → ServerMessage_DeliveredAtUnixMs m ≠ 0%Z →
  forward now s h = Some (Broadcast_new m false (h <| broker := b |>)).
Proof.
  intros Hr Hu Hd. unfold forward. rewrite Hr. cbn [mbind option_bind]. rewrite Hu. cbv zeta.
  by rewrite (proj2 (Z.eqb_neq _ _) Hd).
Qed.

Lemma alloc_inv m R h : hub_inv R h → hub_inv R (alloc m h).1 ∧ ∀ r, members r (alloc m h).1 = members r h.
Proof. intros Hinv. apply hub_inv_ext; try apply Hinv; try done. simpl. lia. Qed.

(** ** The life of the hub *)

(** The operations of the server, in any order. [None] is a panic. *)
Inductive op : gset nat * t → outcome (gset nat * t) → Prop :=
  | op_connect R h ctx u r h' c :
      connect ctx u r h = (h', c) → op (R, h) (Done ({[c]} ∪ R, h'))
  | op_disconnect R h c :
      c ∈ R → op (R, h) (outcome_bind (Unregister c h) (λ h', Done (R ∖ {[c]}, h')))
  | op_broadcast R h m pub :
      op (R, h) (outcome_bind (Broadcast_new m pub h) (λ h', Done (R, h')))
  | op_forward R h now s o :
      forward now s h = Some o → op (R, h) (outcome_bind o (λ h', Done (R, h')))
  | op_receive R h c cl p tb :
      c ∈ R → ptrs h !! c = Some cl → ct_recv (Send cl) (sends h) = Some (p, tb) →
      op (R, h) (Done (R, h <| sends := tb |>)).

(** And whatever the broker does on its own without touching subscriptions. *)
Inductive step : gset nat * t → outcome (gset nat * t) → Prop :=
  | step_op s o : op s o → step s o
  | step_broker R h b :
      broker_ok b → live b = live (broker h) → step (R, h) (Done (R, h <| broker := b |>)).

Inductive reachable : gset nat * t → Prop :=
  | reach_init b n : broker_ok b → reachable (∅, NewHubWithLimit b n)
  | reach_step s s' : reachable s → step s (Done s') → reachable s'.

Lemma NewHub_inv b n : broker_ok b → hub_inv ∅ (NewHubWithLimit b n).
Proof.
  intros Hb. assert (Hlk : ∀ r, lookup_room r (NewHubWithLimit b n) = None).
  { intros r. unfold lookup_room. cbn [shards NewHubWithLimit].
    rewrite lookup_replicate_2 by apply shard_lt. simpl. apply lookup_empty. }
  constructor; try done.
  - intros r rm. by rewrite Hlk.
  - intros r1 r2 rm1 rm2. by rewrite Hlk.
  - intros c r. unfold members. rewrite Hlk. split; [set_solver|by intros []].
  - intros ? []. done.
  - intros c []. done.
Qed.

Lemma op_inv R h o : hub_inv R h → op (R, h) o → ∃ R' h', o = Done (R', h') ∧ hub_inv R' h'.
Proof.
  intros Hinv Hop. inversion Hop; subst.
  - eexists _, _. split; [done|]. by edestruct connect_spec as (? & _).
  - destruct (inv_open _ _ Hinv c) as (cl & Hcl & _); [done|].
    destruct (Unregister_spec c cl R h) as (h' & _ & -> & Hi & _); [done..|]. by eexists _, h'.
  - destruct (alloc_inv m R h Hinv) as [Hi _].
    destruct (Broadcast_spec (next h) pub m R _ Hi) as (h' & Hb & Hi' & _);
      [simpl; by rewrite lookup_insert_eq|].
    unfold Broadcast_new. simpl. simpl in Hb. rewrite Hb. by eexists _, h'.
  - unfold forward in *. destruct (Recv s (broker h)) as [[raw b]|] eqn:Er; [|done].
    destruct (Recv_live _ _ _ _ (inv_broker _ _ Hinv) Er) as [Hb Hl].
    assert (Hi : hub_inv R (h <| broker := b |>)) by (apply (hub_inv_ext R h); try apply Hinv; done).
    simpl in *. destruct (Unmarshal raw) as [m|]; simplify_eq/=; [|by eexists _, _].
    set (m' := if _ : bool then _ else _). destruct (alloc_inv m' R _ Hi) as [Hi1 _].
    destruct (Broadcast_spec (next h) false m' R _ Hi1) as (h' & Hbc & Hi' & _);
      [simpl; by rewrite lookup_insert_eq|].
    unfold Broadcast_new. simpl. simpl in Hbc. rewrite Hbc. by eexists _, h'.
  - eexists _, _. split; [done|]. match goal with E : ct_recv _ _ = _ |- _ =>
      destruct (ct_recv_spec _ _ _ _ (inv_sends _ _ Hinv) E) as [Hf Ho] end.
    apply (hub_inv_ext R h); try apply Hinv; done.
Qed.

Lemma step_inv R h o : hub_inv R h → step (R, h) o → ∃ R' h', o = Done (R', h') ∧ hub_inv R' h'.
Proof.
  intros Hinv Hstep. inversion Hstep; subst; [by apply (op_inv R h)|].
  eexists _, _. split; [done|]. apply (hub_inv_ext R h); try apply Hinv; done.
Qed.

Lemma reachable_inv s : reachable s → hub_inv s.1 s.2.
Proof.
  induction 1 as [b n Hb|[R h] s' _ IH Hstep]; [by apply NewHub_inv|].
  destruct (step_inv _ _ _ IH Hstep) as (R' & h' & [= ->] & Hi). done.
Qed.

Lemma connect_cnt ctx u r R h h' c :
  hub_inv R h → connect ctx u r h = (h', c) → (Z.of_nat (size R) < 2 ^ 63 - 1)%Z →
  connCnt h' = (Z.of_nat (size R) + 1)%Z ∧ maxConns h' = maxConns h.
Proof.
  intros Hinv H Hsz. destruct (connect_spec _ _ _ _ _ _ _ Hinv H) as (Hi & Hn & _). split.
  - rewrite (inv_cnt _ _ Hi), size_union, size_singleton by set_solver.
    rewrite wrap_i64_small; unfold is_i64; lia.
  - unfold connect, NewClient, Register in H. destruct (ct_make _ _) as [tb ch]. simpl in H.
    rewrite lookup_insert_eq in H. simpl in H. injection H as <- <-.
    destruct (lookup_room r _) as [rm|]; [done|]. by destruct (Subscribe _ _ _).
Qed.

(** ** Properties *)

(** C5: Whatever the order in which streams come and go, messages are broadcast
    and broker messages forwarded, no operation of the hub panics, each room's
    clients are exactly the registered ones of its id, rooms exist only while
    they have clients, each with a live subscription of its own, and the
    connection counter is the number of registered clients. *)
Theorem hub_safe R h :
  reachable (R, h) →
  (∀ o, step (R, h) o → ∃ s', o = Done s')
  ∧ (∀ c r, c ∈ members r h ↔ c ∈ R ∧ RoomID <$> ptrs h !! c = Some r)
  ∧ (∀ r rm, lookup_room r h = Some rm →
      members r h ≠ ∅ ∧ ∃ s, cancel rm = Some s ∧ s ∈ live (broker h))
  ∧ ((Z.of_nat (size R) < 2 ^ 63)%Z → ConnCount h = Z.of_nat (size R)).
Proof.
  intros Hr. pose proof (reachable_inv _ Hr) as Hinv. simpl in Hinv. split_and!.
  - intros o Ho. destruct (step_inv _ _ _ Hinv Ho) as (R' & h' & -> & _). by eexists.
  - apply Hinv.
  - intros r rm H. rewrite (members_lookup _ _ _ H). by apply (inv_room _ _ Hinv) in H.
  - intros Hsz. unfold ConnCount. rewrite (inv_cnt _ _ Hinv). apply wrap_i64_small.
    unfold is_i64. lia.
Qed.

(** C7: A broadcast offers the message to every registered client of its room,
    appending it to the client's queue unless 256 messages wait there, and
    leaves every other client's queue alone; it never blocks and never panics. *)
Theorem broadcast_exact R h m pub :
  hub_inv R h →
  ∃ h' p, Broadcast_new m pub h = Done h' ∧ hub_inv R h' ∧ msgs h' !! p = Some m
    ∧ (∀ r, members r h' = members r h)
    ∧ ∀ c cl q, c ∈ R → ptrs h !! c = Some cl → ct_tab (sends h) !! Send cl = Some q →
        ct_tab (sends h') !! Send cl = Some
          (if String.eqb (RoomID cl) (ServerMessage_RoomId m)
              && bool_decide (length (chan_buf q) < chan_cap q)
           then mkChan (chan_buf q ++ [p]) (chan_cap q) (chan_closed q) else q).
Proof.
  intros Hinv. destruct (alloc_inv m R h Hinv) as [Hi Hmem].
  destruct (Broadcast_spec (next h) pub m R _ Hi) as (h' & Hb & Hi' & Hm' & _ & Hms & _ & _ & _ & Hs);
    [simpl; by rewrite lookup_insert_eq|].
  exists h', (next h). split_and!; try done.
  - rewrite Hms. simpl. by rewrite lookup_insert_eq.
  - intros c cl q Hc Hcl Hq. rewrite (Hs c cl Hc Hcl). simpl. rewrite Hq. unfold offered. simpl.
    destruct (String.eqb _ _); simpl; [|done]. by case_bool_decide.
Qed.

(** A stream that connects joins its room and no other; when it leaves, its
    own channel is closed, and the last client to leave a room takes the room
    and its subscription away, while others keep both. *)
Theorem connect_disconnect R h ctx u r h1 c :
  hub_inv R h → connect ctx u r h = (h1, c) →
  (∀ r', members r' h1 = if decide (r = r') then {[c]} ∪ members r' h else members r' h) ∧
  ∀ R2 h2, hub_inv R2 h2 → c ∈ R2 → ptrs h2 !! c = ptrs h1 !! c →
    ∃ h3 cl rm, Unregister c h2 = Done h3 ∧ hub_inv (R2 ∖ {[c]}) h3
      ∧ ptrs h1 !! c = Some cl ∧ RoomID cl = r ∧ UserID cl = u
      ∧ ct_close (Send cl) (sends h2) = Done (sends h3)
      ∧ (∀ r', members r' h3 = members r' h2 ∖ {[c]})
      ∧ lookup_room r h2 = Some rm
      ∧ (if decide (members r h2 ⊆ {[c]})
         then lookup_room r h3 = None ∧ ∃ s, cancel rm = Some s ∧ Cancel s (broker h2) = Done (broker h3)
         else broker h3 = broker h2 ∧
           lookup_room r h3 = Some (rm <| clients := clients rm ∖ {[c]} |>)).
Proof.
  intros Hinv Hc. destruct (connect_spec _ _ _ _ _ _ _ Hinv Hc) as (_ & _ & Hm & ch & Hp & _).
  split; [done|]. intros R2 h2 Hi2 Hin Hpc. rewrite Hp, lookup_insert_eq in Hpc |- *.
  destruct (Unregister_spec c _ R2 h2 Hi2 Hin Hpc) as (h3 & rm & Hu & Hi3 & _ & _ & Hcl & Hm3 & Hl & Hif).
  by exists h3, (mkClient u r ch), rm.
Qed.

(** The 64 shards behave as one map from room ids to rooms, whatever ids
    share a shard: the FNV hash only picks a lock. *)
Theorem shards_are_one_map h (f : gmap string room) :
  length (shards h) = numShards → (∀ r, lookup_room r h = f !! r) →
  ∀ r rm, (∀ r', lookup_room r' (put_room r rm h) = <[r := rm]> f !! r')
    ∧ (∀ r', lookup_room r' (drop_room r h) = delete r f !! r')
    ∧ length (shards (put_room r rm h)) = numShards ∧ length (shards (drop_room r h)) = numShards.
Proof.
  intros Hl Hf r rm. split_and!.
  - intros r'. rewrite lookup_room_put by done. case_decide as Hd; [subst; by rewrite lookup_insert_eq|].
    by rewrite lookup_insert_ne.
  - intros r'. rewrite lookup_room_drop by done. case_decide as Hd; [subst; by rewrite lookup_delete_eq|].
    by rewrite lookup_delete_ne.
  - simpl. by rewrite length_alter.
  - simpl. by rewrite length_alter.
Qed.

(** The limit holds when check and registration are one step, but a stream
    reads [AtCapacity] before its first frame arrives and registers after: with
    one place left, two streams that check before either registers both pass,
    and the hub then holds one connection more than its limit. *)
Theorem capacity_race R h ctx1 u1 r1 h1 c1 ctx2 u2 r2 h2 c2 :
  hub_inv R h → (Z.of_nat (size R) < 2 ^ 63 - 2)%Z → AtCapacity h = false →
  connect ctx1 u1 r1 h = (h1, c1) → connect ctx2 u2 r2 h1 = (h2, c2) →
  ((0 < maxConns h)%Z → (connCnt h1 ≤ maxConns h1)%Z) ∧
  (maxConns h = Z.of_nat (size R) + 1 → AtCapacity h1 = true ∧ connCnt h2 = maxConns h2 + 1)%Z.
Proof.
  intros Hinv Hsz Hcap H1 H2.
  destruct (connect_cnt _ _ _ _ _ _ _ Hinv H1) as [Hc1 Hm1]; [lia|].
  destruct (connect_spec _ _ _ _ _ _ _ Hinv H1) as (Hi1 & Hn & _).
  assert (Hsz1 : size ({[c1]} ∪ R) = size R + 1).
  { rewrite size_union, size_singleton by set_solver. lia. }
  destruct (connect_cnt _ _ _ _ _ _ _ Hi1 H2) as [Hc2 Hm2]; [lia|].
  assert (Hc : connCnt h = Z.of_nat (size R)).
  { rewrite (inv_cnt _ _ Hinv). apply wrap_i64_small. unfold is_i64. lia. }
  unfold AtCapacity in *. rewrite Hc1, Hm1, Hc2, Hm2, Hm1, Hsz1. rewrite Hc in Hcap.
  apply andb_false_iff in Hcap. split.
  - intros Hpos. destruct Hcap as [Hcap|Hcap]; bool_facts; lia.
  - intros Hmax. rewrite Hmax. split; [|lia]. apply andb_true_iff. split; [apply Z.ltb_lt|apply Z.leb_le]; lia.
Qed.

End hub.
Arguments t B : clear implicits.
End Hub.

(** ** A hub of a single pod *)

Module NoopHub.
Definition empty : Hub.t Noop.t := Hub.NewHubWithLimit ct_empty 2.
Definition alice := Hub.connect 1 "alice" "dm:alice:bob" empty.
Definition bob := Hub.connect 2 "bob" "dm:alice:bob" alice.1.

Definition carol := Hub.connect 3 "carol" "r" bob.1.

Lemma empty_broker_ok : broker_ok (Hub.broker empty).
Proof. by intros ? []. Qed.

Lemma alice_inv : Hub.hub_inv ({[alice.2]} ∪ ∅) alice.1.
Proof.
  exact (proj1 (Hub.connect_spec 1 "alice" "dm:alice:bob" ∅ empty alice.1 alice.2
    (Hub.NewHub_inv _ 2 empty_broker_ok) (surjective_pairing alice))).
Qed.

Lemma bob_inv : Hub.hub_inv ({[bob.2]} ∪ ({[alice.2]} ∪ ∅)) bob.1.
Proof.
  exact (proj1 (Hub.connect_spec 2 "bob" "dm:alice:bob" _ alice.1 bob.1 bob.2
    alice_inv (surjective_pairing bob))).
Qed.
End NoopHub.

Lemma hub_safe_witness :
  Hub.ConnCount NoopHub.alice.1 = 1%Z ∧
  ∃ s' : gset nat * Hub.t Noop.t, outcome_bind (Hub.Unregister 0 NoopHub.alice.1)
    (λ h', Done (({[NoopHub.alice.2]} ∪ ∅) ∖ {[0]}, h')) = Done s'.
Proof.
  destruct (Hub.hub_safe ({[NoopHub.alice.2]} ∪ ∅) NoopHub.alice.1) as (H1 & _ & _ & H2).
  - eapply Hub.reach_step; [apply (Hub.reach_init ct_empty 2), NoopHub.empty_broker_ok|].
    apply Hub.step_op. exact (Hub.op_connect ∅ NoopHub.empty 1 "alice" "dm:alice:bob" _ _ (surjective_pairing NoopHub.alice)).
  - split; [rewrite H2; vm_compute; reflexivity|]. apply H1, Hub.step_op, Hub.op_disconnect. decide_now.
Defined.

Lemma broadcast_exact_witness :
  ∃ h' p, Hub.Broadcast_new (ServerMessage_zero <| ServerMessage_RoomId := "dm:alice:bob" |>) true
      NoopHub.bob.1 = Done h'
    ∧ ct_tab (Hub.sends h') !! 0 = Some (mkChan [p] 256 false)
    ∧ ct_tab (Hub.sends h') !! 1 = Some (mkChan [p] 256 false).
Proof.
  destruct (Hub.broadcast_exact _ _ (ServerMessage_zero <| ServerMessage_RoomId := "dm:alice:bob" |>)
    true NoopHub.bob_inv) as (h' & p & Hb & _ & _ & _ & H).
  exists h', p. split; [exact Hb|]. split.
  - apply (H 0 (Hub.mkClient "alice" "dm:alice:bob" 0) (make_chan 256));
      [decide_now|vm_compute; reflexivity|vm_compute; reflexivity].
  - apply (H 1 (Hub.mkClient "bob" "dm:alice:bob" 1) (make_chan 256));
      [decide_now|vm_compute; reflexivity|vm_compute; reflexivity].
Defined.

Lemma connect_disconnect_witness :
  ∃ h3, Hub.Unregister 1 NoopHub.bob.1 = Done h3 ∧ Hub.members "dm:alice:bob" h3 = {[0]}
    ∧ Hub.broker h3 = Hub.broker NoopHub.bob.1.
Proof.
  destruct (Hub.connect_disconnect _ NoopHub.alice.1 2 "bob" "dm:alice:bob" NoopHub.bob.1 NoopHub.bob.2
    NoopHub.alice_inv (surjective_pairing NoopHub.bob)) as [_ H].
  destruct (H _ NoopHub.bob.1 NoopHub.bob_inv) as (h3 & cl & rm & H1 & _ & _ & _ & _ & _ & H2 & _ & H3).
  - decide_now.
  - reflexivity.
  - exists h3. split; [exact H1|]. split; [rewrite H2; decide_now|].
    rewrite decide_False in H3; [exact (proj1 H3)|]. decide_now.
Defined.

Lemma shards_are_one_map_witness :
  Hub.lookup_room "a" (Hub.drop_room "b" NoopHub.empty) = None.
Proof.
  destruct (Hub.shards_are_one_map NoopHub.empty ∅) with (r := "b") (rm := Hub.mkRoom ∅ None)
    as (_ & H & _).
  - reflexivity.
  - intros r. unfold Hub.lookup_room. cbn [Hub.shards NoopHub.empty Hub.NewHubWithLimit].
    rewrite lookup_replicate_2 by apply Hub.shard_lt. reflexivity.
  - rewrite H. reflexivity.
Defined.

(** Two places for clients, three clients. *)
Lemma capacity_race_witness :
  Hub.AtCapacity NoopHub.alice.1 = false ∧
  Hub.connCnt NoopHub.carol.1 = 3%Z.
Proof.
  split; [vm_compute; reflexivity|].
  destruct (Hub.capacity_race _ NoopHub.alice.1 2 "bob" "dm:alice:bob" NoopHub.bob.1 NoopHub.bob.2
    3 "carol" "r" NoopHub.carol.1 NoopHub.carol.2 NoopHub.alice_inv) as [_ H].
  - vm_compute. reflexivity.
  - vm_compute. reflexivity.
  - exact (surjective_pairing NoopHub.bob).
  - exact (surjective_pairing NoopHub.carol).
  - destruct H as [_ H]; [vm_compute; reflexivity|]. rewrite H. vm_compute. reflexivity.
Defined.
