(* ===== verification/HubSpec.v ===== *)
(** * What the hub promises

    An abstract room service: who sits in which room and what waits for each
    client. The hub of [app/chat/hub.go], with its shards, pointers, channels and
    broker, implements it: every operation of the hub is the operation of the
    service on the abstract state. *)

From S2P Require Import Prelude GoString Pb Json Chan Broker Hub.

(** ** The service *)

Module Rooms.

Record t : Type := mk { seats : gmap nat string; inbox : gmap nat (list ServerMessage) }.

Definition empty : t := mk ∅ ∅.

Definition join (c : nat) (r : string) (s : t) : t := mk (<[c := r]> (seats s)) (<[c := []]> (inbox s)).
Definition leave (c : nat) (s : t) : t := mk (delete c (seats s)) (delete c (inbox s)).

(** A message for a client that has 256 waiting is lost. *)
Definition offer (m : ServerMessage) (q : list ServerMessage) : list ServerMessage :=
  if bool_decide (length q < 256) then q ++ [m] else q.

Definition say (m : ServerMessage) (s : t) : t :=
  mk (seats s) (map_imap (λ c q, Some (if decide (seats s !! c = Some (ServerMessage_RoomId m))
                                      then offer m q else q)) (inbox s)).

Definition take (c : nat) (s : t) : option (ServerMessage * t) :=
  match inbox s !! c with
  | Some (m :: q) => Some (m, mk (seats s) (<[c := q]> (inbox s)))
  | _ => None
  end.

End Rooms.

Section hub_spec.
Context {B : Type} `{BR : Broker B} `{JC : JsonCodec ServerMessage} `{!BrokerLaws B}.
Import Hub.

(** The registered clients. *)
Definition present (R : gset nat) (h : Hub.t B) : gmap nat client := filter (λ x, x.1 ∈ R) (ptrs h).

(** The messages behind a channel's pointers. *)
Definition contents (ms : gmap nat ServerMessage) (o : option (chan nat)) : list ServerMessage :=
  match o with Some ch => omap (λ p, ms !! p) (chan_buf ch) | None => [] end.

Definition abs (R : gset nat) (h : Hub.t B) : Rooms.t :=
  Rooms.mk (RoomID <$> present R h) ((λ cl, contents (msgs h) (ct_tab (sends h) !! Send cl)) <$> present R h).

(** Queued pointers point to messages, and a new pointer is none of the old. *)
Record pointers_ok (R : gset nat) (h : Hub.t B) : Prop := {
  po_next p : is_Some (msgs h !! p) → p < next h;
  po_queue c cl ch :
    c ∈ R → ptrs h !! c = Some cl → ct_tab (sends h) !! Send cl = Some ch →
    chan_cap ch = 256 ∧ Forall (λ p, is_Some (msgs h !! p)) (chan_buf ch)
}.

Lemma present_lookup R h c : present R h !! c = if decide (c ∈ R) then ptrs h !! c else None.
Proof.
  unfold present. destruct (ptrs h !! c) as [cl|] eqn:E.
  - case_decide; [by apply map_lookup_filter_Some|]. apply map_lookup_filter_None. right. by intros x Hx.
  - case_decide; apply map_lookup_filter_None; by left.
Qed.

(** A pointer that is handed out is new to every queue. *)
Lemma contents_fresh ms n m ch :
  (∀ p, is_Some (ms !! p) → p < n) → Forall (λ p, is_Some (ms !! p)) (chan_buf ch) →
  contents (<[n := m]> ms) (Some ch) = contents ms (Some ch).
Proof.
  intros Hn Hf. simpl. apply omap_agree. eapply Forall_impl; [exact Hf|]. intros p Hp.
  rewrite lookup_insert_ne; [done|]. intros <-. apply Hn in Hp. lia.
Qed.

(** *** What the operations keep *)

Lemma connect_frame ctx u r (h h' : Hub.t B) c :
  connect ctx u r h = (h', c) → msgs h' = msgs h ∧ next h' = next h + 1 ∧ c = next h.
Proof.
  unfold connect, NewClient, Register. destruct (ct_make _ _) as [tb ch]. simpl. rewrite lookup_insert_eq. simpl.
  intros [= <- <-]. destruct (lookup_room r _) as [rm|]; [done|]. by destruct (Subscribe _ _ _).
Qed.

Lemma Unregister_frame c (h h' : Hub.t B) : Unregister c h = Done h' → msgs h' = msgs h ∧ next h' = next h.
Proof.
  unfold Unregister. destruct (ptrs h !! c) as [cl|]; [|by intros [= <-]].
  destruct (lookup_room _ _) as [r|]; simpl; [|by intros [= <-]].
  destruct (ct_close _ _) as [tb|]; [|done]. simpl. case_match; [|by intros [= <-]].
  destruct (cancel r) as [s|]; simpl; [|by intros [= <-]].
  destruct (Cancel s _) as [b|]; [|done]. by intros [= <-].
Qed.

Lemma pointers_start b n : pointers_ok ∅ (NewHubWithLimit b n).
Proof. constructor; [by intros p []|]. intros c cl ch Hc. set_solver. Qed.

(** *** The abstract state, client by client *)

Lemma rooms_ext s s' :
  (∀ c, Rooms.seats s !! c = Rooms.seats s' !! c) → (∀ c, Rooms.inbox s !! c = Rooms.inbox s' !! c) → s = s'.
Proof. destruct s, s'. simpl. intros. f_equal; by apply map_eq. Qed.

Lemma seats_abs R h c : Rooms.seats (abs R h) !! c = if decide (c ∈ R) then RoomID <$> ptrs h !! c else None.
Proof. unfold abs. simpl. rewrite lookup_fmap, present_lookup. by case_decide. Qed.

Lemma inbox_abs R h c :
  Rooms.inbox (abs R h) !! c =
    if decide (c ∈ R) then (λ cl, contents (msgs h) (ct_tab (sends h) !! Send cl)) <$> ptrs h !! c else None.
Proof. unfold abs. simpl. rewrite lookup_fmap, present_lookup. by case_decide. Qed.

Lemma pointers_keep R R' (h h' : Hub.t B) :
  pointers_ok R h → msgs h' = msgs h → next h ≤ next h' →
  (∀ c cl ch, c ∈ R' → ptrs h' !! c = Some cl → ct_tab (sends h') !! Send cl = Some ch →
     (chan_cap ch = 256 ∧ chan_buf ch = []) ∨
     (c ∈ R ∧ ptrs h !! c = Some cl ∧ ∃ ch0, ct_tab (sends h) !! Send cl = Some ch0 ∧
       chan_cap ch = chan_cap ch0 ∧ chan_buf ch `suffix_of` chan_buf ch0)) →
  pointers_ok R' h'.
Proof.
  intros [Hn Hq] Hm Hle H. constructor; rewrite Hm; [intros p Hp%Hn; lia|].
  intros c cl ch Hc Hcl Hch. destruct (H c cl ch Hc Hcl Hch) as [[-> ->]|(Hc0 & Hcl0 & ch0 & Hch0 & -> & k & Hk)].
  - done.
  - destruct (Hq c cl ch0 Hc0 Hcl0 Hch0) as [? Hf]. split; [done|].
    rewrite Hk in Hf. by apply Forall_app in Hf as [_ ?].
Qed.

(** *** The operations on the abstract state *)

Lemma abs_connect ctx u r R (h h' : Hub.t B) c :
  hub_inv R h → pointers_ok R h → connect ctx u r h = (h', c) →
  pointers_ok ({[c]} ∪ R) h' ∧ abs ({[c]} ∪ R) h' = Rooms.join c r (abs R h).
Proof.
  intros Hinv Hok Hc. destruct (connect_frame _ _ _ _ _ _ Hc) as (Hms & Hnx & _).
  destruct (connect_spec _ _ _ _ _ _ _ Hinv Hc) as (_ & Hni & _ & ch & Hp & _ & Ht & Hnt).
  assert (Hold : ∀ c' cl, c' ∈ R → ptrs h !! c' = Some cl → c' ≠ c ∧ Send cl ≠ ch).
  { intros c' cl Hc' Hcl. split; [by intros ->|]. intros <-.
    destruct (inv_open _ _ Hinv _ Hc') as (cl' & Hcl' & (? & ? & _)%elem_ct_open). congruence. }
  split.
  - apply (pointers_keep R _ h); [done|done|lia|]. intros c' cl q Hin Hcl Hq. rewrite Ht in Hq.
    apply elem_of_union in Hin as [->%elem_of_singleton|Hin].
    + rewrite Hp, lookup_insert_eq in Hcl. injection Hcl as <-. simpl in Hq.
      rewrite lookup_insert_eq in Hq. injection Hq as <-. by left.
    + assert (c' ≠ c) by (by intros ->). rewrite Hp, lookup_insert_ne in Hcl by done.
      destruct (Hold _ _ Hin Hcl). rewrite lookup_insert_ne in Hq by done. right.
      split_and!; [done..|]. by exists q.
  - apply rooms_ext; intros c'; rewrite ?seats_abs, ?inbox_abs, Hp, ?Hms, ?Ht;
      cbn [Rooms.join Rooms.seats Rooms.inbox].
    + destruct (decide (c' = c)) as [->|Hne].
      * rewrite decide_True, !lookup_insert_eq by set_solver. done.
      * rewrite !lookup_insert_ne, seats_abs by done. repeat case_decide; set_solver.
    + destruct (decide (c' = c)) as [->|Hne].
      * rewrite decide_True, !lookup_insert_eq by set_solver. simpl. by rewrite lookup_insert_eq.
      * rewrite !lookup_insert_ne, inbox_abs by done. destruct (decide (c' ∈ R)) as [Hin|Hin].
        -- rewrite decide_True by set_solver. destruct (ptrs h !! c') as [cl|] eqn:Hcl; [|done].
           destruct (Hold _ _ Hin Hcl). simpl. by rewrite lookup_insert_ne.
        -- rewrite decide_False by set_solver. done.
Qed.

Lemma abs_Unregister c R (h : Hub.t B) :
  hub_inv R h → pointers_ok R h → c ∈ R →
  ∃ h', Unregister c h = Done h' ∧ pointers_ok (R ∖ {[c]}) h' ∧
    abs (R ∖ {[c]}) h' = Rooms.leave c (abs R h).
Proof.
  intros Hinv Hok Hc. destruct (inv_open _ _ Hinv _ Hc) as (cl & Hcl & _).
  destruct (Unregister_spec c cl R h Hinv Hc Hcl) as (h' & _ & Hu & _ & Hp & Hm & Hclose & _).
  assert (Hsd : ∀ c' cl', c' ∈ R ∖ {[c]} → ptrs h !! c' = Some cl' →
    ct_tab (sends h') !! Send cl' = ct_tab (sends h) !! Send cl').
  { intros c' cl' [Hc' Hne%not_elem_of_singleton]%elem_of_difference Hcl'.
    rewrite (ct_close_lookup _ _ _ _ Hclose). rewrite decide_False; [done|]. intros Heq.
    by apply Hne, (inv_send_inj _ _ Hinv c' c cl' cl). }
  exists h'. split; [done|]. split.
  - apply (pointers_keep R _ h); [done|done|by rewrite (proj2 (Unregister_frame _ _ _ Hu))|].
    intros c' cl' ch Hc' Hcl' Hch. rewrite Hp in Hcl'. right. rewrite (Hsd _ _ Hc' Hcl') in Hch.
    split_and!; [set_solver|done|]. by exists ch.
  - apply rooms_ext; intros c'; rewrite ?seats_abs, ?inbox_abs, Hp, ?Hm;
      cbn [Rooms.leave Rooms.seats Rooms.inbox];
      (destruct (decide (c' = c)) as [->|Hne];
        [rewrite lookup_delete_eq, decide_False by set_solver; done|]);
      rewrite lookup_delete_ne by done; rewrite ?seats_abs, ?inbox_abs.
    + repeat case_decide; set_solver.
    + destruct (decide (c' ∈ R)); [rewrite decide_True by set_solver|by rewrite decide_False by set_solver].
      destruct (ptrs h !! c') as [cl'|] eqn:Hcl'; [|done]. simpl.
      rewrite (Hsd c'); [done|set_solver|done].
Qed.

(** What a channel holds after the offer of a new pointer. *)
Lemma contents_offered ms n m ch :
  (∀ p, is_Some (ms !! p) → p < n) → Forall (λ p, is_Some (ms !! p)) (chan_buf ch) → chan_cap ch = 256 →
  contents (<[n := m]> ms) (Some (offered n ch)) = Rooms.offer m (contents ms (Some ch)).
Proof.
  intros Hn Hf Hcap. pose proof (contents_fresh ms n m ch Hn Hf) as Hc. simpl in Hc. simpl.
  unfold offered, Rooms.offer. rewrite Hcap, length_omap_Some by done. case_bool_decide; [|done].
  simpl. rewrite omap_app, Hc. simpl. by rewrite lookup_insert_eq.
Qed.

Lemma abs_broker R (h : Hub.t B) b : abs R (h <| broker := b |>) = abs R h.
Proof. done. Qed.

Lemma pointers_broker R (h : Hub.t B) b : pointers_ok R h → pointers_ok R (h <| broker := b |>).
Proof. intros []. by constructor. Qed.

Lemma abs_Broadcast m pub R (h : Hub.t B) :
  hub_inv R h → pointers_ok R h →
  ∃ h', Broadcast_new m pub h = Done h' ∧ pointers_ok R h' ∧ abs R h' = Rooms.say m (abs R h).
Proof.
  intros Hinv [Hn Hq]. destruct (alloc_inv m R h Hinv) as [Hi _].
  destruct (Broadcast_spec (next h) pub m R _ Hi) as (h' & Hb & _ & _ & Hp & Hms & _ & Hnx & _ & Hs);
    [simpl; by rewrite lookup_insert_eq|]. simpl in Hp, Hms, Hnx.
  exists h'. split; [done|]. change (sends (alloc m h).1) with (sends h) in Hs.
  change (ptrs (alloc m h).1) with (ptrs h) in Hs. split.
  - constructor; rewrite Hms, ?Hnx, ?Hp.
    + intros p [<-|[_ Hp'%Hn]]%lookup_insert_is_Some; lia.
    + intros c cl ch Hc Hcl. rewrite (Hs c cl Hc Hcl). intros Hch.
      assert (∃ ch0, ct_tab (sends h) !! Send cl = Some ch0 ∧ (ch = ch0 ∨ ch = offered (next h) ch0)) as
        (ch0 & Hch0 & Hor).
      { destruct (String.eqb _ _); [|by exists ch; auto].
        destruct (ct_tab (sends h) !! Send cl) as [ch0|]; [|done]. injection Hch as <-. exists ch0. auto. }
      destruct (Hq c cl ch0 Hc Hcl Hch0) as [Hcap Hf].
      assert (Hf' : Forall (λ p, is_Some (<[next h := m]> (msgs h) !! p)) (chan_buf ch0)).
      { eapply Forall_impl; [exact Hf|]. intros p Hp'. apply lookup_insert_is_Some'. by right. }
      destruct Hor as [->| ->]; [done|]. rewrite chan_cap_offered. split; [done|]. unfold offered.
      case_bool_decide; [|done]. simpl. apply Forall_app_2; [done|]. constructor; [|done].
      rewrite lookup_insert_eq. by eexists.
  - apply rooms_ext; intros c; rewrite ?seats_abs, ?inbox_abs, Hp; cbn [Rooms.say Rooms.seats Rooms.inbox];
      [by rewrite seats_abs|].
    rewrite map_lookup_imap, inbox_abs, seats_abs. destruct (decide (c ∈ R)) as [Hc|Hc]; [|done].
    destruct (inv_open _ _ Hinv _ Hc) as (cl & Hcl & (ch & Hch & _)%elem_ct_open). rewrite Hcl.
    destruct (Hq c cl ch Hc Hcl Hch) as [Hcap Hf]. simpl. rewrite (Hs c cl Hc Hcl), Hch, Hms. f_equal.
    destruct (String.eqb_spec (RoomID cl) (ServerMessage_RoomId m)); case_decide; [|congruence..|].
    + by apply contents_offered.
    + by apply contents_fresh.
Qed.

Lemma abs_receive R (h : Hub.t B) c cl p tb :
  hub_inv R h → pointers_ok R h → c ∈ R → ptrs h !! c = Some cl →
  ct_recv (Send cl) (sends h) = Some (p, tb) →
  pointers_ok R (h <| sends := tb |>) ∧
  ∃ m, msgs h !! p = Some m ∧ Rooms.take c (abs R h) = Some (m, abs R (h <| sends := tb |>)).
Proof.
  intros Hinv Hok Hc Hcl Hr. unfold ct_recv, recv_chan in Hr.
  destruct (ct_tab (sends h) !! Send cl) as [ch|] eqn:Hch; [|done]. simpl in Hr.
  destruct (chan_buf ch) as [|q buf] eqn:Hbuf; [done|]. injection Hr as -> <-.
  destruct (po_queue _ _ Hok c cl ch Hc Hcl Hch) as [Hcap Hf]. rewrite Hbuf in Hf.
  apply Forall_cons in Hf as [[m Hm] Hf].
  set (h' := h <| sends := _ |>).
  assert (Hlk : ∀ c' cl', c' ∈ R → ptrs h !! c' = Some cl' → ct_tab (sends h') !! Send cl' =
    if decide (c' = c) then Some (mkChan buf (chan_cap ch) (chan_closed ch)) else ct_tab (sends h) !! Send cl').
  { intros c' cl' Hc' Hcl'. simpl. destruct (decide (c' = c)) as [->|Hne].
    - simplify_eq. by rewrite lookup_insert_eq.
    - rewrite lookup_insert_ne; [done|]. intros Heq. apply Hne. by apply (inv_send_inj _ _ Hinv c' c cl' cl). }
  split.
  - apply (pointers_keep R R h h'); [done..|]. intros c' cl' ch' Hc' Hcl'. rewrite (Hlk _ _ Hc' Hcl').
    intros Hch'. right. split_and!; [done..|]. case_decide; subst; [|by exists ch'].
    injection Hch' as <-. change (ptrs h !! c = Some cl') in Hcl'. simplify_eq. exists ch. split_and!; [done..|].
    simpl. rewrite Hbuf. by exists [p].
  - exists m. split; [done|]. unfold Rooms.take. rewrite inbox_abs, decide_True, Hcl by done.
    assert (He : contents (msgs h) (ct_tab (sends h) !! Send cl) = m :: contents (msgs h) (Some (mkChan buf 0 true))).
    { rewrite Hch. simpl. rewrite Hbuf. simpl. by rewrite Hm. }
    cbn [fmap option_fmap option_map]. rewrite He. do 2 f_equal. apply rooms_ext; [done|].
    intros c'. cbn [Rooms.inbox]. rewrite inbox_abs. change (ptrs h') with (ptrs h). change (msgs h') with (msgs h).
    destruct (decide (c' = c)) as [->|Hne].
    + rewrite lookup_insert_eq, decide_True, Hcl by done. cbn [fmap option_fmap option_map].
      by rewrite (Hlk _ _ Hc Hcl), decide_True.
    + rewrite lookup_insert_ne, inbox_abs by done. destruct (decide (c' ∈ R)) as [Hc'|]; [|done].
      destruct (ptrs h !! c') as [cl'|] eqn:Hcl'; [|done]. cbn [fmap option_fmap option_map].
      by rewrite (Hlk _ _ Hc' Hcl'), decide_False.
Qed.

(** A message of another pod, with the time of its delivery here. *)
Definition stamped (now : Z) (m : ServerMessage) : ServerMessage :=
  if (ServerMessage_DeliveredAtUnixMs m =? 0)%Z then m <| ServerMessage_DeliveredAtUnixMs := now |> else m.

(** What a turn of a room's forwarding goroutine says to the room. *)
Lemma abs_forward now s R (h : Hub.t B) o :
  hub_inv R h → pointers_ok R h → forward now s h = Some o →
  ∃ h' raw b, o = Done h' ∧ Recv s (broker h) = Some (raw, b) ∧ pointers_ok R h' ∧
    abs R h' = match Unmarshal raw with
               | Some m => Rooms.say (stamped now m) (abs R h)
               | None => abs R h
               end.
Proof.
  intros Hinv Hok Hf. unfold forward in Hf. destruct (Recv s (broker h)) as [[raw b]|] eqn:Hr; [|done].
  cbn [mbind option_bind] in Hf. destruct (Recv_live _ _ _ _ (inv_broker _ _ Hinv) Hr) as [Hb Hl].
  assert (Hi : hub_inv R (h <| broker := b |>)) by (apply (hub_inv_ext R h); try apply Hinv; done).
  pose proof (pointers_broker R h b Hok) as Hok'.
  destruct (Unmarshal raw) as [m|] eqn:Hu; cbv zeta in Hf; injection Hf as <-.
  - destruct (abs_Broadcast (stamped now m) false R _ Hi Hok') as (h' & Hb' & ? & ?).
    exists h', raw, b. rewrite Hu. split_and!; [exact Hb'|done..].
  - exists (h <| broker := b |>), raw, b. by rewrite Hu.
Qed.

Lemma step_pointers R (h : Hub.t B) o R' h' :
  hub_inv R h → pointers_ok R h → step (R, h) o → o = Done (R', h') → pointers_ok R' h'.
Proof.
  intros Hinv Hok Hstep. inversion Hstep as [? ? Hop|]; subst; [|intros [= <- <-]; by apply pointers_broker].
  inversion Hop as [? ? ? ? ? ? ? Hc|? ? c Hin|? ? m pub|? ? ? ? ? Hf|? ? ? ? ? ? ? Hcl Hrc]; subst.
  - intros [= <- <-]. by eapply abs_connect.
  - destruct (abs_Unregister c R h Hinv Hok Hin) as (h1 & -> & ? & _). by intros [= <- <-].
  - destruct (abs_Broadcast m pub R h Hinv Hok) as (h1 & -> & ? & _). by intros [= <- <-].
  - destruct (abs_forward _ _ R h _ Hinv Hok Hf) as (h1 & _ & _ & -> & _ & ? & _). by intros [= <- <-].
  - intros [= <- <-]. by eapply abs_receive.
Qed.

Lemma pointers_reachable s : reachable s → pointers_ok s.1 s.2.
Proof.
  induction 1 as [b n Hb|[R h] [R' h'] Hr IH Hstep]; [apply pointers_start|].
  eapply step_pointers; [exact (reachable_inv _ Hr)|exact IH|exact Hstep|done].
Qed.

(** C6: The hub implements the abstract room service: from every reachable state,
    connecting a stream is [join], unregistering one is [leave], a broadcast is
    [say] of its message, a turn of a forwarding goroutine is [say] of the
    message it received, its delivery time filled in, and what a client takes
    from its channel is the oldest message the service keeps for it. No
    pointer, shard, channel or broker shows. *)
Theorem hub_refines_rooms R (h : Hub.t B) :
  reachable (R, h) →
  (∀ ctx u r h' c, connect ctx u r h = (h', c) → abs ({[c]} ∪ R) h' = Rooms.join c r (abs R h))
  ∧ (∀ c, c ∈ R → ∃ h', Unregister c h = Done h' ∧ abs (R ∖ {[c]}) h' = Rooms.leave c (abs R h))
  ∧ (∀ m pub, ∃ h', Broadcast_new m pub h = Done h' ∧ abs R h' = Rooms.say m (abs R h))
  ∧ (∀ now s o, forward now s h = Some o → ∃ h' raw b, o = Done h' ∧ Recv s (broker h) = Some (raw, b) ∧
       abs R h' = match Unmarshal raw with
                  | Some m => Rooms.say (stamped now m) (abs R h)
                  | None => abs R h
                  end)
  ∧ (∀ c cl, c ∈ R → ptrs h !! c = Some cl →
       match ct_recv (Send cl) (sends h) with
       | Some (p, tb) => ∃ m, msgs h !! p = Some m ∧
           Rooms.take c (abs R h) = Some (m, abs R (h <| sends := tb |>))
       | None => Rooms.inbox (abs R h) !! c = Some []
       end).
Proof.
  intros Hr. pose proof (reachable_inv _ Hr) as Hinv. pose proof (pointers_reachable _ Hr) as Hok.
  simpl in Hinv, Hok. split_and!.
  - intros. by eapply abs_connect.
  - intros c Hc. destruct (abs_Unregister c R h Hinv Hok Hc) as (h' & ? & _ & ?). by exists h'.
  - intros m pub. destruct (abs_Broadcast m pub R h Hinv Hok) as (h' & ? & _ & ?). by exists h'.
  - intros now s o Hf. destruct (abs_forward now s R h o Hinv Hok Hf) as (h' & raw & b & ? & ? & _ & ?).
    by exists h', raw, b.
  - intros c cl Hc Hcl. destruct (ct_recv (Send cl) (sends h)) as [[p tb]|] eqn:E.
    + by destruct (abs_receive R h c cl p tb Hinv Hok Hc Hcl E) as [_ ?].
    + rewrite inbox_abs, decide_True, Hcl by done. cbn [fmap option_fmap option_map]. unfold ct_recv, recv_chan in E.
      destruct (inv_open _ _ Hinv _ Hc) as (cl' & Hcl' & (ch & Hch & _)%elem_ct_open). simplify_eq.
      rewrite Hch in E |- *. simpl in E. by destruct ch as [[|] ? ?].
Qed.
End hub_spec.

(** ** Two clients of one room *)

Lemma noop_bob_reachable :
  Hub.reachable ({[NoopHub.bob.2]} ∪ ({[NoopHub.alice.2]} ∪ ∅), NoopHub.bob.1).
Proof.
  eapply Hub.reach_step; [eapply Hub.reach_step; [apply (Hub.reach_init ct_empty 2), NoopHub.empty_broker_ok|]|].
  - apply Hub.step_op. exact (Hub.op_connect ∅ NoopHub.empty 1 "alice" "dm:alice:bob" _ _ (surjective_pairing NoopHub.alice)).
  - apply Hub.step_op. exact (Hub.op_connect _ NoopHub.alice.1 2 "bob" "dm:alice:bob" _ _ (surjective_pairing NoopHub.bob)).
Qed.

Lemma hub_refines_rooms_witness :
  ∃ h', Hub.Broadcast_new (ServerMessage_zero <| ServerMessage_RoomId := "dm:alice:bob" |>) true
      NoopHub.bob.1 = Done h' ∧
    abs ({[NoopHub.bob.2]} ∪ ({[NoopHub.alice.2]} ∪ ∅)) h' =
      Rooms.say (ServerMessage_zero <| ServerMessage_RoomId := "dm:alice:bob" |>)
        (abs ({[NoopHub.bob.2]} ∪ ({[NoopHub.alice.2]} ∪ ∅)) NoopHub.bob.1).
Proof.
  destruct (hub_refines_rooms _ _ noop_bob_reachable) as (_ & _ & H & _). apply H.
Defined.
