(* ===== verification/HubRedis.v ===== *)
(** * The hub over Redis

    What the composition of the hub with the Redis broker does: a pod receives
    its own publications back, and a room's subscription lives as long as the
    stream that opened it. *)

From S2P Require Import Prelude GoString Pb Json Chan Broker Hub.
Import Hub.

Section hub_redis.
Context {S : Type} `{PS : RedisPubSub S} `{!RedisPubSubLaws S}.
Implicit Types (h : Hub.t (Redis.t S)) (b : Redis.t S).

(** A room's subscription, idle: its goroutine runs, its context is not done,
    and nothing waits in the service or in the channel. *)
Record idle_room (r : string) (s : nat) (h : Hub.t (Redis.t S)) : Prop := {
  idle_client : Redis.nil_client (broker h) = false;
  idle_sub : cancel <$> lookup_room r h = Some (Some s);
  idle_pump : ∃ ps ctx, Redis.pumps (broker h) !! s = Some (ps, ctx, true)
    ∧ ctx ∉ Redis.done_ctx (broker h) ∧ rps_queue (Redis.srv (broker h)) !! ps = Some (Redis.channel r, []);
  idle_chan : ct_tab (Redis.tab (broker h)) !! s = Some (mkChan [] 128 false)
}.

(** A message published to an idle subscription is received by its channel, once. *)
Lemma pump_delivers s ps ctx c d b :
  Redis.pumps b !! s = Some (ps, ctx, true) → ctx ∉ Redis.done_ctx b →
  rps_queue (Redis.srv b) !! ps = Some (c, [d]) → ct_tab (Redis.tab b) !! s = Some (mkChan [] 128 false) →
  ∃ b' b'', Redis.pump s b = Some (Done b') ∧ Recv s b' = Some (d, b'')
    ∧ Redis.pump s b'' = None ∧ Recv s b'' = None.
Proof.
  intros Hp Hctx Hq Hch. pose proof (rps_receive_ok ps (Redis.srv b)) as Hr. rewrite Hq in Hr.
  destruct Hr as (srv2 & Hrec & _ & Hq2). eexists _, _. split_and!.
  - unfold Redis.pump. rewrite Hp, Hq, Hch, Hrec.
    rewrite (bool_decide_false (ctx ∈ _)), (bool_decide_false (Some _ = None)) by done. simpl.
    unfold ct_try_send. rewrite Hch. simpl. reflexivity.
  - unfold Recv, Redis.redis_broker, Redis.recv, ct_recv. simpl. rewrite lookup_insert_eq. reflexivity.
  - pose proof (rps_receive_ok ps srv2) as Hr2. rewrite Hq2, lookup_insert_eq in Hr2.
    unfold Redis.pump. simpl. rewrite Hp, Hq2, !lookup_insert_eq, Hr2.
    by rewrite (bool_decide_false (ctx ∈ _)), (bool_decide_false (Some _ = None)).
  - unfold Recv, Redis.redis_broker, Redis.recv, ct_recv. simpl. by rewrite !lookup_insert_eq.
Qed.

(** A publication comes back on the pod's own subscription of the room. *)
Lemma publish_echo r s d h srv' :
  idle_room r s h → rps_publish (Redis.channel r) d (Redis.srv (broker h)) = (srv', None) →
  ∃ b b', Publish r d (broker h) = (b, None) ∧ Redis.pump s b = Some (Done b')
    ∧ Redis.nil_client b = false ∧ ∃ b'', Recv s b' = Some (d, b'').
Proof.
  intros [Hn _ (ps & ctx & Hp & Hctx & Hq) Hch] Hpub.
  pose proof (rps_publish_ok _ _ _ _ Hpub) as [_ Hq'].
  destruct (pump_delivers s ps ctx (Redis.channel r) d (broker h <| Redis.srv := srv' |>)) as (b' & b'' & Hpu & Hr & _);
    [done..| |done|].
  { simpl. rewrite Hq', lookup_fmap, Hq. simpl. by rewrite String.eqb_refl. }
  exists (broker h <| Redis.srv := srv' |>), b'. split; [|split_and!; [done..|by exists b'']].
  unfold Publish, Redis.redis_broker, Redis.publish. by rewrite Hn, Hpub.
Qed.

(** With Redis, a message that a client of this pod sends is queued twice
    for every client of its room on this pod: once by the broadcast itself and
    once more when the pod's own subscription receives the publication. *)
Theorem own_message_twice R h m s c cl srv' now :
  hub_inv R h → idle_room (ServerMessage_RoomId m) s h → message_wf m → canon_message m = m →
  ServerMessage_DeliveredAtUnixMs m ≠ 0%Z →
  rps_publish (Redis.channel (ServerMessage_RoomId m)) (Marshal m) (Redis.srv (broker h)) = (srv', None) →
  c ∈ R → ptrs h !! c = Some cl → RoomID cl = ServerMessage_RoomId m →
  ct_tab (sends h) !! Send cl = Some (mkChan [] 256 false) →
  ∃ h1 b2 h3 p1 p2,
    Broadcast_new m true h = Done h1
    ∧ Redis.pump s (broker h1) = Some (Done b2)
    ∧ forward now s (h1 <| broker := b2 |>) = Some (Done h3)
    ∧ ct_tab (sends h3) !! Send cl = Some (mkChan [p1; p2] 256 false)
    ∧ p1 ≠ p2 ∧ msgs h3 !! p1 = Some m ∧ msgs h3 !! p2 = Some m.
Proof.
  intros Hinv Hidle Hwf Hcan Hdel Hpub Hc Hcl Hroom Hsend.
  destruct (alloc_inv m R h Hinv) as [Hi _].
  destruct (Broadcast_spec (next h) true m R _ Hi)
    as (h1 & Hb & Hi1 & _ & Hp1 & Hms1 & _ & Hn1 & Hbr1 & Hs1); [simpl; by rewrite lookup_insert_eq|].
  destruct (publish_echo _ _ _ _ _ Hidle Hpub) as (b & b2 & Hpu & Hpump & Hnb & b3 & Hrecv).
  simpl in Hbr1. simpl in Hpu. rewrite Hpu in Hbr1. simpl in Hbr1.
  assert (Hi2 : hub_inv R (h1 <| broker := b2 |>)).
  { destruct (Redis.pump_ok s b (Done b2)) as (b' & [= <-] & Hok & Hl & _); [|done|done|].
    - pose proof (inv_broker _ _ Hi1) as Hok. by rewrite Hbr1 in Hok.
    - apply (hub_inv_ext R h1); try apply Hi1; try done. by rewrite Hbr1. }
  destruct (Recv_live _ _ _ _ (inv_broker _ _ Hi2) Hrecv) as [Hok3 Hl3].
  set (h2 := h1 <| broker := b2 |> <| broker := b3 |>).
  assert (Hi3 : hub_inv R h2) by (apply (hub_inv_ext R _ h2 Hi2); try apply Hi1; done).
  destruct (alloc_inv m R h2 Hi3) as [Hi4 _].
  destruct (Broadcast_spec (next h1) false m R _ Hi4)
    as (h3 & Hb3 & _ & _ & _ & Hms3 & _ & _ & _ & Hs3); [simpl; by rewrite lookup_insert_eq|].
  assert (Hcl1 : ptrs h1 !! c = Some cl) by (by rewrite Hp1).
  exists h1, b2, h3, (next h), (next h1).
  split_and!; [exact Hb|by rewrite Hbr1| | | | |].
  - rewrite (forward_message now s (h1 <| broker := b2 |>) (Marshal m) b3 m); [by f_equal|done| |done].
    by rewrite message_roundtrip, Hcan.
  - rewrite (Hs3 c cl Hc Hcl1). change (sends (alloc m h2).1) with (sends h1).
    rewrite (Hs1 c cl Hc Hcl). change (sends (alloc m h).1) with (sends h).
    by rewrite Hsend, Hroom, String.eqb_refl.
  - rewrite Hn1. simpl. lia.
  - rewrite Hms3. simpl. rewrite lookup_insert_ne by (rewrite Hn1; simpl; lia).
    rewrite Hms1. simpl. by rewrite lookup_insert_eq.
  - rewrite Hms3. simpl. by rewrite lookup_insert_eq.
Qed.

Lemma redis_subscribe_pump ctx r b b' s :
  Redis.nil_client b = false → Subscribe ctx r b = (b', s) →
  (∃ ps, Redis.pumps b' !! s = Some (ps, ctx, true)) ∧ ct_tab (Redis.tab b') !! s = Some (make_chan 128).
Proof.
  unfold Subscribe, Redis.redis_broker, Redis.subscribe, ct_make. intros ->.
  destruct (rps_subscribe _ _) as [srv' ps]. intros [= <- <-]. simpl.
  rewrite !lookup_insert_eq. by split; [eexists|].
Qed.

(** Once its context is done, a goroutine with nothing queued ends at its next
    turn, and its channel yields nothing from then on. *)
Lemma pump_ctx_done s ps ctx b :
  Redis.pumps b !! s = Some (ps, ctx, true) → ct_tab (Redis.tab b) !! s = Some (make_chan 128) →
  ctx ∈ Redis.done_ctx b →
  ∃ b1, Redis.pump s b = Some (Done b1) ∧
    ∀ srv', let b' := b1 <| Redis.srv := srv' |> in Redis.pump s b' = None ∧ Recv s b' = None.
Proof.
  intros Hp Ht Hd. eexists. split.
  - unfold Redis.pump, ct_close. rewrite Hp, Ht, (bool_decide_true (ctx ∈ _)) by done. reflexivity.
  - intros srv'. unfold Redis.pump, Recv, Redis.redis_broker, Redis.recv, ct_recv. simpl.
    by rewrite !lookup_insert_eq.
Qed.

(** C39: A room's subscription carries the context of the stream that opened the
    room. When that stream ends while another one stays, the room stays, and a
    later stream does not subscribe again; but the goroutine that receives for
    the room stops at its next turn, and after that no publication of another
    pod is ever received for the clients that remain. *)
Theorem first_context_starves_room R h r ctx1 u1 h1 c1 ctx2 u2 h2 c2 h3 :
  hub_inv R h → Redis.nil_client (broker h) = false → lookup_room r h = None →
  connect ctx1 u1 r h = (h1, c1) → connect ctx2 u2 r h1 = (h2, c2) →
  Unregister c1 (h2 <| broker := Redis.ctx_cancel ctx1 (broker h2) |>) = Done h3 →
  members r h3 = {[c2]} ∧
  ∃ s b, cancel <$> lookup_room r h3 = Some (Some s) ∧ Redis.pump s (broker h3) = Some (Done b) ∧
    ∀ srv', let b' := b <| Redis.srv := srv' |> in
      Redis.pump s b' = None ∧ Recv s b' = None.
Proof.
  intros Hinv Hn Hr H1 H2 H3.
  destruct (connect_spec _ _ _ _ _ _ _ Hinv H1) as (Hi1 & Hc1 & Hm1 & _).
  destruct (connect_spec _ _ _ _ _ _ _ Hi1 H2) as (Hi2 & Hc2 & Hm2 & ch2 & Hp2 & Hpn2 & _).
  pose proof (connect_room _ _ _ _ _ _ _ Hinv H1) as Hroom1. rewrite Hr in Hroom1.
  destruct Hroom1 as (s & Hsub & Hlk1). apply (redis_subscribe_pump _ _ _ _ _ Hn) in Hsub as [[ps Hpump] Htab].
  pose proof (connect_room _ _ _ _ _ _ _ Hi1 H2) as Hroom2. rewrite Hlk1 in Hroom2.
  destruct Hroom2 as [Hb2 Hlk2]. set (h2' := h2 <| broker := _ |>) in H3.
  assert (Hi2' : hub_inv ({[c2]} ∪ ({[c1]} ∪ R)) h2').
  { apply (hub_inv_ext _ h2); try apply Hi2; try done. destruct (inv_broker _ _ Hi2). by constructor. }
  assert (Hmr : members r h2 = {[c1; c2]}).
  { rewrite Hm2, Hm1, !decide_True by done. unfold members. rewrite Hr. set_solver. }
  assert (Hc1in : RoomID <$> ptrs h2' !! c1 = Some r).
  { apply (inv_members _ _ Hi2' c1 r). change (members r h2') with (members r h2). rewrite Hmr. set_solver. }
  destruct (ptrs h2' !! c1) as [cl1|] eqn:Hcl1; [|done]. injection Hc1in as Hcr.
  destruct (Unregister_spec c1 cl1 _ _ Hi2') as (h3' & r0 & Hu & _ & _ & _ & _ & Hm3 & Hl0 & Hif);
    [set_solver|done|].
  rewrite Hu in H3. injection H3 as ->. rewrite Hcr in *.
  assert (Hne : c1 ≠ c2) by (intros ->; set_solver).
  change (members r h2') with (members r h2) in Hif. rewrite Hmr in Hif.
  rewrite decide_False in Hif by set_solver. destruct Hif as [Hb3 Hlk3]. split.
  - rewrite Hm3. change (members r h2') with (members r h2). rewrite Hmr. set_solver.
  - change (lookup_room r h2') with (lookup_room r h2) in Hl0. rewrite Hlk2 in Hl0. injection Hl0 as <-.
    destruct (pump_ctx_done s ps ctx1 (broker h3)) as (b & Hpu & Hrest).
    + rewrite Hb3. simpl. by rewrite Hb2.
    + rewrite Hb3. simpl. by rewrite Hb2.
    + rewrite Hb3. simpl. set_solver.
    + exists s, b. by rewrite Hlk3.
Qed.

End hub_redis.

(** ** Two streams of one pod over a Redis in memory *)

Module RedisHub.
Definition redis : Redis.t MemRedis.t := Redis.mk false MemRedis.empty ct_empty ∅ ∅.
Definition empty : Hub.t (Redis.t MemRedis.t) := NewHub redis.
Definition alice := connect 1 "alice" "dm:alice:bob" empty.
Definition bob := connect 2 "bob" "dm:alice:bob" alice.1.
Definition hello : ServerMessage :=
  ServerMessage_zero <| ServerMessage_RoomId := "dm:alice:bob" |>
    <| ServerMessage_Text := "hi" |> <| ServerMessage_DeliveredAtUnixMs := 7%Z |>.
(** Alice's stream has ended: its context is done, then it unregisters. *)
Definition left : Hub.t (Redis.t MemRedis.t) :=
  match Unregister 0 (bob.1 <| broker := Redis.ctx_cancel 1 (broker bob.1) |>) with
  | Done h => h
  | Panic _ => empty
  end.

Lemma empty_inv : hub_inv ∅ empty.
Proof. apply NewHub_inv. constructor; simpl; [by intros ? []|done|done|done]. Qed.

Lemma redis_alice_inv : hub_inv ({[alice.2]} ∪ ∅) alice.1.
Proof.
  exact (proj1 (connect_spec 1 "alice" "dm:alice:bob" ∅ empty alice.1 alice.2
    empty_inv (surjective_pairing alice))).
Qed.

Lemma alice_idle : idle_room "dm:alice:bob" 0 alice.1.
Proof.
  constructor; [vm_compute; reflexivity..| |vm_compute; reflexivity].
  exists 0, 1. split_and!; [vm_compute; reflexivity|decide_now|vm_compute; reflexivity].
Qed.
End RedisHub.

Lemma own_message_twice_witness :
  ∃ h1 b2 h3 p1 p2,
    Broadcast_new RedisHub.hello true RedisHub.alice.1 = Done h1
    ∧ Redis.pump 0 (broker h1) = Some (Done b2)
    ∧ forward 9 0 (h1 <| broker := b2 |>) = Some (Done h3)
    ∧ ct_tab (sends h3) !! 0 = Some (mkChan [p1; p2] 256 false).
Proof.
  destruct (own_message_twice _ RedisHub.alice.1 RedisHub.hello 0 0 (mkClient "alice" "dm:alice:bob" 0)
    (rps_publish (Redis.channel "dm:alice:bob") (Marshal RedisHub.hello) (Redis.srv (broker RedisHub.alice.1))).1
    9 RedisHub.redis_alice_inv RedisHub.alice_idle) as (h1 & b2 & h3 & p1 & p2 & H1 & H2 & H3 & H4 & _).
  - constructor; vm_compute; split; congruence.
  - vm_compute. reflexivity.
  - discriminate.
  - reflexivity.
  - decide_now.
  - vm_compute. reflexivity.
  - reflexivity.
  - vm_compute. reflexivity.
  - exists h1, b2, h3, p1, p2. split; [exact H1|]. split; [exact H2|]. split; [exact H3|exact H4].
Defined.

Lemma first_context_starves_room_witness :
  members "dm:alice:bob" RedisHub.left = {[RedisHub.bob.2]} ∧
  ∃ s b, Redis.pump s (broker RedisHub.left) = Some (Done b).
Proof.
  destruct (first_context_starves_room ∅ RedisHub.empty "dm:alice:bob" 1 "alice" RedisHub.alice.1
    RedisHub.alice.2 2 "bob" RedisHub.bob.1 RedisHub.bob.2 RedisHub.left RedisHub.empty_inv)
    as (Hm & s & b & _ & Hp & _).
  - reflexivity.
  - vm_compute. reflexivity.
  - exact (surjective_pairing RedisHub.alice).
  - exact (surjective_pairing RedisHub.bob).
  - vm_compute. reflexivity.
  - split; [exact Hm|]. exists s, b. exact Hp.
Defined.
