(* ===== verification/Pods.v ===== *)
(** * Several pods over one Redis

    Each pod runs a hub whose Redis broker reaches the same service. A pod's
    step runs on the service as it stands and leaves it as it made it; the pods'
    steps interleave. What one pod publishes the others' subscriptions receive. *)

From S2P Require Import Prelude GoString Pb Json Chan Broker Hub HubSpec HubRedis.
Import Hub.

(** ** What a pod does to the service *)

Section moves.
Context {S : Type} `{PS : RedisPubSub S} `{!RedisPubSubLaws S}.
Implicit Types (b : Redis.t S) (h : Hub.t (Redis.t S)).

(** The subscriptions of the service that a broker holds. *)
Definition owns b (k : nat) : Prop := ∃ ch p, Redis.pumps b !! ch = Some p ∧ p.1.1 = k.

(** It issues subscriptions, none twice; it opens or closes none but its own. *)
Record moves (b b' : Redis.t S) : Prop := {
  mv_nil : Redis.nil_client b' = Redis.nil_client b;
  mv_issued : rps_issued (Redis.srv b) ⊆ rps_issued (Redis.srv b');
  mv_others k : k ∈ rps_issued (Redis.srv b) → ¬ owns b k →
    is_Some (rps_queue (Redis.srv b') !! k) ↔ is_Some (rps_queue (Redis.srv b) !! k);
  mv_owns k : owns b' k → owns b k ∨ (k ∉ rps_issued (Redis.srv b) ∧ k ∈ rps_issued (Redis.srv b'))
}.

#[local] Instance moves_refl : Reflexive moves.
Proof. intros b. constructor; auto. Qed.

#[local] Instance moves_trans : Transitive moves.
Proof.
  intros a b c [N1 I1 O1 W1] [N2 I2 O2 W2]. constructor; [congruence|set_solver| |].
  - intros k Hk Hn. rewrite (O2 k), (O1 k); [done..|set_solver|]. intros [?|[? _]]%W1; done.
  - intros k [Hb|[H1 H2]]%W2; [|right; set_solver]. destruct (W1 k Hb) as [?|[? ?]]; [by left|right; set_solver].
Qed.

(** Only the table of channels or the contexts change. *)
Lemma moves_same b b' :
  Redis.nil_client b' = Redis.nil_client b → Redis.srv b' = Redis.srv b →
  (∀ k, owns b' k → owns b k) → moves b b'.
Proof. intros Hn Hs Ho. constructor; rewrite ?Hs; auto. Qed.

Lemma moves_publish r d b : moves b (Publish r d b).1.
Proof.
  unfold Publish, Redis.redis_broker, Redis.publish. destruct (Redis.nil_client b) eqn:Hn; [done|].
  destruct (rps_publish _ _ _) as [s' [e|]] eqn:E.
  - apply rps_publish_err in E as [Hi Hq]. constructor; simpl; rewrite ?Hi, ?Hq; auto.
  - apply rps_publish_ok in E as [Hi Hq]. constructor; simpl; rewrite ?Hi, ?Hq; auto.
    intros k _ _. rewrite lookup_fmap. by apply fmap_is_Some.
Qed.

Lemma publish_service r d b svc :
  Redis.nil_client b = false → rps_publish (Redis.channel r) d (Redis.srv b) = (svc, None) →
  Redis.srv (Publish r d b).1 = svc.
Proof. intros Hn Hp. unfold Publish, Redis.redis_broker, Redis.publish. by rewrite Hn, Hp. Qed.

Lemma moves_subscribe ctx r b b' s : Subscribe ctx r b = (b', s) → moves b b'.
Proof.
  unfold Subscribe, Redis.redis_broker, Redis.subscribe. destruct (ct_make _ _) as [tb ch].
  destruct (Redis.nil_client b) eqn:Hn; [by intros [= <- <-]; apply moves_same|].
  destruct (rps_subscribe _ _) as [s' ps] eqn:Es. intros [= <- <-].
  destruct (rps_subscribe_ok _ _ _ _ Es) as (Hni & Hi & Hq). constructor; simpl; rewrite ?Hi, ?Hq; [done|set_solver| |].
  - intros k Hk _. by rewrite lookup_insert_ne by (intros ->; done).
  - intros k (ch' & p & Hp & Hk). simpl in Hp. apply lookup_insert_Some in Hp as [[_ <-]|[_ Hp]].
    + right. simpl in Hk. set_solver.
    + left. by exists ch', p.
Qed.

Lemma moves_cancel s b b' : Redis.nil_client b = false → Cancel s b = Done b' → moves b b'.
Proof.
  unfold Cancel, Redis.redis_broker, Redis.cancel. intros ->.
  destruct (Redis.pumps b !! s) as [[[ps ctx] run]|] eqn:Hp; [|by intros [= <-]].
  intros [= <-]. destruct (rps_close_ok ps (Redis.srv b)) as [Hi Hq].
  constructor; simpl; rewrite ?Hi, ?Hq; auto.
  intros k _ Hn. rewrite lookup_delete_ne; [done|]. intros <-. apply Hn. by exists s, (ps, ctx, run).
Qed.

Lemma moves_recv s b d b' : Recv s b = Some (d, b') → moves b b'.
Proof.
  unfold Recv, Redis.redis_broker, Redis.recv. destruct (ct_recv _ _) as [[d' tb]|]; [|done].
  intros [= <- <-]. by apply moves_same.
Qed.

Lemma moves_pump s b b' : Redis.pump s b = Some (Done b') → moves b b'.
Proof.
  unfold Redis.pump. destruct (Redis.pumps b !! s) as [[[ps ctx] []]|] eqn:Hp; [|done..].
  destruct (_ || _).
  - destruct (ct_close _ _) as [tb|]; [|done]. intros [= <-]. apply moves_same; [done..|].
    intros k (ch & p & Hc & Hk). simpl in Hc. apply lookup_insert_Some in Hc as [[<- <-]|[_ Hc]];
      [by exists s, (ps, ctx, true)|by exists ch, p].
  - destruct (ct_tab _ !! s) as [c|]; [|done]. pose proof (rps_receive_ok ps (Redis.srv b)) as Hr.
    destruct (rps_receive ps _) as [[d s']|]; [|done]. case_bool_decide; [|done].
    destruct (ct_try_send _ _ _) as [tb|]; [|done]. intros [= <-].
    destruct (rps_queue (Redis.srv b) !! ps) as [[nm [|d' q]]|] eqn:Hq; [done| |done].
    destruct Hr as (s2 & [= <- <-] & Hi & Hqs). constructor; simpl; rewrite ?Hi, ?Hqs; auto.
    intros k _ _. rewrite lookup_insert_is_Some'. split; [intros [<-|?]; [by eexists|done]|by right].
Qed.

Lemma moves_forward now s h h' : forward now s h = Some (Done h') → ∀ R, hub_inv R h → moves (broker h) (broker h').
Proof.
  unfold forward. destruct (Recv s (broker h)) as [[raw b]|] eqn:Er; [|done]. cbn [mbind option_bind]. cbv zeta.
  intros E R Hi. pose proof (moves_recv _ _ _ _ Er) as Hm.
  destruct (Unmarshal raw) as [m|]; [|by injection E as <-].
  destruct (Recv_live _ _ _ _ (inv_broker _ _ Hi) Er) as [Hb Hl].
  assert (Hi1 : hub_inv R (h <| broker := b |>)) by (apply (hub_inv_ext R h); try apply Hi; done).
  injection E as E. revert E. match goal with |- Broadcast_new ?x _ _ = _ → _ => set (m' := x) end. intros E.
  destruct (alloc_inv m' R _ Hi1) as [Hi2 _].
  destruct (Broadcast_spec (next h) false m' R _ Hi2) as (h1 & Hbc & _ & _ & _ & _ & _ & _ & Hbr & _);
    [simpl; by rewrite lookup_insert_eq|].
  unfold Broadcast_new in E. simpl in E, Hbc. rewrite Hbc in E. injection E as <-. rewrite Hbr. exact Hm.
Qed.

Lemma moves_op R h o R' h' :
  hub_inv R h → Redis.nil_client (broker h) = false → op (R, h) o → o = Done (R', h') → moves (broker h) (broker h').
Proof.
  intros Hi Hn Hop. inversion Hop as [? ? ctx u r ? c Hc|? ? c Hin|? ? m pub|? ? now s o' Hf|]; subst.
  - intros [= <- <-]. pose proof (connect_room _ _ _ _ _ _ _ Hi Hc) as Hr. destruct (lookup_room r h) as [rm|].
    + by destruct Hr as [-> _].
    + destruct Hr as (s & Hs & _). by eapply moves_subscribe.
  - destruct (inv_open _ _ Hi c Hin) as (cl & Hcl & _).
    destruct (Unregister_spec c cl R h Hi Hin Hcl) as (h1 & r0 & -> & _ & _ & _ & _ & _ & _ & Hif).
    intros [= <- <-]. case_decide; [|by destruct Hif as [-> _]].
    destruct Hif as (_ & s & _ & Hcan). by eapply moves_cancel.
  - destruct (alloc_inv m R h Hi) as [Hi1 _].
    destruct (Broadcast_spec (next h) pub m R _ Hi1) as (h1 & Hbc & _ & _ & _ & _ & _ & _ & Hbr & _);
      [simpl; by rewrite lookup_insert_eq|].
    unfold Broadcast_new. simpl. simpl in Hbc. rewrite Hbc. intros [= <- <-]. rewrite Hbr.
    destruct pub; [|done]. apply (moves_publish _ _ (broker h)).
  - destruct o' as [h1|]; [|done]. intros [= <- <-]. by eapply moves_forward.
  - by intros [= <- <-].
Qed.
End moves.

(** ** The pods *)

Module Pods.
Section pods.
Context {S : Type} `{PS : RedisPubSub S} `{!RedisPubSubLaws S}.
#[local] Abbreviation hub := (Hub.t (Redis.t S)).
#[local] Existing Instances moves_refl moves_trans.

Record t : Type := mk { service : S; pods : gmap nat (gset nat * hub) }.

(** A pod's hub on the service as it stands. *)
Definition with_service (s : S) (h : hub) : hub := h <| broker := (broker h) <| Redis.srv := s |> |>.

(** A pod's own steps: its hub's operations, a turn of a subscription's goroutine, the end of a
    stream's context. *)
Inductive local : gset nat * hub → outcome (gset nat * hub) → Prop :=
  | local_op x o : op x o → local x o
  | local_pump R h s o :
      Redis.pump s (broker h) = Some o → local (R, h) (outcome_bind o (λ b, Done (R, h <| broker := b |>)))
  | local_ctx R h ctx : local (R, h) (Done (R, h <| broker := Redis.ctx_cancel ctx (broker h) |>)).

(** What a step of pod [i] leaves. *)
Definition put (i : nat) (x : gset nat * hub) (y : t) : t := mk (Redis.srv (broker x.2)) (<[i := x]> (pods y)).

Inductive step : t → outcome t → Prop :=
  | step_pod i R h y o :
      pods y !! i = Some (R, h) → local (R, with_service (service y) h) o →
      step y (outcome_bind o (λ x, Done (put i x y))).

(** Pods start empty, with a client of the service. *)
Definition started (x : gset nat * hub) : Prop :=
  ∃ s n, x = (∅, NewHubWithLimit (Redis.mk false s ct_empty ∅ ∅) n).

Inductive reachable : t → Prop :=
  | reach_start s ps : (∀ i x, ps !! i = Some x → started x) → reachable (mk s ps)
  | reach_step y y' : reachable y → step y (Done y') → reachable y'.

(** *** The invariant *)

(** Every pod's hub is sound on the shared service, and no two hold one subscription. *)
Record inv (y : t) : Prop := {
  pi_hub i R h : pods y !! i = Some (R, h) → hub_inv R (with_service (service y) h);
  pi_client i R h : pods y !! i = Some (R, h) → Redis.nil_client (broker h) = false;
  pi_own i j R1 h1 R2 h2 k :
    pods y !! i = Some (R1, h1) → pods y !! j = Some (R2, h2) → owns (broker h1) k → owns (broker h2) k → i = j
}.

Lemma local_ok R h o :
  hub_inv R h → Redis.nil_client (broker h) = false → local (R, h) o →
  ∃ R' h', o = Done (R', h') ∧ hub_inv R' h' ∧ moves (broker h) (broker h').
Proof.
  intros Hi Hn Hl. inversion Hl as [? ? Hop|? ? s o' Hp|]; subst.
  - destruct (op_inv R h o Hi Hop) as (R' & h' & -> & Hi'). exists R', h'. split_and!; [done..|].
    by eapply moves_op.
  - destruct (Redis.pump_ok s _ _ (inv_broker _ _ Hi) Hn Hp) as (b' & -> & Hb & Hlv & _).
    eexists R, _. split; [reflexivity|]. split; [|by eapply moves_pump].
    apply (hub_inv_ext R h); try apply Hi; done.
  - eexists R, _. split; [reflexivity|]. split; [|by apply moves_same].
    apply (hub_inv_ext R h); try apply Hi; try done. destruct (inv_broker _ _ Hi). by constructor.
Qed.

(** A pod that did not move is as sound as before. *)
Lemma others_keep R h s b' :
  hub_inv R (with_service s h) → Redis.nil_client (broker h) = false →
  (∀ b, Redis.srv b = s → (∀ k, owns (broker h) k → ¬ owns b k) → moves b b' →
   hub_inv R (with_service (Redis.srv b') h)).
Proof.
  intros Hi Hn b Hs Hown [_ Hiss Hoth _]. subst s. pose proof (inv_broker _ _ Hi) as Hok.
  change (Redis.redis_ok (broker (with_service (Redis.srv b) h))) in Hok.
  apply (hub_inv_ext R _ (with_service (Redis.srv b') h) Hi); try apply Hi; try done.
  - destruct Hok as [H1 H2 H3 H4]. constructor; simpl in *; [done| |done|done].
    intros ch p Hp. destruct (H2 ch p Hp). split; [done|set_solver].
  - change (Redis.redis_live (broker (with_service (Redis.srv b') h)) =
      Redis.redis_live (broker (with_service (Redis.srv b) h))).
    unfold Redis.redis_live. simpl. rewrite Hn. apply set_eq. intros ch. rewrite !Redis.elem_sub_open. simpl.
    apply exist_proper. intros p. split; intros [Hp Hq]; (split; [done|]);
      (assert (Ho : owns (broker h) p.1.1) by (by exists ch, p));
      destruct (Redis.ok_pumps _ Hok ch p Hp) as [_ Hin]; simpl in Hin;
      [rewrite <- (Hoth _ Hin)|rewrite (Hoth _ Hin)]; auto.
Qed.

Lemma pods_step_inv y o : inv y → step y o → ∃ y', o = Done y' ∧ inv y'.
Proof.
  intros [H1 H2 H3] Hs. destruct Hs as [i R h y o Hp Hl].
  destruct (local_ok R (with_service (service y) h) o (H1 i R h Hp) (H2 i R h Hp) Hl)
    as (R' & h' & -> & Hi' & Hm).
  eexists. split; [reflexivity|].
  assert (Hfree : ∀ j Rj hj k, i ≠ j → pods y !! j = Some (Rj, hj) → owns (broker hj) k → ¬ owns (broker h) k)
    by (intros j Rj hj k Hne Hj Ho Ho'; by apply Hne, (H3 i j R h Rj hj k)).
  assert (Hnew : ∀ j Rj hj k, i ≠ j → pods y !! j = Some (Rj, hj) → owns (broker hj) k → ¬ owns (broker h') k).
  { intros j Rj hj k Hne Hj Ho Ho'. destruct (mv_owns _ _ Hm k Ho') as [Hold|[Hni _]].
    - by eapply (Hfree j).
    - destruct Ho as (ch & p & Hpp & <-). apply Hni.
      by destruct (Redis.ok_pumps _ (inv_broker _ _ (H1 j Rj hj Hj)) ch p Hpp) as [_ Hin]. }
  constructor; unfold put; simpl.
  - intros j Rj hj [[<- [= -> ->]]|[Hne Hj]]%lookup_insert_Some.
    + by destruct hj as [? [] ? ? ? ? ? ?].
    + apply (others_keep Rj hj (service y) _ (H1 j Rj hj Hj) (H2 j Rj hj Hj) (broker (with_service (service y) h)));
        [done| |exact Hm]. intros k Ho. exact (Hfree j Rj hj k Hne Hj Ho).
  - intros j Rj hj [[<- [= -> ->]]|[Hne Hj]]%lookup_insert_Some; [|by eapply H2].
    rewrite (mv_nil _ _ Hm). by apply (H2 i R h).
  - intros j1 j2 R1 h1 R2 h2 k [[<- [= -> ->]]|[Hn1 Hj1]]%lookup_insert_Some
      [[<- [= -> ->]]|[Hn2 Hj2]]%lookup_insert_Some Ho1 Ho2; [done| | |by eapply H3].
    + by destruct (Hnew j2 R2 h2 k Hn2 Hj2 Ho2).
    + by destruct (Hnew j1 R1 h1 k Hn1 Hj1 Ho1).
Qed.

Lemma pods_start_inv s ps : (∀ i x, ps !! i = Some x → started x) → inv (mk s ps).
Proof.
  intros Hps. constructor; simpl.
  - intros i R h (s0 & n & [= -> ->])%Hps.
    apply (NewHub_inv (Redis.mk false s ct_empty ∅ ∅) n). constructor; simpl; [by intros ? []|done|done|done].
  - by intros i R h (s0 & n & [= -> ->])%Hps.
  - intros i j R1 h1 R2 h2 k (s0 & n & [= -> ->])%Hps _ (ch & p & Hp & _). simpl in Hp.
    by rewrite lookup_empty in Hp.
Qed.

Lemma pods_reachable_inv y : reachable y → inv y.
Proof.
  induction 1 as [s ps Hps|y y' _ IH Hs]; [by apply pods_start_inv|].
  destruct (pods_step_inv y _ IH Hs) as (y1 & [= <-] & Hy). exact Hy.
Qed.

(** *** Properties *)

(** C9: Pods that share one Redis never trouble each other: however their streams,
    broadcasts, goroutines and ending contexts interleave, no step of any pod panics,
    every pod's rooms are exactly those of its own clients, and each room of a pod holds
    a subscription that is open at the service and that no other pod holds. *)
Theorem pods_are_safe y :
  reachable y →
  (∀ o, step y o → ∃ y', o = Done y')
  ∧ ∀ i R h, pods y !! i = Some (R, h) →
      (∀ c r, c ∈ members r h ↔ c ∈ R ∧ RoomID <$> ptrs h !! c = Some r)
      ∧ ∀ r rm, lookup_room r h = Some rm → members r h ≠ ∅ ∧
          ∃ s p, cancel rm = Some s ∧ Redis.pumps (broker h) !! s = Some p
            ∧ is_Some (rps_queue (service y) !! p.1.1)
            ∧ ∀ j R' h', j ≠ i → pods y !! j = Some (R', h') → ¬ owns (broker h') p.1.1.
Proof.
  intros Hy%pods_reachable_inv. split.
  - intros o Ho. destruct (pods_step_inv y o Hy Ho) as (y' & -> & _). by exists y'.
  - intros i R h Hi. pose proof (pi_hub y Hy i R h Hi) as Hinv. split; [exact (inv_members _ _ Hinv)|].
    intros r rm Hr. destruct (inv_room _ _ Hinv r rm Hr) as (Hne & s & Hs & Hl).
    rewrite (members_lookup _ _ _ Hr). split; [done|].
    change (s ∈ Redis.redis_live (broker (with_service (service y) h))) in Hl.
    unfold Redis.redis_live in Hl. simpl in Hl. rewrite (pi_client y Hy i R h Hi) in Hl.
    apply Redis.elem_sub_open in Hl as (p & Hp & Hq). simpl in Hp, Hq. exists s, p. split_and!; try done.
    intros j R' h' Hji Hj Ho. apply Hji. apply (pi_own y Hy j i R' h' R h p.1.1); [done..|]. by exists s, p.
Qed.

End pods.
Arguments t S : clear implicits.
End Pods.

(** ** Two pods over a Redis in memory: Alice on the second *)

Module TwoPods.
Definition start : Pods.t MemRedis.t := Pods.mk MemRedis.empty {[0 := (∅, RedisHub.empty); 1 := (∅, RedisHub.empty)]}.
Definition alice := connect 1 "alice" "dm:alice:bob" (Pods.with_service MemRedis.empty RedisHub.empty).
Definition joined : Pods.t MemRedis.t := Pods.put 1 ({[alice.2]} ∪ ∅, alice.1) start.

Lemma joined_reachable : Pods.reachable joined.
Proof.
  apply (Pods.reach_step start).
  - apply Pods.reach_start. intros i x [[_ <-]|[_ [_ <-]%lookup_singleton_Some]]%lookup_insert_Some;
      by exists MemRedis.empty, 0%Z.
  - exact (Pods.step_pod 1 ∅ RedisHub.empty start _ eq_refl
      (Pods.local_op _ _ (op_connect ∅ _ 1 "alice" "dm:alice:bob" _ _ (surjective_pairing alice)))).
Qed.

Lemma alice_waits : idle_room "dm:alice:bob" 0 (Pods.with_service (Pods.service joined) alice.1).
Proof.
  constructor; [vm_compute; reflexivity..| |vm_compute; reflexivity].
  exists 0, 1. split_and!; [vm_compute; reflexivity|decide_now|vm_compute; reflexivity].
Qed.
End TwoPods.

Lemma pods_are_safe_witness :
  (∃ rm, lookup_room "dm:alice:bob" TwoPods.alice.1 = Some rm ∧ cancel rm = Some 0)
  ∧ (TwoPods.alice.2 ∈ members "dm:alice:bob" TwoPods.alice.1 ↔
       TwoPods.alice.2 ∈ ({[TwoPods.alice.2]} ∪ ∅ : gset nat)
       ∧ RoomID <$> ptrs TwoPods.alice.1 !! TwoPods.alice.2 = Some "dm:alice:bob").
Proof.
  split; [eexists; split; [vm_compute; reflexivity|reflexivity]|].
  destruct (Pods.pods_are_safe TwoPods.joined TwoPods.joined_reachable) as [_ H].
  destruct (H 1 ({[TwoPods.alice.2]} ∪ ∅) TwoPods.alice.1) as [Hm _]; [reflexivity|apply Hm].
Defined.

