(* ===== verification/Presence.v ===== *)
(** * Presence

    [app/chat/presence.go]: who is online, and when a user was last seen. The
    interface [PresenceStore], the store in Redis with its expiring keys and its
    heartbeat, and the store in memory with its shared pointers. *)

From S2P Require Import Prelude GoString Strconv Pb.

(** [PresenceStore], each call at a time in nanoseconds. *)
Class PresenceStore (P : Type) := {
  SetOnline : Z → string → bool → P → P;
  Get : Z → list string → P → P * list PresenceInfo
}.

(** What the server relies on: one answer per requested user, in order. *)
Class PresenceLaws (P : Type) `{PresenceStore P} := {
  presence_ok : P → Prop;
  SetOnline_ok now u b p : presence_ok p → presence_ok (SetOnline now u b p);
  Get_ok now ids p :
    presence_ok p → presence_ok (Get now ids p).1
    ∧ PresenceInfo_UserId <$> (Get now ids p).2 = ids
}.

(** ** Redis as a store of keys that expire *)

(** Each call happens at a time and may fail; a time to live of 0 is none.
    [kv_view] shows each key with its value and its expiry. *)
Class RedisKV (S : Type) := {
  kv_set : Z → string → string → Z → S → S * option string;
  kv_del : Z → string → S → S * option string;
  kv_exists : Z → string → S → result string Z;
  kv_get : Z → string → S → result (option string) string;
  kv_expire : Z → string → Z → S → S * option string;
  kv_view : S → gmap string (string * option Z)
}.

(** A key's value at a time. *)
Definition live_value (now : Z) (k : string) (m : gmap string (string * option Z)) : option string :=
  match m !! k with
  | Some (v, None) => Some v
  | Some (v, Some e) => if (now <? e)%Z then Some v else None
  | None => None
  end.

(** Documented behaviour of SET, DEL, EXISTS, GET and EXPIRE. The error [None]
    of [kv_get] is [redis.Nil]. *)
Class RedisKVLaws (S : Type) `{RedisKV S} := {
  kv_set_ok now k v ttl s s' :
    kv_set now k v ttl s = (s', None) →
    kv_view s' = <[k := (v, if (ttl =? 0)%Z then None else Some (now + ttl)%Z)]> (kv_view s);
  kv_set_err now k v ttl s s' e : kv_set now k v ttl s = (s', Some e) → kv_view s' = kv_view s;
  kv_del_ok now k s s' : kv_del now k s = (s', None) → kv_view s' = delete k (kv_view s);
  kv_del_err now k s s' e : kv_del now k s = (s', Some e) → kv_view s' = kv_view s;
  kv_exists_ok now k s n :
    kv_exists now k s = Ok n →
    n = match live_value now k (kv_view s) with Some _ => 1%Z | None => 0%Z end;
  kv_get_ok now k s v : kv_get now k s = Ok v → live_value now k (kv_view s) = Some v;
  kv_get_nil now k s : kv_get now k s = Err None → live_value now k (kv_view s) = None;
  kv_expire_ok now k ttl s s' :
    kv_expire now k ttl s = (s', None) →
    kv_view s' = match live_value now k (kv_view s) with
                 | Some v => <[k := (v, Some (now + ttl)%Z)]> (kv_view s) | None => kv_view s end;
  kv_expire_err now k ttl s s' e : kv_expire now k ttl s = (s', Some e) → kv_view s' = kv_view s
}.

(** A service that answers every call. *)
Class RedisReliable (S : Type) `{RedisKV S} := {
  set_answers now k v ttl s : (kv_set now k v ttl s).2 = None;
  del_answers now k s : (kv_del now k s).2 = None;
  exists_answers now k s : is_ok (kv_exists now k s) = true;
  get_answers now k s : ∀ e, kv_get now k s ≠ Err (Some e);
  expire_answers now k ttl s : (kv_expire now k ttl s).2 = None
}.

(** ** The store in Redis *)

Module RedisPresence.
Section redis_presence.
Context {D : Type} `{KV : RedisKV D}.

Definition presenceTTL : Z := 60 * 10 ^ 9.
Definition presenceRefresh : Z := 30 * 10 ^ 9.
Definition presenceKey (userID : string) : string := "chat:presence:" +:+ userID.
Definition lastSeenKey (userID : string) : string := "chat:lastseen:" +:+ userID.

(** The store is the client's service; errors are dropped. *)
Definition set_online (now : Z) (userID : string) (online : bool) (s : D) : D :=
  if online then (kv_set now (presenceKey userID) "1" presenceTTL s).1
  else
    let s := (kv_del now (presenceKey userID) s).1 in
    (kv_set now (lastSeenKey userID) (itoa (to_unix_milli now)) 0 s).1.

Definition info (now : Z) (uid : string) (s : D) : PresenceInfo :=
  let i := PresenceInfo_zero <| PresenceInfo_UserId := uid |> in
  let online := match kv_exists now (presenceKey uid) s with Ok n => (0 <? n)%Z | Err _ => false end in
  let i := i <| PresenceInfo_IsOnline := online |> in
  if online then i
  else match kv_get now (lastSeenKey uid) s with
       | Ok ms => i <| PresenceInfo_LastSeenUnixMs := (ParseInt ms).1 |>
       | Err _ => i
       end.

Definition get (now : Z) (userIDs : list string) (s : D) : D * list PresenceInfo :=
  (s, (λ uid, info now uid s) <$> userIDs).

(** One tick of [StartHeartbeat]. *)
Definition heartbeat (now : Z) (userID : string) (s : D) : D :=
  (kv_expire now (presenceKey userID) presenceTTL s).1.

(** Ticks at the times of a list. *)
Definition heartbeats (ts : list Z) (userID : string) (s : D) : D :=
  foldl (λ s t, heartbeat t userID s) s ts.

#[global] Instance redis_presence : PresenceStore D := {| SetOnline := set_online; Get := get |}.

#[global] Program Instance redis_presence_laws : PresenceLaws D := {| presence_ok _ := True |}.
Next Obligation. done. Qed.
Next Obligation.
  intros now ids s _. split; [done|]. simpl. induction ids as [|u ids IH]; [done|]. simpl.
  f_equal; [|exact IH]. unfold info. by repeat case_match.
Qed.

(** ** What the keys say *)

Context `{!RedisKVLaws D} `{!RedisReliable D}.

Lemma presenceKey_inj u v : presenceKey u = presenceKey v → u = v.
Proof. unfold presenceKey. intros H. simpl in H. by simplify_eq. Qed.
Lemma lastSeenKey_inj u v : lastSeenKey u = lastSeenKey v → u = v.
Proof. unfold lastSeenKey. intros H. simpl in H. by simplify_eq. Qed.
Lemma presence_lastSeen u v : presenceKey u ≠ lastSeenKey v.
Proof. unfold presenceKey, lastSeenKey. discriminate. Qed.

Lemma view_set now k v ttl s :
  kv_view (kv_set now k v ttl s).1 =
    <[k := (v, if (ttl =? 0)%Z then None else Some (now + ttl)%Z)]> (kv_view s).
Proof.
  destruct (kv_set now k v ttl s) as [s' e] eqn:E. pose proof (set_answers now k v ttl s) as H.
  rewrite E in H. simpl in H. subst. by apply kv_set_ok in E.
Qed.
Lemma view_del now k s : kv_view (kv_del now k s).1 = delete k (kv_view s).
Proof.
  destruct (kv_del now k s) as [s' e] eqn:E. pose proof (del_answers now k s) as H.
  rewrite E in H. simpl in H. subst. by apply kv_del_ok in E.
Qed.
Lemma view_heartbeat now u s :
  kv_view (heartbeat now u s) =
    match live_value now (presenceKey u) (kv_view s) with
    | Some v => <[presenceKey u := (v, Some (now + presenceTTL)%Z)]> (kv_view s)
    | None => kv_view s end.
Proof.
  unfold heartbeat. destruct (kv_expire _ _ _ s) as [s' e] eqn:E.
  pose proof (expire_answers now (presenceKey u) presenceTTL s) as H.
  rewrite E in H. simpl in H. subst. by apply kv_expire_ok in E.
Qed.

(** [Get]'s answer for a user, read off the keys. *)
Lemma info_spec now u s :
  info now u s =
    mkPresenceInfo u
      (bool_decide (is_Some (live_value now (presenceKey u) (kv_view s))))
      (match live_value now (presenceKey u) (kv_view s), live_value now (lastSeenKey u) (kv_view s) with
       | None, Some ms => (ParseInt ms).1
       | _, _ => 0%Z
       end).
Proof.
  unfold info. pose proof (exists_answers now (presenceKey u) s) as He.
  destruct (kv_exists now (presenceKey u) s) as [n|] eqn:E; [|done]. apply kv_exists_ok in E.
  destruct (live_value now (presenceKey u) (kv_view s)) as [v|]; subst n; simpl; [done|].
  pose proof (get_answers now (lastSeenKey u) s) as Hg.
  destruct (kv_get now (lastSeenKey u) s) as [ms|[e|]] eqn:Eg.
  - apply kv_get_ok in Eg. by rewrite Eg.
  - by destruct (Hg e).
  - apply kv_get_nil in Eg. by rewrite Eg.
Qed.

Lemma view_offline now u s :
  kv_view (set_online now u false s) =
    <[lastSeenKey u := (itoa (to_unix_milli now), None)]> (delete (presenceKey u) (kv_view s)).
Proof. unfold set_online. by rewrite view_set, view_del. Qed.

Lemma view_online now u s :
  kv_view (set_online now u true s) =
    <[presenceKey u := ("1", Some (now + presenceTTL)%Z)]> (kv_view s).
Proof. unfold set_online. by rewrite view_set. Qed.

Lemma to_unix_milli_i64 t : is_i64 (to_unix_milli t).
Proof.
  unfold to_unix_milli, wrap_i64, is_i64.
  pose proof (Z.mod_pos_bound (t `div` 10 ^ 6 + 2 ^ 63) (2 ^ 64) ltac:(lia)). lia.
Qed.

(** A refresh before the key expires moves its expiry. *)
Lemma heartbeats_online u s t0 ts :
  kv_view s !! presenceKey u = Some ("1", Some (t0 + presenceTTL)%Z) →
  (∀ i t, (t0 :: ts) !! S i = Some t → ∃ t', (t0 :: ts) !! i = Some t' ∧ (t' ≤ t < t' + presenceTTL)%Z) →
  kv_view (heartbeats ts u s) !! presenceKey u =
    Some ("1", Some (default t0 (last ts) + presenceTTL)%Z).
Proof.
  revert s t0. induction ts as [|t ts IH]; intros s t0 Hs Hts; [done|].
  unfold heartbeats. simpl. fold (heartbeats ts u (heartbeat t u s)).
  destruct (Hts 0 t eq_refl) as (t' & [= <-] & Ht).
  rewrite (IH _ t).
  - rewrite last_cons. by destruct (last ts).
  - rewrite view_heartbeat. unfold live_value. rewrite Hs.
    rewrite (proj2 (Z.ltb_lt _ _)) by lia. by rewrite lookup_insert_eq.
  - intros i t2 Hi. apply (Hts (S i) t2 Hi).
Qed.

(** A refresh never brings a deleted key back. *)
Lemma heartbeats_offline u s ts :
  kv_view s !! presenceKey u = None → kv_view (heartbeats ts u s) = kv_view s.
Proof.
  revert s. induction ts as [|t ts IH]; intros s Hs; [done|].
  unfold heartbeats. simpl. fold (heartbeats ts u (heartbeat t u s)).
  assert (Hv : kv_view (heartbeat t u s) = kv_view s).
  { rewrite view_heartbeat. unfold live_value. by rewrite Hs. }
  rewrite IH; [done|]. by rewrite Hv.
Qed.

(** ** Properties *)

(** C40: A user whose stream refreshes the key before each 60 seconds are over
    is reported online from [SetOnline] until 60 seconds after the last refresh,
    and offline from then on, without anyone deleting the key. *)
Theorem heartbeat_keeps_online u s t0 ts :
  (∀ i t, (t0 :: ts) !! S i = Some t → ∃ t', (t0 :: ts) !! i = Some t' ∧ (t' ≤ t < t' + presenceTTL)%Z) →
  let s' := heartbeats ts u (set_online t0 u true s) in
  let t_end := (default t0 (last ts) + presenceTTL)%Z in
  ∀ t, (t < t_end → PresenceInfo_IsOnline (info t u s') = true)%Z
    ∧ (t_end ≤ t → PresenceInfo_IsOnline (info t u s') = false)%Z.
Proof.
  intros Hts s' t_end t.
  assert (Hk : kv_view s' !! presenceKey u = Some ("1", Some t_end)).
  { apply heartbeats_online; [|done]. by rewrite view_online, lookup_insert_eq. }
  rewrite info_spec. simpl. unfold live_value. rewrite Hk. split; intros Ht.
  - rewrite (proj2 (Z.ltb_lt _ _)) by done. by rewrite bool_decide_true by by eexists.
  - rewrite (proj2 (Z.ltb_ge _ _)) by done. by rewrite bool_decide_false by by intros [].
Qed.

(** Presence is kept per user and not per stream: when one of a user's
    streams closes, the user is reported offline, with the closing time as last
    seen, however often the heartbeat of another open stream still fires. *)
Theorem second_stream_goes_offline u s t1 t2 t3 ts t :
  let s' := heartbeats ts u (set_online t3 u false (set_online t2 u true (set_online t1 u true s))) in
  info t u s' = mkPresenceInfo u false (to_unix_milli t3).
Proof.
  intros s'. assert (Hv : kv_view s' = <[lastSeenKey u := (itoa (to_unix_milli t3), None)]>
    (delete (presenceKey u) (kv_view (set_online t2 u true (set_online t1 u true s))))).
  { unfold s'. rewrite heartbeats_offline; rewrite view_offline; [done|].
    rewrite lookup_insert_ne by (intros He; by apply (presence_lastSeen u u)).
    by rewrite lookup_delete_eq. }
  rewrite info_spec, Hv. unfold live_value.
  rewrite lookup_insert_ne by (intros He; by apply (presence_lastSeen u u)).
  rewrite lookup_delete_eq, lookup_insert_eq, ParseInt_itoa by apply to_unix_milli_i64.
  by rewrite bool_decide_false by by intros [].
Qed.

(** [SetOnline] of one user changes no other user's answers. *)
Theorem set_online_other now u b v t s :
  u ≠ v → info t v (set_online now u b s) = info t v s.
Proof.
  intros Hne. rewrite !info_spec.
  assert (Hp : presenceKey u ≠ presenceKey v) by (intros H; by apply Hne, presenceKey_inj).
  assert (Hl : lastSeenKey u ≠ lastSeenKey v) by (intros H; by apply Hne, lastSeenKey_inj).
  pose proof (presence_lastSeen u v). pose proof (presence_lastSeen v u).
  unfold live_value. destruct b; [rewrite view_online|rewrite view_offline];
    by repeat first [rewrite lookup_insert_ne by done | rewrite lookup_delete_ne by done].
Qed.

End redis_presence.
End RedisPresence.

(** ** The store in memory *)

Module LocalPresence.

(** [data] maps users to [*pb.PresenceInfo] pointers, [heap] the pointers to
    what they point to. *)
Record t : Type := mk { data : gmap string nat; heap : gmap nat PresenceInfo; next : nat }.
#[global] Instance t_eta : Eta t := λ l, mk l.(data) l.(heap) l.(next).

Definition NewLocalPresenceStore : t := mk ∅ ∅ 0.

Definition alloc (i : PresenceInfo) (l : t) : t * nat :=
  (l <| heap := <[next l := i]> (heap l) |> <| next := next l + 1 |>, next l).

Definition set_online (now : Z) (userID : string) (online : bool) (l : t) : t :=
  let '(l, p) :=
    match data l !! userID with
    | Some p => (l, p)
    | None => let '(l, p) := alloc (PresenceInfo_zero <| PresenceInfo_UserId := userID |>) l in
              (l <| data := <[userID := p]> (data l) |>, p)
    end in
  let upd i :=
    let i := i <| PresenceInfo_IsOnline := online |> in
    if online then i else i <| PresenceInfo_LastSeenUnixMs := to_unix_milli now |> in
  l <| heap := alter upd p (heap l) |>.

(** [Get]: the pointers of the answer, those of the store where it has one. *)
Fixpoint get_ptrs (userIDs : list string) (l : t) : t * list nat :=
  match userIDs with
  | [] => (l, [])
  | uid :: r =>
      match data l !! uid with
      | Some p => let '(l, ps) := get_ptrs r l in (l, p :: ps)
      | None =>
          let '(l, p) := alloc (PresenceInfo_zero <| PresenceInfo_UserId := uid |>) l in
          let '(l, ps) := get_ptrs r l in (l, p :: ps)
      end
  end.

Definition deref (l : t) (p : nat) : PresenceInfo := default PresenceInfo_zero (heap l !! p).
Definition get (now : Z) (userIDs : list string) (l : t) : t * list PresenceInfo :=
  let '(l, ps) := get_ptrs userIDs l in (l, deref l <$> ps).

#[global] Instance local_presence : PresenceStore t := {| SetOnline := set_online; Get := get |}.

(** The answer for one user. *)
Definition info (u : string) (l : t) : PresenceInfo :=
  match data l !! u with
  | Some p => deref l p
  | None => PresenceInfo_zero <| PresenceInfo_UserId := u |>
  end.

(** Every user's pointer is allocated, names the user, and is the user's own. *)
Record local_ok (l : t) : Prop := {
  ok_heap u p : data l !! u = Some p → ∃ i, heap l !! p = Some i ∧ PresenceInfo_UserId i = u;
  ok_next p : is_Some (heap l !! p) → p < next l
}.

Lemma local_inj l u v p : local_ok l → data l !! u = Some p → data l !! v = Some p → u = v.
Proof.
  intros Hok Hu Hv. destruct (ok_heap _ Hok _ _ Hu) as (i & Hi & <-).
  destruct (ok_heap _ Hok _ _ Hv) as (j & Hj & <-). congruence.
Qed.

Lemma alloc_ok i l :
  local_ok l → local_ok (alloc i l).1 ∧ heap l !! next l = None
  ∧ (∀ u, info u (alloc i l).1 = info u l).
Proof.
  intros Hok. assert (Hn : heap l !! next l = None).
  { destruct (heap l !! next l) eqn:E; [|done]. pose proof (ok_next _ Hok (next l) ltac:(eauto)). lia. }
  split_and!; [|done|].
  - constructor; simpl.
    + intros u p Hp. destruct (ok_heap _ Hok _ _ Hp) as (j & Hj & Hu). exists j.
      rewrite lookup_insert_ne by congruence. done.
    + intros p [<-|[_ Hp]]%lookup_insert_is_Some; [lia|]. apply (ok_next _ Hok) in Hp. lia.
  - intros u. unfold info, deref. simpl. destruct (data l !! u) as [p|] eqn:E; [|done].
    destruct (ok_heap _ Hok _ _ E) as (j & Hj & _). by rewrite lookup_insert_ne by congruence.
Qed.

Lemma get_ptrs_ok ids l :
  local_ok l → let '(l', ps) := get_ptrs ids l in
  local_ok l' ∧ data l' = data l ∧ deref l' <$> ps = (λ u, info u l) <$> ids
  ∧ (∀ u, info u l' = info u l) ∧ ∀ p i, heap l !! p = Some i → heap l' !! p = Some i.
Proof.
  revert l. induction ids as [|u ids IH]; intros l Hok; [done|]. simpl.
  destruct (data l !! u) as [p|] eqn:E.
  - specialize (IH l Hok). destruct (get_ptrs ids l) as [l' ps]. destruct IH as (H1 & H2 & H3 & H4 & H5).
    split_and!; [done|done| |done|done]. rewrite fmap_cons, H3. f_equal.
    unfold info. rewrite E. unfold deref. destruct (ok_heap _ Hok _ _ E) as (i & Hi & _).
    by rewrite Hi, (H5 _ _ Hi).
  - set (i := PresenceInfo_zero <| PresenceInfo_UserId := u |>).
    destruct (alloc_ok i l Hok) as (Hok' & Hn & Hinfo). specialize (IH (alloc i l).1 Hok'). simpl in IH.
    destruct (get_ptrs ids _) as [l' ps]. destruct IH as (H1 & H2 & H3 & H4 & H5).
    split_and!; [done|done| | |].
    + rewrite fmap_cons, H3. f_equal.
      * unfold deref. rewrite (H5 (next l) i) by (by rewrite lookup_insert_eq). unfold info. by rewrite E.
      * apply list_fmap_ext. intros k x _. apply Hinfo.
    + intros v. rewrite H4. apply Hinfo.
    + intros p j Hp. apply H5. rewrite lookup_insert_ne; congruence.
Qed.

Lemma set_online_spec now u b l :
  local_ok l →
  local_ok (set_online now u b l) ∧
  ∀ v, info v (set_online now u b l) =
    if decide (v = u)
    then mkPresenceInfo u b (if b then PresenceInfo_LastSeenUnixMs (info u l) else to_unix_milli now)
    else info v l.
Proof.
  intros Hok. set (upd := λ i : PresenceInfo, let i := i <| PresenceInfo_IsOnline := b |> in
    if b then i else i <| PresenceInfo_LastSeenUnixMs := to_unix_milli now |>).
  assert (Hupd : ∀ l1 p i, local_ok l1 → data l1 !! u = Some p → heap l1 !! p = Some i →
    PresenceInfo_UserId i = u → let l2 := l1 <| heap := alter upd p (heap l1) |> in
    local_ok l2 ∧ ∀ v, info v l2 = if decide (v = u) then upd i else info v l1).
  { intros l1 p i Hok1 Hd Hi Hui. split.
    - constructor; simpl.
      + intros v q Hq. destruct (ok_heap _ Hok1 _ _ Hq) as (j & Hj & Hu).
        destruct (decide (p = q)) as [<-|Hne].
        * rewrite lookup_alter_eq, Hi. simpl. eexists. split; [done|].
          assert (v = u) as -> by (by eapply local_inj). unfold upd. by destruct b.
        * rewrite lookup_alter_ne by done. by exists j.
      + intros q. rewrite lookup_alter_is_Some. apply Hok1.
    - intros v. unfold info, deref. simpl. case_decide as Hv.
      + subst v. rewrite Hd, lookup_alter_eq, Hi. done.
      + destruct (data l1 !! v) as [q|] eqn:Eq; [|done].
        rewrite lookup_alter_ne; [done|]. intros <-. by apply Hv, (local_inj l1 v u p). }
  assert (Hmk : ∀ i, PresenceInfo_UserId i = u →
    upd i = mkPresenceInfo u b (if b then PresenceInfo_LastSeenUnixMs i else to_unix_milli now)).
  { intros i <-. unfold upd. by destruct i, b. }
  unfold set_online. destruct (data l !! u) as [p|] eqn:E.
  - destruct (ok_heap _ Hok _ _ E) as (i & Hi & Hui).
    destruct (Hupd l p i Hok E Hi Hui) as [H1 H2]. split; [exact H1|]. intros v.
    etransitivity; [exact (H2 v)|]. case_decide; [|done]. rewrite (Hmk i Hui).
    unfold info, deref. by rewrite E, Hi.
  - set (i := PresenceInfo_zero <| PresenceInfo_UserId := u |>).
    destruct (alloc_ok i l Hok) as (Hok' & Hn & Hinfo).
    set (l1 := (alloc i l).1 <| data := <[u := next l]> (data l) |>).
    assert (Hok1 : local_ok l1).
    { constructor; simpl; [|apply Hok']. intros v p [[<- <-]|[Hne Hp]]%lookup_insert_Some.
      - exists i. by rewrite lookup_insert_eq.
      - apply (ok_heap _ Hok' v p Hp). }
    destruct (Hupd l1 (next l) i Hok1) as [H1 H2]; [simpl; by rewrite lookup_insert_eq..|done|].
    split; [exact H1|]. intros v. etransitivity; [exact (H2 v)|]. case_decide as Hv.
    + rewrite (Hmk i) by done. unfold info. by rewrite E.
    + rewrite <- (Hinfo v). unfold info, l1. simpl. by rewrite lookup_insert_ne.
Qed.

#[global] Program Instance local_laws : PresenceLaws t := {| presence_ok := local_ok |}.
Next Obligation. intros now u b l Hok. by apply set_online_spec. Qed.
Next Obligation.
  intros now ids l Hok. simpl. unfold get. pose proof (get_ptrs_ok ids l Hok) as H.
  destruct (get_ptrs ids l) as [l' ps]. destruct H as (H1 & _ & H3 & _). split; [done|]. simpl.
  rewrite H3, <- list_fmap_compose. rewrite <- (list_fmap_id ids) at 2. apply list_fmap_ext.
  intros _ u _. simpl. unfold info, deref. destruct (data l !! u) as [p|] eqn:E; [|done].
  destruct (ok_heap _ Hok _ _ E) as (i & -> & <-). done.
Qed.

(** In memory, a [Get] after a [SetOnline] answers, for every user asked
    for and in the order asked, whether the user's last update was to online,
    and the time of the last update to offline. *)
Theorem local_presence_functional now u b t ids l :
  local_ok l →
  (Get t ids (SetOnline now u b l)).2 =
    (λ v, if decide (v = u)
          then mkPresenceInfo u b (if b then PresenceInfo_LastSeenUnixMs (info u l) else to_unix_milli now)
          else info v l) <$> ids.
Proof.
  intros Hok. destruct (set_online_spec now u b l Hok) as [Hok' Hinfo]. simpl. unfold get.
  pose proof (get_ptrs_ok ids _ Hok') as H. destruct (get_ptrs _ _) as [l' ps].
  destruct H as (_ & _ & H3 & _). simpl. rewrite H3. apply list_fmap_ext. intros _ v _. apply Hinfo.
Qed.

(** The pointers of an answer are the store's, or new ones. *)
Lemma get_ptrs_ptrs ids l :
  local_ok l →
  Forall2 (λ v p, data l !! v = Some p ∨ (data l !! v = None ∧ heap l !! p = None)) ids (get_ptrs ids l).2.
Proof.
  revert l. induction ids as [|u ids IH]; intros l Hok; [constructor|]. simpl.
  destruct (data l !! u) as [p|] eqn:E.
  - specialize (IH l Hok). destruct (get_ptrs ids l) as [l' ps]. constructor; [by left|done].
  - set (i := PresenceInfo_zero <| PresenceInfo_UserId := u |>).
    destruct (alloc_ok i l Hok) as (Hok' & Hn & _). specialize (IH _ Hok'). simpl in IH.
    destruct (get_ptrs ids _) as [l' ps]. constructor; [by right|].
    eapply Forall2_impl; [exact IH|]. simpl. intros v p [?|[? Hp]]; [by left|right].
    split; [done|]. by apply lookup_insert_None in Hp as [? _].
Qed.

(** [Get] hands out the store's own pointers and lets the lock go: when a
    user in the answer is updated while the caller still holds it (to serialise
    it, say), the answer already held shows the update. *)
Theorem get_is_not_a_snapshot now u b ids l l1 ps :
  local_ok l → is_Some (data l !! u) → get_ptrs ids l = (l1, ps) →
  deref l1 <$> ps = (λ v, info v l) <$> ids ∧
  deref (set_online now u b l1) <$> ps =
    (λ v, if decide (v = u)
          then mkPresenceInfo u b (if b then PresenceInfo_LastSeenUnixMs (info u l) else to_unix_milli now)
          else info v l) <$> ids.
Proof.
  intros Hok [q Hq] Hg. pose proof (get_ptrs_ok ids l Hok) as H. pose proof (get_ptrs_ptrs ids l Hok) as Hps.
  rewrite Hg in H, Hps. destruct H as (Hok1 & Hd & Hder & Hinfo & Hheap). simpl in Hps. split; [done|].
  destruct (set_online_spec now u b l1 Hok1) as [_ Hset].
  assert (Hother : ∀ p, p ≠ q → deref (set_online now u b l1) p = deref l1 p).
  { intros p Hne. unfold set_online, deref. rewrite Hd, Hq. simpl. by rewrite lookup_alter_ne. }
  assert (Hd2 : data (set_online now u b l1) = data l1).
  { unfold set_online. by rewrite Hd, Hq. }
  clear Hg. revert Hder Hps. generalize ps. clear ps.
  induction ids as [|v ids IH]; intros ps Hder Hps.
  { by apply Forall2_nil_inv_l in Hps as ->. }
  apply Forall2_cons_inv_l in Hps as (p & ps' & Hp & Hps & ->). rewrite !fmap_cons in *.
  injection Hder as Hv Hder. f_equal; [|by apply IH].
  assert (Hinfo2 : data l !! v = Some p →
    deref (set_online now u b l1) p = info v (set_online now u b l1)).
  { intros Hvp. unfold info. by rewrite Hd2, Hd, Hvp. }
  destruct Hp as [Hp|[Hp Hpn]].
  - rewrite Hinfo2 by done. rewrite Hset. case_decide; [|by rewrite Hinfo]. by rewrite !Hinfo.
  - rewrite Hother, Hv; [|intros ->; destruct (ok_heap _ Hok _ _ Hq) as (? & ? & _); congruence].
    rewrite decide_False; [done|]. intros ->. congruence.
Qed.

End LocalPresence.

(** ** A key-value service in memory, to evaluate the stores with *)

Module MemKV.

Record t : Type := mk { kvs : gmap string (string * option Z) }.

Definition set (now : Z) (k v : string) (ttl : Z) (s : t) : t * option string :=
  (mk (<[k := (v, if (ttl =? 0)%Z then None else Some (now + ttl)%Z)]> (kvs s)), None).
Definition del (now : Z) (k : string) (s : t) : t * option string := (mk (delete k (kvs s)), None).
Definition exists_ (now : Z) (k : string) (s : t) : result string Z :=
  Ok (match live_value now k (kvs s) with Some _ => 1%Z | None => 0%Z end).
Definition get (now : Z) (k : string) (s : t) : result (option string) string :=
  match live_value now k (kvs s) with Some v => Ok v | None => Err None end.
Definition expire (now : Z) (k : string) (ttl : Z) (s : t) : t * option string :=
  (match live_value now k (kvs s) with
   | Some v => mk (<[k := (v, Some (now + ttl)%Z)]> (kvs s)) | None => s end, None).

#[global] Instance mem_kv : RedisKV t :=
  {| kv_set := set; kv_del := del; kv_exists := exists_; kv_get := get; kv_expire := expire;
     kv_view := kvs |}.

#[global] Program Instance mem_kv_laws : RedisKVLaws t.
Next Obligation. by intros now k v ttl s s' [= <-]. Qed.
Next Obligation. done. Qed.
Next Obligation. by intros now k s s' [= <-]. Qed.
Next Obligation. done. Qed.
Next Obligation. by intros now k s n [= <-]. Qed.
Next Obligation. intros now k s v. simpl. unfold get. destruct (live_value _ _ _); by intros [= ->]. Qed.
Next Obligation. intros now k s. simpl. unfold get. by destruct (live_value _ _ _). Qed.
Next Obligation. intros now k ttl s s' [= <-]. simpl. by destruct (live_value _ _ _). Qed.
Next Obligation. done. Qed.

#[global] Program Instance mem_kv_reliable : RedisReliable t.
Next Obligation. done. Qed.
Next Obligation. done. Qed.
Next Obligation. done. Qed.
Next Obligation. intros now k s e. simpl. unfold get. by destruct (live_value _ _ _). Qed.
Next Obligation. done. Qed.

Definition empty : t := mk ∅.

End MemKV.

Lemma heartbeat_keeps_online_witness :
  let s := RedisPresence.heartbeats [30 * 10 ^ 9; 60 * 10 ^ 9]%Z "u" (SetOnline 0%Z "u" true MemKV.empty) in
  PresenceInfo_IsOnline (RedisPresence.info (119 * 10 ^ 9) "u" s) = true
  ∧ PresenceInfo_IsOnline (RedisPresence.info (120 * 10 ^ 9) "u" s) = false.
Proof.
  assert (H := RedisPresence.heartbeat_keeps_online "u" MemKV.empty 0 [30 * 10 ^ 9; 60 * 10 ^ 9]%Z).
  simpl in H. split; apply H; try (vm_compute; congruence).
  all: intros [|[|i]] t Hi; simplify_eq/=; eexists; (split; [done|]); vm_compute; split; congruence.
Defined.

Lemma second_stream_goes_offline_witness :
  (Get 100 ["u"] (RedisPresence.heartbeats [90]%Z "u"
    (SetOnline (7 * 10 ^ 6)%Z "u" false (SetOnline 5%Z "u" true (SetOnline 1%Z "u" true MemKV.empty))))).2
  = [mkPresenceInfo "u" false 7].
Proof.
  exact (f_equal (λ i, [i])
    (RedisPresence.second_stream_goes_offline "u" MemKV.empty 1 5 (7 * 10 ^ 6) [90]%Z 100)).
Defined.

Lemma set_online_other_witness :
  RedisPresence.info 9 "v" (SetOnline 1%Z "u" true MemKV.empty) = mkPresenceInfo "v" false 0.
Proof.
  assert (H := RedisPresence.set_online_other 1 "u" true "v" 9 MemKV.empty).
  etransitivity; [apply H; discriminate|reflexivity].
Defined.

Lemma local_presence_functional_witness :
  (Get 9%Z ["v"; "u"] (SetOnline 3%Z "u" true LocalPresence.NewLocalPresenceStore)).2
  = [mkPresenceInfo "v" false 0; mkPresenceInfo "u" true 0].
Proof.
  rewrite (LocalPresence.local_presence_functional 3 "u" true 9 ["v"; "u"]); [reflexivity|].
  constructor; simpl; [done|by intros p []].
Defined.

Lemma get_is_not_a_snapshot_witness :
  let l := LocalPresence.set_online 3 "u" true LocalPresence.NewLocalPresenceStore in
  let l1 := (LocalPresence.get_ptrs ["u"] l).1 in
  LocalPresence.deref (LocalPresence.set_online (8 * 10 ^ 6) "u" false l1)
    <$> (LocalPresence.get_ptrs ["u"] l).2 = [mkPresenceInfo "u" false 8].
Proof.
  intros l l1. destruct (LocalPresence.get_is_not_a_snapshot (8 * 10 ^ 6) "u" false ["u"] l l1
    (LocalPresence.get_ptrs ["u"] l).2) as [_ H].
  - apply LocalPresence.set_online_spec. constructor; simpl; [done|by intros p []].
  - exists 0. reflexivity.
  - apply surjective_pairing.
  - exact H.
Defined.
