(* ===== verification/RoomStore.v ===== *)
(** * The room store

    [app/chat/room_store.go]: the metadata of rooms, in Redis when there is a
    client and in a map otherwise. *)

From S2P Require Import Prelude GoString Strconv Pb Json RoomId Presence.

Module RoomStore.

(** [RoomKind] *)
Abbreviation RoomKind := Z (only parsing).
Definition RoomKindDM : RoomKind := 0%Z.
Definition RoomKindGroup : RoomKind := 1%Z.

Record RoomMeta : Type := mkRoomMeta {
  RoomID : string;
  Name : string;
  Kind : RoomKind;
  CreatedBy : string;
  CreatedAt : GoTime;
  MemberIDs : list string
}.

Section room_store.
Context {D : Type} `{KV : RedisKV D} `{JC : JsonCodec RoomMeta}.

Record t : Type := mk { rdb : option D; mem : gmap string RoomMeta }.

Definition NewRoomStore (rdb : option D) : t := mk rdb ∅.

Definition key (roomID : string) : string := "chat:room:" +:+ roomID.

(** [Get]: [Ok None] is [(nil, nil)]. *)
Definition Get (now : Z) (roomID : string) (s : t) : result string (option RoomMeta) :=
  match rdb s with
  | Some r =>
      match kv_get now (key roomID) r with
      | Err None => Ok None
      | Err (Some e) => Err ("redis get room: " +:+ e)
      | Ok data => match Unmarshal data with
                   | Some m => Ok (Some m)
                   | None => Err "unmarshal room"
                   end
      end
  | None => Ok (mem s !! roomID)
  end.

Definition save (now : Z) (m : RoomMeta) (s : t) : t * option string :=
  match rdb s with
  | Some r => let '(r, e) := kv_set now (key (RoomID m)) (Marshal m) 0 r in (mk (Some r) (mem s), e)
  | None => (mk None (<[RoomID m := m]> (mem s)), None)
  end.

(** A room with the error of its [save]. *)
Definition saved (now : Z) (m : RoomMeta) (s : t) : t * result string RoomMeta :=
  let '(s, e) := save now m s in (s, match e with Some e => Err e | None => Ok m end).

Definition CreateDM (now : Z) (userA userB createdBy : string) (s : t) : t * result string RoomMeta :=
  if String.eqb userA "" || String.eqb userB "" then (s, Err "both member IDs are required for a DM")
  else
    let ids := sort_strings [userA; userB] in
    let roomID := "dm:" +:+ Join ids ":" in
    match Get now roomID s with
    | Ok (Some existing) => (s, Ok existing)
    | _ => saved now (mkRoomMeta roomID "" RoomKindDM createdBy now ids) s
    end.

(** [CreateGroup], given the fresh UUID. *)
Definition CreateGroup (now : Z) (uuid name createdBy : string) (memberIDs : list string) (s : t)
  : t * result string RoomMeta :=
  if String.eqb name "" then (s, Err "group name is required")
  else if bool_decide (length memberIDs < 2) then (s, Err "a group requires at least 2 members")
  else saved now (mkRoomMeta ("group:" +:+ uuid) name RoomKindGroup createdBy now memberIDs) s.

(** ** What a save leaves *)

Context `{!RedisKVLaws D} `{!RedisReliable D} `{!JsonLaws RoomMeta}.

(** Values that survive their encoding unchanged. *)
Definition storable (s : t) (m : RoomMeta) : Prop :=
  match rdb s with Some _ => json_ok m ∧ canon m = m | None => True end.

Lemma save_get now now' m s :
  storable s m →
  let s' := (save now m s).1 in
  (save now m s).2 = None ∧ Get now' (RoomID m) s' = Ok (Some m).
Proof.
  unfold storable, save, Get. destruct (rdb s) as [r|] eqn:E; simpl.
  - intros [Hok Hcan]. destruct (kv_set now (key (RoomID m)) (Marshal m) 0 r) as [r' e] eqn:Es.
    pose proof (set_answers now (key (RoomID m)) (Marshal m) 0 r) as He. rewrite Es in He. simpl in He.
    subst e. apply kv_set_ok in Es. simpl in Es. simpl. split; [done|].
    assert (Hl : live_value now' (key (RoomID m)) (kv_view r') = Some (Marshal m)).
    { unfold live_value. by rewrite Es, lookup_insert_eq. }
    pose proof (get_answers now' (key (RoomID m)) r') as Hg.
    destruct (kv_get now' (key (RoomID m)) r') as [data|[e|]] eqn:Eg.
    + apply kv_get_ok in Eg. rewrite Hl in Eg. injection Eg as <-.
      by rewrite Unmarshal_Marshal, Hcan.
    + by destruct (Hg e).
    + apply kv_get_nil in Eg. by rewrite Hl in Eg.
  - intros _. split; [done|by rewrite lookup_insert_eq].
Qed.

Lemma saved_get now now' m s :
  storable s m → (saved now m s).2 = Ok m ∧ Get now' (RoomID m) (saved now m s).1 = Ok (Some m)
  ∧ (is_Some (rdb s) ↔ is_Some (rdb (saved now m s).1)).
Proof.
  intros Hst. destruct (save_get now now' m s Hst) as [H1 H2]. unfold saved.
  assert (H3 : is_Some (rdb s) ↔ is_Some (rdb (save now m s).1)).
  { unfold save. destruct (rdb s); [|done]. destruct (kv_set _ _ _ _ _). by split; eexists. }
  destruct (save now m s) as [s' e]. simpl in *. by subst.
Qed.

Definition new_dm (now : Z) (a b createdBy : string) : RoomMeta :=
  mkRoomMeta (dm_id a b) "" RoomKindDM createdBy now (sort_strings [a; b]).

(** A pair of users has one direct room: the first [CreateDM] stores it
    under the canonical id with the sorted pair as members, and every later one,
    in either order, at any time and by either user, returns that same room and
    stores nothing. *)
Theorem create_dm_once now now' a b by1 by2 s :
  a ≠ "" → b ≠ "" → Get now (dm_id a b) s = Ok None → storable s (new_dm now a b by1) →
  let '(s1, r1) := CreateDM now a b by1 s in
  r1 = Ok (new_dm now a b by1) ∧
  CreateDM now' a b by2 s1 = (s1, r1) ∧ CreateDM now' b a by2 s1 = (s1, r1).
Proof.
  intros Ha Hb Hget Hst. apply String.eqb_neq in Ha, Hb.
  assert (Hc : CreateDM now a b by1 s = saved now (new_dm now a b by1) s).
  { unfold CreateDM. cbv zeta. by rewrite Ha, Hb, join_dm, Hget. }
  rewrite Hc. destruct (saved_get now now' _ _ Hst) as (H1 & H2 & _).
  destruct (saved now _ s) as [s1 r1]. simpl in *. split; [done|]. subst r1.
  unfold CreateDM. cbv zeta. rewrite Ha, Hb, (sort_strings_pair_comm b a), join_dm. simpl.
  by rewrite H2.
Qed.

End room_store.
Arguments t D : clear implicits.

Section read_error.
Context {D : Type} `{KV : RedisKV D} `{!RedisKVLaws D} `{JC : JsonCodec RoomMeta}.

(** A failed read is taken for a missing room: when Redis cannot answer the
    [Get] inside [CreateDM] but takes the write, the metadata stored under the
    room's key is replaced, whatever it was, with a new creator and creation
    time, and the call succeeds. *)
Theorem create_dm_overwrites_on_read_error now now' a b by2 (s : t D) (r r1 : D) e :
  a ≠ "" → b ≠ "" → rdb s = Some r → kv_get now (key (dm_id a b)) r = Err (Some e) →
  kv_set now (key (dm_id a b)) (Marshal (new_dm now a b by2)) 0 r = (r1, None) →
  CreateDM now a b by2 s = (mk (Some r1) (mem s), Ok (new_dm now a b by2)) ∧
  live_value now' (key (dm_id a b)) (kv_view r1) = Some (Marshal (new_dm now a b by2)).
Proof.
  intros Ha Hb Hr Hget Hset. apply String.eqb_neq in Ha, Hb. split.
  - unfold CreateDM. cbv zeta. rewrite Ha, Hb, join_dm. unfold Get. rewrite Hr, Hget. simpl.
    unfold saved, save. rewrite Hr. change (RoomID _) with (dm_id a b).
    change (mkRoomMeta (dm_id a b) _ _ _ _ _) with (new_dm now a b by2). by rewrite Hset.
  - apply kv_set_ok in Hset. unfold live_value. by rewrite Hset, lookup_insert_eq.
Qed.

End read_error.
End RoomStore.

(** ** Evaluation: a service whose reads time out, and some text for a room *)

Module FlakyKV.
Record t : Type := mk { kv : MemKV.t }.

#[global] Instance flaky_kv : RedisKV t :=
  {| kv_set now k v ttl s := (mk (MemKV.set now k v ttl (kv s)).1, None);
     kv_del now k s := (mk (MemKV.del now k (kv s)).1, None);
     kv_exists now k s := Err "i/o timeout";
     kv_get now k s := Err (Some "i/o timeout");
     kv_expire now k ttl s := (s, Some "i/o timeout");
     kv_view s := MemKV.kvs (kv s) |}.

#[global] Program Instance flaky_kv_laws : RedisKVLaws t.
Next Obligation. by intros now k v ttl s s' [= <-]. Qed.
Next Obligation. done. Qed.
Next Obligation. by intros now k s s' [= <-]. Qed.
Next Obligation. done. Qed.
Next Obligation. done. Qed.
Next Obligation. done. Qed.
Next Obligation. done. Qed.
Next Obligation. done. Qed.
Next Obligation. by intros now k ttl s s' e [= <- <-]. Qed.
End FlakyKV.

Module RoomText.
Import RoomStore.

(** A number that stands for the room. *)
#[global] Instance meta_eq_dec : EqDecision RoomMeta.
Proof. solve_decision. Defined.
#[global] Program Instance meta_countable : Countable RoomMeta :=
  inj_countable' (λ m, (RoomID m, Name m, Kind m, CreatedBy m, CreatedAt m, MemberIDs m))
    (λ '(a, b, c, d, e, f), mkRoomMeta a b c d e f) _.
Next Obligation. by intros []. Qed.

#[global] Instance meta_codec : JsonCodec RoomMeta :=
  {| Marshal m := pretty (Npos (encode m));
     Unmarshal s := decode (Z.to_pos (digits_val (bytes s))) |}.

#[global] Program Instance meta_laws : JsonLaws RoomMeta := {| json_ok _ := True; canon m := m |}.
Next Obligation.
  intros m _. unfold Unmarshal, Marshal. simpl. destruct (pretty_digits (Npos (encode m))) as (ds & -> & _ & -> & _).
  simpl. apply decode_encode.
Qed.
End RoomText.

Lemma create_dm_once_witness :
  let s0 := RoomStore.NewRoomStore (Some MemKV.empty) in
  let '(s1, r1) := RoomStore.CreateDM 5 "bob" "alice" "bob" s0 in
  RoomStore.CreateDM 9 "alice" "bob" "alice" s1 = (s1, r1).
Proof.
  assert (H := RoomStore.create_dm_once 5 9 "bob" "alice" "bob" "alice"
    (RoomStore.NewRoomStore (Some MemKV.empty))).
  cbv zeta. destruct (RoomStore.CreateDM 5 "bob" "alice" "bob" _) as [s1 r1].
  apply H; [discriminate|discriminate|reflexivity|split; [exact I|reflexivity]].
Defined.

Lemma create_dm_overwrites_on_read_error_witness :
  (RoomStore.CreateDM 9 "bob" "alice" "mallory"
    (RoomStore.NewRoomStore (Some (FlakyKV.mk MemKV.empty)))).2
  = Ok (RoomStore.mkRoomMeta "dm:alice:bob" "" 0 "mallory" 9 ["alice"; "bob"]).
Proof.
  destruct (RoomStore.create_dm_overwrites_on_read_error 9 9 "bob" "alice" "mallory"
    (RoomStore.NewRoomStore (Some (FlakyKV.mk MemKV.empty))) (FlakyKV.mk MemKV.empty)
    (kv_set 9 (RoomStore.key (dm_id "bob" "alice"))
       (Marshal (RoomStore.new_dm 9 "bob" "alice" "mallory")) 0 (FlakyKV.mk MemKV.empty)).1
    "i/o timeout") as [H _].
  - discriminate.
  - discriminate.
  - reflexivity.
  - reflexivity.
  - reflexivity.
  - rewrite H. reflexivity.
Defined.
