(* ===== verification/Postgres.v ===== *)
(** * Rooms in PostgreSQL

    [app/repository/postgres.go]: the tables of the schema as maps from their
    primary keys, the meaning of each SQL statement of the repository on them,
    and the repository's methods as the programs that issue those statements.
    The server itself is a parameter: what it does with a statement is either
    what the statement means or an error. *)

From S2P Require Import Prelude GoString RoomId.

(** ** The tables *)

Record room_row : Type := mkRoomRow {
  rr_type : Z;
  rr_name : option string;
  rr_created_by : string;
  rr_property : option Z;
  rr_created_at : GoTime;
  rr_updated_at : GoTime
}.
Record member_row : Type := mkMemberRow { mr_role : string; mr_joined_at : GoTime; mr_left_at : option GoTime }.
Record activity_row : Type := mkActivityRow {
  ar_at : GoTime; ar_msg : option string; ar_sender : option string; ar_preview : option string
}.
Record receipt_row : Type := mkReceiptRow { rc_at : GoTime; rc_msg : option string }.

Record tables : Type := mkTables {
  chat_rooms : gmap string room_row;
  chat_room_members : gmap (string * string) member_row;
  chat_room_last_activity : gmap string activity_row;
  chat_read_receipts : gmap (string * string) receipt_row
}.
#[global] Instance tables_eta : Eta tables := λ t,
  mkTables t.(chat_rooms) t.(chat_room_members) t.(chat_room_last_activity) t.(chat_read_receipts).

(** ** The statements *)

Inductive stmt : Type :=
  | InsertRoom (id : string) (room_type : Z) (name : option string) (created_by : string)
      (property : option Z) (at_ : GoTime)
  | InsertMember (room_id user_id : string)
  | UpsertActivity (room_id : string) (at_ : GoTime) (msg_id sender_id preview : string)
  | UpsertReceipt (room_id user_id : string) (at_ : GoTime) (msg_id : string).

(** What a TEXT value can hold: UTF-8 without the zero byte. *)
Definition text_ok (s : string) : bool :=
  ValidString s && forallb (λ c, negb (code c =? 0)%N) (bytes s).
Definition texts_ok (l : list string) : bool := forallb text_ok l.

(** A statement on the tables, with [now] for NOW() and [ts] for what a
    TIMESTAMPTZ column keeps of an instant: its text values are checked, then
    the CHECK constraints, then the conflict clause, then foreign keys. *)
Definition run (ts : GoTime → GoTime) (now : GoTime) (st : stmt) (t : tables) : result string tables :=
  match st with
  | InsertRoom id ty name by_ prop at_ =>
      if negb (texts_ok (id :: by_ :: from_option (λ n, [n]) [] name)) then Err "invalid byte sequence"
      else if String.eqb by_ "" then Err "check constraint"
      else match chat_rooms t !! id with
           | Some _ => Ok t
           | None => Ok (t <| chat_rooms := <[id := mkRoomRow ty name by_ prop (ts at_) (ts at_)]> (chat_rooms t) |>)
           end
  | InsertMember rid uid =>
      if negb (texts_ok [rid; uid]) then Err "invalid byte sequence"
      else if String.eqb uid "" then Err "check constraint"
      else match chat_room_members t !! (rid, uid) with
           | Some _ => Ok t
           | None =>
               match chat_rooms t !! rid with
               | None => Err "foreign key constraint"
               | Some _ => Ok (t <| chat_room_members :=
                   <[(rid, uid) := mkMemberRow "member" (ts now) None]> (chat_room_members t) |>)
               end
           end
  | UpsertActivity rid at_ msg sender preview =>
      if negb (texts_ok [rid; msg; sender; preview]) then Err "invalid byte sequence"
      else match chat_rooms t !! rid with
           | None => Err "foreign key constraint"
           | Some _ => Ok (t <| chat_room_last_activity :=
               <[rid := mkActivityRow (ts at_) (Some msg) (Some sender) (Some preview)]>
                 (chat_room_last_activity t) |>)
           end
  | UpsertReceipt rid uid at_ msg =>
      if negb (texts_ok [rid; uid; msg]) then Err "invalid byte sequence"
      else if String.eqb uid "" then Err "check constraint"
      else match chat_rooms t !! rid with
           | None => Err "foreign key constraint"
           | Some _ => Ok (t <| chat_read_receipts :=
               <[(rid, uid) := mkReceiptRow (ts at_) (Some msg)]> (chat_read_receipts t) |>)
           end
  end.

(** What the schema keeps: members, activities and receipts belong to rooms, and
    no user id is empty. *)
Record tables_ok (t : tables) : Prop := {
  ok_creator r row : chat_rooms t !! r = Some row → rr_created_by row ≠ "";
  ok_member r u : is_Some (chat_room_members t !! (r, u)) → is_Some (chat_rooms t !! r) ∧ u ≠ "";
  ok_activity r : is_Some (chat_room_last_activity t !! r) → is_Some (chat_rooms t !! r);
  ok_receipt r u : is_Some (chat_read_receipts t !! (r, u)) → is_Some (chat_rooms t !! r) ∧ u ≠ ""
}.

Lemma run_tables_ok ts now st t t' : tables_ok t → run ts now st t = Ok t' → tables_ok t'.
Proof.
  intros Hok. unfold run. destruct st as [id ty name by_ prop at_|rid uid|rid at_ msg sender pre|rid uid at_ msg];
    destruct (negb _); try done.
  - destruct (String.eqb_spec by_ ""); [done|]. destruct (chat_rooms t !! id) as [row0|] eqn:E; intros [= <-]; [done|].
    constructor; simpl.
    + intros r row [[<- <-]|[_ H]]%lookup_insert_Some; [done|by eapply ok_creator].
    + intros r u H. destruct (ok_member _ Hok _ _ H). split; [apply lookup_insert_is_Some'; by right|done].
    + intros r H. apply lookup_insert_is_Some'. right. by apply (ok_activity _ Hok).
    + intros r u H. destruct (ok_receipt _ Hok _ _ H). split; [apply lookup_insert_is_Some'; by right|done].
  - destruct (String.eqb_spec uid ""); [done|]. destruct (chat_room_members t !! (rid, uid)) as [row0|]; [by intros [= <-]|].
    destruct (chat_rooms t !! rid) as [row1|] eqn:E; intros [= <-]. destruct Hok as [H1 H2 H3 H4].
    constructor; simpl; [done| |done|done].
    intros r u [[= <- <-]|H]%lookup_insert_is_Some'; [by rewrite E|by apply H2].
  - destruct (chat_rooms t !! rid) as [row1|] eqn:E; intros [= <-]. destruct Hok as [H1 H2 H3 H4].
    constructor; simpl; [done|done| |done].
    intros r [<-|H]%lookup_insert_is_Some'; [by rewrite E|by apply H3].
  - destruct (String.eqb_spec uid ""); [done|]. destruct (chat_rooms t !! rid) as [row1|] eqn:E; intros [= <-].
    destruct Hok as [H1 H2 H3 H4]. constructor; simpl; [done|done|done|].
    intros r u [[= <- <-]|H]%lookup_insert_is_Some'; [by rewrite E|by apply H4].
Qed.

Lemma text_ok_app s t : text_ok s = true → text_ok (s +:+ t) = text_ok t.
Proof.
  unfold text_ok. intros [Hv Hz]%andb_true_iff. by rewrite ValidString_app, bytes_app, forallb_app, Hz.
Qed.

Lemma text_ok_dm a b : text_ok a = true → text_ok b = true → text_ok (dm_id a b) = true.
Proof.
  intros Ha Hb. unfold dm_id. rewrite sort_strings_pair.
  assert (Hcat : ∀ x y, text_ok x = true → text_ok y = true →
    text_ok ("dm:" +:+ x +:+ ":" +:+ y) = true).
  { intros x y Hx Hy. rewrite text_ok_app by done. rewrite text_ok_app by done.
    by rewrite text_ok_app by done. }
  case_decide; by apply Hcat.
Qed.

(** ** The queries *)

(** [EXTRACT(EPOCH FROM x)*1000 ... ::BIGINT]: milliseconds, rounded half away
    from zero. *)
Definition epoch_ms (t : GoTime) : Z :=
  if (0 <=? t)%Z then ((t + 500000) `div` 10 ^ 6)%Z else (- ((- t + 500000) `div` 10 ^ 6))%Z.

(** Is the user a current member? *)
Definition is_member (rid uid : string) (t : tables) : bool :=
  match chat_room_members t !! (rid, uid) with
  | Some r => bool_decide (mr_left_at r = None)
  | None => false
  end.

Definition select_room (id : string) (t : tables) : option (string * Z * string * string * GoTime) :=
  r ← chat_rooms t !! id;
  Some (id, rr_type r, default "" (rr_name r), rr_created_by r, rr_created_at r).

(** The users of a room, and the rooms of a user: sets, since the queries have
    no ORDER BY. *)
Definition members_of (rid : string) (t : tables) : gset string :=
  set_omap (λ p, if String.eqb p.1 rid && is_member p.1 p.2 t then Some p.2 else None)
    (dom (chat_room_members t)).
Definition rooms_of (uid : string) (t : tables) : gset string :=
  set_omap (λ p, if String.eqb p.2 uid && is_member p.1 p.2 t then Some p.1 else None)
    (dom (chat_room_members t)).

(** The join of a room with the user's membership. *)
Definition user_room (uid rid : string) (t : tables) : option (string * Z * string) :=
  r ← chat_rooms t !! rid;
  if is_member rid uid t then Some (rid, rr_type r, default "" (rr_name r)) else None.

Definition select_activity (rid : string) (t : tables) : option (string * Z) :=
  a ← chat_room_last_activity t !! rid; Some (default "" (ar_preview a), epoch_ms (ar_at a)).

(** The CASE of the unread flag. *)
Definition select_unread (rid uid : string) (t : tables) : option bool :=
  a ← chat_room_last_activity t !! rid;
  Some (if bool_decide (ar_sender a = Some uid) then false
        else match chat_read_receipts t !! (rid, uid) with
             | None => true
             | Some r => bool_decide (rc_at r < ar_at a)%Z
             end).

(** ** The server *)

(** [ExecContext] of a statement, and the queries by their results; every call
    can fail. [pg_view] shows the tables. *)
Class SqlDB (S : Type) := {
  pg_ts : GoTime → GoTime;
  pg_exec : GoTime → stmt → S → S * option string;
  pg_ddl : string → S → S * option string;
  pg_room : string → S → result string (option (string * Z * string * string * GoTime));
  pg_members : string → S → result string (list string);
  pg_rooms : string → S → result string (list string);
  pg_user_rooms : string → S → result string (list (string * Z * string));
  pg_activity : string → S → result string (option (string * Z));
  pg_unread : string → string → S → result string (option bool);
  pg_view : S → tables
}.

(** Documented behaviour: a statement that succeeds does what it means, one that
    fails does nothing, and a query that succeeds returns the matching rows, in
    some order. *)
Class SqlLaws (S : Type) `{SqlDB S} := {
  pg_ts_mono a b : (a ≤ b)%Z → (pg_ts a ≤ pg_ts b)%Z;
  pg_exec_ok now st s s' : pg_exec now st s = (s', None) → run pg_ts now st (pg_view s) = Ok (pg_view s');
  pg_exec_err now st s s' e : pg_exec now st s = (s', Some e) → pg_view s' = pg_view s;
  pg_room_ok id s r : pg_room id s = Ok r → r = select_room id (pg_view s);
  pg_members_ok rid s l : pg_members rid s = Ok l → l ≡ₚ elements (members_of rid (pg_view s));
  pg_rooms_ok uid s l : pg_rooms uid s = Ok l → l ≡ₚ elements (rooms_of uid (pg_view s));
  pg_user_rooms_ok uid s l :
    pg_user_rooms uid s = Ok l →
    l ≡ₚ omap (λ rid, user_room uid rid (pg_view s)) (elements (dom (chat_rooms (pg_view s))));
  pg_activity_ok rid s r : pg_activity rid s = Ok r → r = select_activity rid (pg_view s);
  pg_unread_ok rid uid s r : pg_unread rid uid s = Ok r → r = select_unread rid uid (pg_view s)
}.

(** A server that answers: a statement fails only for its own reasons. *)
Class SqlReliable (S : Type) `{SqlDB S} := {
  pg_exec_answers now st s t : run pg_ts now st (pg_view s) = Ok t → (pg_exec now st s).2 = None;
  pg_room_answers id s : is_ok (pg_room id s) = true;
  pg_members_answers rid s : is_ok (pg_members rid s) = true;
  pg_rooms_answers uid s : is_ok (pg_rooms uid s) = true;
  pg_user_rooms_answers uid s : is_ok (pg_user_rooms uid s) = true;
  pg_activity_answers rid s : is_ok (pg_activity rid s) = true;
  pg_unread_answers rid uid s : is_ok (pg_unread rid uid s) = true
}.

(** ** The repository *)

Module RoomRepository.

Record RoomMeta : Type := mkRoomMeta {
  RoomID : string;
  RoomType : Z;
  Name : string;
  CreatedBy : string;
  PropertyID : option Z;
  MemberIDs : list string;
  CreatedAt : GoTime
}.

Record UserRoom : Type := mkUserRoom {
  ur_RoomID : string;
  ur_RoomType : Z;
  ur_Name : string;
  ur_LastMessage : string;
  ur_LastMessageAt : Z;
  ur_HasUnread : bool;
  ur_MemberIDs : list string
}.

Definition nullString (s : string) : option string := if String.eqb s "" then None else Some s.

Section repository.
Context {S : Type} `{DB : SqlDB S}.
(** [sort.Slice] by [LastMessageAt], newest first. *)
Context (sort_slice : list UserRoom → list UserRoom).

(** The statements of [Migrate], as they are written. *)
Definition migrate_stmts : list string :=
  ["CREATE SCHEMA IF NOT EXISTS public";
   "CREATE TABLE IF NOT EXISTS public.chat_rooms (
			id              TEXT         PRIMARY KEY,
			room_type       SMALLINT     NOT NULL DEFAULT 0,
			name            TEXT,
			created_by      TEXT         NOT NULL CHECK (created_by <> ''),
			property_id     BIGINT,
			avatar_url      TEXT,
			is_archived     BOOLEAN      NOT NULL DEFAULT FALSE,
			created_at      TIMESTAMPTZ  NOT NULL DEFAULT NOW(),
			updated_at      TIMESTAMPTZ  NOT NULL DEFAULT NOW()
		)";
   "CREATE TABLE IF NOT EXISTS public.chat_room_members (
			room_id         TEXT         NOT NULL REFERENCES public.chat_rooms(id) ON DELETE CASCADE,
			user_id         TEXT         NOT NULL CHECK (user_id <> ''),
			role            TEXT         NOT NULL DEFAULT 'member',
			joined_at       TIMESTAMPTZ  NOT NULL DEFAULT NOW(),
			left_at         TIMESTAMPTZ,
			muted_until     TIMESTAMPTZ,
			is_pinned       BOOLEAN      NOT NULL DEFAULT FALSE,
			PRIMARY KEY (room_id, user_id)
		)";
   "CREATE TABLE IF NOT EXISTS public.chat_room_last_activity (
			room_id          TEXT         PRIMARY KEY REFERENCES public.chat_rooms(id) ON DELETE CASCADE,
			last_message_at  TIMESTAMPTZ  NOT NULL DEFAULT NOW(),
			last_message_id  TEXT,
			last_sender_id   TEXT,
			preview_text     TEXT
		)";
   "CREATE TABLE IF NOT EXISTS public.chat_read_receipts (
			room_id          TEXT         NOT NULL REFERENCES public.chat_rooms(id) ON DELETE CASCADE,
			user_id          TEXT         NOT NULL CHECK (user_id <> ''),
			last_read_at     TIMESTAMPTZ  NOT NULL,
			last_read_msg_id TEXT,
			PRIMARY KEY (room_id, user_id)
		)";
   "CREATE INDEX IF NOT EXISTS idx_chat_rooms_created_by ON public.chat_rooms(created_by)";
   "CREATE INDEX IF NOT EXISTS idx_chat_members_user ON public.chat_room_members(user_id) WHERE left_at IS NULL";
   "CREATE INDEX IF NOT EXISTS idx_last_activity_time ON public.chat_room_last_activity(last_message_at DESC)";
   "CREATE OR REPLACE FUNCTION public.trg_set_updated_at()
		RETURNS TRIGGER LANGUAGE plpgsql AS $trg$
		BEGIN
			NEW.updated_at = NOW();
			RETURN NEW;
		END;
		$trg$";
   "DROP TRIGGER IF EXISTS set_chat_rooms_updated_at ON public.chat_rooms";
   "CREATE TRIGGER set_chat_rooms_updated_at
			BEFORE UPDATE ON public.chat_rooms
			FOR EACH ROW EXECUTE PROCEDURE public.trg_set_updated_at()"].

(** [Migrate]: the statements in order, up to the first error. *)
Fixpoint exec_all (stmts : list string) (s : S) : S * option string :=
  match stmts with
  | [] => (s, None)
  | st :: r => match pg_ddl st s with
               | (s, Some e) => (s, Some ("migrate: " +:+ e))
               | (s, None) => exec_all r s
               end
  end.
Definition Migrate (s : S) : S * option string := exec_all migrate_stmts s.

Fixpoint upsert_members (now : GoTime) (roomID : string) (uids : list string) (s : S) : S * option string :=
  match uids with
  | [] => (s, None)
  | uid :: r =>
      match pg_exec now (InsertMember roomID uid) s with
      | (s, Some e) => (s, Some ("upsert member " +:+ uid +:+ ": " +:+ e))
      | (s, None) => upsert_members now roomID r s
      end
  end.

Definition UpsertRoom (now : GoTime) (m : RoomMeta) (s : S) : S * option string :=
  match pg_exec now (InsertRoom (RoomID m) (RoomType m) (nullString (Name m)) (CreatedBy m)
                       (PropertyID m) (CreatedAt m)) s with
  | (s, Some e) => (s, Some ("upsert room: " +:+ e))
  | (s, None) => upsert_members now (RoomID m) (MemberIDs m) s
  end.

(** [GetRoom]: [Ok None] is [(nil, nil)]. *)
Definition GetRoom (roomID : string) (s : S) : result string (option RoomMeta) :=
  match pg_room roomID s with
  | Err e => Err ("get room: " +:+ e)
  | Ok None => Ok None
  | Ok (Some (id, ty, name, by_, at_)) =>
      match pg_members roomID s with
      | Err e => Err ("get members: " +:+ e)
      | Ok uids => Ok (Some (mkRoomMeta id ty name by_ None uids at_))
      end
  end.

Definition with_error (m : RoomMeta) (r : S * option string) : S * result string RoomMeta :=
  (r.1, match r.2 with Some e => Err e | None => Ok m end).

Definition GetOrCreateDM (now : GoTime) (userA userB createdBy : string) (s : S) : S * result string RoomMeta :=
  let ids := sort_strings [userA; userB] in
  let roomID := "dm:" +:+ Join ids ":" in
  match GetRoom roomID s with
  | Err e => (s, Err e)
  | Ok (Some existing) => (s, Ok existing)
  | Ok None =>
      let m := mkRoomMeta roomID 0 "" createdBy None ids now in
      with_error m (UpsertRoom now m s)
  end.

Definition CreateGroup (now : GoTime) (roomID name createdBy : string) (memberIDs : list string) (s : S)
  : S * result string RoomMeta :=
  let m := mkRoomMeta roomID 1 name createdBy None memberIDs now in
  with_error m (UpsertRoom now m s).

Definition UpdateLastActivity (now : GoTime) (roomID msgID senderID preview : string) (at_ : GoTime) (s : S)
  : S * option string := pg_exec now (UpsertActivity roomID at_ msgID senderID preview) s.

Definition UpdateReadReceipt (now : GoTime) (roomID userID msgID : string) (at_ : GoTime) (s : S)
  : S * option string := pg_exec now (UpsertReceipt roomID userID at_ msgID) s.

Definition GetUserRooms (userID : string) (s : S) : result string (list string) := pg_rooms userID s.

(** One room of the list; the errors of the last two queries are dropped. *)
Definition detail (userID : string) (s : S) (b : string * Z * string) : result string UserRoom :=
  let '(id, ty, name) := b in
  match pg_members id s with
  | Err e => Err ("GetUserRoomsDetailed members: " +:+ e)
  | Ok uids =>
      let '(lastMsg, lastAt) := match pg_activity id s with Ok (Some r) => r | _ => ("", 0%Z) end in
      let hasUnread := match pg_unread id userID s with Ok (Some u) => u | _ => false end in
      Ok (mkUserRoom id ty name lastMsg lastAt hasUnread uids)
  end.

Fixpoint details (userID : string) (s : S) (bases : list (string * Z * string)) : result string (list UserRoom) :=
  match bases with
  | [] => Ok []
  | b :: r =>
      match detail userID s b with
      | Err e => Err e
      | Ok u => match details userID s r with Err e => Err e | Ok us => Ok (u :: us) end
      end
  end.

Definition GetUserRoomsDetailed (userID : string) (s : S) : result string (list UserRoom) :=
  match pg_user_rooms userID s with
  | Err e => Err ("GetUserRoomsDetailed rooms: " +:+ e)
  | Ok [] => Ok []
  | Ok bases => result_map sort_slice (details userID s bases)
  end.


(** ** What the methods do, when the server answers *)

Context `{!SqlLaws S} `{!SqlReliable S}.

Lemma exec_run now st (s : S) t :
  run pg_ts now st (pg_view s) = Ok t → ∃ s', pg_exec now st s = (s', None) ∧ pg_view s' = t.
Proof.
  intros Hr. pose proof (pg_exec_answers now st s t Hr) as Ha.
  destruct (pg_exec now st s) as [s' e] eqn:E. simpl in Ha. subst e. exists s'. split; [done|].
  apply pg_exec_ok in E. rewrite Hr in E. by injection E.
Qed.

Lemma exec_fails now st (s : S) e :
  run pg_ts now st (pg_view s) = Err e → ∃ s' e', pg_exec now st s = (s', Some e') ∧ pg_view s' = pg_view s.
Proof.
  intros Hr. destruct (pg_exec now st s) as [s' [e'|]] eqn:E.
  - exists s', e'. split; [done|]. by apply pg_exec_err in E.
  - apply pg_exec_ok in E. congruence.
Qed.

Lemma elem_members_of rid uid t : uid ∈ members_of rid t ↔ is_member rid uid t = true.
Proof.
  unfold members_of. rewrite elem_of_set_omap. split.
  - intros ([r u] & _ & H). simpl in H. destruct (String.eqb_spec r rid); [|done].
    simpl in H. destruct (is_member r u t) eqn:E; [|done]. by simplify_eq.
  - intros H. exists (rid, uid). simpl. rewrite String.eqb_refl, H. split; [|done].
    unfold is_member in H. apply elem_of_dom. destruct (chat_room_members t !! (rid, uid)); [by eexists|done].
Qed.

Lemma elem_rooms_of rid uid t : rid ∈ rooms_of uid t ↔ is_member rid uid t = true.
Proof.
  unfold rooms_of. rewrite elem_of_set_omap. split.
  - intros ([r u] & _ & H). simpl in H. destruct (String.eqb_spec u uid); [|done].
    simpl in H. destruct (is_member r u t) eqn:E; [|done]. by simplify_eq.
  - intros H. exists (rid, uid). simpl. rewrite String.eqb_refl, H. split; [|done].
    unfold is_member in H. apply elem_of_dom. destruct (chat_room_members t !! (rid, uid)); [by eexists|done].
Qed.

(** The tables after the inserts of a member list. *)
Definition add_member (now : GoTime) (rid : string) (t : tables) (u : string) : tables :=
  match chat_room_members t !! (rid, u) with
  | Some _ => t
  | None => t <| chat_room_members :=
      <[(rid, u) := mkMemberRow "member" (pg_ts now) None]> (chat_room_members t) |>
  end.
Definition add_members (now : GoTime) (rid : string) (uids : list string) (t : tables) : tables :=
  foldl (add_member now rid) t uids.

Lemma add_members_other now rid uids t :
  chat_rooms (add_members now rid uids t) = chat_rooms t
  ∧ chat_room_last_activity (add_members now rid uids t) = chat_room_last_activity t
  ∧ chat_read_receipts (add_members now rid uids t) = chat_read_receipts t.
Proof.
  unfold add_members. revert t. induction uids as [|u uids IH]; intros t; [done|]. simpl.
  destruct (IH (add_member now rid t u)) as (-> & -> & ->). unfold add_member. by case_match.
Qed.

Lemma add_members_lookup now rid uids t r u :
  chat_room_members (add_members now rid uids t) !! (r, u) =
    if decide (r = rid ∧ u ∈ uids)
    then Some (default (mkMemberRow "member" (pg_ts now) None) (chat_room_members t !! (r, u)))
    else chat_room_members t !! (r, u).
Proof.
  unfold add_members. revert t. induction uids as [|v uids IH]; intros t; simpl.
  { by rewrite decide_False by (intros [_ H]; by apply not_elem_of_nil in H). }
  rewrite IH. assert (Hv : chat_room_members (add_member now rid t v) !! (r, u) =
    if decide (r = rid ∧ u = v)
    then Some (default (mkMemberRow "member" (pg_ts now) None) (chat_room_members t !! (r, u)))
    else chat_room_members t !! (r, u)).
  { unfold add_member. destruct (decide (r = rid ∧ u = v)) as [[-> ->]|Hne].
    - destruct (chat_room_members t !! (rid, v)) eqn:E; simpl; [by rewrite E|by rewrite lookup_insert_eq].
    - destruct (chat_room_members t !! (rid, v)); [done|]. simpl. rewrite lookup_insert_ne; [done|].
      intros [= <- <-]. by apply Hne. }
  rewrite Hv. pose proof (elem_of_cons uids u v) as Hc. repeat case_decide; try tauto; simpl; done.
Qed.

Lemma upsert_members_ok now rid uids s :
  is_Some (chat_rooms (pg_view s) !! rid) → text_ok rid = true →
  Forall (λ u, u ≠ "" ∧ text_ok u = true) uids →
  ∃ s', upsert_members now rid uids s = (s', None) ∧ pg_view s' = add_members now rid uids (pg_view s).
Proof.
  intros Hroom Hrid Hu. revert s Hroom. induction Hu as [|u uids [Hne Hok] _ IH]; intros s Hroom.
  { by exists s. }
  destruct (exec_run now (InsertMember rid u) s (add_member now rid (pg_view s) u)) as (s1 & He & Hv1).
  { unfold run, texts_ok, add_member. simpl. rewrite Hrid, Hok. simpl.
    rewrite (proj2 (String.eqb_neq u "")) by done. destruct (chat_room_members _ !! _); [done|].
    destruct Hroom as [row ->]. done. }
  destruct (IH s1) as (s2 & Hm & Hv2).
  { rewrite Hv1. unfold add_member. by case_match. }
  exists s2. simpl. rewrite He, Hm. split; [done|]. by rewrite Hv2, Hv1.
Qed.

Lemma upsert_members_fail now rid l u k s :
  is_Some (chat_rooms (pg_view s) !! rid) → text_ok rid = true →
  Forall (λ u, u ≠ "" ∧ text_ok u = true) l → u = "" ∨ text_ok u = false →
  ∃ s' e, upsert_members now rid (l ++ u :: k) s = (s', Some e)
    ∧ pg_view s' = add_members now rid l (pg_view s).
Proof.
  intros Hroom Hrid Hl Hbad. revert s Hroom. induction Hl as [|v l [Hne Hok] _ IH]; intros s Hroom; simpl.
  - destruct (exec_fails now (InsertMember rid u) s
      (if text_ok u then "check constraint" else "invalid byte sequence")) as (s' & e & He & Hv).
    { unfold run, texts_ok. simpl. rewrite Hrid. simpl.
      destruct (text_ok u) eqn:E; simpl; [|done]. by destruct Hbad as [->|]. }
    rewrite He. by eexists s', _.
  - destruct (exec_run now (InsertMember rid v) s (add_member now rid (pg_view s) v)) as (s1 & He & Hv1).
    { unfold run, texts_ok, add_member. simpl. rewrite Hrid, Hok. simpl.
      rewrite (proj2 (String.eqb_neq v "")) by done. destruct (chat_room_members _ !! _); [done|].
      destruct Hroom as [row ->]. done. }
    destruct (IH s1) as (s2 & e & Hm & Hv2).
    { rewrite Hv1. unfold add_member. by case_match. }
    exists s2, e. rewrite He, Hm. split; [done|]. by rewrite Hv2, Hv1.
Qed.

(** The row of a new room. *)
Definition new_room (now : GoTime) (m : RoomMeta) : room_row :=
  mkRoomRow (RoomType m) (nullString (Name m)) (CreatedBy m) (PropertyID m)
    (pg_ts (CreatedAt m)) (pg_ts (CreatedAt m)).

Definition with_room (now : GoTime) (m : RoomMeta) (t : tables) : tables :=
  match chat_rooms t !! RoomID m with
  | Some _ => t
  | None => t <| chat_rooms := <[RoomID m := new_room now m]> (chat_rooms t) |>
  end.

Definition meta_ok (m : RoomMeta) : Prop :=
  text_ok (RoomID m) = true ∧ text_ok (CreatedBy m) = true ∧ text_ok (Name m) = true ∧ CreatedBy m ≠ "".

Lemma insert_room_ok now m s :
  meta_ok m →
  ∃ s', pg_exec now (InsertRoom (RoomID m) (RoomType m) (nullString (Name m)) (CreatedBy m)
                       (PropertyID m) (CreatedAt m)) s = (s', None)
    ∧ pg_view s' = with_room now m (pg_view s).
Proof.
  intros (Hr & Hc & Hn & Hne). apply exec_run. unfold run, texts_ok, with_room.
  assert (Ht : forallb text_ok (RoomID m :: CreatedBy m :: from_option (λ n, [n]) [] (nullString (Name m))) = true).
  { unfold nullString. simpl. rewrite Hr, Hc. destruct (String.eqb (Name m) ""); [done|]. simpl. by rewrite Hn. }
  rewrite Ht. simpl. rewrite (proj2 (String.eqb_neq _ "")) by done. by destruct (chat_rooms _ !! _).
Qed.

Lemma with_room_some now m t : is_Some (chat_rooms (with_room now m t) !! RoomID m).
Proof.
  unfold with_room. destruct (chat_rooms t !! RoomID m) eqn:E; [by rewrite E|]. simpl.
  rewrite lookup_insert_eq. by eexists.
Qed.

Lemma UpsertRoom_ok now m s :
  meta_ok m → Forall (λ u, u ≠ "" ∧ text_ok u = true) (MemberIDs m) →
  ∃ s', UpsertRoom now m s = (s', None)
    ∧ pg_view s' = add_members now (RoomID m) (MemberIDs m) (with_room now m (pg_view s)).
Proof.
  intros Hm Hu. destruct (insert_room_ok now m s Hm) as (s1 & He & Hv1).
  destruct (upsert_members_ok now (RoomID m) (MemberIDs m) s1) as (s2 & Hup & Hv2);
    [rewrite Hv1; apply with_room_some|apply Hm|done|].
  exists s2. unfold UpsertRoom. rewrite He, Hup. split; [done|]. by rewrite Hv2, Hv1.
Qed.

(** [GetRoom] reads the row and the current members. *)
Lemma GetRoom_spec rid s :
  match chat_rooms (pg_view s) !! rid with
  | None => GetRoom rid s = Ok None
  | Some r => ∃ uids, GetRoom rid s = Ok (Some (mkRoomMeta rid (rr_type r) (default "" (rr_name r))
                 (rr_created_by r) None uids (rr_created_at r)))
              ∧ uids ≡ₚ elements (members_of rid (pg_view s))
  end.
Proof.
  unfold GetRoom. pose proof (pg_room_answers rid s) as Ha. destruct (pg_room rid s) as [r|] eqn:E; [|done].
  apply pg_room_ok in E. subst r. unfold select_room. destruct (chat_rooms (pg_view s) !! rid) as [row|]; [|done].
  simpl. pose proof (pg_members_answers rid s) as Hm. destruct (pg_members rid s) as [uids|] eqn:Em; [|done].
  apply pg_members_ok in Em. by exists uids.
Qed.

Lemma members_of_new now rid uids t :
  (∀ u, chat_room_members t !! (rid, u) = None) → members_of rid (add_members now rid uids t) = list_to_set uids.
Proof.
  intros Hnone. apply set_eq. intros u. rewrite elem_members_of, elem_of_list_to_set. unfold is_member.
  rewrite add_members_lookup, Hnone. case_decide as Hd.
  - split; [intros _; by destruct Hd|done].
  - split; [done|]. intros Hu. by destruct Hd.
Qed.

Lemma no_members_of_absent rid t u :
  tables_ok t → chat_rooms t !! rid = None → chat_room_members t !! (rid, u) = None.
Proof.
  intros Hok Hr. destruct (chat_room_members t !! (rid, u)) eqn:E; [|done].
  destruct (ok_member _ Hok rid u) as [[? ?] _]; [by eexists|congruence].
Qed.

Lemma exec_tables_ok now st s : tables_ok (pg_view s) → tables_ok (pg_view (pg_exec now st s).1).
Proof.
  intros Hok. destruct (pg_exec now st s) as [s' [e|]] eqn:E; simpl.
  - apply pg_exec_err in E. by rewrite E.
  - apply pg_exec_ok in E. by eapply run_tables_ok.
Qed.

Lemma upsert_members_tables_ok now rid uids s :
  tables_ok (pg_view s) → tables_ok (pg_view (upsert_members now rid uids s).1).
Proof.
  revert s. induction uids as [|u uids IH]; intros s Hok; [done|]. simpl.
  pose proof (exec_tables_ok now (InsertMember rid u) s Hok) as H.
  destruct (pg_exec now (InsertMember rid u) s) as [s' [e|]]; simpl in *; [done|by apply IH].
Qed.

Lemma UpsertRoom_tables_ok now m s : tables_ok (pg_view s) → tables_ok (pg_view (UpsertRoom now m s).1).
Proof.
  intros Hok. unfold UpsertRoom. match goal with |- context [pg_exec now ?st s] =>
    pose proof (exec_tables_ok now st s Hok) as H; destruct (pg_exec now st s) as [s' [e|]] end;
    simpl in *; [done|by apply upsert_members_tables_ok].
Qed.

Lemma GetOrCreateDM_tables_ok now a b c s :
  tables_ok (pg_view s) → tables_ok (pg_view (GetOrCreateDM now a b c s).1).
Proof.
  intros Hok. unfold GetOrCreateDM, with_error. cbv zeta.
  destruct (GetRoom _ s) as [[m|]|e]; [done| |done]. by apply UpsertRoom_tables_ok.
Qed.

(** ** Properties *)


(** C26: A pair of users has one direct room: the first [GetOrCreateDM] creates
    it under the canonical id with exactly the two as members, and every later
    call, in either order and by anyone, returns that room and writes nothing. *)
Theorem get_or_create_dm_once now a b by1 s :
  tables_ok (pg_view s) → chat_rooms (pg_view s) !! dm_id a b = None →
  a ≠ "" ∧ text_ok a = true → b ≠ "" ∧ text_ok b = true → by1 ≠ "" ∧ text_ok by1 = true →
  ∃ s1 m1, GetOrCreateDM now a b by1 s = (s1, Ok m1)
    ∧ RoomID m1 = dm_id a b ∧ CreatedBy m1 = by1 ∧ MemberIDs m1 ≡ₚ [a; b]
    ∧ tables_ok (pg_view s1) ∧ members_of (dm_id a b) (pg_view s1) = {[a; b]}
    ∧ ∀ now' by2, ∃ m2, GetOrCreateDM now' a b by2 s1 = (s1, Ok m2)
        ∧ GetOrCreateDM now' b a by2 s1 = (s1, Ok m2)
        ∧ RoomID m2 = dm_id a b ∧ CreatedBy m2 = by1
        ∧ MemberIDs m2 ≡ₚ elements ({[a; b]} : gset string).
Proof.
  intros Hok Hnone [Ha Hta] [Hb Htb] [Hc Htc].
  set (m1 := mkRoomMeta (dm_id a b) 0 "" by1 None (sort_strings [a; b]) now).
  destruct (UpsertRoom_ok now m1 s) as (s1 & Hup & Hv).
  { split_and!; [by apply text_ok_dm|done|done|done]. }
  { apply Forall_forall. intros u Hu. simpl in Hu. rewrite sort_strings_perm, !elem_of_cons in Hu.
    destruct Hu as [->|[->|Hu]]; [done|done|by apply not_elem_of_nil in Hu]. }
  assert (Hcreate : GetOrCreateDM now a b by1 s = (s1, Ok m1)).
  { unfold GetOrCreateDM. cbv zeta. rewrite join_dm. pose proof (GetRoom_spec (dm_id a b) s) as Hg.
    rewrite Hnone in Hg. rewrite Hg. unfold with_error. fold m1. by rewrite Hup. }
  assert (Hw : chat_rooms (pg_view s1) !! dm_id a b = Some (new_room now m1)).
  { rewrite Hv. rewrite (proj1 (add_members_other _ _ _ _)). unfold with_room. simpl.
    rewrite Hnone. simpl. by rewrite lookup_insert_eq. }
  assert (Hmem : members_of (dm_id a b) (pg_view s1) = {[a; b]}).
  { rewrite Hv. simpl. rewrite members_of_new.
    - rewrite (list_to_set_perm_L _ _ (sort_strings_perm [a; b])). set_solver.
    - intros u. unfold with_room. simpl. rewrite Hnone. simpl. by apply no_members_of_absent. }
  exists s1, m1. split_and!; try done.
  - simpl. apply sort_strings_perm.
  - pose proof (GetOrCreateDM_tables_ok now a b by1 s Hok) as H. by rewrite Hcreate in H.
  - intros now' by2. pose proof (GetRoom_spec (dm_id a b) s1) as Hg. rewrite Hw in Hg.
    destruct Hg as (uids & Hg & Hperm). eexists. unfold GetOrCreateDM. cbv zeta.
    rewrite (sort_strings_pair_comm b a), join_dm, Hg. split_and!; try done. simpl. by rewrite Hperm, Hmem.
Qed.

(** Creating a room is not one transaction: when the insert of one member
    fails (an empty id, say), the call returns an error, but the room's row and
    the members before it stay; the members after it are never added. *)
Theorem upsert_room_is_not_atomic now m l u k s :
  meta_ok m → MemberIDs m = l ++ u :: k → Forall (λ u, u ≠ "" ∧ text_ok u = true) l →
  u = "" ∨ text_ok u = false →
  ∃ s' e, UpsertRoom now m s = (s', Some e)
    ∧ pg_view s' = add_members now (RoomID m) l (with_room now m (pg_view s)).
Proof.
  intros Hm Hl Hok Hbad. destruct (insert_room_ok now m s Hm) as (s1 & He & Hv1).
  destruct (upsert_members_fail now (RoomID m) l u k s1) as (s2 & e & Hup & Hv2);
    [rewrite Hv1; apply with_room_some|apply Hm|done|done|].
  exists s2, e. unfold UpsertRoom. rewrite He, Hl, Hup. split; [done|]. by rewrite Hv2, Hv1.
Qed.

(** So a direct room created with an empty user id fails once and then
    "exists": the retry succeeds and returns a room without its members. *)
Theorem dm_retry_after_failure now now' b by1 by2 s :
  tables_ok (pg_view s) → chat_rooms (pg_view s) !! dm_id "" b = None →
  text_ok b = true → by1 ≠ "" ∧ text_ok by1 = true →
  ∃ s1 e m2, GetOrCreateDM now "" b by1 s = (s1, Err e)
    ∧ GetOrCreateDM now' "" b by2 s1 = (s1, Ok m2) ∧ MemberIDs m2 = [] ∧ CreatedBy m2 = by1.
Proof.
  intros Hok Hnone Htb [Hc Htc].
  set (m1 := mkRoomMeta (dm_id "" b) 0 "" by1 None (sort_strings [""; b]) now).
  assert (Hm : meta_ok m1) by (split_and!; [by apply text_ok_dm|done..]).
  assert (Hids : MemberIDs m1 = [] ++ "" :: [b]).
  { simpl. rewrite sort_strings_pair. rewrite decide_True; [done|]. unfold String.le. by destruct b. }
  destruct (insert_room_ok now m1 s Hm) as (s1 & He & Hv1).
  destruct (upsert_members_fail now (RoomID m1) [] "" [b] s1) as (s2 & e & Hup & Hv2);
    [rewrite Hv1; apply with_room_some|apply Hm|constructor|by left|].
  assert (Hview : pg_view s2 = pg_view s <| chat_rooms :=
    <[dm_id "" b := new_room now m1]> (chat_rooms (pg_view s)) |>).
  { rewrite Hv2, Hv1. unfold with_room. simpl. by rewrite Hnone. }
  assert (Hcreate : GetOrCreateDM now "" b by1 s = (s2, Err e)).
  { unfold GetOrCreateDM. cbv zeta. rewrite join_dm. pose proof (GetRoom_spec (dm_id "" b) s) as Hg.
    rewrite Hnone in Hg. rewrite Hg. unfold with_error. fold m1. unfold UpsertRoom. rewrite He, Hids.
    by rewrite Hup. }
  assert (Hrow : chat_rooms (pg_view s2) !! dm_id "" b = Some (new_room now m1)).
  { rewrite Hview. simpl. by rewrite lookup_insert_eq. }
  pose proof (GetRoom_spec (dm_id "" b) s2) as Hg. rewrite Hrow in Hg. destruct Hg as (uids & Hg & Hperm).
  exists s2, e. eexists. split; [done|]. unfold GetOrCreateDM. cbv zeta. rewrite join_dm, Hg.
  split_and!; [done| |done]. simpl. apply Permutation_nil_r. rewrite Hperm.
  assert (Hmem : members_of (dm_id "" b) (pg_view s2) = ∅); [|by rewrite Hmem].
  apply set_eq. intros u. rewrite elem_members_of, Hview. unfold is_member. simpl.
  by rewrite (no_members_of_absent _ _ _ Hok Hnone).
Qed.

Lemma receipt_ok now rid uid msg at_ s :
  is_Some (chat_rooms (pg_view s) !! rid) → uid ≠ "" → texts_ok [rid; uid; msg] = true →
  ∃ s', UpdateReadReceipt now rid uid msg at_ s = (s', None)
    ∧ pg_view s' = pg_view s <| chat_read_receipts :=
        <[(rid, uid) := mkReceiptRow (pg_ts at_) (Some msg)]> (chat_read_receipts (pg_view s)) |>.
Proof.
  intros [row Hr] Hu Ht. apply exec_run. unfold run. rewrite Ht, Hr. simpl.
  by rewrite (proj2 (String.eqb_neq uid "")).
Qed.

Lemma activity_ok now rid msg sender pre at_ s :
  is_Some (chat_rooms (pg_view s) !! rid) → texts_ok [rid; msg; sender; pre] = true →
  ∃ s', UpdateLastActivity now rid msg sender pre at_ s = (s', None)
    ∧ pg_view s' = pg_view s <| chat_room_last_activity :=
        <[rid := mkActivityRow (pg_ts at_) (Some msg) (Some sender) (Some pre)]>
          (chat_room_last_activity (pg_view s)) |>.
Proof. intros [row Hr] Ht. apply exec_run. unfold run. by rewrite Ht, Hr. Qed.

(** After a user reads a room, the room is unread for that user exactly if
    its last activity is by someone else and later than the read time; the flags
    of other users and rooms do not change. *)
Theorem receipt_decides_unread now rid uid msg at_ s :
  is_Some (chat_rooms (pg_view s) !! rid) → uid ≠ "" → texts_ok [rid; uid; msg] = true →
  ∃ s', UpdateReadReceipt now rid uid msg at_ s = (s', None)
    ∧ (∀ a, chat_room_last_activity (pg_view s) !! rid = Some a →
        select_unread rid uid (pg_view s') =
          Some (bool_decide (ar_sender a ≠ Some uid ∧ pg_ts at_ < ar_at a)%Z))
    ∧ ∀ r u, (r, u) ≠ (rid, uid) → select_unread r u (pg_view s') = select_unread r u (pg_view s).
Proof.
  intros Hr Hu Ht. destruct (receipt_ok now rid uid msg at_ s Hr Hu Ht) as (s' & He & Hv).
  exists s'. split; [done|]. rewrite Hv. unfold select_unread. simpl. split.
  - intros a ->. simpl. rewrite lookup_insert_eq. simpl. f_equal.
    destruct (decide (ar_sender a = Some uid)) as [Hs|Hs].
    + rewrite (bool_decide_true (ar_sender a = _)), bool_decide_false by tauto. done.
    + rewrite (bool_decide_false (ar_sender a = _)) by done. apply bool_decide_ext. tauto.
  - intros r u Hne. rewrite lookup_insert_ne by congruence. done.
Qed.

(** Neither a read cursor nor a room's last activity is kept at its latest
    value: the write that runs last wins, whatever its time. If the receipts of
    two messages are stored in the other order than they were read, the room
    turns unread again, although the later message has been read; and of two
    messages the older one can end up as the room's last message. *)
Theorem cursors_can_move_back now rid uid m1 m2 t1 t2 a sender p1 p2 s :
  is_Some (chat_rooms (pg_view s) !! rid) → uid ≠ "" →
  texts_ok [rid; uid; m1] = true → texts_ok [rid; uid; m2] = true →
  texts_ok [rid; m1; sender; p1] = true → texts_ok [rid; m2; sender; p2] = true →
  chat_room_last_activity (pg_view s) !! rid = Some a → ar_sender a ≠ Some uid →
  (pg_ts t1 < ar_at a ≤ pg_ts t2)%Z →
  (∃ s1 s2, UpdateReadReceipt now rid uid m2 t2 s = (s1, None)
    ∧ select_unread rid uid (pg_view s1) = Some false
    ∧ UpdateReadReceipt now rid uid m1 t1 s1 = (s2, None)
    ∧ select_unread rid uid (pg_view s2) = Some true) ∧
  (∃ s1 s2, UpdateLastActivity now rid m2 sender p2 t2 s = (s1, None)
    ∧ UpdateLastActivity now rid m1 sender p1 t1 s1 = (s2, None)
    ∧ select_activity rid (pg_view s2) = Some (p1, epoch_ms (pg_ts t1))).
Proof.
  intros Hr Hu H1 H2 H3 H4 Ha Hs Ht. split.
  - destruct (receipt_ok now rid uid m2 t2 s Hr Hu H2) as (s1 & He1 & Hv1).
    destruct (receipt_ok now rid uid m1 t1 s1) as (s2 & He2 & Hv2); [by rewrite Hv1|done|done|].
    exists s1, s2. split; [done|]. split; [|split; [done|]].
    + rewrite Hv1. unfold select_unread. simpl. rewrite Ha. simpl. rewrite lookup_insert_eq. simpl.
      rewrite bool_decide_false by done. f_equal. apply bool_decide_false. lia.
    + rewrite Hv2, Hv1. unfold select_unread. simpl. rewrite Ha. simpl. rewrite lookup_insert_eq. simpl.
      rewrite bool_decide_false by done. f_equal. apply bool_decide_true. lia.
  - destruct (activity_ok now rid m2 sender p2 t2 s Hr H4) as (s1 & He1 & Hv1).
    destruct (activity_ok now rid m1 sender p1 t1 s1) as (s2 & He2 & Hv2); [by rewrite Hv1|done|].
    exists s1, s2. split; [done|]. split; [done|]. rewrite Hv2. unfold select_activity. simpl.
    by rewrite lookup_insert_eq.
Qed.

(** What the list says of one room. *)
Definition detail_of (uid : string) (t : tables) (u : UserRoom) : Prop :=
  ∃ r, chat_rooms t !! ur_RoomID u = Some r
    ∧ ur_RoomType u = rr_type r ∧ ur_Name u = default "" (rr_name r)
    ∧ (ur_LastMessage u, ur_LastMessageAt u) = default ("", 0%Z) (select_activity (ur_RoomID u) t)
    ∧ ur_HasUnread u = default false (select_unread (ur_RoomID u) uid t)
    ∧ ur_MemberIDs u ≡ₚ elements (members_of (ur_RoomID u) t).

Lemma detail_spec uid s rid r :
  chat_rooms (pg_view s) !! rid = Some r →
  ∃ u, detail uid s (rid, rr_type r, default "" (rr_name r)) = Ok u ∧ ur_RoomID u = rid
    ∧ detail_of uid (pg_view s) u.
Proof.
  intros Hr. unfold detail. pose proof (pg_members_answers rid s) as Hm.
  destruct (pg_members rid s) as [uids|] eqn:Em; [|done]. apply pg_members_ok in Em.
  pose proof (pg_activity_answers rid s) as Ha. destruct (pg_activity rid s) as [act|] eqn:Ea; [|done].
  apply pg_activity_ok in Ea. subst act.
  pose proof (pg_unread_answers rid uid s) as Hu. destruct (pg_unread rid uid s) as [un|] eqn:Eu; [|done].
  apply pg_unread_ok in Eu. subst un.
  destruct (select_activity rid (pg_view s)) as [[msg at_]|] eqn:Eact;
    (eexists; split; [done|]; split; [done|]); exists r; simpl; rewrite Eact; split_and!; try done;
    by destruct (select_unread rid uid (pg_view s)).
Qed.

Lemma details_spec uid s bases :
  (∀ b, b ∈ bases → user_room uid b.1.1 (pg_view s) = Some b) →
  ∃ us, details uid s bases = Ok us
    ∧ ur_RoomID <$> us = (λ b, b.1.1) <$> bases ∧ Forall (detail_of uid (pg_view s)) us.
Proof.
  induction bases as [|b bases IH]; intros Hb; [by exists []|].
  destruct IH as (us & Hus & Hids & Hall); [intros b' ?; apply Hb; by right|].
  pose proof (Hb b ltac:(by left)) as Hbb. unfold user_room in Hbb.
  destruct (chat_rooms (pg_view s) !! b.1.1) as [r|] eqn:Hr; [|done]. simpl in Hbb.
  destruct (is_member _ _ _); [|done]. injection Hbb as Heq.
  destruct (detail_spec uid s b.1.1 r Hr) as (u & Hd & Hid & Hdet). rewrite Heq in Hd.
  exists (u :: us). cbn [details]. rewrite Hd, Hus.
  split; [done|]. split; [by rewrite !fmap_cons, Hid, Hids|by constructor].
Qed.

Lemma user_room_id uid rid t b : user_room uid rid t = Some b → b.1.1 = rid ∧ user_room uid b.1.1 t = Some b.
Proof.
  intros H. pose proof H as H'. unfold user_room in H'. destruct (chat_rooms t !! rid); [|done].
  simpl in H'. destruct (is_member _ _ _); [|done]. by injection H' as <-.
Qed.

Lemma NoDup_user_rooms uid t l :
  NoDup l → NoDup ((λ b, b.1.1) <$> omap (λ rid, user_room uid rid t) l).
Proof.
  induction 1 as [|rid l Hn Hnd IH]; [constructor|]. cbn [omap list_omap].
  destruct (user_room uid rid t) as [b|] eqn:E; [|exact IH].
  apply user_room_id in E as [Hb _]. rewrite fmap_cons. constructor; [|exact IH].
  intros (b' & Hb1 & (rid' & Hin & Hr)%list_elem_of_omap)%list_elem_of_fmap.
  apply user_room_id in Hr as [Hr _]. apply Hn. by rewrite <- Hb, Hb1, Hr.
Qed.

(** The room list shows exactly the rooms the user is a current member of,
    each once, newest activity first, with the room's type and name, its last
    message and time, the user's unread flag, and its current members. *)
Theorem user_rooms_detailed uid s :
  (∀ l, sort_slice l ≡ₚ l) →
  (∀ l, Sorted (λ u v, ur_LastMessageAt v ≤ ur_LastMessageAt u)%Z (sort_slice l)) →
  tables_ok (pg_view s) →
  ∃ us, GetUserRoomsDetailed uid s = Ok us
    ∧ Sorted (λ u v, ur_LastMessageAt v ≤ ur_LastMessageAt u)%Z us
    ∧ NoDup (ur_RoomID <$> us)
    ∧ (∀ rid, rid ∈ ur_RoomID <$> us ↔ rid ∈ rooms_of uid (pg_view s))
    ∧ Forall (detail_of uid (pg_view s)) us.
Proof.
  intros Hperm Hsort Hok. unfold GetUserRoomsDetailed.
  pose proof (pg_user_rooms_answers uid s) as Ha. destruct (pg_user_rooms uid s) as [bases|] eqn:E; [|done].
  apply pg_user_rooms_ok in E. set (all := elements (dom (chat_rooms (pg_view s)))) in E.
  assert (Hin : ∀ b, b ∈ bases → user_room uid b.1.1 (pg_view s) = Some b).
  { intros b Hb. rewrite E in Hb. apply list_elem_of_omap in Hb as (rid & _ & Hr).
    by apply user_room_id in Hr as [_ ?]. }
  destruct (details_spec uid s bases Hin) as (us & Hus & Hids & Hall).
  assert (Hres : match bases with [] => Ok [] | _ => result_map sort_slice (details uid s bases) end
    = Ok (sort_slice us)).
  { rewrite Hus. destruct bases; [|done]. simpl in Hus. injection Hus as <-.
    by rewrite (proj1 (Permutation_nil_r _) (Hperm [])). }
  exists (sort_slice us). split; [exact Hres|]. split; [apply Hsort|].
  assert (Hpi : ur_RoomID <$> sort_slice us ≡ₚ (λ b, b.1.1) <$> omap (λ rid, user_room uid rid (pg_view s)) all).
  { rewrite Hperm, Hids. by rewrite E. }
  split_and!.
  - rewrite Hpi. apply NoDup_user_rooms, NoDup_elements.
  - intros rid. rewrite Hpi, elem_rooms_of, list_elem_of_fmap. split.
    + intros (b & -> & (rid' & _ & Hr)%list_elem_of_omap). pose proof (user_room_id _ _ _ _ Hr) as [Hb _].
      rewrite Hb. unfold user_room in Hr. destruct (chat_rooms _ !! rid'); [|done]. simpl in Hr.
      by destruct (is_member rid' uid (pg_view s)).
    + intros Hm. assert (Hr : is_Some (chat_rooms (pg_view s) !! rid)).
      { unfold is_member in Hm. destruct (chat_room_members (pg_view s) !! (rid, uid)) eqn:Em; [|done].
        by destruct (ok_member _ Hok rid uid) as [? _]; [eexists|]. }
      destruct Hr as [r Hr]. exists (rid, rr_type r, default "" (rr_name r)). split; [done|].
      apply list_elem_of_omap. exists rid. split; [apply elem_of_elements, elem_of_dom; by eexists|].
      unfold user_room. rewrite Hr. simpl. by rewrite Hm.
  - by rewrite Hperm.
Qed.

End repository.
End RoomRepository.

(** ** A server in memory, to evaluate the repository with *)

Module MemDB.

Record t : Type := mk { tabs : tables }.

(** Microseconds. *)
Definition ts (x : GoTime) : GoTime := (x `div` 1000 * 1000)%Z.

Definition exec (now : GoTime) (st : stmt) (s : t) : t * option string :=
  match run ts now st (tabs s) with Ok t' => (mk t', None) | Err e => (s, Some e) end.

#[global] Instance mem_db : SqlDB t :=
  {| pg_ts := ts; pg_exec := exec; pg_ddl _ s := (s, None);
     pg_room id s := Ok (select_room id (tabs s));
     pg_members rid s := Ok (elements (members_of rid (tabs s)));
     pg_rooms uid s := Ok (elements (rooms_of uid (tabs s)));
     pg_user_rooms uid s :=
       Ok (omap (λ rid, user_room uid rid (tabs s)) (elements (dom (chat_rooms (tabs s)))));
     pg_activity rid s := Ok (select_activity rid (tabs s));
     pg_unread rid uid s := Ok (select_unread rid uid (tabs s));
     pg_view := tabs |}.

#[global] Program Instance mem_db_laws : SqlLaws t.
Next Obligation.
  intros a b H. simpl. unfold ts. apply Z.mul_le_mono_nonneg_r; [lia|]. apply Z.div_le_mono; lia.
Qed.
Next Obligation. intros now st s s'. simpl. unfold exec. destruct (run _ _ _ _); by intros [= <-]. Qed.
Next Obligation. intros now st s s' e. simpl. unfold exec. destruct (run _ _ _ _); by intros [= <- <-]. Qed.
Next Obligation. by intros id s r [= <-]. Qed.
Next Obligation. by intros rid s l [= <-]. Qed.
Next Obligation. by intros uid s l [= <-]. Qed.
Next Obligation. by intros uid s l [= <-]. Qed.
Next Obligation. by intros rid s r [= <-]. Qed.
Next Obligation. by intros rid uid s r [= <-]. Qed.

#[global] Program Instance mem_db_reliable : SqlReliable t.
Next Obligation. intros now st s t'. simpl. unfold exec. by intros ->. Qed.
Next Obligation. done. Qed.
Next Obligation. done. Qed.
Next Obligation. done. Qed.
Next Obligation. done. Qed.
Next Obligation. done. Qed.
Next Obligation. done. Qed.

Definition empty : t := mk (mkTables ∅ ∅ ∅ ∅).

(** Newest first. *)
Definition newest (u v : RoomRepository.UserRoom) : Prop :=
  (RoomRepository.ur_LastMessageAt v ≤ RoomRepository.ur_LastMessageAt u)%Z.
#[global] Instance newest_dec : RelDecision newest.
Proof. intros u v. unfold newest. apply _. Defined.
#[global] Instance newest_total : Total newest.
Proof. intros u v. unfold newest. lia. Qed.
#[global] Instance newest_trans : Transitive newest.
Proof. intros u v w. unfold newest. lia. Qed.

Lemma empty_ok : tables_ok (pg_view empty).
Proof. constructor; simpl; [done|by intros r u []|by intros r []|by intros r u []]. Qed.

(** A direct room with a message of alice's at 5 ms. *)
Definition room : t :=
  (RoomRepository.UpdateLastActivity 5000000 "dm:alice:bob" "m1" "alice" "hi" 5000000
    (RoomRepository.GetOrCreateDM 1000 "bob" "alice" "bob" empty).1).1.

Lemma room_ok : tables_ok (pg_view room).
Proof.
  unfold room, RoomRepository.UpdateLastActivity.
  apply RoomRepository.exec_tables_ok, RoomRepository.GetOrCreateDM_tables_ok, empty_ok.
Qed.
End MemDB.


Lemma get_or_create_dm_once_witness :
  ∃ s1 m1 m2, RoomRepository.GetOrCreateDM 1000 "bob" "alice" "bob" MemDB.empty = (s1, Ok m1)
    ∧ RoomRepository.GetOrCreateDM 2000 "alice" "bob" "alice" s1 = (s1, Ok m2)
    ∧ RoomRepository.CreatedBy m2 = "bob".
Proof.
  destruct (RoomRepository.get_or_create_dm_once 1000 "bob" "alice" "bob" MemDB.empty)
    as (s1 & m1 & H1 & _ & _ & _ & _ & _ & H2).
  - apply MemDB.empty_ok.
  - reflexivity.
  - split; [discriminate|reflexivity].
  - split; [discriminate|reflexivity].
  - split; [discriminate|reflexivity].
  - destruct (H2 2000%Z "alice") as (m2 & _ & H3 & _ & H4 & _). exists s1, m1, m2.
    split; [exact H1|]. split; [exact H3|exact H4].
Defined.

Lemma upsert_room_is_not_atomic_witness :
  ∃ s' e, RoomRepository.UpsertRoom 0
      (RoomRepository.mkRoomMeta "group:1" 1 "team" "alice" None ["alice"; ""; "bob"] 0) MemDB.empty = (s', Some e)
    ∧ members_of "group:1" (MemDB.tabs s') = {["alice"]}.
Proof.
  destruct (RoomRepository.upsert_room_is_not_atomic 0
    (RoomRepository.mkRoomMeta "group:1" 1 "team" "alice" None ["alice"; ""; "bob"] 0) ["alice"] "" ["bob"]
    MemDB.empty) as (s' & e & H1 & H2).
  - repeat split; discriminate.
  - reflexivity.
  - repeat constructor; discriminate.
  - left. reflexivity.
  - exists s', e. split; [exact H1|]. change (MemDB.tabs s') with (pg_view s'). rewrite H2.
    vm_compute. reflexivity.
Defined.

Lemma dm_retry_after_failure_witness :
  ∃ s1 e m2, RoomRepository.GetOrCreateDM 0 "" "bob" "bob" MemDB.empty = (s1, Err e)
    ∧ RoomRepository.GetOrCreateDM 0 "" "bob" "bob" s1 = (s1, Ok m2)
    ∧ RoomRepository.MemberIDs m2 = [].
Proof.
  destruct (RoomRepository.dm_retry_after_failure 0 0 "bob" "bob" "bob" MemDB.empty)
    as (s1 & e & m2 & H1 & H2 & H3 & _).
  - apply MemDB.empty_ok.
  - reflexivity.
  - reflexivity.
  - split; [discriminate|reflexivity].
  - exists s1, e, m2. split; [exact H1|]. split; [exact H2|exact H3].
Defined.

Lemma receipt_decides_unread_witness :
  ∃ s', RoomRepository.UpdateReadReceipt 0 "dm:alice:bob" "bob" "m1" 4000000 MemDB.room = (s', None)
    ∧ select_unread "dm:alice:bob" "bob" (MemDB.tabs s') = Some true.
Proof.
  destruct (RoomRepository.receipt_decides_unread 0 "dm:alice:bob" "bob" "m1" 4000000 MemDB.room)
    as (s' & H1 & H2 & _).
  - vm_compute. eexists. reflexivity.
  - discriminate.
  - reflexivity.
  - exists s'. split; [exact H1|].
    specialize (H2 (mkActivityRow 5000000 (Some "m1") (Some "alice") (Some "hi"))).
    etransitivity; [apply H2; vm_compute; reflexivity|vm_compute; reflexivity].
Defined.

Lemma cursors_can_move_back_witness :
  ∃ s1 s2, RoomRepository.UpdateReadReceipt 0 "dm:alice:bob" "bob" "m2" 6000000 MemDB.room = (s1, None)
    ∧ select_unread "dm:alice:bob" "bob" (MemDB.tabs s1) = Some false
    ∧ RoomRepository.UpdateReadReceipt 0 "dm:alice:bob" "bob" "m1" 4000000 s1 = (s2, None)
    ∧ select_unread "dm:alice:bob" "bob" (MemDB.tabs s2) = Some true.
Proof.
  destruct (RoomRepository.cursors_can_move_back 0 "dm:alice:bob" "bob" "m1" "m2" 4000000 6000000
    (mkActivityRow 5000000 (Some "m1") (Some "alice") (Some "hi")) "alice" "p" "q" MemDB.room)
    as [H _]; [..|exact H].
  - vm_compute. eexists. reflexivity.
  - discriminate.
  - reflexivity.
  - reflexivity.
  - reflexivity.
  - reflexivity.
  - vm_compute. reflexivity.
  - discriminate.
  - vm_compute. split; [reflexivity|discriminate].
Defined.

Lemma user_rooms_detailed_witness :
  ∃ us, RoomRepository.GetUserRoomsDetailed (merge_sort MemDB.newest) "bob" MemDB.room = Ok us
    ∧ ∀ rid, rid ∈ RoomRepository.ur_RoomID <$> us ↔ rid ∈ rooms_of "bob" (pg_view MemDB.room).
Proof.
  destruct (RoomRepository.user_rooms_detailed (merge_sort MemDB.newest) "bob" MemDB.room)
    as (us & H1 & _ & _ & H2 & _).
  - intros l. apply merge_sort_Permutation.
  - intros l. apply (Sorted_merge_sort MemDB.newest).
  - apply MemDB.room_ok.
  - exists us. split; [exact H1|exact H2].
Defined.
