(* ===== verification/Mongo.v ===== *)
(** * The message store in MongoDB

    [app/repository/mongodb.go]: the documents of the six collections, the
    driver's calls on a collection as a parameter, and the repository's methods.
    A filter is the predicate that the [bson.M] of the source says, an update the
    paths it names with the function it is on a document. A field with
    [omitempty] that has its zero value is missing from the stored document. *)

From Stdlib Require Import Ascii.
From S2P Require Import Prelude GoString Strconv Pb RoomId.

(** ** Documents *)

(** An [_id]: a string, or an ObjectID that the server made for an upsert. *)
Inductive doc_id : Type := IdStr (s : string) | IdOid (n : N).
#[global] Instance doc_id_eq_dec : EqDecision doc_id.
Proof. solve_decision. Defined.

Record conversationDoc : Type := mkConversationDoc {
  cd_ID : string;
  cd_Type : string;
  cd_Participants : list string;
  cd_GroupName : string;
  cd_GroupPhoto : string;
  cd_Description : string;
  cd_MemberCount : Z;
  cd_LastMessage : string;
  cd_LastMessageID : string;
  cd_LastMessageAt : GoTime;
  cd_CreatedBy : string;
  cd_CreatedAt : GoTime
}.
#[global] Instance conversationDoc_eta : Eta conversationDoc := λ d,
  mkConversationDoc d.(cd_ID) d.(cd_Type) d.(cd_Participants) d.(cd_GroupName) d.(cd_GroupPhoto)
    d.(cd_Description) d.(cd_MemberCount) d.(cd_LastMessage) d.(cd_LastMessageID)
    d.(cd_LastMessageAt) d.(cd_CreatedBy) d.(cd_CreatedAt).

Record groupMemberDoc : Type := mkGroupMemberDoc {
  gm_ID : doc_id;
  gm_ConversationID : string;
  gm_UserID : string;
  gm_Role : string;
  gm_JoinedAt : GoTime;
  gm_Status : string
}.
#[global] Instance groupMemberDoc_eta : Eta groupMemberDoc := λ d,
  mkGroupMemberDoc d.(gm_ID) d.(gm_ConversationID) d.(gm_UserID) d.(gm_Role) d.(gm_JoinedAt) d.(gm_Status).

Record messageDoc : Type := mkMessageDoc {
  md_ID : string;
  md_MessageID : string;
  md_ConversationID : string;
  md_SenderID : string;
  md_MessageType : string;
  md_Content : string;
  md_CreatedAt : GoTime;
  md_DeliveredAt : GoTime;
  md_MediaKey : string;
  md_MediaName : string;
  md_MediaMimeType : string;
  md_MediaSizeBytes : Z;
  md_ReplyToMessageID : string;
  md_IsDeleted : bool;
  md_EditedAt : GoTime;
  md_RoomID : string;
  md_UserID : string;
  md_TextBody : string;
  md_SentAt : GoTime
}.
#[global] Instance messageDoc_eta : Eta messageDoc := λ d,
  mkMessageDoc d.(md_ID) d.(md_MessageID) d.(md_ConversationID) d.(md_SenderID) d.(md_MessageType)
    d.(md_Content) d.(md_CreatedAt) d.(md_DeliveredAt) d.(md_MediaKey) d.(md_MediaName)
    d.(md_MediaMimeType) d.(md_MediaSizeBytes) d.(md_ReplyToMessageID) d.(md_IsDeleted) d.(md_EditedAt)
    d.(md_RoomID) d.(md_UserID) d.(md_TextBody) d.(md_SentAt).

Record messageReadDoc : Type := mkMessageReadDoc {
  mr_ID : string;
  mr_ConversationID : string;
  mr_SenderID : string;
  mr_Content : string;
  mr_ReadBy : list string
}.
#[global] Instance messageReadDoc_eta : Eta messageReadDoc := λ d,
  mkMessageReadDoc d.(mr_ID) d.(mr_ConversationID) d.(mr_SenderID) d.(mr_Content) d.(mr_ReadBy).

Record readReceiptDoc : Type := mkReadReceiptDoc {
  rr_ID : doc_id;
  rr_RoomID : string;
  rr_UserID : string;
  rr_LastReadAt : GoTime;
  rr_LastReadMsgID : string
}.
#[global] Instance readReceiptDoc_eta : Eta readReceiptDoc := λ d,
  mkReadReceiptDoc d.(rr_ID) d.(rr_RoomID) d.(rr_UserID) d.(rr_LastReadAt) d.(rr_LastReadMsgID).

Record mediaUploadDoc : Type := mkMediaUploadDoc {
  mu_MediaKey : string;
  mu_UploaderID : string;
  mu_RoomID : string;
  mu_FileName : string;
  mu_MimeType : string;
  mu_SizeBytes : Z;
  mu_UploadedAt : GoTime;
  mu_ExpiresAt : GoTime
}.

(** The collections, by the documents they hold. *)
Inductive coll : Type → Type :=
  | Conversations : coll conversationDoc
  | GroupMembers : coll groupMemberDoc
  | Messages : coll messageDoc
  | MessageRead : coll messageReadDoc
  | Receipts : coll readReceiptDoc
  | Media : coll mediaUploadDoc.

Definition coll_name {D} (c : coll D) : string :=
  match c with
  | Conversations => "conversations" | GroupMembers => "group_members" | Messages => "messages"
  | MessageRead => "message_read" | Receipts => "read_receipts" | Media => "media_uploads"
  end.

(** Two documents that a unique index keeps apart: the same [_id], and the same
    conversation and user among group members. *)
Definition conflicts {D} (c : coll D) : D → D → bool :=
  match c with
  | Conversations => λ d e, String.eqb (cd_ID d) (cd_ID e)
  | GroupMembers => λ d e, bool_decide (gm_ID d = gm_ID e)
      || (String.eqb (gm_ConversationID d) (gm_ConversationID e) && String.eqb (gm_UserID d) (gm_UserID e))
  | Messages => λ d e, String.eqb (md_ID d) (md_ID e)
  | MessageRead => λ d e, String.eqb (mr_ID d) (mr_ID e)
  | Receipts => λ d e, bool_decide (rr_ID d = rr_ID e)
  | Media => λ d e, String.eqb (mu_MediaKey d) (mu_MediaKey e)
  end.

(** ** The driver *)

(** An update document: the paths its operators name, what it does to a
    document that matches, and, with [SetUpsert(true)], the document it makes
    of a fresh ObjectID when none does. *)
Record update (D : Type) : Type := mkUpdate {
  up_paths : list string;
  up_apply : D → D;
  up_insert : option (N → D)
}.
Arguments mkUpdate {D}.
Arguments up_paths {D}.
Arguments up_apply {D}.
Arguments up_insert {D}.

Inductive insert_error : Type := DuplicateKey (e : string) | InsertError (e : string).
Definition insert_error_text (e : insert_error) : string :=
  match e with DuplicateKey e | InsertError e => e end.

(** A row of the aggregation of [GetUserRooms]. *)
Record agg_row : Type := mkAggRow { ag_RoomID : string; ag_LastText : string; ag_LastSentAt : GoTime }.

(** The calls of the driver; every one can fail. [regex_match p ci s] is the
    server's regular expressions, an error for a pattern it rejects; [oid_string]
    is how the driver decodes an ObjectID into a Go string, if it does. *)
Class MongoDB (S : Type) := {
  docs : ∀ {D}, coll D → S → list D;
  find_one : ∀ {D}, coll D → (D → bool) → S → result string (option D);
  find : ∀ {D}, coll D → (D → bool) → (D → list GoTime) → option nat → S → result string (list D);
  insert_one : ∀ {D}, coll D → D → S → S * option insert_error;
  insert_many : ∀ {D}, coll D → list D → S → S * option string;
  update_one : ∀ {D}, coll D → (D → bool) → update D → S → S * result string nat;
  update_many : ∀ {D}, coll D → (D → bool) → update D → S → S * result string nat;
  delete_one : ∀ {D}, coll D → (D → bool) → S → S * option string;
  delete_many : ∀ {D}, coll D → (D → bool) → S → S * option string;
  count_docs : ∀ {D}, coll D → (D → bool) → S → result string Z;
  aggregate_rooms : (messageDoc → bool) → S → result string (list agg_row);
  regex_match : string → bool → result string (string → bool);
  oid_string : N → option string
}.
Global Arguments docs {S _ D} c s.

(** Descending order on a list of times. *)
Fixpoint times_ge (a b : list GoTime) : bool :=
  match a, b with
  | x :: a, y :: b => (y <? x)%Z || ((x =? y)%Z && times_ge a b)
  | _, _ => true
  end.

(** Documented behaviour. Every call leaves the other collections alone; a call
    on one document is atomic; an update that names a path twice, or a path and
    one below it, is an error ("would create a conflict"). *)
Class MongoLaws (S : Type) `{MongoDB S} := {
  find_one_ok {D} (c : coll D) p s r :
    find_one c p s = Ok r →
    match r with Some d => d ∈ docs c s ∧ p d = true | None => Forall (λ d, p d = false) (docs c s) end;
  find_ok {D} (c : coll D) p key limit s l :
    find c p key limit s = Ok l →
    ∃ all, all ≡ₚ filter (λ d, p d = true) (docs c s)
      ∧ Sorted (λ d e, times_ge (key d) (key e) = true) all
      ∧ l = match limit with Some n => take n all | None => all end;
  insert_one_ok {D} (c : coll D) d s s' :
    insert_one c d s = (s', None) →
    docs c s' = docs c s ++ [d] ∧ Forall (λ e, conflicts c d e = false) (docs c s);
  insert_one_err {D} (c : coll D) d s s' e :
    insert_one c d s = (s', Some e) →
    docs c s' = docs c s ∧ (∀ x, e = DuplicateKey x → Exists (λ e, conflicts c d e = true) (docs c s));
  insert_many_ok {D} (c : coll D) l s s' :
    insert_many c l s = (s', None) → docs c s' = docs c s ++ l;
  insert_many_err {D} (c : coll D) l s s' e :
    insert_many c l s = (s', Some e) → ∃ k, docs c s' = docs c s ++ take k l;
  update_one_ok {D} (c : coll D) p u s s' n :
    update_one c p u s = (s', Ok n) →
    NoDup (up_paths u) ∧
    ((∃ l1 d l2, docs c s = l1 ++ d :: l2 ∧ p d = true ∧ docs c s' = l1 ++ up_apply u d :: l2 ∧ n = 1)
     ∨ (Forall (λ d, p d = false) (docs c s) ∧ n = 0
        ∧ match up_insert u with
          | None => docs c s' = docs c s
          | Some f => ∃ oid, docs c s' = docs c s ++ [f oid]
          end));
  update_one_err {D} (c : coll D) p u s s' e :
    update_one c p u s = (s', Err e) → docs c s' = docs c s;
  update_many_ok {D} (c : coll D) p u s s' n :
    update_many c p u s = (s', Ok n) →
    docs c s' = (λ d, if p d then up_apply u d else d) <$> docs c s;
  update_many_err {D} (c : coll D) p u s s' e :
    update_many c p u s = (s', Err e) → length (docs c s') = length (docs c s);
  delete_one_ok {D} (c : coll D) p s s' :
    delete_one c p s = (s', None) →
    (∃ l1 d l2, docs c s = l1 ++ d :: l2 ∧ p d = true ∧ docs c s' = l1 ++ l2)
    ∨ (Forall (λ d, p d = false) (docs c s) ∧ docs c s' = docs c s);
  delete_one_err {D} (c : coll D) p s s' e : delete_one c p s = (s', Some e) → docs c s' = docs c s;
  delete_many_ok {D} (c : coll D) p s s' :
    delete_many c p s = (s', None) → docs c s' = filter (λ d, p d = false) (docs c s);
  count_ok {D} (c : coll D) p s n :
    count_docs c p s = Ok n → n = Z.of_nat (length (filter (λ d, p d = true) (docs c s)));
  aggregate_ok p s l :
    aggregate_rooms p s = Ok l →
    Forall (λ r, ∃ d, d ∈ docs Messages s ∧ p d = true ∧ md_ConversationID d = ag_RoomID r
      ∧ md_Content d = ag_LastText r ∧ md_CreatedAt d = ag_LastSentAt r) l
    ∧ NoDup (ag_RoomID <$> l) ∧ length l ≤ 100;
  mongo_frame {D D'} (c : coll D) (c' : coll D') s :
    coll_name c ≠ coll_name c' →
    (∀ d, docs c' (insert_one c d s).1 = docs c' s)
    ∧ (∀ l, docs c' (insert_many c l s).1 = docs c' s)
    ∧ (∀ p u, docs c' (update_one c p u s).1 = docs c' s)
    ∧ (∀ p u, docs c' (update_many c p u s).1 = docs c' s)
    ∧ (∀ p, docs c' (delete_one c p s).1 = docs c' s)
    ∧ (∀ p, docs c' (delete_many c p s).1 = docs c' s)
}.

(** A server that answers: a call fails only for its documented reasons. *)
Class MongoReliable (S : Type) `{MongoDB S} := {
  find_one_answers {D} (c : coll D) p s : is_ok (find_one c p s) = true;
  find_answers {D} (c : coll D) p key limit s : is_ok (find c p key limit s) = true;
  insert_one_answers {D} (c : coll D) d s :
    Forall (λ e, conflicts c d e = false) (docs c s) → (insert_one c d s).2 = None;
  insert_one_dup {D} (c : coll D) d s :
    Exists (λ e, conflicts c d e = true) (docs c s) → ∃ e, (insert_one c d s).2 = Some (DuplicateKey e);
  update_one_answers {D} (c : coll D) p u s :
    NoDup (up_paths u) →
    (∀ f oid, up_insert u = Some f → Forall (λ d, p d = false) (docs c s) →
       Forall (λ d, conflicts c (f oid) d = false) (docs c s)) →
    is_ok (update_one c p u s).2 = true;
  count_answers {D} (c : coll D) p s : is_ok (count_docs c p s) = true
}.

(** ** Values in documents *)

(** A BSON date holds milliseconds. *)
Definition bson_time (t : GoTime) : GoTime := of_unix_milli (to_unix_milli t).

(** [{"field": x}] on a field with [omitempty]: a missing field has no value. *)
Definition present_eq (v x : string) : bool := negb (String.eqb v "") && String.eqb v x.

Definition present_in (v : string) (l : list string) : bool := negb (String.eqb v "") && bool_decide (v ∈ l).

Definition add_to_set (x : string) (l : list string) : list string :=
  if bool_decide (x ∈ l) then l else l ++ [x].

Definition pull (x : string) (l : list string) : list string := filter (λ y, y ≠ x) l.

(** ** The repository *)

Module MessageRepository.

Record UserRoomSummary : Type := mkUserRoomSummary {
  RoomID : string;
  LastMessage : string;
  LastMessageAt : GoTime;
  MemberIDs : list string
}.

Definition docToConversationDetail (d : conversationDoc) : ConversationDetail :=
  let roomType := if String.eqb (cd_Type d) "GROUP" then RoomType_ROOM_TYPE_GROUP else RoomType_ROOM_TYPE_DM in
  mkConversationDetail (cd_ID d) roomType (cd_Participants d) (cd_GroupName d) (cd_GroupPhoto d)
    (cd_Description d) (cd_MemberCount d) (cd_LastMessage d) (cd_LastMessageID d)
    (to_unix_milli (cd_LastMessageAt d)) (cd_CreatedBy d) (to_unix_milli (cd_CreatedAt d)).

Definition first_nonempty (a b : string) : string := if String.eqb a "" then b else a.

Definition docToServerMessage (doc : messageDoc) : ServerMessage :=
  let createdAt := if IsZero (md_CreatedAt doc) then md_SentAt doc else md_CreatedAt doc in
  let msgType :=
    match list_find (λ p, p.1 = "MESSAGE_TYPE_" +:+ ToUpper (md_MessageType doc)) MessageType_value with
    | Some (_, (_, t)) => t
    | None => MessageType_MESSAGE_TYPE_TEXT
    end in
  ServerMessage_zero
    <| ServerMessage_RoomId := first_nonempty (md_ConversationID doc) (md_RoomID doc) |>
    <| ServerMessage_UserId := first_nonempty (md_SenderID doc) (md_UserID doc) |>
    <| ServerMessage_MessageId := md_ID doc |>
    <| ServerMessage_Text := first_nonempty (md_Content doc) (md_TextBody doc) |>
    <| ServerMessage_Type := msgType |>
    <| ServerMessage_SentAtUnixMs := to_unix_milli createdAt |>
    <| ServerMessage_DeliveredAtUnixMs := to_unix_milli (md_DeliveredAt doc) |>
    <| ServerMessage_MediaKey := md_MediaKey doc |>
    <| ServerMessage_MediaName := md_MediaName doc |>
    <| ServerMessage_MediaMimeType := md_MediaMimeType doc |>
    <| ServerMessage_MediaSizeBytes := md_MediaSizeBytes doc |>
    <| ServerMessage_ReplyToMessageId := md_ReplyToMessageID doc |>
    <| ServerMessage_IsDeleted := md_IsDeleted doc |>
    <| ServerMessage_EditedAtUnixMs := if IsZero (md_EditedAt doc) then 0%Z else to_unix_milli (md_EditedAt doc) |>
    <| ServerMessage_EventType := EventType_EVENT_TYPE_MESSAGE |>.

Section repository.
Context {St : Type} `{DB : MongoDB St}.

(** *** Conversations and groups *)

Definition CreateOrGetDirectConversation (now : GoTime) (userA userB createdBy : string) (s : St)
    : St * result string ConversationDetail :=
  if String.eqb userA "" || String.eqb userB "" then (s, Err "userA and userB are required")
  else
    let participants := sort_strings [userA; userB] in
    let convID := "dm:" +:+ nth 0 participants "" +:+ ":" +:+ nth 1 participants "" in
    let doc := mkConversationDoc convID "DIRECT" participants "" "" "" 0%Z "" "" zero_time createdBy (bson_time now) in
    let filter := λ d, String.eqb (cd_Type d) "DIRECT" && bool_decide (cd_Participants d = participants) in
    match find_one Conversations filter s with
    | Ok (Some existing) =>
        let detail := docToConversationDetail existing <| ConversationDetail_ConversationId := convID |> in
        if String.eqb (cd_ID existing) convID then (s, Ok detail)
        else
          let '(s, _) := update_one Conversations (λ d, String.eqb (cd_ID d) convID)
                           (mkUpdate ["_id"; "type"; "participants"; "created_by"; "created_at"] id
                              (Some (λ _, doc))) s in
          (s, Ok detail)
    | _ =>
        let '(s, err) := insert_one Conversations doc s in
        match err with
        | Some (InsertError e) => (s, Err ("create direct conversation: " +:+ e))
        | Some (DuplicateKey _) =>
            let existing := match find_one Conversations (λ d, String.eqb (cd_ID d) convID) s with
                            | Ok (Some d) => d
                            | _ => mkConversationDoc "" "" [] "" "" "" 0%Z "" "" zero_time "" zero_time
                            end in
            (s, Ok (docToConversationDetail existing))
        | None => (s, Ok (docToConversationDetail doc))
        end
    end.

(** The members of a new group, the creator first; [range] of the source's map
    gives them in any order. *)
Definition unique_members (createdBy : string) (memberIDs : list string) : gset string :=
  {[ createdBy ]} ∪ list_to_set (filter (λ m, m ≠ "") memberIDs).

Definition gm_id (convID user : string) : string := "GM_" +:+ convID +:+ "_" +:+ user.

Definition CreateGroupConversation (order : gset string → list string) (unix_nano : Z) (now : GoTime)
    (groupName groupPhoto description createdBy : string) (memberIDs : list string) (s : St)
    : St * result string ConversationDetail :=
  if String.eqb groupName "" then (s, Err "group_name is required")
  else if String.eqb createdBy "" then (s, Err "created_by is required")
  else
    let finalMembers := order (unique_members createdBy memberIDs) in
    let convID := "CONV_" +:+ itoa unix_nano in
    let conv := mkConversationDoc convID "GROUP" finalMembers groupName groupPhoto description
                  (wrap_i32 (Z.of_nat (length finalMembers))) "" "" zero_time createdBy now in
    let '(s, err) := insert_one Conversations (conv <| cd_CreatedAt := bson_time now |>) s in
    match err with
    | Some e => (s, Err ("insert group conversation: " +:+ insert_error_text e))
    | None =>
        let gmDocs := (λ m, mkGroupMemberDoc (IdStr (gm_id convID m)) convID m
                              (if String.eqb m createdBy then "OWNER" else "MEMBER")
                              (bson_time now) "ACTIVE") <$> finalMembers in
        let '(s, err) := if bool_decide (0 < length gmDocs) then insert_many GroupMembers gmDocs s
                         else (s, None) in
        match err with
        | Some e => (s, Err ("insert group members: " +:+ e))
        | None => (s, Ok (docToConversationDetail conv))
        end
    end.

(** A document of [group_members] decodes if its [_id] does. *)
Definition member_of_doc (gm : groupMemberDoc) : option GroupMember :=
  i ← match gm_ID gm with IdStr i => Some i | IdOid n => oid_string n end;
  Some (mkGroupMember i (gm_ConversationID gm) (gm_UserID gm) (gm_Role gm)
          (to_unix_milli (gm_JoinedAt gm)) (gm_Status gm)).

Definition GetConversation (convID : string) (s : St) : result string (ConversationDetail * list GroupMember) :=
  match find_one Conversations (λ d, String.eqb (cd_ID d) convID) s with
  | Err e => Err ("get conversation: " +:+ e)
  | Ok None => Err "get conversation: mongo: no documents in result"
  | Ok (Some cDoc) =>
      let members :=
        if String.eqb (cd_Type cDoc) "GROUP" then
          match find GroupMembers (λ g, String.eqb (gm_ConversationID g) convID && String.eqb (gm_Status g) "ACTIVE")
                  (λ _, []) None s with
          | Ok l => omap member_of_doc l
          | Err _ => []
          end
        else [] in
      Ok (docToConversationDetail cDoc, members)
  end.

Definition AddGroupMember (now : GoTime) (convID userID operatorID role : string) (s : St) : St * option string :=
  let role := if String.eqb role "" then "MEMBER" else role in
  let '(s, res) :=
    update_one GroupMembers
      (λ g, String.eqb (gm_ConversationID g) convID && String.eqb (gm_UserID g) userID)
      (mkUpdate ["role"; "joined_at"; "status"]
         (λ g, g <| gm_Role := role |> <| gm_JoinedAt := bson_time now |> <| gm_Status := "ACTIVE" |>)
         (Some (λ oid, mkGroupMemberDoc (IdOid oid) convID userID role (bson_time now) "ACTIVE"))) s in
  match res with
  | Err e => (s, Some e)
  | Ok _ =>
      let '(s, _) :=
        update_one Conversations (λ d, String.eqb (cd_ID d) convID)
          (mkUpdate ["participants"; "member_count"]
             (λ d, d <| cd_Participants := add_to_set userID (cd_Participants d) |>
                     <| cd_MemberCount := (cd_MemberCount d + 1)%Z |>) None) s in
      (s, None)
  end.

Definition RemoveGroupMember (convID userID operatorID : string) (s : St) : St * option string :=
  let '(s, res) :=
    update_one GroupMembers
      (λ g, String.eqb (gm_ConversationID g) convID && String.eqb (gm_UserID g) userID)
      (mkUpdate ["status"] (λ g, g <| gm_Status := "INACTIVE" |>) None) s in
  match res with
  | Err e => (s, Some e)
  | Ok _ =>
      let '(s, _) :=
        update_one Conversations (λ d, String.eqb (cd_ID d) convID)
          (mkUpdate ["participants"; "member_count"]
             (λ d, d <| cd_Participants := pull userID (cd_Participants d) |>
                     <| cd_MemberCount := (cd_MemberCount d - 1)%Z |>) None) s in
      (s, None)
  end.

Definition LeaveGroup (convID userID : string) (s : St) : St * option string :=
  RemoveGroupMember convID userID userID s.

Definition set_role (role : string) : update groupMemberDoc :=
  mkUpdate ["role"] (λ g, g <| gm_Role := role |>) None.

(** The filter [{"conversation_id": convID, "user_id": userID, "status": "ACTIVE"}]. *)
Definition active_member (convID userID : string) (g : groupMemberDoc) : bool :=
  String.eqb (gm_ConversationID g) convID && String.eqb (gm_UserID g) userID && String.eqb (gm_Status g) "ACTIVE".

Definition PromoteAdmin (convID userID operatorID : string) (s : St) : St * option string :=
  let '(s, res) := update_one GroupMembers (active_member convID userID) (set_role "ADMIN") s in
  match res with
  | Err e => (s, Some e)
  | Ok matched => (s, if bool_decide (matched = 0) then Some "active member not found in group" else None)
  end.

Definition TransferOwnership (convID currentOwnerID newOwnerID : string) (s : St) : St * option string :=
  let '(s, res) := update_one GroupMembers (active_member convID newOwnerID) (set_role "OWNER") s in
  match res with
  | Err e => (s, Some e)
  | Ok _ =>
      if String.eqb currentOwnerID "" then (s, None)
      else
        let '(s, _) :=
          update_one GroupMembers
            (λ g, String.eqb (gm_ConversationID g) convID && String.eqb (gm_UserID g) currentOwnerID)
            (set_role "ADMIN") s in
        (s, None)
  end.

Definition DeleteGroup (convID ownerID : string) (s : St) : St * option string :=
  let '(s, err) := delete_one Conversations (λ d, String.eqb (cd_ID d) convID) s in
  match err with
  | Some e => (s, Some e)
  | None =>
      let '(s, _) := delete_many GroupMembers (λ g, String.eqb (gm_ConversationID g) convID) s in
      (s, None)
  end.

(** *** Messages and receipts *)

(** [createdAt] of [SaveMessage]: the sender's clock, or the server's. *)
Definition created_at (now : GoTime) (msg : ServerMessage) : GoTime :=
  let createdAt := of_unix_milli (ServerMessage_SentAtUnixMs msg) in
  if IsZero createdAt then now else createdAt.

Definition msg_id (fresh : string) (msg : ServerMessage) : string :=
  if String.eqb (ServerMessage_MessageId msg) "" then fresh else ServerMessage_MessageId msg.

Definition doc_of_message (fresh : string) (now : GoTime) (msg : ServerMessage) : messageDoc :=
  let convID := ServerMessage_RoomId msg in
  let senderID := ServerMessage_UserId msg in
  let createdAt := bson_time (created_at now msg) in
  {| md_ID := msg_id fresh msg; md_MessageID := msg_id fresh msg;
     md_ConversationID := convID; md_SenderID := senderID;
     md_MessageType := MessageType_String (ServerMessage_Type msg);
     md_Content := ServerMessage_Text msg; md_CreatedAt := createdAt;
     md_DeliveredAt := bson_time (of_unix_milli (ServerMessage_DeliveredAtUnixMs msg));
     md_MediaKey := ServerMessage_MediaKey msg; md_MediaName := ServerMessage_MediaName msg;
     md_MediaMimeType := ServerMessage_MediaMimeType msg; md_MediaSizeBytes := ServerMessage_MediaSizeBytes msg;
     md_ReplyToMessageID := ServerMessage_ReplyToMessageId msg; md_IsDeleted := ServerMessage_IsDeleted msg;
     md_EditedAt := zero_time;
     md_RoomID := convID; md_UserID := senderID; md_TextBody := ServerMessage_Text msg; md_SentAt := createdAt |}.

(** The paper clip of the source, U+1F4CE in UTF-8. *)
Definition paper_clip : string := str (ascii_of_N <$> [240; 159; 147; 142]%N).

Definition preview (msg : ServerMessage) : string :=
  if String.eqb (ServerMessage_Text msg) "" && negb (String.eqb (ServerMessage_MediaName msg) "")
  then paper_clip +:+ " " +:+ ServerMessage_MediaName msg else ServerMessage_Text msg.

Definition read_by (userID : string) (d : messageReadDoc) : messageReadDoc :=
  d <| mr_ReadBy := add_to_set userID (mr_ReadBy d) |>.

(** The upsert of [message_read]: [$setOnInsert] of a document that has
    [read_by], and [$addToSet] on [read_by]. *)
Definition read_upsert (msgID convID senderID content : string) : update messageReadDoc :=
  mkUpdate (["_id"; "conversation_id"; "sender_id"; "content"; "read_by"] ++ ["read_by"])
    (read_by senderID) (Some (λ _, mkMessageReadDoc msgID convID senderID content [senderID])).

Definition SaveMessage (fresh : string) (now : GoTime) (msg : ServerMessage) (s : St) : St * option string :=
  let doc := doc_of_message fresh now msg in
  let '(s, err) := insert_one Messages doc s in
  match err with
  | Some e => (s, Some ("insert message: " +:+ insert_error_text e))
  | None =>
      let '(s, _) :=
        update_one Conversations (λ d, String.eqb (cd_ID d) (md_ConversationID doc))
          (mkUpdate ["last_message"; "last_message_id"; "last_message_at"]
             (λ d, d <| cd_LastMessage := preview msg |> <| cd_LastMessageID := md_ID doc |>
                     <| cd_LastMessageAt := md_CreatedAt doc |>) None) s in
      let '(s, _) :=
        update_one MessageRead (λ d, String.eqb (mr_ID d) (md_ID doc))
          (read_upsert (md_ID doc) (md_ConversationID doc) (md_SenderID doc) (preview msg)) s in
      (s, None)
  end.

Definition UpdateReadReceipt (roomID userID lastMsgID : string) (lastReadAt : GoTime) (s : St) : St * option string :=
  let '(s, res) :=
    update_one Receipts (λ r, String.eqb (rr_RoomID r) roomID && String.eqb (rr_UserID r) userID)
      (mkUpdate ["last_read_at"; "last_read_msg_id"]
         (λ r, r <| rr_LastReadAt := bson_time lastReadAt |> <| rr_LastReadMsgID := lastMsgID |>)
         (Some (λ oid, mkReadReceiptDoc (IdOid oid) roomID userID (bson_time lastReadAt) lastMsgID))) s in
  (s, match res with Ok _ => None | Err e => Some e end).

Definition MarkMessageRead (now : GoTime) (convID userID msgID : string) (s : St) : St * option string :=
  let '(s, _) := UpdateReadReceipt convID userID msgID now s in
  let u := mkUpdate ["read_by"] (read_by userID) None in
  let '(s, res) :=
    if negb (String.eqb msgID "") then update_one MessageRead (λ d, String.eqb (mr_ID d) msgID) u s
    else update_many MessageRead (λ d, String.eqb (mr_ConversationID d) convID) u s in
  (s, match res with Ok _ => None | Err e => Some e end).

Definition GetUnreadCount (userID convID : string) (s : St) : result string Z :=
  result_map wrap_i32
    (count_docs MessageRead
       (λ d, negb (String.eqb (mr_SenderID d) userID) && negb (bool_decide (userID ∈ mr_ReadBy d))
             && (String.eqb convID "" || String.eqb (mr_ConversationID d) convID)) s).

(** Whether a message has the id, and whether it is the user's: by the field of
    the schema or by the legacy one. *)
Definition has_id (messageID : string) (d : messageDoc) : bool :=
  String.eqb (md_ID d) messageID || present_eq (md_MessageID d) messageID.
Definition owned_by (userID : string) (d : messageDoc) : bool :=
  String.eqb (md_SenderID d) userID || present_eq (md_UserID d) userID.

Definition mark_deleted : update messageDoc := mkUpdate ["is_deleted"] (λ d, d <| md_IsDeleted := true |>) None.

Definition SoftDeleteMessage (roomID : string) (sentAtUnixMs : Z) (messageID : string) (s : St) : St * option string :=
  let '(s, res) := update_one Messages (has_id messageID) mark_deleted s in
  (s, match res with Ok _ => None | Err e => Some e end).

(** A matched document counts whether or not it was modified. *)
Definition SoftDeleteMessageByOwner (messageID userID : string) (s : St) : St * result string bool :=
  let '(s, res) := update_one Messages (λ d, has_id messageID d && owned_by userID d) mark_deleted s in
  (s, result_map (λ matched, bool_decide (0 < matched)) res).

Definition edit (now : GoTime) (newText : string) : update messageDoc :=
  mkUpdate ["content"; "text_body"; "edited_at"]
    (λ d, d <| md_Content := newText |> <| md_TextBody := newText |> <| md_EditedAt := bson_time now |>) None.

Definition EditMessage (now : GoTime) (messageID userID newText : string) (s : St) : St * result string Z :=
  let '(s, res) :=
    update_one Messages (λ d, negb (md_IsDeleted d) && (has_id messageID d && owned_by userID d))
      (edit now newText) s in
  (s, match res with
      | Err e => Err e
      | Ok matched => if bool_decide (matched = 0) then Err "message not found or not owned by user"
                      else Ok (to_unix_milli now)
      end).

Definition SaveMediaUpload (now : GoTime) (mediaKey uploaderID roomID fileName mimeType : string)
    (sizeBytes : Z) (expiresAt : GoTime) (s : St) : St * option string :=
  let doc := mkMediaUploadDoc mediaKey uploaderID roomID fileName mimeType sizeBytes (bson_time now)
               (bson_time expiresAt) in
  let '(s, err) := insert_one Media doc s in
  (s, insert_error_text <$> err).

(** *** Queries *)

(** [limit <= 0] means 50. *)
Definition default_limit (limit : Z) : nat := if (limit <=? 0)%Z then 50 else Z.to_nat limit.

Definition queryMessages (filter : messageDoc → bool) (limit : nat) (s : St) : result string (list ServerMessage) :=
  match find Messages filter (λ d, [md_CreatedAt d; md_SentAt d]) (Some limit) s with
  | Err e => Err ("mongodb find messages: " +:+ e)
  | Ok l => Ok (docToServerMessage <$> l)
  end.

Definition in_room (ids : list string) (d : messageDoc) : bool :=
  bool_decide (md_ConversationID d ∈ ids) || present_in (md_RoomID d) ids.

Definition GetMessages (roomID : string) (limit : Z) (s : St) : result string (list ServerMessage) :=
  queryMessages (in_room (roomIDAliases roomID)) (default_limit limit) s.

(** [created_at] or [sent_at] before [t]; a [sent_at] that is missing is not. *)
Definition sent_before (t : GoTime) (d : messageDoc) : bool :=
  (md_CreatedAt d <? t)%Z || (negb (IsZero (md_SentAt d)) && (md_SentAt d <? t)%Z).

Definition GetMessagesBefore (roomID : string) (beforeUnixMs limit : Z) (s : St) : result string (list ServerMessage) :=
  let limit := if (limit <=? 0)%Z then 50%Z else limit in
  if (beforeUnixMs =? 0)%Z then GetMessages roomID limit s
  else
    let t := of_unix_milli beforeUnixMs in
    let ids := roomIDAliases roomID in
    queryMessages (λ d, in_room ids d && sent_before t d) (Z.to_nat limit) s.

Definition SearchMessages (convID query : string) (limit : Z) (s : St) : result string (list ServerMessage) :=
  match regex_match query true with
  | Err e => Err ("search messages: " +:+ e)
  | Ok matches =>
      let filter := λ d, negb (md_IsDeleted d)
        && ((String.eqb (md_ConversationID d) convID || present_eq (md_RoomID d) convID)
            && (matches (md_Content d) || (negb (String.eqb (md_TextBody d) "") && matches (md_TextBody d)))) in
      match find Messages filter (λ d, [md_CreatedAt d]) (Some (default_limit limit)) s with
      | Err e => Err ("search messages: " +:+ e)
      | Ok l => Ok (docToServerMessage <$> l)
      end
  end.

Definition exactDmRegex (userID : string) : string :=
  "^dm[:-]" +:+ userID +:+ "[:-]|^dm[:-][^:-]+[:-]" +:+ userID +:+ "$".

Definition summary_of_conversation (d : conversationDoc) : UserRoomSummary :=
  mkUserRoomSummary (cd_ID d) (cd_LastMessage d) (cd_LastMessageAt d) (cd_Participants d).

Definition summary_of_row (row : agg_row) : option UserRoomSummary :=
  let id := ag_RoomID row in
  if String.eqb id "" then None
  else
    let memberIDs :=
      if bool_decide (3 < slen id) && (String.eqb (slice_to 3 id) "dm:" || String.eqb (slice_to 3 id) "dm-")
      then let parts := splitRoomID id in if bool_decide (length parts = 2) then parts else []
      else [] in
    Some (mkUserRoomSummary id (ag_LastText row) (ag_LastSentAt row) memberIDs).

Definition GetUserRooms (userID : string) (s : St) : result string (list UserRoomSummary) :=
  let fallback :=
    match regex_match (exactDmRegex userID) false with
    | Err e => Err ("GetUserRooms aggregate: " +:+ e)
    | Ok matches =>
        let filter := λ d, negb (md_IsDeleted d)
          && (String.eqb (md_SenderID d) userID || present_eq (md_UserID d) userID
              || matches (md_ConversationID d) || (negb (String.eqb (md_RoomID d) "") && matches (md_RoomID d))) in
        match aggregate_rooms filter s with
        | Err e => Err ("GetUserRooms aggregate: " +:+ e)
        | Ok rows => Ok (omap summary_of_row rows)
        end
    end in
  match find Conversations (λ d, bool_decide (userID ∈ cd_Participants d) || String.eqb (cd_CreatedBy d) userID)
          (λ _, []) None s with
  | Ok l => let summaries := summary_of_conversation <$> l in
            if bool_decide (0 < length summaries) then Ok summaries else fallback
  | Err _ => fallback
  end.

(** *** Lemmas on the driver *)

Context `{!MongoLaws St}.

Lemma update_frame {A B} (c : coll A) (c' : coll B) p u s s' r :
  update_one c p u s = (s', r) → coll_name c ≠ coll_name c' → docs c' s' = docs c' s.
Proof. intros E Hc. destruct (mongo_frame c c' s Hc) as (_ & _ & H & _). specialize (H p u). by rewrite E in H. Qed.

Lemma update_many_frame {A B} (c : coll A) (c' : coll B) p u s s' r :
  update_many c p u s = (s', r) → coll_name c ≠ coll_name c' → docs c' s' = docs c' s.
Proof. intros E Hc. destruct (mongo_frame c c' s Hc) as (_ & _ & _ & H & _). specialize (H p u). by rewrite E in H. Qed.

Lemma insert_frame {A B} (c : coll A) (c' : coll B) d s s' r :
  insert_one c d s = (s', r) → coll_name c ≠ coll_name c' → docs c' s' = docs c' s.
Proof. intros E Hc. destruct (mongo_frame c c' s Hc) as (H & _). specialize (H d). by rewrite E in H. Qed.

Lemma insert_many_frame {A B} (c : coll A) (c' : coll B) l s s' r :
  insert_many c l s = (s', r) → coll_name c ≠ coll_name c' → docs c' s' = docs c' s.
Proof. intros E Hc. destruct (mongo_frame c c' s Hc) as (_ & H & _). specialize (H l). by rewrite E in H. Qed.

Lemma delete_one_frame {A B} (c : coll A) (c' : coll B) p s s' r :
  delete_one c p s = (s', r) → coll_name c ≠ coll_name c' → docs c' s' = docs c' s.
Proof. intros E Hc. destruct (mongo_frame c c' s Hc) as (_ & _ & _ & _ & H & _). specialize (H p). by rewrite E in H. Qed.

Lemma delete_many_frame {A B} (c : coll A) (c' : coll B) p s s' r :
  delete_many c p s = (s', r) → coll_name c ≠ coll_name c' → docs c' s' = docs c' s.
Proof. intros E Hc. destruct (mongo_frame c c' s Hc) as (_ & _ & _ & _ & _ & H). specialize (H p). by rewrite E in H. Qed.

(** Name every call of the goal or a hypothesis with its result, outermost first. *)
Ltac calls :=
  repeat match goal with
  | H : context [let '(_, _) := ?x in _] |- _ => let E := fresh "E" in destruct x as [? ?] eqn:E
  | |- context [let '(_, _) := ?x in _] => let E := fresh "E" in destruct x as [? ?] eqn:E
  end.

(** Rewrite the documents of an untouched collection back to the first state. *)
Ltac frames :=
  repeat match goal with
  | E : update_one ?c _ _ _ = (?s, _) |- context [docs ?c' ?s] => rewrite (update_frame c c' _ _ _ _ _ E) by discriminate
  | E : update_many ?c _ _ _ = (?s, _) |- context [docs ?c' ?s] => rewrite (update_many_frame c c' _ _ _ _ _ E) by discriminate
  | E : insert_one ?c _ _ = (?s, _) |- context [docs ?c' ?s] => rewrite (insert_frame c c' _ _ _ _ E) by discriminate
  | E : insert_many ?c _ _ = (?s, _) |- context [docs ?c' ?s] => rewrite (insert_many_frame c c' _ _ _ _ E) by discriminate
  | E : delete_one ?c _ _ = (?s, _) |- context [docs ?c' ?s] => rewrite (delete_one_frame c c' _ _ _ _ E) by discriminate
  | E : delete_many ?c _ _ = (?s, _) |- context [docs ?c' ?s] => rewrite (delete_many_frame c c' _ _ _ _ E) by discriminate
  end.

(** An update without an upsert: the first match in the server's order changes, or nothing does. *)
Lemma update_plain {A} (c : coll A) p paths f s s' r :
  update_one c p (mkUpdate paths f None) s = (s', r) →
  match r with
  | Err _ => docs c s' = docs c s
  | Ok n => (n = 0 ∧ docs c s' = docs c s ∧ Forall (λ d, p d = false) (docs c s))
            ∨ (n = 1 ∧ ∃ l1 d l2, docs c s = l1 ++ d :: l2 ∧ p d = true ∧ docs c s' = l1 ++ f d :: l2)
  end.
Proof.
  intros E. destruct r as [n|e]; [|exact (update_one_err c _ _ _ _ _ E)].
  destruct (update_one_ok c _ _ _ _ _ E) as (_ & [(l1 & d & l2 & H1 & H2 & H3 & ->)|(H1 & -> & H2)]).
  - right. split; [done|]. by exists l1, d, l2.
  - by left.
Qed.

(** *** The read state of a message *)

Inductive op : Type :=
  | OpDirect (now : GoTime) (userA userB createdBy : string)
  | OpGroup (order : gset string → list string) (unix_nano : Z) (now : GoTime)
      (groupName groupPhoto description createdBy : string) (memberIDs : list string)
  | OpAddMember (now : GoTime) (convID userID operatorID role : string)
  | OpRemoveMember (convID userID operatorID : string)
  | OpLeave (convID userID : string)
  | OpPromote (convID userID operatorID : string)
  | OpTransfer (convID currentOwnerID newOwnerID : string)
  | OpDeleteGroup (convID ownerID : string)
  | OpSave (fresh : string) (now : GoTime) (msg : ServerMessage)
  | OpReceipt (roomID userID lastMsgID : string) (lastReadAt : GoTime)
  | OpMarkRead (now : GoTime) (convID userID msgID : string)
  | OpSoftDelete (roomID : string) (sentAtUnixMs : Z) (messageID : string)
  | OpSoftDeleteByOwner (messageID userID : string)
  | OpEdit (now : GoTime) (messageID userID newText : string)
  | OpMedia (now : GoTime) (mediaKey uploaderID roomID fileName mimeType : string) (sizeBytes : Z) (expiresAt : GoTime).

(** The state after an operation, whatever it returns. *)
Definition run_op (o : op) (s : St) : St :=
  match o with
  | OpDirect now a b c => (CreateOrGetDirectConversation now a b c s).1
  | OpGroup order nano now n p d c ms => (CreateGroupConversation order nano now n p d c ms s).1
  | OpAddMember now c u o r => (AddGroupMember now c u o r s).1
  | OpRemoveMember c u o => (RemoveGroupMember c u o s).1
  | OpLeave c u => (LeaveGroup c u s).1
  | OpPromote c u o => (PromoteAdmin c u o s).1
  | OpTransfer c a b => (TransferOwnership c a b s).1
  | OpDeleteGroup c o => (DeleteGroup c o s).1
  | OpSave f now m => (SaveMessage f now m s).1
  | OpReceipt r u m at_ => (UpdateReadReceipt r u m at_ s).1
  | OpMarkRead now c u m => (MarkMessageRead now c u m s).1
  | OpSoftDelete r at_ m => (SoftDeleteMessage r at_ m s).1
  | OpSoftDeleteByOwner m u => (SoftDeleteMessageByOwner m u s).1
  | OpEdit now m u t => (EditMessage now m u t s).1
  | OpMedia now k u r f m z e => (SaveMediaUpload now k u r f m z e s).1
  end.

(** The upsert of [SaveMessage] names [read_by] twice, so the server refuses it. *)
Lemma read_upsert_refused p a b c d s s' r :
  update_one MessageRead p (read_upsert a b c d) s = (s', r) → docs MessageRead s' = docs MessageRead s.
Proof.
  intros E. destruct r as [n|e]; [|exact (update_one_err _ _ _ _ _ _ E)].
  destruct (update_one_ok _ _ _ _ _ _ E) as [H _]. exfalso. revert H. decide_now.
Qed.

Lemma update_empty {A} (c : coll A) p paths f s s' r :
  update_one c p (mkUpdate paths f None) s = (s', r) → docs c s = [] → docs c s' = [].
Proof.
  intros E H. apply update_plain in E. rewrite H in E. destruct r as [n|e]; [|done].
  destruct E as [(_ & ? & _)|(_ & l1 & d & l2 & E & _)]; [done|]. by destruct l1.
Qed.

Lemma update_many_empty {A} (c : coll A) p u s s' r :
  update_many c p u s = (s', r) → docs c s = [] → docs c s' = [].
Proof.
  intros E H. destruct r as [n|e].
  - by rewrite (update_many_ok _ _ _ _ _ _ E), H.
  - pose proof (update_many_err _ _ _ _ _ _ E) as H2. rewrite H in H2. by apply nil_length_inv.
Qed.

Lemma run_op_read o s : docs MessageRead s = [] → docs MessageRead (run_op o s) = [].
Proof.
  intros H. destruct o; simpl;
    unfold CreateOrGetDirectConversation, CreateGroupConversation, AddGroupMember, LeaveGroup, RemoveGroupMember,
      PromoteAdmin, TransferOwnership, DeleteGroup, SaveMessage, MarkMessageRead, UpdateReadReceipt,
      SoftDeleteMessage, SoftDeleteMessageByOwner, EditMessage, SaveMediaUpload.
  all: calls; repeat case_match; calls; simplify_eq/=.
  all: repeat match goal with E : update_one MessageRead _ _ _ = _ |- _ => rewrite (read_upsert_refused _ _ _ _ _ _ _ _ E) end.
  all: try (by frames).
  all: first [eapply update_empty; [eassumption|] | eapply update_many_empty; [eassumption|]]; by frames.
Qed.

(** C38: No message is ever recorded as read or unread: [SaveMessage]'s upsert of
    [message_read] names the path [read_by] in two operators, the server refuses
    it and the error is dropped, so that from an empty collection every sequence
    of operations leaves it empty and [GetUnreadCount] is 0 for every user and
    conversation, whatever was sent. *)
Theorem unread_count_is_zero ops s user conv n :
  docs MessageRead s = [] →
  GetUnreadCount user conv (foldl (λ s o, run_op o s) s ops) = Ok n →
  docs MessageRead (foldl (λ s o, run_op o s) s ops) = [] ∧ n = 0%Z.
Proof.
  intros H. assert (H' : docs MessageRead (foldl (λ s o, run_op o s) s ops) = []).
  { revert s H. induction ops as [|o ops IH]; intros s H; [done|]. apply IH. by apply run_op_read. }
  intros E. split; [done|]. apply result_map_ok in E as (k & E & ->). apply count_ok in E.
  rewrite H' in E. by subst.
Qed.

(** *** Messages *)

Lemma to_unix_milli_bson t : to_unix_milli (bson_time t) = to_unix_milli t.
Proof. apply to_of_unix_milli, to_unix_milli_range. Qed.

(** A number in decimal starts with a byte that [ToUpper] keeps. *)
Lemma ToUpper_itoa_head z : ∃ c r, bytes (ToUpper (itoa z)) = c :: r ∧ (code c < 58)%N.
Proof.
  destruct (itoa_head z) as (c & r & E & Hc). unfold ToUpper. rewrite bytes_str, E.
  assert (Hlt : (code c < 58)%N).
  { destruct Hc as [Hc| ->]; [|done]. unfold is_digit, in_range in Hc. range_facts. lia. }
  assert (Hup : upper1 c = c).
  { unfold upper1. destruct (97 <=? code c)%N eqn:H; [apply N.leb_le in H; lia|done]. }
  exists c. destruct r as [|d r]; simpl; rewrite Hup; [by eexists|].
  destruct (code c =? 196)%N eqn:H1; [apply N.eqb_eq in H1; lia|].
  destruct (code c =? 197)%N eqn:H2; [apply N.eqb_eq in H2; lia|]. by eexists.
Qed.

(** The prefixed name of a type is no key of [MessageType_value]. *)
Lemma stored_type_unknown z :
  list_find (λ p, p.1 = "MESSAGE_TYPE_" +:+ ToUpper (MessageType_String z)) MessageType_value = None.
Proof.
  unfold MessageType_String.
  destruct (list_find (λ p, p.1 = z) MessageType_name) as [[i [x n]]|] eqn:E.
  - apply list_find_Some in E as (E & _ & _).
    apply list_elem_of_lookup_2 in E. unfold MessageType_name in E.
    rewrite !elem_of_cons, elem_of_nil in E.
    destruct E as [[= _ ->]|[[= _ ->]|[[= _ ->]|[[= _ ->]|[[= _ ->]|[]]]]]]; vm_compute; reflexivity.
  - destruct (ToUpper_itoa_head z) as (c & r & Hb & Hc).
    apply list_find_None, Forall_forall. intros [k v] Hk Heq. simpl in Heq.
    apply (f_equal bytes) in Heq. rewrite bytes_app, Hb in Heq.
    unfold MessageType_value in Hk. rewrite !elem_of_cons, elem_of_nil in Hk.
    destruct Hk as [[= -> _]|[[= -> _]|[[= -> _]|[[= -> _]|[[= -> _]|[]]]]]];
      injection Heq as Heq _; subst c; vm_compute in Hc; discriminate.
Qed.

Lemma docToServerMessage_saved fresh now msg :
  is_i64 (ServerMessage_DeliveredAtUnixMs msg) →
  docToServerMessage (doc_of_message fresh now msg) =
    msg <| ServerMessage_MessageId := msg_id fresh msg |>
        <| ServerMessage_SentAtUnixMs := to_unix_milli (created_at now msg) |>
        <| ServerMessage_Type := MessageType_MESSAGE_TYPE_TEXT |>
        <| ServerMessage_EventType := EventType_EVENT_TYPE_MESSAGE |>
        <| ServerMessage_MediaUrl := "" |> <| ServerMessage_ReactionEmoji := "" |>
        <| ServerMessage_EditedAtUnixMs := 0%Z |> <| ServerMessage_Status := 0%Z |>
        <| ServerMessage_IsOnline := false |> <| ServerMessage_LastSeenUnixMs := 0%Z |>.
Proof.
  intros Hd. unfold docToServerMessage, doc_of_message. cbn [md_MessageType].
  rewrite stored_type_unknown. destruct msg. cbn in *.
  rewrite !to_unix_milli_bson, to_of_unix_milli by done. unfold first_nonempty.
  f_equal; case_match; bool_facts; by rewrite ?to_unix_milli_bson.
Qed.

(** [SaveMessage] inserts the message's document or nothing. *)
Lemma SaveMessage_docs fresh now msg s s' err :
  SaveMessage fresh now msg s = (s', err) →
  match err with
  | Some _ => docs Messages s' = docs Messages s
  | None => docs Messages s' = docs Messages s ++ [doc_of_message fresh now msg]
      ∧ Forall (λ e, md_ID e ≠ msg_id fresh msg) (docs Messages s)
  end.
Proof.
  intros E. unfold SaveMessage in E. calls. destruct o as [e|]; calls; simplify_eq.
  - by apply insert_one_err in E0 as [? _].
  - split.
    + frames. by apply insert_one_ok in E0 as [? _].
    + apply insert_one_ok in E0 as [_ H]. eapply Forall_impl; [exact H|].
      intros e He. simpl in He. bool_facts. intros Hx. by apply He.
Qed.

(** What [SaveMessage] stores and the readers return. On success the collection
    has exactly one more document, whose [_id] is the message's or the fresh one, and
    the message read from it has the sender's room, user, text, media and reply; but
    its type is TEXT for every message, because the stored name has the prefix that
    the reader adds again; on failure the messages are as they were. *)
Theorem saved_message_reads_as_text fresh now msg s s' err :
  is_i64 (ServerMessage_DeliveredAtUnixMs msg) →
  SaveMessage fresh now msg s = (s', err) →
  match err with
  | Some _ => docs Messages s' = docs Messages s
  | None => ∃ d, docs Messages s' = docs Messages s ++ [d]
      ∧ Forall (λ e, md_ID e ≠ md_ID d) (docs Messages s)
      ∧ docToServerMessage d =
          msg <| ServerMessage_MessageId := msg_id fresh msg |>
              <| ServerMessage_SentAtUnixMs := to_unix_milli (created_at now msg) |>
              <| ServerMessage_Type := MessageType_MESSAGE_TYPE_TEXT |>
              <| ServerMessage_EventType := EventType_EVENT_TYPE_MESSAGE |>
              <| ServerMessage_MediaUrl := "" |> <| ServerMessage_ReactionEmoji := "" |>
              <| ServerMessage_EditedAtUnixMs := 0%Z |> <| ServerMessage_Status := 0%Z |>
              <| ServerMessage_IsOnline := false |> <| ServerMessage_LastSeenUnixMs := 0%Z |>
  end.
Proof.
  intros Hd E%SaveMessage_docs. destruct err; [done|]. destruct E as [E Hf].
  exists (doc_of_message fresh now msg). split_and!; [done..|]. by apply docToServerMessage_saved.
Qed.

(** C27: Only the owner changes a message. [EditMessage] and [SoftDeleteMessageByOwner]
    succeed exactly by changing one document that has the id and is the user's: the
    edit's text and time on one that is not deleted, or the deleted mark; in every
    other case, errors included, the messages are as they were. *)
Theorem only_the_owner_changes now id user text s :
  match EditMessage now id user text s with
  | (s', Ok t) => t = to_unix_milli now ∧ ∃ l1 d l2, docs Messages s = l1 ++ d :: l2
      ∧ has_id id d = true ∧ owned_by user d = true ∧ md_IsDeleted d = false
      ∧ docs Messages s' = l1 ++ up_apply (edit now text) d :: l2
  | (s', Err _) => docs Messages s' = docs Messages s
  end ∧
  match SoftDeleteMessageByOwner id user s with
  | (s', Ok true) => ∃ l1 d l2, docs Messages s = l1 ++ d :: l2
      ∧ has_id id d = true ∧ owned_by user d = true
      ∧ docs Messages s' = l1 ++ d <| md_IsDeleted := true |> :: l2
  | (s', Ok false) => docs Messages s' = docs Messages s
      ∧ Forall (λ d, has_id id d && owned_by user d = false) (docs Messages s)
  | (s', Err _) => docs Messages s' = docs Messages s
  end.
Proof.
  split.
  - unfold EditMessage. destruct (update_one _ _ _ s) as [s1 [n|e]] eqn:E; apply update_plain in E; [|done].
    destruct E as [(-> & ? & _)|(-> & l1 & d & l2 & ? & H & ?)]; [done|].
    rewrite bool_decide_false by done. bool_facts. split; [done|]. by exists l1, d, l2.
  - unfold SoftDeleteMessageByOwner.
    destruct (update_one _ _ _ s) as [s1 [n|e]] eqn:E; apply update_plain in E; simpl; [|done].
    destruct E as [(-> & ? & ?)|(-> & l1 & d & l2 & ? & H & ?)]; [done|].
    bool_facts. by exists l1, d, l2.
Qed.

(** A page of a query: matching messages, newest first, at most [limit], and all of
    them unless the page is full. *)
Definition page_of (p : messageDoc → bool) (limit : nat) (s : St) (l : list ServerMessage) : Prop :=
  ∃ ds rest, l = docToServerMessage <$> ds ∧ length ds ≤ limit
    ∧ ds ++ rest ≡ₚ filter (λ d, p d = true) (docs Messages s)
    ∧ (rest = [] ∨ length ds = limit)
    ∧ Forall (λ d, Forall (λ e, (md_CreatedAt e ≤ md_CreatedAt d)%Z) rest) ds
    ∧ StronglySorted (λ d e, (md_CreatedAt e ≤ md_CreatedAt d)%Z) ds.

Lemma Sorted_key_ge (key : messageDoc → list GoTime) l :
  (∀ d, ∃ r, key d = md_CreatedAt d :: r) →
  Sorted (λ d e, times_ge (key d) (key e) = true) l →
  StronglySorted (λ d e, (md_CreatedAt e ≤ md_CreatedAt d)%Z) l.
Proof.
  intros Hk Hs. apply Sorted_StronglySorted; [intros x y z ? ?; lia|].
  induction Hs as [|d l Hs IH Hd]; constructor; [done|].
  destruct Hd as [|e l H]; constructor.
  destruct (Hk d) as [r Hr], (Hk e) as [r' Hr']. rewrite Hr, Hr' in H. simpl in H.
  apply orb_true_iff in H as [H|H]; bool_facts; lia.
Qed.

Lemma find_page key p limit s l :
  (∀ d, ∃ r, key d = md_CreatedAt d :: r) →
  find Messages p key (Some limit) s = Ok l →
  page_of p limit s (docToServerMessage <$> l).
Proof.
  intros Hk E. apply find_ok in E as (all & Hp & Hs & ->).
  apply (Sorted_key_ge key) in Hs; [|done].
  exists (take limit all), (drop limit all). rewrite take_drop. split_and!; [done| |done| | |].
  - rewrite length_take. lia.
  - destruct (decide (length all ≤ limit)); [left; by apply drop_ge|right; rewrite length_take; lia].
  - apply Forall_forall; intros d Hd; apply Forall_forall; intros e He.
    rewrite <- (take_drop limit all) in Hs. by apply (StronglySorted_app_1_elem_of _ _ _ d e Hs).
  - rewrite <- (take_drop limit all) in Hs. by apply StronglySorted_app_1_l in Hs.
Qed.

Lemma page_complete p limit s l d :
  page_of p limit s l → d ∈ docs Messages s → p d = true → length l < limit → docToServerMessage d ∈ l.
Proof.
  intros (ds & rest & -> & _ & Hp & Hr & _) Hd Hpd Hl. rewrite length_fmap in Hl.
  destruct Hr as [->|Hr]; [|lia]. rewrite app_nil_r in Hp. apply list_elem_of_fmap_2.
  rewrite Hp. by apply list_elem_of_filter.
Qed.

(** Whether a history page of [room] up to [before] (0 for no bound) may hold a message. *)
Definition in_history (room : string) (before : Z) (d : messageDoc) : bool :=
  in_room (roomIDAliases room) d && ((before =? 0)%Z || sent_before (of_unix_milli before) d).

Lemma query_page p limit s l : queryMessages p limit s = Ok l → page_of p limit s l.
Proof.
  unfold queryMessages. destruct (find _ _ _ _ s) as [k|e] eqn:E; [|done]. intros [= <-].
  eapply find_page; [|exact E]. intros d. by eexists.
Qed.

Lemma page_ext p q limit s l : (∀ d, p d = q d) → page_of p limit s l → page_of q limit s l.
Proof.
  intros H (ds & rest & ? & ? & Hp & Hr). exists ds, rest. do 2 (split; [done|]). split; [|done].
  rewrite Hp. apply reflexive_eq, list_filter_iff. intros d. by rewrite H.
Qed.

Lemma history_is_page room before limit s l :
  GetMessagesBefore room before limit s = Ok l →
  page_of (in_history room before) (default_limit limit) s l.
Proof.
  unfold GetMessagesBefore, GetMessages, default_limit. intros E.
  destruct (before =? 0)%Z eqn:Hb; destruct (limit <=? 0)%Z eqn:Hl; rewrite ?Hl in E; simpl in E;
    apply query_page in E; (eapply page_ext; [|exact E]); intros d; unfold in_history; rewrite Hb; simpl;
    by rewrite ?andb_true_r.
Qed.

(** [GetMessagesBefore] is paging by time over every spelling of the room: at most
    [limit] messages (50 for none), newest first, all of them in the room and before the
    bound, and everything left out is older than everything on the page. *)
Theorem history_page room before limit s l :
  GetMessagesBefore room before limit s = Ok l →
  page_of (in_history room before) (default_limit limit) s l
  ∧ length l ≤ default_limit limit
  ∧ (length l < default_limit limit →
     ∀ d, d ∈ docs Messages s → in_history room before d = true → docToServerMessage d ∈ l).
Proof.
  intros E. apply history_is_page in E. split_and!; [done| |].
  - destruct E as (ds & rest & -> & ? & _). by rewrite length_fmap.
  - intros Hl d Hd Hin. by eapply page_complete.
Qed.

(** A soft-deleted message is still served with its text: [SoftDeleteMessageByOwner]
    only sets the mark, [GetMessages] does not filter on it and [docToServerMessage] copies
    the text, so any page that is not full has the whole message; only [SearchMessages]
    leaves it out. *)
Theorem deleted_text_is_served id user s s' :
  SoftDeleteMessageByOwner id user s = (s', Ok true) →
  ∃ d, d ∈ docs Messages s ∧ has_id id d = true ∧ owned_by user d = true
    ∧ (∀ room limit l, in_room (roomIDAliases room) d = true →
         GetMessagesBefore room 0 limit s' = Ok l → length l < default_limit limit →
         docToServerMessage d <| ServerMessage_IsDeleted := true |> ∈ l).
Proof.
  unfold SoftDeleteMessageByOwner.
  destruct (update_one _ _ _ s) as [s1 [n|e]] eqn:E; apply update_plain in E; cbn [result_map]; [|done].
  intros [= <- Hn]. apply bool_decide_eq_true in Hn.
  destruct E as [(-> & _)|(-> & l1 & d & l2 & Hs & H & Hs')]; [lia|]. bool_facts.
  exists d. split; [rewrite Hs, elem_of_app, elem_of_cons; tauto|]. split_and!; [done..|].
  intros room limit l Hr Hl Hlen. apply history_is_page in Hl.
  change (docToServerMessage d <| ServerMessage_IsDeleted := true |>)
    with (docToServerMessage (d <| md_IsDeleted := true |>)).
  eapply page_complete; [exact Hl| | |done].
  - rewrite Hs', elem_of_app, elem_of_cons. tauto.
  - unfold in_history. rewrite Z.eqb_refl, orb_true_l, andb_true_r. exact Hr.
Qed.

(** *** Groups *)

(** Where a key determines the document, an update changes every match. *)
Lemma update_keyed {A K} (c : coll A) p paths f (key : A → K) k s s' n :
  update_one c p (mkUpdate paths f None) s = (s', Ok n) →
  (∀ d, p d = true → key d = k) → NoDup (key <$> docs c s) →
  docs c s' = (λ d, if p d then f d else d) <$> docs c s.
Proof.
  intros E Hk Hnd. apply update_plain in E.
  assert (Hid : ∀ l, Forall (λ d, p d = false) l → (λ d, if p d then f d else d) <$> l = l).
  { intros l Hl. induction Hl as [|d l Hd Hl IH]; [done|]. by rewrite fmap_cons, Hd, IH. }
  destruct E as [(_ & -> & H)|(_ & l1 & d & l2 & Hs & Hd & ->)]; [by rewrite Hid|].
  rewrite Hs in Hnd |- *. rewrite !fmap_app, !fmap_cons in Hnd. apply NoDup_app in Hnd as (_ & H1 & H2).
  apply NoDup_cons in H2 as [H2 _]. rewrite fmap_app, fmap_cons, Hd.
  rewrite (Hid l1), (Hid l2); [done|..]; apply Forall_forall; intros e He; apply not_true_is_false; intros Hp.
  - apply H2. rewrite (Hk d Hd), <- (Hk e Hp). by apply list_elem_of_fmap_2.
  - apply (H1 (key e)); [by apply list_elem_of_fmap_2|]. rewrite (Hk e Hp), <- (Hk d Hd). by left.
Qed.

Definition member_key (g : groupMemberDoc) : string * string := (gm_ConversationID g, gm_UserID g).

(** The users that [group_members] has as owners of a conversation. *)
Definition owners (convID : string) (s : St) : list string :=
  gm_UserID <$> filter (λ g, gm_ConversationID g = convID ∧ gm_Role g = "OWNER") (docs GroupMembers s).

Lemma elem_owners convID s u :
  u ∈ owners convID s ↔
  ∃ g, g ∈ docs GroupMembers s ∧ gm_ConversationID g = convID ∧ gm_UserID g = u ∧ gm_Role g = "OWNER".
Proof.
  unfold owners. rewrite list_elem_of_fmap. split.
  - intros (g & -> & Hg). apply list_elem_of_filter in Hg as [[? ?] ?]. by exists g.
  - intros (g & Hg & ? & ? & ?). exists g. split; [done|]. by apply list_elem_of_filter.
Qed.

Lemma elem_owners_fmap f convID s s' u :
  docs GroupMembers s' = f <$> docs GroupMembers s →
  u ∈ owners convID s' ↔
  ∃ g, g ∈ docs GroupMembers s ∧ gm_ConversationID (f g) = convID ∧ gm_UserID (f g) = u ∧ gm_Role (f g) = "OWNER".
Proof.
  intros E. rewrite elem_owners, E. split.
  - intros (g' & Hg & ?). apply list_elem_of_fmap in Hg as (g & -> & Hg). by exists g.
  - intros (g & Hg & ?). exists (f g). split; [by apply list_elem_of_fmap_2|done].
Qed.

(** What the two updates of [TransferOwnership] do to a member. *)
Definition transferred (convID cur new : string) (g : groupMemberDoc) : groupMemberDoc :=
  let g := if active_member convID new g then g <| gm_Role := "OWNER" |> else g in
  if String.eqb (gm_ConversationID g) convID && String.eqb (gm_UserID g) cur
  then g <| gm_Role := "ADMIN" |> else g.

Lemma transferred_keeps convID cur new g :
  gm_ConversationID (transferred convID cur new g) = gm_ConversationID g
  ∧ gm_UserID (transferred convID cur new g) = gm_UserID g.
Proof. unfold transferred. by repeat case_match. Qed.

Lemma transferred_owner convID cur new g :
  gm_ConversationID g = convID →
  gm_Role (transferred convID cur new g) = "OWNER" ↔
  gm_UserID g ≠ cur ∧ (gm_Role g = "OWNER" ∨ active_member convID new g = true).
Proof.
  intros Hc. unfold transferred. destruct (active_member convID new g) eqn:Ha; simpl;
    rewrite (proj2 (String.eqb_eq _ _) Hc), andb_true_l;
    (destruct (String.eqb (gm_UserID g) cur) eqn:Hu; bool_facts; simpl);
    (split; [intros Hr|intros [Hu' Hr]]); try done; (split; [done|tauto]) || (by destruct Hr).
Qed.

(** Who owns a group after [TransferOwnership]. The named current owner never
    does, and the new one does only if it is an active member, so a transfer to a user who
    is not one, or to the current owner itself, succeeds and leaves the group without an
    owner; and nothing looks at who owned it before: any other owner stays one, and so a
    transfer that names a wrong current owner makes a second owner. *)
Theorem transfer_owners `{!MongoReliable St} convID cur new s s' :
  NoDup (member_key <$> docs GroupMembers s) → cur ≠ "" →
  TransferOwnership convID cur new s = (s', None) →
  ∀ u, u ∈ owners convID s' ↔
    u ≠ cur ∧ (u ∈ owners convID s
               ∨ u = new ∧ Exists (λ g, active_member convID new g = true) (docs GroupMembers s)).
Proof.
  intros Hnd Hcur E u. unfold TransferOwnership in E.
  destruct (update_one _ _ _ s) as [s1 [n|e]] eqn:E1; [|done].
  rewrite (proj2 (String.eqb_neq _ _) Hcur) in E.
  destruct (update_one _ _ _ s1) as [s2 r] eqn:E2. simplify_eq.
  destruct r as [k|e]; [|pose proof (update_one_answers GroupMembers (λ g, String.eqb (gm_ConversationID g) convID
    && String.eqb (gm_UserID g) cur) (set_role "ADMIN") s1) as Ha; rewrite E2 in Ha; specialize (Ha ltac:(decide_now) ltac:(done)); done].
  assert (Hk1 : ∀ g, active_member convID new g = true → member_key g = (convID, new)).
  { unfold active_member, member_key. intros g Hg. bool_facts. congruence. }
  apply (update_keyed _ _ _ _ member_key (convID, new)) in E1; [|done..].
  apply (update_keyed _ _ _ _ member_key (convID, cur)) in E2.
  2: { intros g Hg. unfold member_key. bool_facts. congruence. }
  2: { rewrite E1, <- list_fmap_compose. erewrite list_fmap_ext; [exact Hnd|].
       intros i g _. simpl. by case_match. }
  assert (E : docs GroupMembers s' = transferred convID cur new <$> docs GroupMembers s).
  { rewrite E2, E1, <- list_fmap_compose. done. }
  rewrite (elem_owners_fmap _ _ _ _ _ E), elem_owners, Exists_exists. clear E E1 E2. split.
  - intros (g & Hg & Hc & Hu & Hr). destruct (transferred_keeps convID cur new g) as [Hc' Hu'].
    rewrite Hc' in Hc. rewrite Hu' in Hu. apply transferred_owner in Hr as [Hr1 Hr2]; [|done].
    split; [congruence|]. destruct Hr2 as [Hr2|Hr2]; [left; by exists g|right].
    split; [|by exists g]. apply Hk1 in Hr2. unfold member_key in Hr2. congruence.
  - intros [Hu [(g & Hg & Hc & Hgu & Hr)|(-> & g & Hg & Ha)]]; exists g;
      destruct (transferred_keeps convID cur new g) as [-> ->].
    + split_and!; [done..|]. apply transferred_owner; [done|]. split; [congruence|by left].
    + pose proof (Hk1 _ Ha) as Hk. injection Hk as Hk Hk'. split_and!; [done..|].
      apply transferred_owner; [done|]. split; [congruence|by right].
Qed.

Lemma update_in {A K} (c : coll A) p paths f (key : A → K) k s s' n d :
  update_one c p (mkUpdate paths f None) s = (s', Ok n) →
  (∀ d, p d = true → key d = k) → NoDup (key <$> docs c s) →
  d ∈ docs c s → p d = true → f d ∈ docs c s'.
Proof.
  intros E Hk Hnd Hd Hp. rewrite (update_keyed _ _ _ _ _ _ _ _ _ E Hk Hnd).
  apply list_elem_of_fmap. exists d. by rewrite Hp.
Qed.

(** [member_count] tells the number of participants. *)
Definition counted (d : conversationDoc) : Prop :=
  NoDup (cd_Participants d) ∧ cd_MemberCount d = Z.of_nat (length (cd_Participants d)).

Lemma length_pull u l : NoDup l → u ∈ l → length l = 1 + length (pull u l).
Proof.
  intros Hnd. unfold pull. induction Hnd as [|x l Hx Hnd IH]; intros Hu; [by apply elem_of_nil in Hu|].
  rewrite filter_cons. apply elem_of_cons in Hu as [->|Hu].
  - rewrite decide_False by tauto. simpl. f_equal. clear IH.
    induction l as [|y l IH]; [done|]. apply not_elem_of_cons in Hx as [Hxy Hx].
    rewrite filter_cons, decide_True by congruence. simpl. f_equal. apply IH; [done|by inv Hnd].
  - rewrite decide_True by (intros ->; done). simpl. f_equal. by apply IH.
Qed.

Lemma pull_absent u l : u ∉ l → pull u l = l.
Proof.
  unfold pull. induction l as [|y l IH]; intros H; [done|]. apply not_elem_of_cons in H as [? H].
  rewrite filter_cons, decide_True by congruence. f_equal. by apply IH.
Qed.

(** The conversation's update after a member's: it reaches the one document. *)
Lemma touch_conversation `{!MongoReliable St} p u n paths f s t t' r d :
  update_one Conversations (λ e, String.eqb (cd_ID e) (cd_ID d)) (mkUpdate paths f None) t = (t', r) →
  NoDup paths → update_one GroupMembers p u s = (t, Ok n) →
  NoDup (cd_ID <$> docs Conversations s) → d ∈ docs Conversations s → f d ∈ docs Conversations t'.
Proof.
  intros E Hpaths Ht Hnd Hd. pose proof (update_frame _ Conversations _ _ _ _ _ Ht ltac:(discriminate)) as Hf.
  destruct r as [k|e].
  - eapply (update_in _ _ _ _ cd_ID (cd_ID d)); [exact E|intros e He; by apply String.eqb_eq|by rewrite Hf|by rewrite Hf|by apply String.eqb_eq].
  - pose proof (update_one_answers Conversations (λ e, String.eqb (cd_ID e) (cd_ID d)) (mkUpdate paths f None) t Hpaths
      ltac:(done)) as Ha. by rewrite E in Ha.
Qed.

(** The member count of a group is right only as long as nobody is added twice or
    removed twice: on a conversation with a correct count, [AddGroupMember] and
    [RemoveGroupMember] (and [LeaveGroup], which is the latter) update the participants as
    sets but the count always, so the count stays correct exactly when the user was not
    yet, respectively was, a participant. *)
Theorem member_count_drifts `{!MongoReliable St} now conv user operator role s s1 s2 d :
  NoDup (cd_ID <$> docs Conversations s) → d ∈ docs Conversations s → cd_ID d = conv → counted d →
  AddGroupMember now conv user operator role s = (s1, None) →
  RemoveGroupMember conv user operator s = (s2, None) →
  (∃ d1, d1 ∈ docs Conversations s1 ∧ cd_ID d1 = conv
     ∧ cd_Participants d1 = add_to_set user (cd_Participants d)
     ∧ (counted d1 ↔ user ∉ cd_Participants d)) ∧
  (∃ d2, d2 ∈ docs Conversations s2 ∧ cd_ID d2 = conv
     ∧ cd_Participants d2 = pull user (cd_Participants d)
     ∧ (counted d2 ↔ user ∈ cd_Participants d)).
Proof.
  intros Hnd Hd Hid [Hp Hc] E1 E2. unfold AddGroupMember in E1. unfold RemoveGroupMember in E2. split.
  - destruct (update_one GroupMembers _ _ s) as [t [n|e]] eqn:Et; [|done].
    destruct (update_one _ _ _ t) as [t' r] eqn:Et'. simplify_eq.
    eapply touch_conversation in Et'; [|decide_now|done..].
    eexists. split; [exact Et'|]. split_and!; [done..|]. unfold counted. simpl. unfold add_to_set.
    rewrite Hc. case_bool_decide as Hu.
    + split; [intros [_ H]; exfalso; lia|by intros Hn].
    + split; [done|]. intros _. rewrite length_app. simpl. split; [|lia].
      apply NoDup_app. split_and!; [done| |apply NoDup_singleton].
      intros x Hx. rewrite list_elem_of_singleton. congruence.
  - clear E1. destruct (update_one GroupMembers _ _ s) as [t [n|e]] eqn:Et; [|done].
    destruct (update_one _ _ _ t) as [t' r] eqn:Et'. simplify_eq.
    eapply touch_conversation in Et'; [|decide_now|done..].
    eexists. split; [exact Et'|]. split; [done|]. split; [done|]. unfold counted. simpl. rewrite Hc.
    destruct (decide (user ∈ cd_Participants d)) as [Hu|Hu].
    + split; [done|]. intros _. split; [by apply NoDup_filter|]. rewrite (length_pull user) by done. lia.
    + rewrite pull_absent by done. split; [intros [_ H]; exfalso; lia|by intros Hn].
Qed.

(** A member that [AddGroupMember] adds is not listed. The upsert leaves the [_id] to
    the server, which makes an ObjectID; the driver of the module (v2) does not decode an
    ObjectID into the string field of [groupMemberDoc], so [GetConversation] skips the
    document: the user is an active member of the group and no list shows it. *)
Theorem added_member_is_not_listed now conv user operator role s s' :
  (∀ n, oid_string n = None) →
  Forall (λ g, member_key g ≠ (conv, user)) (docs GroupMembers s) →
  AddGroupMember now conv user operator role s = (s', None) →
  Exists (λ g, active_member conv user g = true) (docs GroupMembers s') ∧
  ∀ detail members, GetConversation conv s' = Ok (detail, members) →
    Forall (λ m, GroupMember_UserId m ≠ user) members.
Proof.
  intros Hoid Hnew E. unfold AddGroupMember in E.
  destruct (update_one GroupMembers _ _ s) as [t [n|e]] eqn:Et; [|done].
  destruct (update_one Conversations _ _ t) as [t' r] eqn:Et'. simplify_eq.
  assert (Hd : ∃ oid r', docs GroupMembers s' = docs GroupMembers s
    ++ [mkGroupMemberDoc (IdOid oid) conv user r' (bson_time now) "ACTIVE"]).
  { rewrite (update_frame _ GroupMembers _ _ _ _ _ Et') by discriminate.
    apply update_one_ok in Et as (_ & [(l1 & d & l2 & Hs & Hp & _)|(_ & _ & oid & Hs)]).
    - exfalso. rewrite Hs, Forall_app, Forall_cons in Hnew. destruct Hnew as (_ & H & _). apply H.
      unfold member_key. bool_facts. congruence.
    - by eexists _, _. }
  clear Et Et'. destruct Hd as (oid & role' & Hd). split.
  { rewrite Hd. apply Exists_app. right. constructor. unfold active_member. simpl. by rewrite !String.eqb_refl. }
  intros detail members E. unfold GetConversation in E.
  destruct (find_one _ _ _) as [[c|]|]; [|done..]. simplify_eq.
  destruct (String.eqb (cd_Type c) "GROUP"); [|done].
  destruct (find _ _ _ _ _) as [l|] eqn:El; [|done]. apply find_ok in El as (all & Hp & _ & ->).
  apply Forall_forall. intros m Hm Hu. apply list_elem_of_omap in Hm as (g & Hg & Hm).
  rewrite Hp in Hg. apply list_elem_of_filter in Hg as [Hc Hg]. bool_facts.
  unfold member_of_doc in Hm. destruct (gm_ID g) as [i|i] eqn:Hi; [|by rewrite Hoid in Hm].
  simplify_eq/=. rewrite Hd in Hg. apply elem_of_app in Hg as [Hg|Hg].
  - rewrite Forall_forall in Hnew. apply (Hnew g Hg). unfold member_key. congruence.
  - apply list_elem_of_singleton in Hg. rewrite Hg in Hi. discriminate Hi.
Qed.

(** *** Direct conversations *)

Lemma find_one_total `{!MongoReliable St} {A} (c : coll A) p s :
  ∃ r, find_one c p s = Ok r
    ∧ match r with Some d => d ∈ docs c s ∧ p d = true | None => Forall (λ d, p d = false) (docs c s) end.
Proof.
  pose proof (find_one_answers c p s) as H. apply is_ok_true in H as [r H].
  exists r. split; [done|]. by apply find_one_ok in H.
Qed.

Lemma insert_one_total `{!MongoReliable St} {A} (c : coll A) d s :
  (∃ s', insert_one c d s = (s', None) ∧ docs c s' = docs c s ++ [d]
     ∧ Forall (λ x, conflicts c d x = false) (docs c s))
  ∨ (∃ s' e, insert_one c d s = (s', Some (DuplicateKey e)) ∧ docs c s' = docs c s
       ∧ Exists (λ x, conflicts c d x = true) (docs c s)).
Proof.
  destruct (insert_one c d s) as [s' [e|]] eqn:E; [|left; exists s'; by apply insert_one_ok in E as [? ?]].
  right. exists s'. pose proof (insert_one_err _ _ _ _ _ E) as [Hs _].
  assert (Hx : Exists (λ x, conflicts c d x = true) (docs c s)).
  { destruct (decide (Exists (λ x, conflicts c d x = true) (docs c s))) as [|Hn]; [done|].
    apply not_Exists_Forall in Hn; [|intros x; apply _].
    assert (Ha : Forall (λ x, conflicts c d x = false) (docs c s))
      by (eapply Forall_impl; [exact Hn|]; intros x Hx; by apply not_true_is_false).
    apply insert_one_answers in Ha. by rewrite E in Ha. }
  destruct (insert_one_dup c d s Hx) as [e' He]. rewrite E in He. simplify_eq/=. by exists e'.
Qed.

Definition is_direct (a b : string) (d : conversationDoc) : bool :=
  String.eqb (cd_Type d) "DIRECT" && bool_decide (cd_Participants d = sort_strings [a; b]).

(** The upsert of the canonical twin. *)
Abbreviation twin doc :=
  (mkUpdate ["_id"; "type"; "participants"; "created_by"; "created_at"] id (Some (λ _ : N, doc))).

Lemma canonical_twin_fits convID doc s f (oid : N) :
  cd_ID doc = convID → up_insert (twin doc) = Some f →
  Forall (λ d, String.eqb (cd_ID d) convID = false) (docs Conversations s) →
  Forall (λ d, conflicts Conversations (f oid) d = false) (docs Conversations s).
Proof.
  intros Hdoc [= <-] Hf. eapply Forall_impl; [exact Hf|]. intros d Hd. cbn [conflicts].
  by rewrite Hdoc, String.eqb_sym.
Qed.

Lemma direct_upsert `{!MongoReliable St} convID doc s s' r :
  update_one Conversations (λ d, String.eqb (cd_ID d) convID) (twin doc) s = (s', r) →
  cd_ID doc = convID →
  Exists (λ d, cd_ID d = convID) (docs Conversations s')
  ∧ (Exists (λ d, cd_ID d = convID) (docs Conversations s) → docs Conversations s' = docs Conversations s).
Proof.
  intros E Hdoc. destruct r as [n|e].
  - apply update_one_ok in E as (_ & [(l1 & d & l2 & Hs & Hd & Hs' & _)|(Hf & _ & oid & Hs)]).
    + rewrite Hs', Hs. split; [|done]. apply Exists_app. right. constructor. by apply String.eqb_eq.
    + rewrite Hs. split; [by apply Exists_app; right; constructor|]. intros Hx. exfalso.
      apply Exists_exists in Hx as (d & Hd & Hid). rewrite Forall_forall in Hf. specialize (Hf d Hd).
      by apply String.eqb_neq in Hf.
  - pose proof (update_one_answers Conversations _ (twin doc) s ltac:(decide_now)
      (λ f oid, canonical_twin_fits convID doc s f oid Hdoc)) as Ha.
    by rewrite E in Ha.
Qed.

(** What the method leaves: a conversation under the pair's id, that the same call by
    either user finds again without a change. *)
Lemma direct_conversation_spec `{!MongoReliable St} now a b c s :
  a ≠ "" → b ≠ "" →
  ∃ s' detail, CreateOrGetDirectConversation now a b c s = (s', Ok detail)
    ∧ ConversationDetail_ConversationId detail = dm_id a b
    ∧ Exists (λ d, cd_ID d = dm_id a b) (docs Conversations s')
    ∧ (Exists (λ d, cd_ID d = dm_id a b) (docs Conversations s) → docs Conversations s' = docs Conversations s).
Proof.
  intros Ha Hb. unfold CreateOrGetDirectConversation.
  rewrite (proj2 (String.eqb_neq _ _) Ha), (proj2 (String.eqb_neq _ _) Hb). cbn [orb].
  cbv zeta. change ("dm:" +:+ nth 0 (sort_strings [a; b]) "" +:+ ":" +:+ nth 1 (sort_strings [a; b]) "") with (dm_id a b).
  set (doc := mkConversationDoc (dm_id a b) _ _ _ _ _ _ _ _ _ _ _).
  change (find_one Conversations (λ d, String.eqb (cd_Type d) "DIRECT" && _) s)
    with (find_one Conversations (is_direct a b) s).
  destruct (find_one_total Conversations (is_direct a b) s) as ([d|] & -> & Hr).
  - destruct Hr as [Hd _]. destruct (String.eqb (cd_ID d) (dm_id a b)) eqn:Hid.
    + eexists _, _. split; [done|]. split; [done|]. split; [|done].
      apply Exists_exists. exists d. split; [done|by apply String.eqb_eq].
    + destruct (update_one _ _ _ s) as [s' r] eqn:E. eexists _, _. split; [done|]. split; [done|].
      by eapply direct_upsert.
  - destruct (insert_one_total Conversations doc s) as [(s' & -> & Hs & Hn)|(s' & e & -> & Hs & Hx)].
    + eexists _, _. split; [done|]. split; [done|]. rewrite Hs. split; [by apply Exists_app; right; constructor|].
      intros Hx. exfalso. apply Exists_exists in Hx as (d & Hd & Hid). rewrite Forall_forall in Hn.
      specialize (Hn d Hd). apply String.eqb_neq in Hn. by apply Hn.
    + destruct (find_one_total Conversations (λ d, String.eqb (cd_ID d) (dm_id a b)) s') as ([d|] & -> & Hr').
      * eexists _, _. split; [done|]. destruct Hr' as [Hd Hid]. apply String.eqb_eq in Hid.
        split; [done|]. split; [|done]. apply Exists_exists. by exists d.
      * exfalso. rewrite Hs in Hr'. apply Exists_exists in Hx as (d & Hd & Hid). rewrite Forall_forall in Hr'.
        specialize (Hr' d Hd). apply String.eqb_neq in Hr'. apply String.eqb_eq in Hid. by apply Hr'.
Qed.

(** A pair of users has one direct conversation, under the canonical id, whoever
    asks: on a server that answers, [CreateOrGetDirectConversation] returns [dm_id a b] (an
    older id of the pair's conversation is hidden and gets a canonical twin), and asking
    again, in either order and at any time, returns it again and changes no document. *)
Theorem direct_conversation_once `{!MongoReliable St} now a b c s :
  a ≠ "" → b ≠ "" →
  ∃ s1 d1, CreateOrGetDirectConversation now a b c s = (s1, Ok d1)
    ∧ ConversationDetail_ConversationId d1 = dm_id a b
    ∧ ∀ now' c', ∃ s2 d2, CreateOrGetDirectConversation now' b a c' s1 = (s2, Ok d2)
        ∧ ConversationDetail_ConversationId d2 = dm_id a b
        ∧ docs Conversations s2 = docs Conversations s1.
Proof.
  intros Ha Hb. destruct (direct_conversation_spec now a b c s Ha Hb) as (s1 & d1 & E1 & Hid & Hx & _).
  exists s1, d1. split; [done|]. split; [done|]. intros now' c'.
  destruct (direct_conversation_spec now' b a c' s1 Hb Ha) as (s2 & d2 & E2 & Hid2 & _ & Hsame).
  rewrite dm_id_comm in Hid2, Hsame. exists s2, d2. split; [done|]. split; [done|]. by apply Hsame.
Qed.

End repository.
End MessageRepository.

(** ** A server in memory *)

Module MemMongo.

Record t : Type := mk {
  convs : list conversationDoc;
  groups : list groupMemberDoc;
  msgs : list messageDoc;
  reads : list messageReadDoc;
  recs : list readReceiptDoc;
  medias : list mediaUploadDoc;
  next_oid : N
}.

Definition get {D} (c : coll D) (s : t) : list D :=
  match c in coll D return list D with
  | Conversations => convs s | GroupMembers => groups s | Messages => msgs s
  | MessageRead => reads s | Receipts => recs s | Media => medias s
  end.

Definition set {D} (c : coll D) (l : list D) (s : t) : t :=
  match c in coll D return list D → t with
  | Conversations => λ l, mk l (groups s) (msgs s) (reads s) (recs s) (medias s) (next_oid s)
  | GroupMembers => λ l, mk (convs s) l (msgs s) (reads s) (recs s) (medias s) (next_oid s)
  | Messages => λ l, mk (convs s) (groups s) l (reads s) (recs s) (medias s) (next_oid s)
  | MessageRead => λ l, mk (convs s) (groups s) (msgs s) l (recs s) (medias s) (next_oid s)
  | Receipts => λ l, mk (convs s) (groups s) (msgs s) (reads s) l (medias s) (next_oid s)
  | Media => λ l, mk (convs s) (groups s) (msgs s) (reads s) (recs s) l (next_oid s)
  end l.

Definition tick (s : t) : t :=
  mk (convs s) (groups s) (msgs s) (reads s) (recs s) (medias s) (N.succ (next_oid s)).

Lemma get_set {D} (c : coll D) l s : get c (set c l s) = l.
Proof. by destruct c. Qed.
Lemma get_set_ne {A B} (c : coll A) (c' : coll B) l s : coll_name c ≠ coll_name c' → get c' (set c l s) = get c' s.
Proof. by destruct c, c'. Qed.
Lemma get_tick {D} (c : coll D) s : get c (tick s) = get c s.
Proof. by destruct c. Qed.

Definition clashes {D} (c : coll D) (d : D) (s : t) : bool := existsb (conflicts c d) (get c s).

(** Descending by a key. *)
Definition later {D} (key : D → list GoTime) (d e : D) : Prop := times_ge (key d) (key e) = true.
#[global] Instance later_dec {D} (key : D → list GoTime) : RelDecision (later key).
Proof. intros d e. unfold later. apply _. Defined.
Lemma times_ge_total a b : times_ge a b = true ∨ times_ge b a = true.
Proof.
  revert b. induction a as [|x a IH]; intros [|y b]; simpl; auto.
  destruct (IH b) as [H|H]; rewrite H; destruct (Z.lt_trichotomy x y) as [?|[->|?]];
    rewrite ?Z.eqb_refl, ?andb_true_r, ?orb_true_r; auto;
    rewrite ?(proj2 (Z.ltb_lt x y)), ?(proj2 (Z.ltb_lt y x)) by done; auto.
Qed.
#[global] Instance later_total {D} (key : D → list GoTime) : Total (later key).
Proof. intros d e. apply times_ge_total. Qed.

Definition update {D} (c : coll D) (p : D → bool) (u : update D) (s : t) : t * result string nat :=
  if decide (NoDup (up_paths u)) then
    match split_at_first p (get c s) with
    | Some (l1, d, l2) => (set c (l1 ++ up_apply u d :: l2) s, Ok 1)
    | None =>
        match up_insert u with
        | None => (s, Ok 0)
        | Some f => let d := f (next_oid s) in
                    if clashes c d s then (s, Err "E11000") else (tick (set c (get c s ++ [d]) s), Ok 0)
        end
    end
  else (s, Err "ConflictingUpdateOperators").

Definition row_of (l : list messageDoc) (room : string) : option agg_row :=
  d ← head (filter (λ d, md_ConversationID d = room) l);
  Some (mkAggRow room (md_Content d) (md_CreatedAt d)).

Definition aggregate (p : messageDoc → bool) (s : t) : list agg_row :=
  let l := merge_sort (later (λ d, [md_CreatedAt d; md_SentAt d])) (filter (λ d, p d = true) (msgs s)) in
  take 100 (merge_sort (later (λ r, [ag_LastSentAt r])) (omap (row_of l) (remove_dups (md_ConversationID <$> l)))).

#[global] Instance mem_mongo : MongoDB t := {|
  docs _ c s := get c s;
  find_one _ c p s := Ok (head (filter (λ d, p d = true) (get c s)));
  find _ c p key limit s :=
    let all := merge_sort (later key) (filter (λ d, p d = true) (get c s)) in
    Ok (match limit with Some n => take n all | None => all end);
  insert_one _ c d s := if clashes c d s then (s, Some (DuplicateKey "E11000")) else (set c (get c s ++ [d]) s, None);
  insert_many _ c l s := (set c (get c s ++ l) s, None);
  update_one _ c p u s := update c p u s;
  update_many _ c p u s := (set c ((λ d, if p d then up_apply u d else d) <$> get c s) s, Ok (length (get c s)));
  delete_one _ c p s :=
    match split_at_first p (get c s) with Some (l1, _, l2) => (set c (l1 ++ l2) s, None) | None => (s, None) end;
  delete_many _ c p s := (set c (filter (λ d, p d = false) (get c s)) s, None);
  count_docs _ c p s := Ok (Z.of_nat (length (filter (λ d, p d = true) (get c s))));
  aggregate_rooms p s := Ok (aggregate p s);
  regex_match pat _ := Ok (λ v, match String.index 0 pat v with Some _ => true | None => false end);
  oid_string _ := None
|}.

Lemma clashes_false {D} (c : coll D) d s : clashes c d s = false ↔ Forall (λ e, conflicts c d e = false) (get c s).
Proof.
  unfold clashes. rewrite Forall_forall, <- not_true_iff_false, existsb_exists. split.
  - intros H e He. apply not_true_iff_false. intros Hc. apply H. exists e. by rewrite <- list_elem_of_In.
  - intros H (e & He & Hc). apply list_elem_of_In in He. rewrite H in Hc; done.
Qed.

Lemma aggregate_spec p s :
  Forall (λ r, ∃ d, d ∈ msgs s ∧ p d = true ∧ md_ConversationID d = ag_RoomID r
      ∧ md_Content d = ag_LastText r ∧ md_CreatedAt d = ag_LastSentAt r) (aggregate p s)
  ∧ NoDup (ag_RoomID <$> aggregate p s) ∧ length (aggregate p s) ≤ 100.
Proof.
  unfold aggregate. set (l := merge_sort (later (λ d, _)) (filter _ _)).
  assert (Hl : l ≡ₚ filter (λ d, p d = true) (msgs s)) by apply merge_sort_Permutation.
  set (rows := omap _ _). set (R := later _). pose proof (merge_sort_Permutation R rows) as Hp.
  split_and!; [| |rewrite length_take; lia].
  - apply Forall_take. rewrite Hp. apply Forall_forall. intros r Hr. apply list_elem_of_omap in Hr as (room & _ & Hr).
    unfold row_of in Hr. destruct (head _) as [d|] eqn:Hd; simplify_eq/=.
    apply head_Some_elem_of, list_elem_of_filter in Hd as [<- Hd]. rewrite Hl in Hd.
    apply list_elem_of_filter in Hd as [? ?]. by exists d.
  - rewrite fmap_take. eapply sublist_NoDup; [|apply sublist_take].
    rewrite Hp. unfold rows. pose proof (NoDup_remove_dups (md_ConversationID <$> l)) as Hnd. revert Hnd.
    generalize (remove_dups (md_ConversationID <$> l)) as ids. induction ids as [|i ids IH]; intros Hnd; [constructor|].
    apply NoDup_cons in Hnd as [Hi Hnd]. cbn [omap list_omap].
    destruct (row_of l i) as [r|] eqn:Er; [|by apply IH]. rewrite fmap_cons. constructor; [|by apply IH].
    intros Hin. apply list_elem_of_fmap in Hin as (r' & Hr & Hin). apply list_elem_of_omap in Hin as (j & Hj & Hr').
    unfold row_of in Er, Hr'. destruct (head _), (head _); simplify_eq/=; done.
Qed.

Lemma update_ok {D} (c : coll D) p u s s' n :
  update c p u s = (s', Ok n) →
  NoDup (up_paths u) ∧
  ((∃ l1 d l2, get c s = l1 ++ d :: l2 ∧ p d = true ∧ get c s' = l1 ++ up_apply u d :: l2 ∧ n = 1)
   ∨ (Forall (λ d, p d = false) (get c s) ∧ n = 0
      ∧ match up_insert u with
        | None => get c s' = get c s
        | Some f => ∃ oid, get c s' = get c s ++ [f oid]
        end)).
Proof.
  unfold update. case_decide as Hnd; [|done]. intros E. split; [done|].
  destruct (split_at_first p (get c s)) as [[[l1 d] l2]|] eqn:Es.
  - apply split_at_first_Some in Es as (Hs & Hp & _). simplify_eq. left. exists l1, d, l2. by rewrite get_set.
  - apply split_at_first_None in Es. right. split; [done|].
    destruct (up_insert u) as [f|]; [destruct (clashes _ _ _); [done|]|]; simplify_eq; [|done].
    split; [done|]. exists (next_oid s). by rewrite get_tick, get_set.
Qed.

Lemma update_same {D} (c : coll D) p u s s' e : update c p u s = (s', Err e) → get c s' = get c s.
Proof. unfold update. intros E. by repeat (case_match; simplify_eq). Qed.

Lemma update_elsewhere {D E} (c : coll D) (c' : coll E) p u s :
  coll_name c ≠ coll_name c' → get c' (update c p u s).1 = get c' s.
Proof. intros H. unfold update. repeat case_match; simpl; by rewrite ?get_tick, ?get_set_ne. Qed.

Lemma update_answers {D} (c : coll D) p u s :
  NoDup (up_paths u) →
  (∀ f oid, up_insert u = Some f → Forall (λ d, p d = false) (get c s) →
     Forall (λ d, conflicts c (f oid) d = false) (get c s)) →
  is_ok (update c p u s).2 = true.
Proof.
  intros Hnd Hf. unfold update. rewrite decide_True by done.
  destruct (split_at_first _ _) as [[[? ?] ?]|] eqn:Es; [done|]. apply split_at_first_None in Es.
  destruct (up_insert u) as [f|] eqn:Ei; [|done].
  by rewrite (proj2 (clashes_false c _ s) (Hf _ _ eq_refl Es)).
Qed.

Lemma find_spec {D} (c : coll D) p s :
  match head (filter (λ d, p d = true) (get c s)) with
  | Some d => d ∈ get c s ∧ p d = true
  | None => Forall (λ d, p d = false) (get c s)
  end.
Proof.
  destruct (head _) as [d|] eqn:E.
  - apply head_Some_elem_of, list_elem_of_filter in E. tauto.
  - apply head_None in E. apply Forall_forall. intros d Hd. apply not_true_iff_false. intros Hp.
    apply (elem_of_nil d). rewrite <- E. by apply list_elem_of_filter.
Qed.

Lemma delete_spec {D} (c : coll D) p s :
  let s' := match split_at_first p (get c s) with Some (l1, _, l2) => set c (l1 ++ l2) s | None => s end in
  (∃ l1 d l2, get c s = l1 ++ d :: l2 ∧ p d = true ∧ get c s' = l1 ++ l2)
  ∨ (Forall (λ d, p d = false) (get c s) ∧ get c s' = get c s).
Proof.
  destruct (split_at_first _ _) as [[[l1 d] l2]|] eqn:Es; simpl.
  - apply split_at_first_Some in Es as (? & ? & _). left. exists l1, d, l2. by rewrite get_set.
  - apply split_at_first_None in Es. by right.
Qed.

#[global] Instance mem_mongo_laws : MongoLaws t.
Proof.
  split; simpl.
  - intros D c p s r [= <-]. apply find_spec.
  - intros D c p key limit s l [= <-].
    exists (merge_sort (later key) (filter (λ d, p d = true) (get c s))).
    split; [apply merge_sort_Permutation|]. split; [apply (Sorted_merge_sort (later key))|done].
  - intros D c d s s' E. destruct (clashes c d s) eqn:Ec; simplify_eq. by rewrite get_set, <- clashes_false.
  - intros D c d s s' e E. destruct (clashes c d s) eqn:Ec; simplify_eq. split; [done|]. intros _ _.
    unfold clashes in Ec. apply existsb_exists in Ec as (x & Hx & Hc). apply Exists_exists. exists x.
    by rewrite list_elem_of_In.
  - intros D c l s s' [= <-]. apply get_set.
  - done.
  - intros D c p u s s' n. apply update_ok.
  - intros D c p u s s' e. apply update_same.
  - intros D c p u s s' n [= <- <-]. apply get_set.
  - done.
  - intros D c p s s' E. pose proof (delete_spec c p s) as H. simpl in H. by repeat case_match; simplify_eq.
  - intros D c p s s' e E. by repeat case_match.
  - intros D c p s s' [= <-]. apply get_set.
  - by intros D c p s n [= <-].
  - intros p s l [= <-]. apply aggregate_spec.
  - intros D D' c c' s Hc. split_and!; intros.
    + case_match; [done|]. by apply get_set_ne.
    + by apply get_set_ne.
    + by apply update_elsewhere.
    + by apply get_set_ne.
    + repeat case_match; [|done]. by apply get_set_ne.
    + by apply get_set_ne.
Qed.

#[global] Instance mem_mongo_reliable : MongoReliable t.
Proof.
  split; simpl; try done.
  - intros D c d s H. by rewrite (proj2 (clashes_false c d s) H).
  - intros D c d s H. destruct (clashes c d s) eqn:E; [by eexists|].
    apply clashes_false in E. rewrite Forall_forall in E. apply Exists_exists in H as (x & Hx & Hc).
    rewrite E in Hc; done.
  - intros D c p u s. apply update_answers.
Qed.

Definition empty : t := mk [] [] [] [] [] [] 0%N.

(** A photograph with a caption, and a group of two. *)
Definition photo : ServerMessage := ServerMessage_zero
  <| ServerMessage_RoomId := "dm:alice:bob" |> <| ServerMessage_UserId := "alice" |>
  <| ServerMessage_MessageId := "m1" |> <| ServerMessage_Text := "my cat" |>
  <| ServerMessage_SentAtUnixMs := 5000%Z |> <| ServerMessage_Type := MessageType_MESSAGE_TYPE_IMAGE |>
  <| ServerMessage_MediaKey := "k" |>.
Definition one_message : t := (MessageRepository.SaveMessage "uuid" 0 photo empty).1.
Definition deleted : t := (MessageRepository.SoftDeleteMessageByOwner "m1" "alice" one_message).1.
Definition group : t :=
  (MessageRepository.CreateGroupConversation elements 7 0 "g" "" "" "alice" ["bob"] empty).1.
Definition group_conv : conversationDoc :=
  mkConversationDoc "CONV_7" "GROUP" (elements (MessageRepository.unique_members "alice" ["bob"]))
    "g" "" "" 2 "" "" zero_time "alice" (bson_time 0).
End MemMongo.

Lemma unread_count_is_zero_witness :
  docs Messages MemMongo.one_message ≠ []
  ∧ docs MessageRead MemMongo.one_message = [] ∧ 0%Z = 0%Z.
Proof.
  split; [by vm_compute|].
  exact (MessageRepository.unread_count_is_zero [MessageRepository.OpSave "uuid" 0 MemMongo.photo]
    MemMongo.empty "bob" "dm:alice:bob" 0 eq_refl ltac:(vm_compute; reflexivity)).
Defined.

Lemma saved_message_reads_as_text_witness :
  ∃ d, docs Messages MemMongo.one_message = [d]
    ∧ ServerMessage_Type (MessageRepository.docToServerMessage d) = MessageType_MESSAGE_TYPE_TEXT.
Proof.
  destruct (MessageRepository.saved_message_reads_as_text "uuid" 0 MemMongo.photo MemMongo.empty
    MemMongo.one_message None) as (d & H1 & _ & H2).
  - decide_now.
  - vm_compute. reflexivity.
  - exists d. split; [exact H1|]. rewrite H2. reflexivity.
Defined.

Lemma only_the_owner_changes_witness :
  docs Messages (MessageRepository.EditMessage 0 "m1" "bob" "mine" MemMongo.one_message).1
    = docs Messages MemMongo.one_message.
Proof.
  destruct (MessageRepository.only_the_owner_changes 0 "m1" "bob" "mine" MemMongo.one_message) as [H _].
  revert H. vm_compute. intros H. exact H.
Defined.

Lemma history_page_witness :
  ∃ l, MessageRepository.GetMessagesBefore "dm-bob-alice" 0 10 MemMongo.one_message = Ok l ∧ length l ≤ 10.
Proof.
  destruct (MessageRepository.GetMessagesBefore "dm-bob-alice" 0 10 MemMongo.one_message) as [l|e] eqn:E;
    [|vm_compute in E; discriminate].
  exists l. split; [reflexivity|].
  destruct (MessageRepository.history_page "dm-bob-alice" 0 10 MemMongo.one_message l E) as (_ & H & _). exact H.
Defined.

Lemma deleted_text_is_served_witness :
  ∃ d, MessageRepository.SoftDeleteMessageByOwner "m1" "alice" MemMongo.one_message = (MemMongo.deleted, Ok true)
    ∧ d ∈ docs Messages MemMongo.one_message ∧ ServerMessage_Text (MessageRepository.docToServerMessage d) = "my cat"
    ∧ ∀ l, MessageRepository.GetMessagesBefore "dm:alice:bob" 0 10 MemMongo.deleted = Ok l → length l < 10 →
        MessageRepository.docToServerMessage d <| ServerMessage_IsDeleted := true |> ∈ l.
Proof.
  assert (E : MessageRepository.SoftDeleteMessageByOwner "m1" "alice" MemMongo.one_message
    = (MemMongo.deleted, Ok true)) by (vm_compute; reflexivity).
  destruct (MessageRepository.deleted_text_is_served "m1" "alice" MemMongo.one_message MemMongo.deleted E)
    as (d & Hd & _ & _ & H).
  assert (Ed : d = MessageRepository.doc_of_message "uuid" 0 MemMongo.photo)
    by (apply elem_of_cons in Hd as [Hd|Hd]; [exact Hd|by apply elem_of_nil in Hd]).
  exists d. split; [exact E|]. split; [exact Hd|]. split; [rewrite Ed; vm_compute; reflexivity|].
  intros l. apply (H "dm:alice:bob" 10%Z l). rewrite Ed. vm_compute. reflexivity.
Defined.

Lemma transfer_owners_witness :
  ∃ s', MessageRepository.TransferOwnership "CONV_7" "alice" "alice" MemMongo.group = (s', None)
    ∧ "alice" ∉ MessageRepository.owners "CONV_7" s'.
Proof.
  exists (MessageRepository.TransferOwnership "CONV_7" "alice" "alice" MemMongo.group).1.
  split; [vm_compute; reflexivity|]. intros H.
  apply (MessageRepository.transfer_owners "CONV_7" "alice" "alice" MemMongo.group) in H as [H _].
  - by apply H.
  - decide_now.
  - discriminate.
  - vm_compute. reflexivity.
Defined.

Lemma member_count_drifts_witness :
  ∃ d1, d1 ∈ docs Conversations (MessageRepository.AddGroupMember 0 "CONV_7" "bob" "" "" MemMongo.group).1
    ∧ ¬ MessageRepository.counted d1.
Proof.
  assert (Ed : docs Conversations MemMongo.group = [MemMongo.group_conv]) by (vm_compute; reflexivity).
  destruct (MessageRepository.member_count_drifts 0 "CONV_7" "bob" "" "" MemMongo.group
    (MessageRepository.AddGroupMember 0 "CONV_7" "bob" "" "" MemMongo.group).1
    (MessageRepository.RemoveGroupMember "CONV_7" "bob" "" MemMongo.group).1 MemMongo.group_conv) as [(d1 & H1 & _ & _ & H2) _].
  - rewrite Ed. apply NoDup_singleton.
  - rewrite Ed. by left.
  - reflexivity.
  - split; [decide_now|]. vm_compute. reflexivity.
  - vm_compute. reflexivity.
  - vm_compute. reflexivity.
  - exists d1. split; [exact H1|]. intros Hc. apply H2 in Hc. apply Hc. decide_now.
Defined.

Lemma added_member_is_not_listed_witness :
  ∃ s', MessageRepository.AddGroupMember 0 "CONV_7" "carol" "alice" "" MemMongo.group = (s', None)
    ∧ Exists (λ g, MessageRepository.active_member "CONV_7" "carol" g = true) (docs GroupMembers s').
Proof.
  exists (MessageRepository.AddGroupMember 0 "CONV_7" "carol" "alice" "" MemMongo.group).1.
  split; [vm_compute; reflexivity|].
  destruct (MessageRepository.added_member_is_not_listed 0 "CONV_7" "carol" "alice" "" MemMongo.group
    (MessageRepository.AddGroupMember 0 "CONV_7" "carol" "alice" "" MemMongo.group).1) as [H _].
  - reflexivity.
  - decide_now.
  - vm_compute. reflexivity.
  - exact H.
Defined.

Lemma direct_conversation_once_witness :
  ∃ s1 d1, MessageRepository.CreateOrGetDirectConversation 0 "bob" "alice" "bob" MemMongo.empty = (s1, Ok d1)
    ∧ ConversationDetail_ConversationId d1 = "dm:alice:bob".
Proof.
  destruct (MessageRepository.direct_conversation_once 0 "bob" "alice" "bob" MemMongo.empty) as (s1 & d1 & H1 & H2 & _).
  - discriminate.
  - discriminate.
  - exists s1, d1. split; [exact H1|]. rewrite H2. vm_compute. reflexivity.
Defined.
