(* ===== verification/Indexes.v ===== *)
(** * The documents in the database, and their indexes

    The struct tags and [ensureIndexes] of [app/repository/mongodb.go]: under
    which keys a document is stored, and which indexes the collections have. What
    the database refuses to store twice, which [Mongo.conflicts] says in terms of
    the documents, is what the unique ones among these indexes say. *)

From S2P Require Import Prelude GoString Strconv Pb RoomId Mongo.

(** ** BSON *)

Inductive bson : Type :=
  | BString (s : string)
  | BStrings (l : list string)
  | BInt (z : Z)
  | BBool (b : bool)
  | BDate (t : GoTime)
  | BOid (n : N).

#[global] Instance bson_eq_dec : EqDecision bson.
Proof. solve_decision. Defined.

Definition bson_id (i : doc_id) : bson := match i with IdStr s => BString s | IdOid n => BOid n end.

(** [omitempty] *)
Definition empty_value (v : bson) : bool :=
  match v with
  | BString s => String.eqb s ""
  | BStrings l => bool_decide (l = [])
  | BInt z => (z =? 0)%Z
  | BBool b => negb b
  | BDate t => IsZero t
  | BOid _ => false
  end.
Definition omitempty (k : string) (v : bson) : list (string * bson) := if empty_value v then [] else [(k, v)].

(** A document by the tags of its struct. *)
Definition marshal {D} (c : coll D) : D → list (string * bson) :=
  match c with
  | Conversations => λ d,
      [("_id", BString (cd_ID d)); ("type", BString (cd_Type d)); ("participants", BStrings (cd_Participants d))]
      ++ omitempty "group_name" (BString (cd_GroupName d)) ++ omitempty "group_photo" (BString (cd_GroupPhoto d))
      ++ omitempty "description" (BString (cd_Description d)) ++ omitempty "member_count" (BInt (cd_MemberCount d))
      ++ omitempty "last_message" (BString (cd_LastMessage d)) ++ omitempty "last_message_id" (BString (cd_LastMessageID d))
      ++ omitempty "last_message_at" (BDate (cd_LastMessageAt d))
      ++ [("created_by", BString (cd_CreatedBy d)); ("created_at", BDate (cd_CreatedAt d))]
  | GroupMembers => λ d,
      [("_id", bson_id (gm_ID d)); ("conversation_id", BString (gm_ConversationID d)); ("user_id", BString (gm_UserID d));
       ("role", BString (gm_Role d)); ("joined_at", BDate (gm_JoinedAt d)); ("status", BString (gm_Status d))]
  | Messages => λ d,
      [("_id", BString (md_ID d))] ++ omitempty "message_id" (BString (md_MessageID d))
      ++ [("conversation_id", BString (md_ConversationID d)); ("sender_id", BString (md_SenderID d));
          ("message_type", BString (md_MessageType d)); ("content", BString (md_Content d));
          ("created_at", BDate (md_CreatedAt d))]
      ++ omitempty "delivered_at" (BDate (md_DeliveredAt d)) ++ omitempty "media_key" (BString (md_MediaKey d))
      ++ omitempty "media_name" (BString (md_MediaName d)) ++ omitempty "media_mime_type" (BString (md_MediaMimeType d))
      ++ omitempty "media_size_bytes" (BInt (md_MediaSizeBytes d))
      ++ omitempty "reply_to_message_id" (BString (md_ReplyToMessageID d))
      ++ [("is_deleted", BBool (md_IsDeleted d))] ++ omitempty "edited_at" (BDate (md_EditedAt d))
      ++ omitempty "room_id" (BString (md_RoomID d)) ++ omitempty "user_id" (BString (md_UserID d))
      ++ omitempty "text_body" (BString (md_TextBody d)) ++ omitempty "sent_at" (BDate (md_SentAt d))
  | MessageRead => λ d,
      [("_id", BString (mr_ID d)); ("conversation_id", BString (mr_ConversationID d));
       ("sender_id", BString (mr_SenderID d)); ("content", BString (mr_Content d)); ("read_by", BStrings (mr_ReadBy d))]
  | Receipts => λ d,
      [("_id", bson_id (rr_ID d)); ("room_id", BString (rr_RoomID d)); ("user_id", BString (rr_UserID d));
       ("last_read_at", BDate (rr_LastReadAt d)); ("last_read_msg_id", BString (rr_LastReadMsgID d))]
  | Media => λ d,
      [("_id", BString (mu_MediaKey d)); ("uploader_id", BString (mu_UploaderID d)); ("room_id", BString (mu_RoomID d));
       ("file_name", BString (mu_FileName d)); ("mime_type", BString (mu_MimeType d));
       ("size_bytes", BInt (mu_SizeBytes d)); ("uploaded_at", BDate (mu_UploadedAt d))]
      ++ omitempty "expires_at" (BDate (mu_ExpiresAt d))
  end.

(** The value under a key, if the document has one. *)
Definition field (k : string) (doc : list (string * bson)) : option bson :=
  match list_find (λ kv, kv.1 = k) doc with Some (_, (_, v)) => Some v | None => None end.

(** ** Indexes *)

(** [mongo.IndexModel]: its keys, each with its direction, its name, and [SetUnique]. *)
Record IndexModel : Type := mkIndex { ix_keys : list (string * Z); ix_name : string; ix_unique : bool }.

(** The calls of [ensureIndexes], by collection. *)
Definition index_calls : list (string * list IndexModel) :=
  [(coll_name Conversations,
     [mkIndex [("participants", 1%Z)] "conv_participants" false; mkIndex [("type", 1%Z)] "conv_type" false]);
   (coll_name GroupMembers,
     [mkIndex [("conversation_id", 1%Z); ("user_id", 1%Z)] "gm_conv_user" true; mkIndex [("user_id", 1%Z)] "gm_user" false]);
   (coll_name Messages,
     [mkIndex [("conversation_id", 1%Z); ("created_at", (-1)%Z)] "conv_time" false;
      mkIndex [("room_id", 1%Z); ("sent_at", (-1)%Z)] "room_time" false]);
   (coll_name MessageRead, [mkIndex [("conversation_id", 1%Z)] "mr_conv" false])].

(** [ensureIndexes], over the driver's [CreateMany]; the errors are dropped. *)
Definition ensureIndexes {G} (CreateMany : string → list IndexModel → G → G * option string) (s : G) : G :=
  foldl (λ s call, (CreateMany call.1 call.2 s).1) s index_calls.

(** The index that every collection has of its own. *)
Definition id_index : IndexModel := mkIndex [("_id", 1%Z)] "_id_" true.

Definition indexes_of {D} (c : coll D) : list IndexModel :=
  id_index :: concat (snd <$> filter (λ call, call.1 = coll_name c) index_calls).

(** Two documents with the same values under every key of an index. *)
Definition same_under {D} (c : coll D) (ix : IndexModel) (d e : D) : Prop :=
  Forall (λ k, field k.1 (marshal c d) = field k.1 (marshal c e)) (ix_keys ix).

Definition unique_indexes {D} (c : coll D) : list IndexModel := filter (λ ix, ix_unique ix = true) (indexes_of c).

Lemma unique_indexes_eq {D} (c : coll D) :
  unique_indexes c = match c with
    | GroupMembers => [id_index; mkIndex [("conversation_id", 1%Z); ("user_id", 1%Z)] "gm_conv_user" true]
    | _ => [id_index]
    end.
Proof. by destruct c. Qed.


(** The keys under which a document is stored are distinct, so that [field] is the value. *)
Lemma omitempty_keys k v : (omitempty k v).*1 `sublist_of` [k].
Proof. unfold omitempty. case_match; [apply sublist_nil_l|done]. Qed.

Definition keys {D} (c : coll D) : list string :=
  match c with
  | Conversations => ["_id"; "type"; "participants"; "group_name"; "group_photo"; "description"; "member_count";
      "last_message"; "last_message_id"; "last_message_at"; "created_by"; "created_at"]
  | GroupMembers => ["_id"; "conversation_id"; "user_id"; "role"; "joined_at"; "status"]
  | Messages => ["_id"; "message_id"; "conversation_id"; "sender_id"; "message_type"; "content"; "created_at";
      "delivered_at"; "media_key"; "media_name"; "media_mime_type"; "media_size_bytes"; "reply_to_message_id";
      "is_deleted"; "edited_at"; "room_id"; "user_id"; "text_body"; "sent_at"]
  | MessageRead => ["_id"; "conversation_id"; "sender_id"; "content"; "read_by"]
  | Receipts => ["_id"; "room_id"; "user_id"; "last_read_at"; "last_read_msg_id"]
  | Media => ["_id"; "uploader_id"; "room_id"; "file_name"; "mime_type"; "size_bytes"; "uploaded_at"; "expires_at"]
  end.

Theorem marshal_keys {D} (c : coll D) (d : D) : NoDup (marshal c d).*1.
Proof.
  apply (sublist_NoDup _ (keys c)); [destruct c; decide_now|].
  destruct c; cbn [marshal keys]; rewrite ?fmap_app; cbn [fmap list_fmap fst app];
    repeat first [apply sublist_skip | apply sublist_nil_l
      | match goal with |- (omitempty ?k _).*1 ++ _ `sublist_of` ?k :: ?l =>
          apply (sublist_app _ [k] _ l); [apply omitempty_keys|] end
      | apply omitempty_keys].
Qed.
