(* ===== verification/Sha1.v ===== *)
(** * SHA-1

    [crypto/sha1] of Go's library, with which [app/storage/cloudinary.go] signs an
    upload: the padding, the message schedule and the eighty rounds on 32-bit words
    (natural numbers below 2^32, additions reduced), and the digest in lower-case
    hexadecimal, which is [fmt.Sprintf("%x", h.Sum(nil))]. *)

From S2P Require Import Prelude GoString.
From Stdlib Require Import Ascii.

Local Open Scope N_scope.

Definition w32 (n : N) : N := N.land n (N.ones 32).
Definition add32 (a b : N) : N := w32 (a + b).
Definition rotl (k x : N) : N := N.lor (w32 (N.shiftl x k)) (N.shiftr x (32 - k)).
Definition not32 (x : N) : N := N.lxor x (N.ones 32).

(** Big-endian bytes: the lowest [k] of a number, and the number of a list. *)
Fixpoint be_bytes (k : nat) (n : N) : list byte :=
  match k with
  | O => []
  | S k => be_bytes k (N.shiftr n 8) ++ [ascii_of_N (N.land n 255)]
  end.
Definition be_word (l : list byte) : N := foldl (λ w c, N.shiftl w 8 + code c) 0 l.

(** A one bit, zeros up to 56 bytes modulo 64, and the length in bits. *)
Definition padding (len : nat) : list byte :=
  let zeros := ((55 + 64 - len mod 64) mod 64)%nat in
  ascii_of_N 128 :: replicate zeros (ascii_of_N 0) ++ be_bytes 8 (N.of_nat len * 8).

Fixpoint chunk (k : nat) (fuel : nat) (l : list byte) : list (list byte) :=
  match fuel with
  | O => []
  | S fuel => match l with [] => [] | _ => take k l :: chunk k fuel (drop k l) end
  end.
Definition chunks_of (k : nat) (l : list byte) : list (list byte) := chunk k (length l) l.

(** The schedule, the newest word first. *)
Fixpoint extend (n : nat) (w : list N) : list N :=
  match n with
  | O => w
  | S n => extend n (rotl 1 (N.lxor (N.lxor (nth 2 w 0) (nth 7 w 0)) (N.lxor (nth 13 w 0) (nth 15 w 0))) :: w)
  end.
Definition schedule (block : list byte) : list N := rev (extend 64 (rev (be_word <$> chunks_of 4 block))).

Record digest : Type := mkDigest { h0 : N; h1 : N; h2 : N; h3 : N; h4 : N }.

Definition init : digest := mkDigest 1732584193 4023233417 2562383102 271733878 3285377520.

Definition round (i : nat) (w : N) (d : digest) : digest :=
  let '(mkDigest a b c d e) := d in
  let '(f, k) :=
    if (i <? 20)%nat then (N.lor (N.land b c) (N.land (not32 b) d), 1518500249)
    else if (i <? 40)%nat then (N.lxor (N.lxor b c) d, 1859775393)
    else if (i <? 60)%nat then (N.lor (N.lor (N.land b c) (N.land b d)) (N.land c d), 2400959708)
    else (N.lxor (N.lxor b c) d, 3395469782) in
  mkDigest (w32 (rotl 5 a + f + e + k + w)) a (rotl 30 b) c d.

Fixpoint rounds (i : nat) (ws : list N) (d : digest) : digest :=
  match ws with [] => d | w :: ws => rounds (S i) ws (round i w d) end.

Definition process (d : digest) (block : list byte) : digest :=
  let r := rounds 0 (schedule block) d in
  mkDigest (add32 (h0 d) (h0 r)) (add32 (h1 d) (h1 r)) (add32 (h2 d) (h2 r)) (add32 (h3 d) (h3 r))
    (add32 (h4 d) (h4 r)).

Definition sum (l : list byte) : list byte :=
  let d := foldl process init (chunks_of 64 (l ++ padding (length l))) in
  [h0 d; h1 d; h2 d; h3 d; h4 d] ≫= be_bytes 4.

Definition hex (n : N) : byte := ascii_of_N (if n <? 10 then 48 + n else 87 + n).
Definition hex_bytes (l : list byte) : list byte := l ≫= λ c, [hex (code c / 16); hex (code c mod 16)].

Definition sha1_hex (s : string) : string := str (hex_bytes (sum (bytes s))).

(** ** The sizes of the parts, and the test vectors of FIPS 180 *)

Lemma length_be_bytes k n : length (be_bytes k n) = k.
Proof. revert n. induction k as [|k IH]; intros n; simpl; [done|]. rewrite length_app, IH. simpl. lia. Qed.

Lemma padded_blocks l : (length (l ++ padding (length l)) mod 64 = 0)%nat.
Proof.
  rewrite length_app. unfold padding. cbv zeta. rewrite length_cons, length_app, length_replicate, length_be_bytes.
  set (n := length l). pose proof (Nat.div_mod_eq n 64). pose proof (Nat.mod_upper_bound n 64 ltac:(lia)).
  set (r := (n mod 64)%nat) in *. set (q := (n / 64)%nat) in *.
  assert (Hz : ((55 + 64 - r) mod 64 = if decide (r ≤ 55)%nat then 55 - r else 119 - r)%nat).
  { case_decide.
    - replace (55 + 64 - r)%nat with (55 - r + 1 * 64)%nat by lia. rewrite Nat.Div0.mod_add. apply Nat.mod_small. lia.
    - rewrite Nat.mod_small by lia. lia. }
  rewrite Hz. case_decide.
  - replace (n + S (55 - r + 8))%nat with (0 + (q + 1) * 64)%nat by lia. by rewrite Nat.Div0.mod_add.
  - replace (n + S (119 - r + 8))%nat with (0 + (q + 2) * 64)%nat by lia. by rewrite Nat.Div0.mod_add.
Qed.

Lemma length_sum l : length (sum l) = 20%nat.
Proof. unfold sum. cbv zeta. cbn [mbind list_bind]. by rewrite !length_app, !length_be_bytes. Qed.

Lemma length_hex_bytes l : length (hex_bytes l) = (2 * length l)%nat.
Proof. induction l as [|c l IH]; simpl in *; [done|]. rewrite IH. lia. Qed.

Lemma length_sha1_hex s : slen (sha1_hex s) = 40%nat.
Proof. unfold sha1_hex. by rewrite <-length_bytes, bytes_str, length_hex_bytes, length_sum. Qed.

Example sha1_abc : sha1_hex "abc" = "a9993e364706816aba3e25717850c26c9cd0d89d".
Proof. vm_compute. reflexivity. Qed.
Example sha1_empty : sha1_hex "" = "da39a3ee5e6b4b0d3255bfef95601890afd80709".
Proof. vm_compute. reflexivity. Qed.
Example sha1_two_blocks :
  sha1_hex "abcdbcdecdefdefgefghfghighijhijkijkljklmklmnlmnomnopnopq" = "84983e441c3bd26ebaae4aa1f95129e5e54670f1".
Proof. vm_compute. reflexivity. Qed.
