(* ===== verification/Storage.v ===== *)
(** * Object storage

    [app/storage]: the interface [Storage] and its four implementations. The
    clients of MinIO and S3 are parameters, with what the documentation of the
    MinIO client says of buckets as laws; Cloudinary's URLs and its signature are
    written out, the SHA-1 too (Sha1.v). *)

From S2P Require Import Prelude GoString Sha1.

(** [Storage]. A call may read the clock several times: [clock i] is its i-th reading. *)
Class Storage (T : Type) := {
  PutPresignedURL : (nat → GoTime) → string → string → Z → T → result string (string * GoTime);
  GetPresignedURL : (nat → GoTime) → string → T → result string (string * GoTime)
}.

(** Durations and [time.Time.Unix]. *)
Definition second : Z := 10 ^ 9.
Definition minute : Z := 60 * second.
Definition hour : Z := 60 * minute.
Definition Unix (t : GoTime) : Z := (t `div` second)%Z.

(** ** No storage *)

Module NoopStorage.
Record t : Type := Noop {}.
Definition put_presigned_url (clock : nat → GoTime) (key mimeType : string) (size : Z) (c : t)
    : result string (string * GoTime) := Err "object storage not configured".
Definition get_presigned_url (clock : nat → GoTime) (key : string) (c : t)
    : result string (string * GoTime) := Err "object storage not configured".
#[global] Instance noop_storage : Storage t :=
  {| PutPresignedURL := put_presigned_url; GetPresignedURL := get_presigned_url |}.
End NoopStorage.

(** ** Cloudinary *)

Module CloudinaryStorage.
Record t : Type := mk { cloudName : string; apiKey : string; apiSecret : string }.

Definition NewCloudinaryStorage (cloudName apiKey apiSecret : string) : option t :=
  if String.eqb cloudName "" || String.eqb apiKey "" || String.eqb apiSecret "" then None
  else Some (mk cloudName apiKey apiSecret).

(** The text that is signed, for the keys in the order in which [range] gives them. *)
Definition to_sign (keys : list string) (params : gmap string string) (c : t) : string :=
  let keys := sort_strings keys in
  let parts := (λ k, k +:+ "=" +:+ default "" (params !! k)) <$> keys in
  Join parts "&" +:+ apiSecret c.

Definition sign (params : gmap string string) (c : t) : string :=
  sha1_hex (to_sign (elements (dom params)) params c).

Definition upload_params (key : string) (ts : Z) : gmap string string :=
  <["public_id" := key]> {["timestamp" := itoa ts]}.

Definition put_presigned_url (clock : nat → GoTime) (key mimeType : string) (size : Z) (c : t)
    : result string (string * GoTime) :=
  let ts := Unix (clock 0) in
  let expiresAt := (clock 1%nat + 15 * minute)%Z in
  let sig := sign (upload_params key ts) c in
  Ok ("https://api.cloudinary.com/v1_1/" +:+ cloudName c +:+ "/auto/upload?api_key=" +:+ apiKey c
      +:+ "&timestamp=" +:+ itoa ts +:+ "&public_id=" +:+ key +:+ "&signature=" +:+ sig, expiresAt).

Definition get_presigned_url (clock : nat → GoTime) (key : string) (c : t) : result string (string * GoTime) :=
  let url := "https://res.cloudinary.com/" +:+ cloudName c +:+ "/auto/upload/" +:+ key in
  let expiresAt := (clock 0%nat + 24 * hour * 365)%Z in
  Ok (url, expiresAt).

#[global] Instance cloudinary_storage : Storage t :=
  {| PutPresignedURL := put_presigned_url; GetPresignedURL := get_presigned_url |}.

(** The signature does not depend on the order of [range]. *)
Lemma to_sign_order keys keys' params c : keys ≡ₚ keys' → to_sign keys params c = to_sign keys' params c.
Proof. intros H. unfold to_sign. by rewrite (sort_strings_unique _ _ H). Qed.

Lemma sort_strings_sorted l : Sorted String.le l → sort_strings l = l.
Proof.
  intros H. apply (Sorted_unique String.le); [|done|apply sort_strings_perm].
  apply Sorted_merge_sort. apply _.
Qed.

(** What is signed for one more parameter between the two. *)
Lemma to_sign_between key k v ts c :
  String.le "public_id" k → String.le k "timestamp" → k ≠ "public_id" → k ≠ "timestamp" →
  let params := <[k := v]> (upload_params key ts) in
  to_sign (elements (dom params)) params c =
    "public_id=" +:+ key +:+ "&" +:+ k +:+ "=" +:+ v +:+ "&timestamp=" +:+ itoa ts +:+ apiSecret c.
Proof.
  intros Hl Hr Hp Ht. cbv zeta. set (params := <[k := v]> _).
  rewrite (to_sign_order _ ["public_id"; k; "timestamp"]).
  - unfold to_sign. rewrite sort_strings_sorted by (repeat constructor; done).
    cbn [fmap list_fmap Join String.concat]. unfold params, upload_params.
    rewrite lookup_insert_ne by done. rewrite lookup_insert_eq. rewrite lookup_insert_eq.
    rewrite (lookup_insert_ne _ k "timestamp") by done. rewrite lookup_insert_ne by done.
    rewrite lookup_singleton_eq. cbn [default]. unfold Join. cbn [String.concat].
    rewrite !string_app_assoc. reflexivity.
  - unfold params, upload_params. rewrite !dom_insert_L, dom_singleton_L.
    apply NoDup_Permutation; [apply NoDup_elements| |].
    + repeat constructor; rewrite ?elem_of_cons, ?list_elem_of_singleton, ?elem_of_nil; naive_solver.
    + intros x. rewrite elem_of_elements. set_solver.
Qed.

Lemma to_sign_upload key ts c :
  to_sign (elements (dom (upload_params key ts))) (upload_params key ts) c =
    "public_id=" +:+ key +:+ "&timestamp=" +:+ itoa ts +:+ apiSecret c.
Proof.
  rewrite (to_sign_order _ ["public_id"; "timestamp"]).
  - unfold to_sign. rewrite sort_strings_sorted by (repeat constructor; vm_compute; reflexivity).
    cbn [fmap list_fmap]. unfold upload_params.
    rewrite lookup_insert_eq, lookup_insert_ne by done. rewrite lookup_singleton_eq. cbn [default].
    unfold Join. cbn [String.concat]. rewrite !string_app_assoc. reflexivity.
  - unfold upload_params. rewrite dom_insert_L, dom_singleton_L.
    apply NoDup_Permutation; [apply NoDup_elements| |].
    + repeat constructor; rewrite ?elem_of_cons, ?list_elem_of_singleton, ?elem_of_nil; naive_solver.
    + intros x. rewrite elem_of_elements. set_solver.
Qed.

(** The signature of an upload covers a parameter that the client smuggles in: a key
    that holds an ampersand is neither refused nor escaped, so a media key [K&k=v], for any
    parameter name k between public_id and timestamp, gives a URL with the parameter k
    and the very signature that Cloudinary computes for the upload of K with k set to v. *)
Theorem signature_covers_smuggled_parameter clock key k v mime size c :
  String.le "public_id" k → String.le k "timestamp" → k ≠ "public_id" → k ≠ "timestamp" →
  let ts := Unix (clock 0) in
  ∃ url expires, PutPresignedURL clock (key +:+ "&" +:+ k +:+ "=" +:+ v) mime size c = Ok (url, expires)
    ∧ ∃ base, url = base +:+ "&public_id=" +:+ key +:+ "&" +:+ k +:+ "=" +:+ v +:+ "&signature="
                    +:+ sign (<[k := v]> (upload_params key ts)) c.
Proof.
  intros Hl Hr Hp Ht ts. simpl. unfold put_presigned_url. cbv zeta. eexists _, _. split; [reflexivity|].
  assert (Hs : sign (upload_params (key +:+ "&" +:+ k +:+ "=" +:+ v) ts) c
    = sign (<[k := v]> (upload_params key ts)) c).
  { unfold sign. rewrite to_sign_upload, to_sign_between by done. by rewrite !string_app_assoc. }
  fold ts. rewrite Hs.
  exists ("https://api.cloudinary.com/v1_1/" +:+ cloudName c +:+ "/auto/upload?api_key=" +:+ apiKey c
    +:+ "&timestamp=" +:+ itoa ts).
  rewrite !string_app_assoc. reflexivity.
Qed.
End CloudinaryStorage.

(** ** MinIO *)

(** The client of [minio-go]: the constructor, the calls on buckets and the two
    presigned URLs (bucket, key, lifetime). *)
Class MinioClient (C : Type) := {
  minio_New : string → string → string → bool → result string C;
  BucketExists : string → C → C * result string bool;
  MakeBucket : string → C → C * option string;
  PresignedPutObject : string → string → Z → C → result string string;
  PresignedGetObject : string → string → Z → C → result string string;
  (** Ghost: the buckets of the server. *)
  buckets : C → gset string
}.

(** Documented: [BucketExists] answers for the bucket and changes nothing,
    [MakeBucket] without an error has made it. *)
Class MinioLaws (C : Type) `{MinioClient C} := {
  bucket_exists_ok b c c' r : BucketExists b c = (c', r) →
    buckets c' = buckets c ∧ ∀ e, r = Ok e → e = bool_decide (b ∈ buckets c);
  make_bucket_ok b c c' : MakeBucket b c = (c', None) → buckets c' = {[b]} ∪ buckets c
}.

Module MinioStorage.
Section minio.
Context {C : Type} `{MC : MinioClient C}.

Record t : Type := mk { client : C; bucket : string }.

Definition presignTTL : Z := 15 * minute.

(** [(nil, nil)] is [Ok None]. *)
Definition NewMinioStorage (endpoint accessKey secretKey bucket : string) (useSSL : bool)
    : result string (option t) :=
  if String.eqb endpoint "" then Ok None
  else match minio_New endpoint accessKey secretKey useSSL with
       | Err e => Err ("minio connect: " +:+ e)
       | Ok c => Ok (Some (mk c bucket))
       end.

Definition EnsureBucket (m : t) : t * option string :=
  match BucketExists (bucket m) (client m) with
  | (c, Err e) => (mk c (bucket m), Some ("check bucket: " +:+ e))
  | (c, Ok true) => (mk c (bucket m), None)
  | (c, Ok false) =>
      match MakeBucket (bucket m) c with
      | (c, Some e) => (mk c (bucket m), Some ("create bucket: " +:+ e))
      | (c, None) => (mk c (bucket m), None)
      end
  end.

Definition put_presigned_url (clock : nat → GoTime) (key mimeType : string) (size : Z) (m : t)
    : result string (string * GoTime) :=
  match PresignedPutObject (bucket m) key presignTTL (client m) with
  | Err e => Err ("presign put: " +:+ e)
  | Ok u => Ok (u, (clock 0%nat + presignTTL)%Z)
  end.

Definition get_presigned_url (clock : nat → GoTime) (key : string) (m : t) : result string (string * GoTime) :=
  match PresignedGetObject (bucket m) key presignTTL (client m) with
  | Err e => Err ("presign get: " +:+ e)
  | Ok u => Ok (u, (clock 0%nat + presignTTL)%Z)
  end.

#[global] Instance minio_storage : Storage t :=
  {| PutPresignedURL := put_presigned_url; GetPresignedURL := get_presigned_url |}.

(** Without an error the bucket is there, no other bucket changes, and a second call
    finds it: nothing more is made. *)
Lemma EnsureBucket_ok `{!MinioLaws C} m m' :
  EnsureBucket m = (m', None) → bucket m' = bucket m ∧ buckets (client m') = {[bucket m]} ∪ buckets (client m).
Proof.
  unfold EnsureBucket. destruct (BucketExists _ _) as [c r] eqn:E. apply bucket_exists_ok in E as [Eb Er].
  destruct r as [[]|]; [| |done].
  - intros [= <-]. split; [done|]. specialize (Er _ eq_refl). symmetry in Er. apply bool_decide_eq_true in Er.
    simpl. set_solver.
  - destruct (MakeBucket _ _) as [c2 [e|]] eqn:Em; [done|]. intros [= <-]. split; [done|].
    apply make_bucket_ok in Em. simpl. by rewrite Em, Eb.
Qed.
End minio.
Arguments t C : clear implicits.
End MinioStorage.

(** A server with buckets in memory, any of which signs. *)
Module MemBuckets.
Record t : Type := mk { names : gset string }.
#[global] Instance mem_minio : MinioClient t := {|
  minio_New e a s u := Ok (mk ∅);
  BucketExists b c := (c, Ok (bool_decide (b ∈ names c)));
  MakeBucket b c := (mk ({[b]} ∪ names c), None);
  PresignedPutObject b k ttl c := Ok (b +:+ "/" +:+ k);
  PresignedGetObject b k ttl c := Ok (b +:+ "/" +:+ k);
  buckets := names
|}.
#[global] Instance mem_minio_laws : MinioLaws t.
Proof. constructor; [intros b c c' r [= <- <-]; split; [done|by intros e [= <-]]|by intros b c c' [= <-]]. Qed.

Example ensured : (MinioStorage.EnsureBucket (MinioStorage.mk (mk ∅) "chat-media")).1 = MinioStorage.mk (mk {["chat-media"]}) "chat-media".
Proof. vm_compute. reflexivity. Qed.
End MemBuckets.

(** ** S3 *)

(** The SDK: [LoadDefaultConfig] with the static credentials and the region it is given, if
    any, a client with an endpoint of its own and path style, and the presigned URLs
    (bucket, key, content type, lifetime). *)
Class S3SDK (C : Type) := {
  AwsConfig : Type;
  LoadDefaultConfig : option (string * string) → option string → result string AwsConfig;
  NewFromConfig : AwsConfig → option (string * bool) → C;
  PresignPutObject : string → string → string → Z → C → result string string;
  PresignGetObject : string → string → Z → C → result string string
}.

Module S3Storage.
Section s3.
Context {C : Type} `{SDK : S3SDK C}.

Record S3Config : Type := mkS3Config {
  Bucket : string;
  Region : string;
  Endpoint : string;
  AccessKeyID : string;
  SecretAccessKey : string;
  ForcePathStyle : bool
}.

(** The presign client is the client's. *)
Record t : Type := mk { client : C; bucket : string }.

Definition s3PresignTTL : Z := 15 * minute.

Definition NewS3Storage (cfg : S3Config) : result string (option t) :=
  if String.eqb (Bucket cfg) "" then Ok None
  else
    let creds := if String.eqb (AccessKeyID cfg) "" then None
                 else Some (AccessKeyID cfg, SecretAccessKey cfg) in
    let region := if String.eqb (Region cfg) "" then None else Some (Region cfg) in
    match LoadDefaultConfig creds region with
    | Err e => Err ("s3 config: " +:+ e)
    | Ok awsCfg =>
        let opts := if String.eqb (Endpoint cfg) "" then None
                    else Some (Endpoint cfg, ForcePathStyle cfg) in
        Ok (Some (mk (NewFromConfig awsCfg opts) (Bucket cfg)))
    end.

Definition put_presigned_url (clock : nat → GoTime) (key mimeType : string) (size : Z) (s : t)
    : result string (string * GoTime) :=
  match PresignPutObject (bucket s) key mimeType s3PresignTTL (client s) with
  | Err e => Err ("presign put: " +:+ e)
  | Ok u => Ok (u, (clock 0%nat + s3PresignTTL)%Z)
  end.

Definition get_presigned_url (clock : nat → GoTime) (key : string) (s : t) : result string (string * GoTime) :=
  match PresignGetObject (bucket s) key s3PresignTTL (client s) with
  | Err e => Err ("presign get: " +:+ e)
  | Ok u => Ok (u, (clock 0%nat + s3PresignTTL)%Z)
  end.

#[global] Instance s3_storage : Storage t :=
  {| PutPresignedURL := put_presigned_url; GetPresignedURL := get_presigned_url |}.
End s3.
Arguments t C : clear implicits.
End S3Storage.

(** ** The date in an object key *)

(** [Year], [Month] and [Day] of a time in UTC: the days since 1970-01-01 in the
    proleptic Gregorian calendar, counted in eras of 400 years that begin in March. *)
Definition days_of (t : GoTime) : Z := (t `div` (24 * hour))%Z.
Definition civil (days : Z) : Z * Z * Z :=
  let z := (days + 719468)%Z in
  let era := (z `div` 146097)%Z in
  let doe := (z `mod` 146097)%Z in
  let yoe := ((doe - doe `div` 1460 + doe `div` 36524 - doe `div` 146096) `div` 365)%Z in
  let doy := (doe - (365 * yoe + yoe `div` 4 - yoe `div` 100))%Z in
  let mp := ((5 * doy + 2) `div` 153)%Z in
  let d := (doy - (153 * mp + 2) `div` 5 + 1)%Z in
  let m := (if mp <? 10 then mp + 3 else mp - 9)%Z in
  ((yoe + era * 400 + if m <=? 2 then 1 else 0)%Z, m, d).

(** [%02d] of a month or a day. *)
Definition two_digits (n : Z) : string := if (n <? 10)%Z then "0" +:+ itoa n else itoa n.

Definition ObjectKey (now : GoTime) (roomID fileName : string) : string :=
  let '(y, m, d) := civil (days_of now) in
  "rooms/" +:+ roomID +:+ "/" +:+ itoa y +:+ "/" +:+ two_digits m +:+ "/" +:+ two_digits d +:+ "/" +:+ fileName.

Example object_key_comment :
  ObjectKey (1781049600 * 10 ^ 9) "dm:alice:bob" "photo.jpg" = "rooms/dm:alice:bob/2026/06/10/photo.jpg".
Proof. vm_compute. reflexivity. Qed.
Example civil_leap : civil (days_of (951782400 * 10 ^ 9)) = (2000, 2, 29)%Z.
Proof. vm_compute. reflexivity. Qed.
Example civil_epoch : civil 0 = (1970, 1, 1)%Z ∧ civil (-1) = (1969, 12, 31)%Z.
Proof. vm_compute. split; reflexivity. Qed.

(** [tags] lies between the two names. *)
Lemma signature_covers_smuggled_parameter_witness :
  ∃ url expires, PutPresignedURL (λ _, (1700000000 * 10 ^ 9)%Z) "rooms/r/u/1/cat.jpg&tags=admin" "image/jpeg" 3%Z
      (CloudinaryStorage.mk "demo" "key" "secret") = Ok (url, expires)
    ∧ ∃ base, url = base +:+ "&public_id=rooms/r/u/1/cat.jpg&tags=admin&signature="
        +:+ CloudinaryStorage.sign (<["tags" := "admin"]> (CloudinaryStorage.upload_params "rooms/r/u/1/cat.jpg" 1700000000))
              (CloudinaryStorage.mk "demo" "key" "secret").
Proof.
  destruct (CloudinaryStorage.signature_covers_smuggled_parameter (λ _, (1700000000 * 10 ^ 9)%Z)
    "rooms/r/u/1/cat.jpg" "tags" "admin" "image/jpeg" 3%Z (CloudinaryStorage.mk "demo" "key" "secret"))
    as (url & expires & H1 & base & H2).
  - vm_compute. reflexivity.
  - vm_compute. reflexivity.
  - discriminate.
  - discriminate.
  - exists url, expires. split; [exact H1|]. exists base. exact H2.
Defined.
