(* ===== verification/Server.v ===== *)
(** * The gRPC server

    [app/server/grpc_server.go]: the server's state over the components'
    interfaces, one definition per handler, and the goroutines that a handler
    starts as tasks that run later, in any order. A handler takes the state and
    the clock's reading and returns the new state with the response or the
    status; [outcome] because a broadcast can panic. The identity that the auth
    interceptor puts into the context is not an argument of any handler: none of
    them reads it. *)

From Stdlib Require Import Ascii.
From S2P Require Import Prelude GoString Pb Json RoomId Chan Broker Hub Presence RoomStore Postgres Mongo Storage.

(** [status.Error] *)
Inductive grpc_code : Type := InvalidArgument | NotFound | ResourceExhausted | Unimplemented | Internal | Unauthenticated.
Record status : Type := mkStatus { st_code : grpc_code; st_message : string }.

Notation "'let!' x ':=' m 'in' k" := (outcome_bind m (λ x, k)) (at level 10, x name, m at level 200, k at level 200) : go_scope.
Local Open Scope go_scope.

(** A goroutine that a handler has started: the receipt of [READ_RECEIPT], with the time
    of the frame, and of [GetMessages], which reads the clock when it runs; the one of [persistMessage], which holds the message's pointer,
    and the upload's record. *)
Inductive task : Type :=
  | TaskReceipt (roomID userID messageID : string) (now : option GoTime)
  | TaskPersist (p : nat)
  | TaskMedia (key uploaderID roomID fileName mimeType : string) (sizeBytes : Z) (expiresAt : GoTime).

(** [toServerMsg] *)
Definition toServerMsg (now : GoTime) (m : ClientMessage) : ServerMessage :=
  ServerMessage_zero
    <| ServerMessage_RoomId := normalizeRoomID (ClientMessage_RoomId m) |>
    <| ServerMessage_UserId := ClientMessage_UserId m |>
    <| ServerMessage_MessageId := ClientMessage_MessageId m |>
    <| ServerMessage_Text := ClientMessage_Text m |>
    <| ServerMessage_SentAtUnixMs := ClientMessage_SentAtUnixMs m |>
    <| ServerMessage_DeliveredAtUnixMs := to_unix_milli now |>
    <| ServerMessage_Type := ClientMessage_Type m |>
    <| ServerMessage_MediaKey := ClientMessage_MediaKey m |>
    <| ServerMessage_MediaName := ClientMessage_MediaName m |>
    <| ServerMessage_MediaSizeBytes := ClientMessage_MediaSizeBytes m |>
    <| ServerMessage_MediaMimeType := ClientMessage_MediaMimeType m |>
    <| ServerMessage_EventType := EventType_EVENT_TYPE_MESSAGE |>
    <| ServerMessage_ReplyToMessageId := ClientMessage_ReplyToMessageId m |>.

(** The control event of a frame: its room, its user and its type. *)
Definition event_of (roomID : string) (m : ClientMessage) (ev : EventType) : ServerMessage :=
  ServerMessage_zero <| ServerMessage_RoomId := roomID |> <| ServerMessage_UserId := ClientMessage_UserId m |>
    <| ServerMessage_EventType := ev |>.

Definition persist_preview (msg : ServerMessage) : string :=
  let preview := MessageRepository.preview msg in
  if bool_decide (120 < slen preview) then slice_to 120 preview else preview.

(** ** The merge of [GetUserRooms] *)

(** [byID] and [order]; [addRoom] updates the room that [byID] points to. *)
Definition merged : Type := gmap string UserRoom * list string.

Definition merge_room (existing r : UserRoom) : UserRoom :=
  let existing :=
    if (UserRoom_LastMessageAt existing <? UserRoom_LastMessageAt r)%Z
    then existing <| UserRoom_LastMessage := UserRoom_LastMessage r |>
                  <| UserRoom_LastMessageAt := UserRoom_LastMessageAt r |> else existing in
  let existing :=
    if String.eqb (UserRoom_Name existing) "" && negb (String.eqb (UserRoom_Name r) "")
    then existing <| UserRoom_Name := UserRoom_Name r |> else existing in
  let existing :=
    if bool_decide (length (UserRoom_MemberIds existing) = 0) && bool_decide (0 < length (UserRoom_MemberIds r))
    then existing <| UserRoom_MemberIds := UserRoom_MemberIds r |> else existing in
  if UserRoom_HasUnread r then existing <| UserRoom_HasUnread := true |> else existing.

Definition addRoom (st : merged) (r : UserRoom) : merged :=
  if String.eqb (UserRoom_RoomId r) "" then st
  else
    let r := r <| UserRoom_RoomId := normalizeRoomID (UserRoom_RoomId r) |> in
    match st.1 !! UserRoom_RoomId r with
    | Some existing => (<[UserRoom_RoomId r := merge_room existing r]> st.1, st.2)
    | None => (<[UserRoom_RoomId r := r]> st.1, st.2 ++ [UserRoom_RoomId r])
    end.

Definition room_of_pg (r : RoomRepository.UserRoom) : UserRoom :=
  let rt := if (RoomRepository.ur_RoomType r =? 1)%Z then RoomType_ROOM_TYPE_GROUP else RoomType_ROOM_TYPE_DM in
  mkUserRoom (RoomRepository.ur_RoomID r) rt (RoomRepository.ur_Name r) (RoomRepository.ur_LastMessage r)
    (RoomRepository.ur_LastMessageAt r) (RoomRepository.ur_HasUnread r) (RoomRepository.ur_MemberIDs r).

Definition room_of_mongo (r : MessageRepository.UserRoomSummary) : UserRoom :=
  let id := normalizeRoomID (MessageRepository.RoomID r) in
  let rt := if HasPrefix id "group:"
               || (bool_decide (6 < slen (MessageRepository.RoomID r))
                   && String.eqb (slice_to 6 (MessageRepository.RoomID r)) "group:")
            then RoomType_ROOM_TYPE_GROUP else RoomType_ROOM_TYPE_DM in
  mkUserRoom id rt "" (MessageRepository.LastMessage r) (to_unix_milli (MessageRepository.LastMessageAt r))
    false (MessageRepository.MemberIDs r).

Definition merged_rooms (st : merged) : list UserRoom := omap (λ id, st.1 !! id) st.2.

Module ChatServer.
Section server.
Context {B : Type} `{BR : Broker B} `{JC : JsonCodec ServerMessage} `{JR : JsonCodec RoomStore.RoomMeta}.
Context {K : Type} `{KV : RedisKV K} {P : Type} `{PS : PresenceStore P}.
Context {Q : Type} `{DB : SqlDB Q} {G : Type} `{MG : MongoDB G} {T : Type} `{SG : Storage T}.
(** [sort.Slice] of the room list, and the order of [range] over a map's keys. *)
Context (sort_slice : list RoomRepository.UserRoom → list RoomRepository.UserRoom).
Context (order : gset string → list string).

Record t : Type := mk {
  hub : Hub.t B;
  rooms : RoomStore.t K;
  pgRooms : option Q;
  msgRepo : option G;
  storage : option T;
  presence : P;
  tasks : list task
}.
#[global] Instance t_eta : Eta t := λ s,
  mk s.(hub) s.(rooms) s.(pgRooms) s.(msgRepo) s.(storage) s.(presence) s.(tasks).

(** [NewChatServer]; the presence store it is given, or the local one for nil. *)
Definition NewChatServer (h : Hub.t B) (rs : RoomStore.t K) (pg : option Q) (msg : option G) (st : option T)
    (ps : P) : t := mk h rs pg msg st ps [].

(** A call of the message store or of the room repository, if there is one. *)
Definition on_mongo {A} (f : G → G * A) (s : t) : option (t * A) :=
  match msgRepo s with
  | Some g => let '(g, a) := f g in Some (s <| msgRepo := Some g |>, a)
  | None => None
  end.
Definition on_pg {A} (f : Q → Q * A) (s : t) : option (t * A) :=
  match pgRooms s with
  | Some q => let '(q, a) := f q in Some (s <| pgRooms := Some q |>, a)
  | None => None
  end.

(** The same with the result dropped. *)
Definition mongo_ {A} (f : G → G * A) (s : t) : t := match on_mongo f s with Some (s, _) => s | None => s end.
Definition pg_ {A} (f : Q → Q * A) (s : t) : t := match on_pg f s with Some (s, _) => s | None => s end.

Definition spawn (k : task) (s : t) : t := s <| tasks := tasks s ++ [k] |>.

(** [s.hub.Broadcast] of a message at a new pointer, which it returns. *)
Definition broadcast (m : ServerMessage) (publish : bool) (s : t) : outcome (t * nat) :=
  let '(h, p) := Hub.alloc m (hub s) in
  let! h := Hub.Broadcast p publish h in Done (s <| hub := h |>, p).
Definition broadcast_ (m : ServerMessage) (publish : bool) (s : t) : outcome t :=
  let! r := broadcast m publish s in Done r.1.

Definition persistMessage (p : nat) (s : t) : t :=
  match msgRepo s, pgRooms s with
  | None, None => s
  | _, _ => spawn (TaskPersist p) s
  end.

(** What a goroutine does when it runs, given a fresh UUID and the clock. *)
Definition run_task (fresh : string) (now : GoTime) (k : task) (s : t) : t :=
  match k with
  | TaskReceipt roomID userID messageID at_ =>
      let at_ := default now at_ in
      pg_ (RoomRepository.UpdateReadReceipt now roomID userID messageID at_)
        (mongo_ (MessageRepository.UpdateReadReceipt roomID userID messageID at_) s)
  | TaskPersist p =>
      match Hub.msgs (hub s) !! p with
      | None => s
      | Some msg =>
          let s := mongo_ (MessageRepository.SaveMessage fresh now msg) s in
          match pgRooms s with
          | None => s
          | Some _ =>
              let roomID := ServerMessage_RoomId msg in
              let userID := ServerMessage_UserId msg in
              let messageID := ServerMessage_MessageId msg in
              let sent := of_unix_milli (ServerMessage_SentAtUnixMs msg) in
              let s := pg_ (RoomRepository.UpdateLastActivity now roomID messageID userID (persist_preview msg) sent) s in
              if String.eqb userID "" then s
              else
                let at_ := if IsZero sent then now else sent in
                let s := pg_ (RoomRepository.UpdateReadReceipt now roomID userID messageID at_) s in
                mongo_ (MessageRepository.UpdateReadReceipt roomID userID messageID at_) s
          end
      end
  | TaskMedia key uploaderID roomID fileName mimeType sizeBytes expiresAt =>
      mongo_ (MessageRepository.SaveMediaUpload now key uploaderID roomID fileName mimeType sizeBytes expiresAt) s
  end.

Definition processIncoming (now : GoTime) (m : ClientMessage) (s : t) : outcome t :=
  let roomID := normalizeRoomID (ClientMessage_RoomId m) in
  let ev := ClientMessage_EventType m in
  let messageID := ClientMessage_MessageId m in
  let userID := ClientMessage_UserId m in
  if (ev =? EventType_EVENT_TYPE_TYPING_START)%Z || (ev =? EventType_EVENT_TYPE_TYPING_STOP)%Z then
    broadcast_ (event_of roomID m ev) false s
  else if (ev =? EventType_EVENT_TYPE_READ_RECEIPT)%Z then
    if String.eqb messageID "" then Done s
    else
      broadcast_ (event_of roomID m EventType_EVENT_TYPE_READ_RECEIPT
                    <| ServerMessage_MessageId := messageID |>
                    <| ServerMessage_Status := MessageStatus_MESSAGE_STATUS_READ |>) false
        (spawn (TaskReceipt roomID userID messageID (Some now)) s)
  else if (ev =? EventType_EVENT_TYPE_REACTION)%Z then
    if negb (String.eqb messageID "") && negb (String.eqb (ClientMessage_ReactionEmoji m) "") then
      broadcast_ (event_of roomID m EventType_EVENT_TYPE_REACTION
                    <| ServerMessage_MessageId := messageID |>
                    <| ServerMessage_ReactionEmoji := ClientMessage_ReactionEmoji m |>) true s
    else Done s
  else if (ev =? EventType_EVENT_TYPE_DELETE)%Z then
    if String.eqb messageID "" then Done s
    else
      match on_mongo (MessageRepository.SoftDeleteMessageByOwner messageID userID) s with
      | None => Done s
      | Some (s, Err _) => Done s
      | Some (s, Ok false) => Done s
      | Some (s, Ok true) =>
          broadcast_ (event_of roomID m EventType_EVENT_TYPE_DELETE
                        <| ServerMessage_MessageId := messageID |>
                        <| ServerMessage_IsDeleted := true |>) true s
      end
  else if (ev =? EventType_EVENT_TYPE_EDIT)%Z then
    let text := TrimSpace (ClientMessage_Text m) in
    if negb (String.eqb messageID "") && negb (String.eqb text "") then
      let announce editedAt s :=
        broadcast_ (event_of roomID m EventType_EVENT_TYPE_EDIT
                      <| ServerMessage_MessageId := messageID |> <| ServerMessage_Text := text |>
                      <| ServerMessage_EditedAtUnixMs := editedAt |>) true s in
      match on_mongo (MessageRepository.EditMessage now messageID userID text) s with
      | None => announce (to_unix_milli now) s
      | Some (s, Err _) => Done s
      | Some (s, Ok at_) => announce at_ s
      end
    else Done s
  else
    if String.eqb (ClientMessage_Text m) "" && String.eqb (ClientMessage_MediaKey m) "" then Done s
    else
      let sm := toServerMsg now m <| ServerMessage_Status := MessageStatus_MESSAGE_STATUS_SENT |> in
      let! r := broadcast sm true s in
      Done (persistMessage r.2 r.1).

(** ** The unary handlers *)

(** What a handler returns: the state it leaves, with the response or the status. *)
Abbreviation handled R := (outcome (t * result status R)).
Definition reply {R} (r : R) (s : t) : handled R := Done (s, Ok r).
Definition refuse {R} (c : grpc_code) (msg : string) (s : t) : handled R := Done (s, Err (mkStatus c msg)).

Definition no_repo {R} (s : t) : handled R := refuse Unimplemented "message repo not configured" s.

Definition GetMessages (req : GetMessagesRequest) (s : t) : handled GetMessagesResponse :=
  let roomID := normalizeRoomID (GetMessagesRequest_RoomId req) in
  if String.eqb roomID "" then refuse InvalidArgument "room_id is required" s
  else
    match msgRepo s with
    | None => reply (mkGetMessagesResponse [] false) s
    | Some g =>
        let limit := GetMessagesRequest_Limit req in
        let limit := if ((limit <=? 0) || (200 <? limit))%Z then 50%Z else limit in
        match MessageRepository.GetMessagesBefore roomID (GetMessagesRequest_BeforeUnixMs req) (limit + 1) g with
        | Err e => refuse Internal ("get messages: " +:+ e) s
        | Ok msgs =>
            let msgs := (λ m, m <| ServerMessage_RoomId := roomID |>) <$> msgs in
            let hasMore := bool_decide (limit < Z.of_nat (length msgs))%Z in
            let msgs := if hasMore then take (Z.to_nat limit) msgs else msgs in
            let userID := GetMessagesRequest_UserId req in
            let s :=
              match msgs with
              | newest :: _ =>
                  if String.eqb userID "" then s
                  else spawn (TaskReceipt roomID userID (ServerMessage_MessageId newest) None) s
              | [] => s
              end in
            reply (mkGetMessagesResponse msgs hasMore) s
        end
    end.

Definition GetPresence (now : GoTime) (req : GetPresenceRequest) (s : t) : handled GetPresenceResponse :=
  match GetPresenceRequest_UserIds req with
  | [] => refuse InvalidArgument "user_ids is required" s
  | ids => let '(ps, users) := Get now ids (presence s) in
           reply (mkGetPresenceResponse users) (s <| presence := ps |>)
  end.

(** A new direct room: PostgreSQL first, MongoDB beside it, the room store if neither gave an id. *)
Definition create_dm (now : GoTime) (userA userB createdBy : string) (s : t) : handled CreateRoomResponse :=
  let with_pg :=
    match on_pg (RoomRepository.GetOrCreateDM now userA userB createdBy) s with
    | None => (s, Ok ("", ""))
    | Some (s, Ok meta) => (s, Ok (RoomRepository.RoomID meta, RoomRepository.Name meta))
    | Some (s, Err e) => (s, Err e)
    end in
  match with_pg with
  | (s, Err e) => refuse Internal ("create DM (pg): " +:+ e) s
  | (s, Ok (roomID, name)) =>
      let '(s, roomID) :=
        match on_mongo (MessageRepository.CreateOrGetDirectConversation now userA userB createdBy) s with
        | None => (s, roomID)
        | Some (s, Err _) => (s, roomID)
        | Some (s, Ok conv) => (s, if String.eqb roomID "" then ConversationDetail_ConversationId conv else roomID)
        end in
      if String.eqb roomID "" then
        let '(rs, meta) := RoomStore.CreateDM now userA userB createdBy (rooms s) in
        let s := s <| rooms := rs |> in
        match meta with
        | Err e => refuse Internal ("create DM: " +:+ e) s
        | Ok meta => reply (mkCreateRoomResponse (RoomStore.RoomID meta) (RoomStore.Name meta)) s
        end
      else reply (mkCreateRoomResponse roomID name) s
  end.

(** A new group: the first of MongoDB, PostgreSQL and the room store that takes it. *)
Definition create_group (uuid : string) (unix_nano : Z) (now : GoTime) (name createdBy : string)
    (memberIDs : list string) (s : t) : handled CreateRoomResponse :=
  let fallback s :=
    match on_pg (RoomRepository.CreateGroup now ("group:" +:+ uuid) name createdBy memberIDs) s with
    | Some (s, Err e) => refuse Internal ("create group (pg): " +:+ e) s
    | Some (s, Ok meta) => reply (mkCreateRoomResponse (RoomRepository.RoomID meta) (RoomRepository.Name meta)) s
    | None =>
        let '(rs, meta) := RoomStore.CreateGroup now uuid name createdBy memberIDs (rooms s) in
        let s := s <| rooms := rs |> in
        match meta with
        | Err e => refuse Internal ("create group: " +:+ e) s
        | Ok meta => reply (mkCreateRoomResponse (RoomStore.RoomID meta) (RoomStore.Name meta)) s
        end
    end in
  match on_mongo (MessageRepository.CreateGroupConversation order unix_nano now name "" "" createdBy memberIDs) s with
  | Some (s, Ok conv) =>
      reply (mkCreateRoomResponse (ConversationDetail_ConversationId conv) (ConversationDetail_GroupName conv)) s
  | Some (s, Err _) => fallback s
  | None => fallback s
  end.

Definition CreateRoom (uuid : string) (unix_nano : Z) (now : GoTime) (req : CreateRoomRequest) (s : t)
    : handled CreateRoomResponse :=
  let createdBy := CreateRoomRequest_CreatedBy req in
  if String.eqb createdBy "" then refuse InvalidArgument "created_by is required" s
  else if (CreateRoomRequest_Type req =? RoomType_ROOM_TYPE_DM)%Z then
    match CreateRoomRequest_MemberIds req with
    | [userA; userB] => create_dm now userA userB createdBy s
    | _ => refuse InvalidArgument "DM requires exactly 2 member_ids" s
    end
  else if (CreateRoomRequest_Type req =? RoomType_ROOM_TYPE_GROUP)%Z then
    if String.eqb (CreateRoomRequest_Name req) "" then
      refuse InvalidArgument "name is required for a group room" s
    else create_group uuid unix_nano now (CreateRoomRequest_Name req) createdBy (CreateRoomRequest_MemberIds req) s
  else refuse InvalidArgument "unknown room type" s.

Definition maxFileBytes : Z := 100 * 1024 * 1024.

Definition upload_key (now : GoTime) (req : UploadRequest) : string :=
  ReplaceAll ("rooms/" +:+ UploadRequest_RoomId req +:+ "/" +:+ UploadRequest_UserId req +:+ "/"
              +:+ itoa (to_unix_milli now) +:+ "/" +:+ UploadRequest_FileName req) ":"%char "_"%char.

Definition RequestUpload (now : GoTime) (clock : nat → GoTime) (req : UploadRequest) (s : t) : handled UploadResponse :=
  match storage s with
  | None => refuse Unimplemented "object storage is not configured on this server" s
  | Some st =>
      if String.eqb (UploadRequest_UserId req) "" || String.eqb (UploadRequest_RoomId req) ""
         || String.eqb (UploadRequest_FileName req) "" then
        refuse InvalidArgument "user_id, room_id, and file_name are required" s
      else if (maxFileBytes <? UploadRequest_FileSizeBytes req)%Z then
        refuse InvalidArgument "file too large: max 100 MB" s
      else
        let key := upload_key now req in
        match PutPresignedURL clock key (UploadRequest_MimeType req) (UploadRequest_FileSizeBytes req) st with
        | Err e => refuse Internal ("generate upload URL: " +:+ e) s
        | Ok (uploadURL, expiresAt) =>
            let s :=
              match msgRepo s with
              | Some _ => spawn (TaskMedia key (UploadRequest_UserId req) (UploadRequest_RoomId req)
                                   (UploadRequest_FileName req) (UploadRequest_MimeType req)
                                   (UploadRequest_FileSizeBytes req) expiresAt) s
              | None => s
              end in
            reply (mkUploadResponse key uploadURL (to_unix_milli expiresAt)) s
        end
  end.

Definition GetDownloadUrl (clock : nat → GoTime) (req : GetDownloadUrlRequest) (s : t) : handled GetDownloadUrlResponse :=
  match storage s with
  | None => refuse Unimplemented "object storage is not configured on this server" s
  | Some st =>
      if String.eqb (GetDownloadUrlRequest_MediaKey req) "" then refuse InvalidArgument "media_key is required" s
      else
        match GetPresignedURL clock (GetDownloadUrlRequest_MediaKey req) st with
        | Err e => refuse Internal ("generate download URL: " +:+ e) s
        | Ok (u, expiresAt) => reply (mkGetDownloadUrlResponse u (to_unix_milli expiresAt)) s
        end
  end.

Definition GetUserRooms (req : GetUserRoomsRequest) (s : t) : handled GetUserRoomsResponse :=
  let userID := GetUserRoomsRequest_UserId req in
  if String.eqb userID "" then refuse InvalidArgument "user_id is required" s
  else
    let st : merged := (∅, []) in
    let st :=
      match pgRooms s with
      | None => st
      | Some q => match RoomRepository.GetUserRoomsDetailed sort_slice userID q with
                  | Err _ => st
                  | Ok l => foldl addRoom st (room_of_pg <$> l)
                  end
      end in
    let st :=
      match msgRepo s with
      | None => st
      | Some g => match MessageRepository.GetUserRooms userID g with
                  | Err _ => st
                  | Ok l => foldl addRoom st (room_of_mongo <$> l)
                  end
      end in
    reply (mkGetUserRoomsResponse (merged_rooms st)) s.

Definition GetConversation (req : GetConversationRequest) (s : t) : handled GetConversationResponse :=
  if String.eqb (GetConversationRequest_ConversationId req) "" then
    refuse InvalidArgument "conversation_id is required" s
  else
    match msgRepo s with
    | None => no_repo s
    | Some g =>
        match MessageRepository.GetConversation (GetConversationRequest_ConversationId req) g with
        | Err e => refuse NotFound ("conversation not found: " +:+ e) s
        | Ok (conv, members) => reply (mkGetConversationResponse conv members) s
        end
    end.

Definition SendMessage (uuid : string) (now : GoTime) (req : SendMessageRequest) (s : t) : handled SendMessageResponse :=
  let convID := normalizeRoomID (SendMessageRequest_ConversationId req) in
  if String.eqb convID "" || String.eqb (SendMessageRequest_SenderId req) "" then
    refuse InvalidArgument "conversation_id and sender_id are required" s
  else
    let nowMs := to_unix_milli now in
    let sm := ServerMessage_zero
      <| ServerMessage_RoomId := convID |>
      <| ServerMessage_UserId := SendMessageRequest_SenderId req |>
      <| ServerMessage_MessageId := uuid |>
      <| ServerMessage_Text := SendMessageRequest_Content req |>
      <| ServerMessage_SentAtUnixMs := nowMs |>
      <| ServerMessage_DeliveredAtUnixMs := nowMs |>
      <| ServerMessage_Type := SendMessageRequest_MessageType req |>
      <| ServerMessage_MediaKey := SendMessageRequest_MediaKey req |>
      <| ServerMessage_MediaName := SendMessageRequest_MediaName req |>
      <| ServerMessage_MediaSizeBytes := SendMessageRequest_MediaSizeBytes req |>
      <| ServerMessage_MediaMimeType := SendMessageRequest_MediaMimeType req |>
      <| ServerMessage_ReplyToMessageId := SendMessageRequest_ReplyToMessageId req |>
      <| ServerMessage_EventType := EventType_EVENT_TYPE_MESSAGE |>
      <| ServerMessage_Status := MessageStatus_MESSAGE_STATUS_SENT |> in
    let! r := broadcast sm true s in
    reply (mkSendMessageResponse sm) (persistMessage r.2 r.1).

Definition SearchMessages (req : SearchMessagesRequest) (s : t) : handled SearchMessagesResponse :=
  let convID := SearchMessagesRequest_ConversationId req in
  if String.eqb convID "" || String.eqb (SearchMessagesRequest_Query req) "" then
    refuse InvalidArgument "conversation_id and query are required" s
  else
    match msgRepo s with
    | None => reply (mkSearchMessagesResponse []) s
    | Some g =>
        match MessageRepository.SearchMessages convID (SearchMessagesRequest_Query req) (SearchMessagesRequest_Limit req) g with
        | Err e => refuse Internal ("search messages: " +:+ e) s
        | Ok msgs => reply (mkSearchMessagesResponse msgs) s
        end
    end.

Definition DeleteMessage (req : DeleteMessageRequest) (s : t) : handled DeleteMessageResponse :=
  let messageID := DeleteMessageRequest_MessageId req in
  let userID := DeleteMessageRequest_UserId req in
  if String.eqb messageID "" || String.eqb userID "" then
    refuse InvalidArgument "message_id and user_id are required" s
  else
    match on_mongo (MessageRepository.SoftDeleteMessageByOwner messageID userID) s with
    | None => no_repo s
    | Some (s, Err e) => refuse Internal ("delete message: " +:+ e) s
    | Some (s, Ok deleted) =>
        let convID := normalizeRoomID (DeleteMessageRequest_ConversationId req) in
        let! s :=
          (if deleted && negb (String.eqb convID "") then
             broadcast_ (ServerMessage_zero <| ServerMessage_RoomId := convID |> <| ServerMessage_UserId := userID |>
                           <| ServerMessage_MessageId := messageID |>
                           <| ServerMessage_EventType := EventType_EVENT_TYPE_DELETE |>
                           <| ServerMessage_IsDeleted := true |>) true s
           else Done s) in
        reply (mkDeleteMessageResponse deleted) s
    end.

Definition EditMessage (now : GoTime) (req : EditMessageRequest) (s : t) : handled EditMessageResponse :=
  let messageID := EditMessageRequest_MessageId req in
  let userID := EditMessageRequest_UserId req in
  let text := EditMessageRequest_NewContent req in
  if String.eqb messageID "" || String.eqb userID "" || String.eqb text "" then
    refuse InvalidArgument "message_id, user_id, and new_content are required" s
  else
    match on_mongo (MessageRepository.EditMessage now messageID userID text) s with
    | None => no_repo s
    | Some (s, Err e) => refuse Internal ("edit message: " +:+ e) s
    | Some (s, Ok editedAt) =>
        let convID := normalizeRoomID (EditMessageRequest_ConversationId req) in
        let sm := ServerMessage_zero <| ServerMessage_RoomId := convID |> <| ServerMessage_UserId := userID |>
                    <| ServerMessage_MessageId := messageID |> <| ServerMessage_Text := text |>
                    <| ServerMessage_EventType := EventType_EVENT_TYPE_EDIT |>
                    <| ServerMessage_EditedAtUnixMs := editedAt |> in
        let! s := (if negb (String.eqb convID "") then broadcast_ sm true s else Done s) in
        reply (mkEditMessageResponse sm) s
    end.

Definition MarkMessageRead (now : GoTime) (req : MarkMessageReadRequest) (s : t) : handled MarkMessageReadResponse :=
  let convID := MarkMessageReadRequest_ConversationId req in
  let userID := MarkMessageReadRequest_UserId req in
  if String.eqb convID "" || String.eqb userID "" then
    refuse InvalidArgument "conversation_id and user_id are required" s
  else
    reply (mkMarkMessageReadResponse true)
      (mongo_ (MessageRepository.MarkMessageRead now convID userID (MarkMessageReadRequest_MessageId req)) s).

Definition GetUnreadCount (req : GetUnreadCountRequest) (s : t) : handled GetUnreadCountResponse :=
  let userID := GetUnreadCountRequest_UserId req in
  if String.eqb userID "" then refuse InvalidArgument "user_id is required" s
  else
    match msgRepo s with
    | None => reply (mkGetUnreadCountResponse 0) s
    | Some g =>
        match MessageRepository.GetUnreadCount userID (GetUnreadCountRequest_ConversationId req) g with
        | Err e => refuse Internal ("get unread count: " +:+ e) s
        | Ok count => reply (mkGetUnreadCountResponse count) s
        end
    end.

(** ** Groups *)

Definition CreateGroup (unix_nano : Z) (now : GoTime) (req : CreateGroupRequest) (s : t) : handled CreateGroupResponse :=
  if String.eqb (CreateGroupRequest_GroupName req) "" || String.eqb (CreateGroupRequest_CreatedBy req) "" then
    refuse InvalidArgument "group_name and created_by are required" s
  else
    match on_mongo (MessageRepository.CreateGroupConversation order unix_nano now
            (CreateGroupRequest_GroupName req) (CreateGroupRequest_GroupPhoto req)
            (CreateGroupRequest_Description req) (CreateGroupRequest_CreatedBy req)
            (CreateGroupRequest_MemberIds req)) s with
    | None => no_repo s
    | Some (s, Err e) => refuse Internal ("create group: " +:+ e) s
    | Some (s, Ok conv) => reply (mkCreateGroupResponse conv) s
    end.

(** The common shape of the handlers below: the store's call, its error as Internal. *)
Definition group_call {R} (what : string) (f : G → G * option string) (r : R) (s : t) : handled R :=
  match on_mongo f s with
  | None => no_repo s
  | Some (s, Some e) => refuse Internal (what +:+ ": " +:+ e) s
  | Some (s, None) => reply r s
  end.

Definition AddGroupMember (now : GoTime) (req : AddGroupMemberRequest) (s : t) : handled AddGroupMemberResponse :=
  let convID := AddGroupMemberRequest_ConversationId req in
  let userID := AddGroupMemberRequest_UserId req in
  if String.eqb convID "" || String.eqb userID "" then
    refuse InvalidArgument "conversation_id and user_id are required" s
  else
    group_call "add group member"
      (MessageRepository.AddGroupMember now convID userID (AddGroupMemberRequest_OperatorId req)
         (AddGroupMemberRequest_Role req))
      (mkAddGroupMemberResponse true) s.

Definition RemoveGroupMember (req : RemoveGroupMemberRequest) (s : t) : handled RemoveGroupMemberResponse :=
  let convID := RemoveGroupMemberRequest_ConversationId req in
  let userID := RemoveGroupMemberRequest_UserId req in
  if String.eqb convID "" || String.eqb userID "" then
    refuse InvalidArgument "conversation_id and user_id are required" s
  else
    group_call "remove group member"
      (MessageRepository.RemoveGroupMember convID userID (RemoveGroupMemberRequest_OperatorId req))
      (mkRemoveGroupMemberResponse true) s.

Definition LeaveGroup (req : LeaveGroupRequest) (s : t) : handled LeaveGroupResponse :=
  let convID := LeaveGroupRequest_ConversationId req in
  let userID := LeaveGroupRequest_UserId req in
  if String.eqb convID "" || String.eqb userID "" then
    refuse InvalidArgument "conversation_id and user_id are required" s
  else
    group_call "leave group" (MessageRepository.LeaveGroup convID userID) (mkLeaveGroupResponse true) s.

Definition PromoteAdmin (req : PromoteAdminRequest) (s : t) : handled PromoteAdminResponse :=
  let convID := PromoteAdminRequest_ConversationId req in
  let userID := PromoteAdminRequest_UserId req in
  if String.eqb convID "" || String.eqb userID "" then
    refuse InvalidArgument "conversation_id and user_id are required" s
  else
    group_call "promote admin"
      (MessageRepository.PromoteAdmin convID userID (PromoteAdminRequest_OperatorId req))
      (mkPromoteAdminResponse true) s.

Definition TransferOwnership (req : TransferOwnershipRequest) (s : t) : handled TransferOwnershipResponse :=
  let convID := TransferOwnershipRequest_ConversationId req in
  let newOwnerID := TransferOwnershipRequest_NewOwnerId req in
  if String.eqb convID "" || String.eqb newOwnerID "" then
    refuse InvalidArgument "conversation_id and new_owner_id are required" s
  else
    group_call "transfer ownership"
      (MessageRepository.TransferOwnership convID (TransferOwnershipRequest_CurrentOwnerId req) newOwnerID)
      (mkTransferOwnershipResponse true) s.

Definition DeleteGroup (req : DeleteGroupRequest) (s : t) : handled DeleteGroupResponse :=
  let convID := DeleteGroupRequest_ConversationId req in
  let ownerID := DeleteGroupRequest_OwnerId req in
  if String.eqb convID "" || String.eqb ownerID "" then
    refuse InvalidArgument "conversation_id and owner_id are required" s
  else
    group_call "delete group" (MessageRepository.DeleteGroup convID ownerID) (mkDeleteGroupResponse true) s.

(** ** All the calls of the server *)

Inductive call : Type :=
  | CallFrame (now : GoTime) (m : ClientMessage)
  | CallTask (fresh : string) (now : GoTime) (i : nat)
  | CallGetMessages (req : GetMessagesRequest)
  | CallGetPresence (now : GoTime) (req : GetPresenceRequest)
  | CallCreateRoom (uuid : string) (unix_nano : Z) (now : GoTime) (req : CreateRoomRequest)
  | CallRequestUpload (now : GoTime) (clock : nat → GoTime) (req : UploadRequest)
  | CallGetDownloadUrl (clock : nat → GoTime) (req : GetDownloadUrlRequest)
  | CallGetUserRooms (req : GetUserRoomsRequest)
  | CallGetConversation (req : GetConversationRequest)
  | CallSendMessage (uuid : string) (now : GoTime) (req : SendMessageRequest)
  | CallSearchMessages (req : SearchMessagesRequest)
  | CallDeleteMessage (req : DeleteMessageRequest)
  | CallEditMessage (now : GoTime) (req : EditMessageRequest)
  | CallMarkMessageRead (now : GoTime) (req : MarkMessageReadRequest)
  | CallGetUnreadCount (req : GetUnreadCountRequest)
  | CallCreateGroup (unix_nano : Z) (now : GoTime) (req : CreateGroupRequest)
  | CallAddGroupMember (now : GoTime) (req : AddGroupMemberRequest)
  | CallRemoveGroupMember (req : RemoveGroupMemberRequest)
  | CallLeaveGroup (req : LeaveGroupRequest)
  | CallPromoteAdmin (req : PromoteAdminRequest)
  | CallTransferOwnership (req : TransferOwnershipRequest)
  | CallDeleteGroup (req : DeleteGroupRequest).

Definition state_of {R} (m : handled R) : outcome t := let! r := m in Done r.1.

(** The state after a call; a goroutine that runs leaves the list of tasks. *)
Definition run (c : call) (s : t) : outcome t :=
  match c with
  | CallFrame now m => processIncoming now m s
  | CallTask fresh now i =>
      match tasks s !! i with
      | Some k => Done (run_task fresh now k (s <| tasks := delete i (tasks s) |>))
      | None => Done s
      end
  | CallGetMessages req => state_of (GetMessages req s)
  | CallGetPresence now req => state_of (GetPresence now req s)
  | CallCreateRoom uuid nano now req => state_of (CreateRoom uuid nano now req s)
  | CallRequestUpload now clock req => state_of (RequestUpload now clock req s)
  | CallGetDownloadUrl clock req => state_of (GetDownloadUrl clock req s)
  | CallGetUserRooms req => state_of (GetUserRooms req s)
  | CallGetConversation req => state_of (GetConversation req s)
  | CallSendMessage uuid now req => state_of (SendMessage uuid now req s)
  | CallSearchMessages req => state_of (SearchMessages req s)
  | CallDeleteMessage req => state_of (DeleteMessage req s)
  | CallEditMessage now req => state_of (EditMessage now req s)
  | CallMarkMessageRead now req => state_of (MarkMessageRead now req s)
  | CallGetUnreadCount req => state_of (GetUnreadCount req s)
  | CallCreateGroup nano now req => state_of (CreateGroup nano now req s)
  | CallAddGroupMember now req => state_of (AddGroupMember now req s)
  | CallRemoveGroupMember req => state_of (RemoveGroupMember req s)
  | CallLeaveGroup req => state_of (LeaveGroup req s)
  | CallPromoteAdmin req => state_of (PromoteAdmin req s)
  | CallTransferOwnership req => state_of (TransferOwnership req s)
  | CallDeleteGroup req => state_of (DeleteGroup req s)
  end.

(** ** Lemmas *)

Context `{!BrokerLaws B}.

(** Two states with the same hub and the same backends. *)
Definition quiet (s s' : t) : Prop :=
  hub s' = hub s ∧ (is_Some (msgRepo s') ↔ is_Some (msgRepo s)) ∧ (is_Some (pgRooms s') ↔ is_Some (pgRooms s)).

#[local] Instance quiet_refl : Reflexive quiet.
Proof. done. Qed.
#[local] Instance quiet_trans : Transitive quiet.
Proof. intros a b c (? & ? & ?) (? & ? & ?). split; [congruence|]. split; tauto. Qed.

Lemma on_mongo_quiet {A} (f : G → G * A) s s' a : on_mongo f s = Some (s', a) → quiet s s'.
Proof.
  unfold on_mongo. destruct (msgRepo s) as [g|] eqn:E; [|done]. destruct (f g) as [g' a']. intros [= <- <-].
  split; [done|]. simpl. rewrite E. split; [by split|done].
Qed.
Lemma on_pg_quiet {A} (f : Q → Q * A) s s' a : on_pg f s = Some (s', a) → quiet s s'.
Proof.
  unfold on_pg. destruct (pgRooms s) as [g|] eqn:E; [|done]. destruct (f g) as [g' a']. intros [= <- <-].
  split; [done|]. simpl. rewrite E. split; [done|by split].
Qed.
Lemma mongo_quiet {A} (f : G → G * A) s : quiet s (mongo_ f s).
Proof. unfold mongo_. destruct (on_mongo f s) as [[s' a]|] eqn:E; [by eapply on_mongo_quiet|done]. Qed.
Lemma pg_quiet {A} (f : Q → Q * A) s : quiet s (pg_ f s).
Proof. unfold pg_. destruct (on_pg f s) as [[s' a]|] eqn:E; [by eapply on_pg_quiet|done]. Qed.

Lemma run_task_quiet fresh now k s : quiet s (run_task fresh now k s).
Proof.
  destruct k; simpl; [eapply quiet_trans; [|apply pg_quiet]; apply mongo_quiet| |apply mongo_quiet].
  destruct (_ !! p) as [msg|]; [|done]. set (s1 := mongo_ _ s). transitivity s1; [apply mongo_quiet|].
  destruct (pgRooms s1); [|done]. case_match; [apply pg_quiet|].
  eapply quiet_trans; [|apply mongo_quiet]. eapply quiet_trans; [|apply pg_quiet]. apply pg_quiet.
Qed.

(** The hub is safe and its rooms have the same members. *)
Definition hub_kept (R : gset nat) (s s' : t) : Prop :=
  Hub.hub_inv R (hub s') ∧ ∀ r, Hub.members r (hub s') = Hub.members r (hub s).

Lemma quiet_kept R s s' : Hub.hub_inv R (hub s) → quiet s s' → hub_kept R s s'.
Proof. intros H (E & _). unfold hub_kept. by rewrite E. Qed.

Lemma broadcast_ok R m pub s :
  Hub.hub_inv R (hub s) →
  ∃ h' p, broadcast m pub s = Done (s <| hub := h' |>, p) ∧ Hub.hub_inv R h'
    ∧ (∀ r, Hub.members r h' = Hub.members r (hub s)) ∧ Hub.msgs h' !! p = Some m
    ∧ Hub.Broadcast_new m pub (hub s) = Done h'.
Proof.
  intros Hi. destruct (Hub.alloc_inv m R (hub s) Hi) as [Hi1 Hm1].
  destruct (Hub.Broadcast_spec (Hub.next (hub s)) pub m R _ Hi1) as (h' & Hb & Hi' & Hm' & _ & Hms & _);
    [simpl; by rewrite lookup_insert_eq|].
  exists h', (Hub.next (hub s)). unfold broadcast, Hub.Broadcast_new.
  destruct (Hub.alloc m (hub s)) as [h1 p] eqn:Ea. unfold Hub.alloc in Ea. injection Ea as <- <-. simpl in *.
  rewrite Hb. simpl. split_and!; [done..| | |done].
  - done.
  - rewrite Hms. simpl. by rewrite lookup_insert_eq.
Qed.

(** A call returns, with the hub safe. *)
Definition safe (R : gset nat) (s : t) (m : outcome t) : Prop := ∃ s', m = Done s' ∧ hub_kept R s s'.

Ltac quiet_facts :=
  repeat match goal with
  | E : on_mongo _ _ = Some _ |- _ => apply on_mongo_quiet in E
  | E : on_pg _ _ = Some _ |- _ => apply on_pg_quiet in E
  end.

Lemma safe_broadcast_ R m pub s s1 :
  Hub.hub_inv R (hub s) → quiet s s1 → safe R s (broadcast_ m pub s1).
Proof.
  intros Hi (Hq & _). rewrite <- Hq in Hi. destruct (broadcast_ok R m pub s1 Hi) as (h & p & E & Hi' & Hm & _).
  unfold safe, broadcast_. rewrite E. simpl. eexists. split; [done|]. split; [done|].
  intros r. rewrite <- Hq. apply Hm.
Qed.

Lemma safe_quiet R s s1 : Hub.hub_inv R (hub s) → quiet s s1 → safe R s (Done s1).
Proof. intros Hi Hq. eexists. split; [done|]. by apply quiet_kept. Qed.

Lemma safe_state_of {A} R s (m : outcome t) (k : t → handled A) :
  safe R s m → (∀ s1, ∃ s2 r, k s1 = Done (s2, r) ∧ quiet s1 s2) → safe R s (state_of (let! s1 := m in k s1)).
Proof.
  intros (s1 & -> & Hi & Hm) Hk. simpl. destruct (Hk s1) as (s2 & r & -> & Hq & _). simpl.
  eexists. split; [done|]. split; rewrite Hq; done.
Qed.

Lemma persist_quiet p s : quiet s (persistMessage p s).
Proof. unfold persistMessage. by destruct (msgRepo s), (pgRooms s). Qed.

Ltac quiet_solve :=
  quiet_facts; unfold quiet in *; cbn [hub msgRepo pgRooms spawn set_field] in *;
  destruct_and?; split; [congruence|split; tauto].

Lemma safe_frame R now m s : Hub.hub_inv R (hub s) → safe R s (processIncoming now m s).
Proof.
  intros Hi. unfold processIncoming. cbv zeta.
  repeat case_match; try (apply safe_broadcast_; [done|quiet_solve]); try (apply safe_quiet; [done|quiet_solve]).
  destruct (broadcast_ok R (toServerMsg now m <| ServerMessage_Status := MessageStatus_MESSAGE_STATUS_SENT |>)
    true s Hi) as (h & p & -> & Hi' & Hm & _).
  cbn [outcome_bind fst snd].
  eexists. split; [done|]. destruct (persist_quiet p (s <| hub := h |>)) as [Hq _]. unfold hub_kept. cbn [fst snd]. by rewrite Hq.
Qed.

Lemma safe_send R uuid now req s : Hub.hub_inv R (hub s) → safe R s (state_of (SendMessage uuid now req s)).
Proof.
  intros Hi. unfold SendMessage. cbv zeta. case_match; [by apply safe_quiet|].
  match goal with |- context [broadcast ?m true s] => generalize m; intros sm end.
  destruct (broadcast_ok R sm true s Hi) as (h & p & -> & Hi' & Hm & _).
  cbn [outcome_bind fst snd].
  eexists. split; [done|]. destruct (persist_quiet p (s <| hub := h |>)) as [Hq _]. unfold hub_kept. cbn [fst snd]. by rewrite Hq.
Qed.

(** A handler that broadcasts nothing returns, with the same hub. *)
Definition quietly {A} (s : t) (m : handled A) : Prop := ∃ s1 r, m = Done (s1, r) ∧ quiet s s1.

Lemma quietly_reply {A} (r : A) s s1 : quiet s s1 → quietly s (reply r s1).
Proof. intros H. by eexists _, _. Qed.
Lemma quietly_refuse {A} c msg s s1 : quiet s s1 → quietly s (refuse (R := A) c msg s1).
Proof. intros H. by eexists _, _. Qed.

(** Case on what a handler matches on, outermost first, down to its replies. *)
Ltac handler :=
  repeat lazymatch goal with
  | |- quietly _ (match ?x with _ => _ end) => let E := fresh "E" in destruct x eqn:E
  | |- quietly _ (reply _ _) => apply quietly_reply
  | |- quietly _ (refuse _ _ _) => apply quietly_refuse
  | |- quietly _ (no_repo _) => apply quietly_refuse
  | E : (_, _) = (_, _) |- _ => injection E as ? ?; subst
  end.

Lemma GetMessages_quiet req s : quietly s (GetMessages req s).
Proof.
  unfold GetMessages. cbv zeta. handler; repeat case_match; done.
Qed.

Lemma GetPresence_quiet now req s : quietly s (GetPresence now req s).
Proof. unfold GetPresence. handler; done. Qed.

Lemma create_dm_quiet now a b c s : quietly s (create_dm now a b c s).
Proof.
  unfold create_dm. cbv zeta.
  set (w := match on_pg _ s with Some _ => _ | None => _ end).
  assert (Hw : quiet s w.1).
  { unfold w. destruct (on_pg _ s) as [[s1 [m|e]]|] eqn:E; [by eapply on_pg_quiet..|done]. }
  destruct w as [s1 [[id name]|e]]; [|by apply quietly_refuse]. simpl in Hw.
  set (v := match on_mongo _ s1 with Some _ => _ | None => _ end).
  assert (Hv : quiet s v.1).
  { etransitivity; [exact Hw|]. unfold v.
    destruct (on_mongo _ s1) as [[s2 [m|e]]|] eqn:E; [by eapply on_mongo_quiet..|done]. }
  destruct v as [s2 id']. simpl in Hv. destruct (String.eqb id' ""); [|by apply quietly_reply].
  destruct (RoomStore.CreateDM _ _ _ _ _) as [rs [m|e]]; [apply quietly_reply|apply quietly_refuse]; exact Hv.
Qed.

Lemma create_group_quiet uuid nano now name c ms s : quietly s (create_group uuid nano now name c ms s).
Proof.
  unfold create_group. cbv zeta.
  assert (Hf : ∀ s1, quiet s s1 → quietly s
    match on_pg (RoomRepository.CreateGroup now ("group:" +:+ uuid) name c ms) s1 with
    | Some (s, Err e) => refuse Internal ("create group (pg): " +:+ e) s
    | Some (s, Ok meta) => reply (mkCreateRoomResponse (RoomRepository.RoomID meta) (RoomRepository.Name meta)) s
    | None =>
        let '(rs, meta) := RoomStore.CreateGroup now uuid name c ms (rooms s1) in
        match meta with
        | Err e => refuse Internal ("create group: " +:+ e) (s1 <| rooms := rs |>)
        | Ok meta => reply (mkCreateRoomResponse (RoomStore.RoomID meta) (RoomStore.Name meta)) (s1 <| rooms := rs |>)
        end
    end).
  { intros s1 Hs. destruct (on_pg _ s1) as [[s2 [m|e]]|] eqn:E.
    - apply quietly_reply. etransitivity; [exact Hs|by eapply on_pg_quiet].
    - apply quietly_refuse. etransitivity; [exact Hs|by eapply on_pg_quiet].
    - destruct (RoomStore.CreateGroup _ _ _ _ _ _) as [rs [m|e]]; [apply quietly_reply|apply quietly_refuse]; exact Hs. }
  destruct (on_mongo _ s) as [[s1 [m|e]]|] eqn:E; [apply quietly_reply|apply Hf|by apply Hf];
    by eapply on_mongo_quiet.
Qed.

Lemma CreateRoom_quiet uuid nano now req s : quietly s (CreateRoom uuid nano now req s).
Proof.
  unfold CreateRoom. cbv zeta.
  repeat (case_match; try (by apply quietly_refuse)); [apply create_dm_quiet|apply create_group_quiet].
Qed.

Lemma group_call_quiet {A} what f (r : A) s : quietly s (group_call what f r s).
Proof.
  unfold group_call. destruct (on_mongo f s) as [[s1 [e|]]|] eqn:E;
    [apply quietly_refuse|apply quietly_reply|by apply quietly_refuse]; by eapply on_mongo_quiet.
Qed.

Lemma CreateGroup_quiet nano now req s : quietly s (CreateGroup nano now req s).
Proof.
  unfold CreateGroup. case_match; [by apply quietly_refuse|].
  destruct (on_mongo _ s) as [[s1 [m|e]]|] eqn:E; [apply quietly_reply|apply quietly_refuse|by apply quietly_refuse];
    by eapply on_mongo_quiet.
Qed.

Lemma safe_quietly {A} R s (m : handled A) : Hub.hub_inv R (hub s) → quietly s m → safe R s (state_of m).
Proof. intros Hi (s1 & r & -> & Hq). by apply safe_quiet. Qed.

Lemma safe_delete R req s : Hub.hub_inv R (hub s) → safe R s (state_of (DeleteMessage req s)).
Proof.
  intros Hi. unfold DeleteMessage. cbv zeta. case_match; [by apply safe_quiet|].
  destruct (on_mongo _ s) as [[s1 [d|e]]|] eqn:E; [|apply safe_quiet; [done|by eapply on_mongo_quiet]|by apply safe_quiet].
  apply on_mongo_quiet in E. apply safe_state_of; [|intros s2; by eexists _, _].
  case_match; [by apply safe_broadcast_|by apply safe_quiet].
Qed.

Lemma safe_edit R now req s : Hub.hub_inv R (hub s) → safe R s (state_of (EditMessage now req s)).
Proof.
  intros Hi. unfold EditMessage. cbv zeta. case_match; [by apply safe_quiet|].
  destruct (on_mongo _ s) as [[s1 [d|e]]|] eqn:E; [|apply safe_quiet; [done|by eapply on_mongo_quiet]|by apply safe_quiet].
  apply on_mongo_quiet in E. apply safe_state_of; [|intros s2; by eexists _, _].
  case_match; [by apply safe_broadcast_|by apply safe_quiet].
Qed.

(** The calls that may broadcast. *)
Definition speaks (c : call) : bool :=
  match c with CallFrame _ _ | CallSendMessage _ _ _ | CallDeleteMessage _ | CallEditMessage _ _ => true | _ => false end.

Lemma quietly_state_of {A} s (m : handled A) : quietly s m → ∃ s', state_of m = Done s' ∧ quiet s s'.
Proof. intros (s1 & r & -> & Hq). by exists s1. Qed.

Lemma run_quiet c s : speaks c = false → ∃ s', run c s = Done s' ∧ quiet s s'.
Proof.
  intros Hc. destruct c; try done; cbn [run]; try apply quietly_state_of.
  - destruct (tasks s !! i) as [k|]; [|by exists s]. eexists. split; [done|].
    pose proof (run_task_quiet fresh now k (s <| tasks := delete i (tasks s) |>)) as Hq. quiet_solve.
  - apply GetMessages_quiet.
  - apply GetPresence_quiet.
  - apply CreateRoom_quiet.
  - unfold RequestUpload. cbv zeta. handler; try done. by case_match.
  - unfold GetDownloadUrl. handler; done.
  - unfold GetUserRooms. cbv zeta. handler; done.
  - unfold GetConversation. handler; done.
  - unfold SearchMessages. cbv zeta. handler; done.
  - unfold MarkMessageRead. cbv zeta. handler; [done|apply mongo_quiet].
  - unfold GetUnreadCount. cbv zeta. handler; done.
  - apply CreateGroup_quiet.
  - unfold AddGroupMember. cbv zeta. case_match; [by apply quietly_refuse|apply group_call_quiet].
  - unfold RemoveGroupMember. cbv zeta. case_match; [by apply quietly_refuse|apply group_call_quiet].
  - unfold LeaveGroup. cbv zeta. case_match; [by apply quietly_refuse|apply group_call_quiet].
  - unfold PromoteAdmin. cbv zeta. case_match; [by apply quietly_refuse|apply group_call_quiet].
  - unfold TransferOwnership. cbv zeta. case_match; [by apply quietly_refuse|apply group_call_quiet].
  - unfold DeleteGroup. cbv zeta. case_match; [by apply quietly_refuse|apply group_call_quiet].
Qed.

Lemma run_safe R c s : Hub.hub_inv R (hub s) → safe R s (run c s).
Proof.
  intros Hi. destruct (speaks c) eqn:Hc.
  - destruct c; try done; cbn [run]; by first [apply safe_frame|apply safe_send|apply safe_delete|apply safe_edit].
  - destruct (run_quiet c s Hc) as (s' & -> & Hq). by apply safe_quiet.
Qed.

(** *** What a call says *)

(** The call returns, and leaves the hub or broadcasts one message, which satisfies [φ]. *)
Definition says (φ : ServerMessage → Prop) (s : t) (m : outcome t) : Prop :=
  ∃ s', m = Done s' ∧ (hub s' = hub s ∨ ∃ sm pub, φ sm ∧ Hub.Broadcast_new sm pub (hub s) = Done (hub s')).

Lemma says_quiet φ s s1 : quiet s s1 → says φ s (Done s1).
Proof. intros [Hq _]. exists s1. auto. Qed.

Lemma says_broadcast (φ : ServerMessage → Prop) R m pub s s1 :
  Hub.hub_inv R (hub s) → quiet s s1 → φ m → ∃ h p, broadcast m pub s1 = Done (s1 <| hub := h |>, p) ∧
    Hub.Broadcast_new m pub (hub s) = Done h.
Proof.
  intros Hi [Hq _] Hm. rewrite <- Hq in Hi |- *. destruct (broadcast_ok R m pub s1 Hi) as (h & p & E & _ & _ & _ & Eb).
  by exists h, p.
Qed.

Lemma says_broadcast_ (φ : ServerMessage → Prop) R m pub s s1 :
  Hub.hub_inv R (hub s) → quiet s s1 → φ m → says φ s (broadcast_ m pub s1).
Proof.
  intros Hi Hq Hm. destruct (says_broadcast φ R m pub s s1 Hi Hq Hm) as (h & p & E & Eb).
  unfold says, broadcast_. rewrite E. simpl. eexists. split; [done|]. right. by exists m, pub.
Qed.

Lemma says_persisted (φ : ServerMessage → Prop) R m s (k : nat → t → outcome t) :
  Hub.hub_inv R (hub s) → φ m → (∀ p s1, ∃ s2, k p s1 = Done s2 ∧ quiet s1 s2) →
  says φ s (let! r := broadcast m true s in k r.2 r.1).
Proof.
  intros Hi Hm Hk. destruct (says_broadcast φ R m true s s Hi (reflexivity s) Hm) as (h & p & E & Eb). rewrite E.
  cbn [outcome_bind fst snd].
  destruct (Hk p (s <| hub := h |>)) as (s2 & -> & Hq & _). exists s2. split; [done|]. right. exists m, true.
  split; [done|]. by rewrite Hq.
Qed.

Lemma says_state_of {A} φ s (m : outcome t) (r : A) :
  says φ s m → says φ s (state_of (let! s1 := m in reply r s1)).
Proof. intros (s1 & -> & H). by exists s1. Qed.

(** No call of the server panics and none changes who is in a room, whatever the
    backends are and answer: with a sound hub, every frame, every unary request and every
    goroutine that runs leaves a sound hub with the same members in every room. *)
Theorem calls_keep_the_hub R c s :
  Hub.hub_inv R (hub s) →
  ∃ s', run c s = Done s' ∧ Hub.hub_inv R (hub s') ∧ ∀ r, Hub.members r (hub s') = Hub.members r (hub s).
Proof. apply run_safe. Qed.

(** ** Who may change a message *)

Context `{!MongoLaws G}.

Definition owned_message (g : G) (messageID userID : string) : Prop :=
  ∃ d, d ∈ docs Messages g ∧ MessageRepository.has_id messageID d = true
    ∧ MessageRepository.owned_by userID d = true.

Lemma plain_match c p paths f (g g' : G) n :
  update_one Messages (λ d, c d && (MessageRepository.has_id p d)) (mkUpdate paths f None) g = (g', Ok n) →
  n ≠ 0 → ∃ d, d ∈ docs Messages g ∧ c d = true ∧ MessageRepository.has_id p d = true.
Proof.
  intros E Hn. apply MessageRepository.update_plain in E as [(-> & _)|(_ & l1 & d & l2 & Hs & Hd & _)]; [done|].
  bool_facts. exists d. split; [rewrite Hs, elem_of_app, elem_of_cons; tauto|done].
Qed.

Lemma soft_delete_owned id u (g g' : G) :
  MessageRepository.SoftDeleteMessageByOwner id u g = (g', Ok true) → owned_message g id u.
Proof.
  unfold MessageRepository.SoftDeleteMessageByOwner.
  destruct (update_one _ _ _ g) as [g1 [n|e]] eqn:E; cbn [result_map]; [|done]. intros [= <- Hn].
  apply bool_decide_eq_true in Hn.
  apply MessageRepository.update_plain in E as [(-> & _)|(_ & l1 & d & l2 & Hs & Hd & _)]; [lia|].
  bool_facts. exists d. split; [rewrite Hs, elem_of_app, elem_of_cons; tauto|done].
Qed.

Lemma edit_owned now id u text (g g' : G) z :
  MessageRepository.EditMessage now id u text g = (g', Ok z) → owned_message g id u.
Proof.
  unfold MessageRepository.EditMessage. destruct (update_one _ _ _ g) as [g1 [n|e]] eqn:E; [|done].
  intros [= <- Hn].
  apply MessageRepository.update_plain in E as [(-> & _)|(_ & l1 & d & l2 & Hs & Hd & _)]; [done|].
  bool_facts. exists d. split; [rewrite Hs, elem_of_app, elem_of_cons; tauto|done].
Qed.

(** The message that announces a deletion, and the branch of a DELETE frame. *)
Definition announcement (m : ClientMessage) : ServerMessage :=
  event_of (normalizeRoomID (ClientMessage_RoomId m)) m EventType_EVENT_TYPE_DELETE
    <| ServerMessage_MessageId := ClientMessage_MessageId m |> <| ServerMessage_IsDeleted := true |>.

Lemma processIncoming_message now m s :
  ClientMessage_EventType m = EventType_EVENT_TYPE_MESSAGE →
  ClientMessage_Text m ≠ "" ∨ ClientMessage_MediaKey m ≠ "" →
  processIncoming now m s =
    let! r := broadcast (toServerMsg now m <| ServerMessage_Status := MessageStatus_MESSAGE_STATUS_SENT |>) true s in
    Done (persistMessage r.2 r.1).
Proof.
  intros He Hc. unfold processIncoming. cbv zeta. rewrite He.
  cbn [Z.eqb EventType_EVENT_TYPE_MESSAGE EventType_EVENT_TYPE_TYPING_START EventType_EVENT_TYPE_TYPING_STOP
    EventType_EVENT_TYPE_READ_RECEIPT EventType_EVENT_TYPE_REACTION EventType_EVENT_TYPE_DELETE EventType_EVENT_TYPE_EDIT orb].
  assert (Hn : String.eqb (ClientMessage_Text m) "" && String.eqb (ClientMessage_MediaKey m) "" = false).
  { apply andb_false_iff. destruct Hc; [left|right]; by apply String.eqb_neq. }
  by rewrite Hn.
Qed.

Lemma processIncoming_delete now m s :
  ClientMessage_EventType m = EventType_EVENT_TYPE_DELETE →
  processIncoming now m s =
    if String.eqb (ClientMessage_MessageId m) "" then Done s
    else
      match on_mongo (MessageRepository.SoftDeleteMessageByOwner (ClientMessage_MessageId m) (ClientMessage_UserId m)) s with
      | None => Done s
      | Some (s, Err _) => Done s
      | Some (s, Ok false) => Done s
      | Some (s, Ok true) => broadcast_ (announcement m) true s
      end.
Proof. intros H. unfold processIncoming. rewrite H. reflexivity. Qed.

(** With a message store, a deletion or an edit is announced only for a message that
    the named user wrote: if a DELETE or EDIT frame, [DeleteMessage] or [EditMessage]
    changes anything in the hub, the store had a message with that id and that owner. *)
Theorem changes_need_ownership now m dreq ereq s g :
  msgRepo s = Some g →
  (∀ s', (ClientMessage_EventType m = EventType_EVENT_TYPE_DELETE ∨ ClientMessage_EventType m = EventType_EVENT_TYPE_EDIT) →
     processIncoming now m s = Done s' → hub s' ≠ hub s →
     owned_message g (ClientMessage_MessageId m) (ClientMessage_UserId m)) ∧
  (∀ s' r, DeleteMessage dreq s = Done (s', r) → hub s' ≠ hub s →
     owned_message g (DeleteMessageRequest_MessageId dreq) (DeleteMessageRequest_UserId dreq)) ∧
  (∀ s' r, EditMessage now ereq s = Done (s', r) → hub s' ≠ hub s →
     owned_message g (EditMessageRequest_MessageId ereq) (EditMessageRequest_UserId ereq)).
Proof.
  intros Hg. split_and!.
  - intros s' Hev E Hne. unfold processIncoming in E. cbv zeta in E.
    destruct Hev as [Hev|Hev]; rewrite Hev in E; cbn [Z.eqb orb] in E; cbn in E.
    + destruct (String.eqb (ClientMessage_MessageId m) ""); [by simplify_eq|].
      unfold on_mongo in E. rewrite Hg in E.
      destruct (MessageRepository.SoftDeleteMessageByOwner _ _ g) as [g' [[]|e]] eqn:Es; simplify_eq/=; try done.
      by eapply soft_delete_owned.
    + case_match; [|by simplify_eq]. unfold on_mongo in E. rewrite Hg in E.
      destruct (MessageRepository.EditMessage _ _ _ _ g) as [g' [z|e]] eqn:Es; simplify_eq/=; try done.
      by eapply edit_owned.
  - intros s' r E Hne. unfold DeleteMessage in E. cbv zeta in E.
    case_match; [by unfold refuse in E; simplify_eq|]. unfold on_mongo in E. rewrite Hg in E.
    destruct (MessageRepository.SoftDeleteMessageByOwner _ _ g) as [g' [[]|e]] eqn:Es; simplify_eq/=.
    + by eapply soft_delete_owned.
    + unfold reply in E. by simplify_eq.
    + unfold refuse in E. by simplify_eq.
  - intros s' r E Hne. unfold EditMessage in E. cbv zeta in E.
    case_match; [by unfold refuse in E; simplify_eq|]. unfold on_mongo in E. rewrite Hg in E.
    destruct (MessageRepository.EditMessage _ _ _ _ g) as [g' [z|e]] eqn:Es; simplify_eq/=.
    + by eapply edit_owned.
    + unfold refuse in E. by simplify_eq.
Qed.

(** The frame with which anyone deletes a message. *)
Definition forged_delete (room : string) (d : messageDoc) : ClientMessage :=
  ClientMessage_zero <| ClientMessage_RoomId := room |> <| ClientMessage_UserId := md_SenderID d |>
    <| ClientMessage_MessageId := md_ID d |> <| ClientMessage_EventType := EventType_EVENT_TYPE_DELETE |>.

(** C36: But the owner is whoever the frame says: no handler gets the caller's identity, so
    on every stream, whoever opened it and whatever its room, a frame that names a stored
    message and its sender marks a message of that id and sender as deleted, and announces
    it in the room that the frame names. *)
Theorem claimed_owner_suffices `{!MongoReliable G} R now room d s g :
  Hub.hub_inv R (hub s) → msgRepo s = Some g → d ∈ docs Messages g → md_ID d ≠ "" →
  ∃ s' g', processIncoming now (forged_delete room d) s = Done s' ∧ msgRepo s' = Some g'
    ∧ Exists (λ d', MessageRepository.has_id (md_ID d) d' = true
                    ∧ MessageRepository.owned_by (md_SenderID d) d' = true ∧ md_IsDeleted d' = true) (docs Messages g')
    ∧ ∃ p msg, Hub.msgs (hub s') !! p = Some msg ∧ ServerMessage_RoomId msg = normalizeRoomID room
        ∧ ServerMessage_MessageId msg = md_ID d ∧ ServerMessage_IsDeleted msg = true.
Proof.
  intros Hi Hg Hd Hid. set (m := forged_delete room d). rewrite (processIncoming_delete now m s eq_refl).
  change (ClientMessage_MessageId m) with (md_ID d). change (ClientMessage_UserId m) with (md_SenderID d).
  change (ClientMessage_RoomId m) with room.
  rewrite (proj2 (String.eqb_neq _ _) Hid). unfold on_mongo. rewrite Hg.
  unfold MessageRepository.SoftDeleteMessageByOwner.
  set (p := λ x, MessageRepository.has_id (md_ID d) x && MessageRepository.owned_by (md_SenderID d) x).
  destruct (update_one Messages p MessageRepository.mark_deleted g) as [g' r] eqn:E.
  pose proof (update_one_answers Messages p MessageRepository.mark_deleted g) as Ha. rewrite E in Ha.
  destruct r as [n|e]; [|specialize (Ha ltac:(decide_now) ltac:(done)); done].
  apply MessageRepository.update_plain in E as [(_ & _ & Hf)|(-> & l1 & d' & l2 & Hs & Hp & Hs')].
  { exfalso. rewrite Forall_forall in Hf. specialize (Hf d Hd). unfold p, MessageRepository.has_id, MessageRepository.owned_by in Hf.
    by rewrite !String.eqb_refl in Hf. }
  cbn [result_map]. change (bool_decide (0 < 1)) with true. cbv iota beta.
    set (s1 := s <| msgRepo := Some g' |>). change (Hub.hub_inv R (hub s1)) in Hi.
  destruct (broadcast_ok R (announcement m) true s1 Hi) as (h & q & Eb & _ & _ & Hm & _).
  unfold broadcast_. rewrite Eb. cbn [outcome_bind fst]. eexists _, g'. split; [done|]. split; [done|]. split.
  - apply Exists_exists. exists (d' <| md_IsDeleted := true |>). unfold p in Hp. bool_facts.
    split; [rewrite Hs', elem_of_app, elem_of_cons; tauto|done].
  - eexists q, _. split; [exact Hm|]. done.
Qed.

(** ** History *)

(** The page size of a request: 1 to 200, 50 for anything else. *)
Definition page_size (req : GetMessagesRequest) : nat :=
  let limit := GetMessagesRequest_Limit req in
  Z.to_nat (if ((limit <=? 0) || (200 <? limit))%Z then 50 else limit).

Definition history_matches (req : GetMessagesRequest) (g : G) : list messageDoc :=
  filter (λ d, MessageRepository.in_history (normalizeRoomID (GetMessagesRequest_RoomId req))
                 (GetMessagesRequest_BeforeUnixMs req) d = true) (docs Messages g).

Lemma page_size_bounds req : 1 ≤ page_size req ≤ 200.
Proof. unfold page_size. cbv zeta. case_match; bool_facts; [split; vm_compute; lia|]. lia. Qed.

Lemma default_limit_succ req :
  MessageRepository.default_limit
    ((if ((GetMessagesRequest_Limit req <=? 0) || (200 <? GetMessagesRequest_Limit req))%Z
      then 50 else GetMessagesRequest_Limit req) + 1) = page_size req + 1.
Proof.
  pose proof (page_size_bounds req) as Hb. unfold MessageRepository.default_limit, page_size in *. cbv zeta in *.
  set (l := if _ : bool then 50%Z else _) in *. destruct (l + 1 <=? 0)%Z eqn:E; bool_facts; lia.
Qed.

(** A page is the newest of the matching documents, in order: [rest] is what it leaves for
    the next one. *)
Lemma GetMessages_page req s g s' resp :
  msgRepo s = Some g → GetMessages req s = Done (s', Ok resp) →
  let room := normalizeRoomID (GetMessagesRequest_RoomId req) in
  let to := (λ m : ServerMessage, m <| ServerMessage_RoomId := room |>) ∘ MessageRepository.docToServerMessage in
  let msgs := GetMessagesResponse_Messages resp in
  room ≠ "" ∧ msgRepo s' = Some g
  ∧ (∃ ds rest, msgs = to <$> ds ∧ ds ++ rest ≡ₚ history_matches req g ∧ length ds ≤ page_size req
     ∧ (if GetMessagesResponse_HasMore resp then length ds = page_size req ∧ rest ≠ [] else rest = [])
     ∧ Forall (λ d, Forall (λ e, (md_CreatedAt e ≤ md_CreatedAt d)%Z) rest) ds
     ∧ StronglySorted (λ d e, (md_CreatedAt e ≤ md_CreatedAt d)%Z) ds)
  ∧ tasks s' = tasks s ++
      match msgs with
      | newest :: _ => if String.eqb (GetMessagesRequest_UserId req) "" then []
                       else [TaskReceipt room (GetMessagesRequest_UserId req) (ServerMessage_MessageId newest) None]
      | [] => []
      end.
Proof.
  intros Hg E room to. cbv zeta. unfold GetMessages in E. cbv zeta in E. rewrite Hg in E.
  destruct (String.eqb _ "") eqn:Hr; [done|]. apply String.eqb_neq in Hr.
  fold room in E, Hr.
  destruct (MessageRepository.GetMessagesBefore _ _ _ g) as [l|e] eqn:Eg; [|done].
  apply MessageRepository.history_is_page in Eg. rewrite default_limit_succ in Eg.
  destruct Eg as (ds & rest & -> & Hlen & Hp & Hrest & Hold & Hsort). rewrite <- list_fmap_compose in E. fold to in E.
  pose proof (page_size_bounds req) as Hb.
  change (Z.to_nat (if _ : bool then 50%Z else _)) with (page_size req) in E.
  assert (Hmore : (bool_decide ((if ((GetMessagesRequest_Limit req <=? 0) || (200 <? GetMessagesRequest_Limit req))%Z
      then 50 else GetMessagesRequest_Limit req) < Z.of_nat (length (to <$> ds)))%Z) = bool_decide (page_size req < length ds)).
  { rewrite length_fmap. unfold page_size in *. cbv zeta in *. apply bool_decide_ext. lia. }
  rewrite Hmore in E. clear Hmore.
  set (msgs := if bool_decide _ then _ else _) in E.
  assert (Hin : ∃ ds' rest', msgs = to <$> ds' ∧ ds' ++ rest' ≡ₚ ds ++ rest ∧ length ds' ≤ page_size req
    ∧ (if bool_decide (page_size req < length ds) then length ds' = page_size req ∧ rest' ≠ [] else rest' = [])
    ∧ Forall (λ d, Forall (λ e, (md_CreatedAt e ≤ md_CreatedAt d)%Z) rest') ds'
    ∧ StronglySorted (λ d e, (md_CreatedAt e ≤ md_CreatedAt d)%Z) ds').
  { unfold msgs. case_bool_decide as Hd.
    - exists (take (page_size req) ds), (drop (page_size req) ds ++ rest).
      rewrite fmap_take, length_take, app_assoc, take_drop. rewrite <- (take_drop (page_size req) ds) in Hsort, Hold.
      apply Forall_app in Hold as [Hold _].
      split_and!; [done|done|lia|lia| | |by apply StronglySorted_app_1_l in Hsort].
      + intros H%(f_equal length). rewrite length_app, length_drop in H. simpl in H. lia.
      + apply Forall_forall. intros d Hd'. rewrite Forall_forall in Hold. apply Forall_app_2; [|by apply Hold].
        apply Forall_forall. intros e He. by apply (StronglySorted_app_1_elem_of _ _ _ d e Hsort).
    - destruct Hrest as [->|Hl]; [|lia]. exists ds, []. split_and!; done || lia. }
  destruct Hin as (ds' & rest' & Hms & Hp' & Hlen' & Hif & Hold' & Hsort'). clearbody msgs.
  unfold reply in E. injection E as <- <-. cbn [GetMessagesResponse_Messages GetMessagesResponse_HasMore].
  split; [done|]. split; [by repeat case_match|]. split.
  - exists ds', rest'. split_and!; try done. by rewrite Hp', Hp.
  - rewrite Hms. clear Hif. destruct ds' as [|d ds'']; simpl; [by rewrite app_nil_r|]. destruct (String.eqb _ _); simpl; [by rewrite app_nil_r|done].
Qed.

(** A page is made of stored documents of the room, and of all that match unless there are more. *)
Lemma GetMessages_spec req s g s' resp :
  msgRepo s = Some g → GetMessages req s = Done (s', Ok resp) →
  let room := normalizeRoomID (GetMessagesRequest_RoomId req) in
  let to := (λ m : ServerMessage, m <| ServerMessage_RoomId := room |>) ∘ MessageRepository.docToServerMessage in
  let msgs := GetMessagesResponse_Messages resp in
  room ≠ "" ∧ ∃ ds, msgs = to <$> ds ∧ length ds ≤ page_size req
  ∧ (∀ d, d ∈ ds → d ∈ history_matches req g)
  ∧ (GetMessagesResponse_HasMore resp = true ↔ page_size req < length (history_matches req g))
  ∧ (GetMessagesResponse_HasMore resp = false → ds ≡ₚ history_matches req g)
  ∧ tasks s' = tasks s ++
      match msgs with
      | newest :: _ => if String.eqb (GetMessagesRequest_UserId req) "" then []
                       else [TaskReceipt room (GetMessagesRequest_UserId req) (ServerMessage_MessageId newest) None]
      | [] => []
      end.
Proof.
  intros Hg E. cbv zeta.
  destruct (GetMessages_page req s g s' resp Hg E) as (Hr & _ & (ds & rest & Hms & Hp & Hl & Hm & _) & Ht).
  split; [done|]. exists ds. rewrite <- (Permutation_length Hp), length_app. split_and!; try done.
  - intros d Hd. rewrite <- Hp. apply elem_of_app. by left.
  - destruct (GetMessagesResponse_HasMore resp); [|subst rest; split; [done|]; simpl; lia].
    split; [|done]. intros _. destruct rest; [tauto|]. simpl. lia.
  - intros Hn. rewrite Hn in Hm. subst rest. by rewrite app_nil_r in Hp.
Qed.

(** C28: A history page is what it says: [GetMessages] returns at most the page size of
    messages, at most 200, all under the room's canonical id; [has_more] is true exactly
    if more messages match than the page holds, and without it every matching message is
    on the page; and the newest message of a page that is not empty starts the update of
    the reader's receipt. *)
Theorem messages_page req s g s' resp :
  msgRepo s = Some g → GetMessages req s = Done (s', Ok resp) →
  let room := normalizeRoomID (GetMessagesRequest_RoomId req) in
  let msgs := GetMessagesResponse_Messages resp in
  room ≠ "" ∧ length msgs ≤ page_size req ∧ length msgs ≤ 200
  ∧ Forall (λ m, ServerMessage_RoomId m = room) msgs
  ∧ (GetMessagesResponse_HasMore resp = true ↔ page_size req < length (history_matches req g))
  ∧ (GetMessagesResponse_HasMore resp = false →
     ∀ d, d ∈ history_matches req g →
       MessageRepository.docToServerMessage d <| ServerMessage_RoomId := room |> ∈ msgs)
  ∧ tasks s' = tasks s ++
      match msgs with
      | newest :: _ => if String.eqb (GetMessagesRequest_UserId req) "" then []
                       else [TaskReceipt room (GetMessagesRequest_UserId req) (ServerMessage_MessageId newest) None]
      | [] => []
      end.
Proof.
  intros Hg E. cbv zeta. destruct (GetMessages_spec req s g s' resp Hg E) as (Hr & ds & Hms & Hl & _ & Hmore & Hall & Ht).
  pose proof (page_size_bounds req) as Hb. rewrite Hms in Ht |- *. rewrite length_fmap.
  split; [done|]. split; [done|]. split; [lia|]. split; [|split; [done|split; [|done]]].
  - apply Forall_forall. intros m Hm. apply list_elem_of_fmap in Hm as (d & -> & _). done.
  - intros Hn d Hd. rewrite <- (Hall Hn) in Hd. exact (list_elem_of_fmap_2 ((λ m : ServerMessage, m <| ServerMessage_RoomId := normalizeRoomID (GetMessagesRequest_RoomId req) |>) ∘ MessageRepository.docToServerMessage) ds d Hd).
Qed.

(** ** Uploads *)

(** C31: An upload is granted only to a named user, room and file of at most 100 MB, under
    a key without a colon; a request that is refused starts nothing. *)
Theorem upload_is_checked now clock req s s' r :
  RequestUpload now clock req s = Done (s', r) →
  hub s' = hub s ∧
  match r with
  | Ok resp =>
      UploadRequest_UserId req ≠ "" ∧ UploadRequest_RoomId req ≠ "" ∧ UploadRequest_FileName req ≠ ""
      ∧ (UploadRequest_FileSizeBytes req ≤ 104857600)%Z
      ∧ UploadResponse_MediaKey resp = upload_key now req ∧ lacks ":"%char (UploadResponse_MediaKey resp)
      ∧ (is_Some (msgRepo s) ↔ tasks s' ≠ tasks s)
  | Err _ => s' = s
  end.
Proof.
  unfold RequestUpload. destruct (storage s) as [st|]; [|by unfold refuse; intros [= <- <-]].
  destruct (_ || _) eqn:Hc; [by unfold refuse; intros [= <- <-]|].
  destruct (maxFileBytes <? _)%Z eqn:Hm; [by unfold refuse; intros [= <- <-]|]. cbv zeta.
  destruct (PutPresignedURL _ _ _ _ _) as [[u e]|e]; [|by unfold refuse; intros [= <- <-]].
  unfold reply. intros [= <- <-]. bool_facts.
  split; [by case_match|]. do 5 (split; [done|]). split; [|split].
  - unfold upload_key. by apply ReplaceAll_lacks.
  - intros [g Hg]. rewrite Hg. simpl. intros Hx. apply (f_equal length) in Hx. rewrite length_app in Hx. simpl in Hx. lia.
  - intros Hx. destruct (msgRepo s); [by eexists|done].
Qed.

(** ** The room list *)

(** The rooms that the two stores report, PostgreSQL first. *)
Definition room_sources (userID : string) (s : t) : list UserRoom :=
  match pgRooms s with
  | Some q => match RoomRepository.GetUserRoomsDetailed sort_slice userID q with
              | Ok l => room_of_pg <$> l | Err _ => [] end
  | None => []
  end ++
  match msgRepo s with
  | Some g => match MessageRepository.GetUserRooms userID g with
              | Ok l => room_of_mongo <$> l | Err _ => [] end
  | None => []
  end.

(** A room of the list against the reports of it. *)
Definition merged_from (seen : list UserRoom) (u : UserRoom) : Prop :=
  ∃ r, r ∈ seen ∧ UserRoom_RoomId r ≠ "" ∧ UserRoom_RoomId u = normalizeRoomID (UserRoom_RoomId r)
    ∧ UserRoom_LastMessageAt u = UserRoom_LastMessageAt r ∧ UserRoom_LastMessage u = UserRoom_LastMessage r.

Definition covers (u r : UserRoom) : Prop :=
  UserRoom_RoomId u = normalizeRoomID (UserRoom_RoomId r)
  ∧ (UserRoom_LastMessageAt r ≤ UserRoom_LastMessageAt u)%Z
  ∧ (UserRoom_HasUnread r = true → UserRoom_HasUnread u = true).

Record merge_inv (seen : list UserRoom) (st : merged) : Prop := {
  mi_dom id : id ∈ st.2 ↔ is_Some (st.1 !! id);
  mi_nodup : NoDup st.2;
  mi_from id u : st.1 !! id = Some u → UserRoom_RoomId u = id ∧ merged_from seen u;
  mi_covers r : r ∈ seen → UserRoom_RoomId r ≠ "" →
    ∃ u, st.1 !! normalizeRoomID (UserRoom_RoomId r) = Some u ∧ covers u r
}.

Lemma merge_room_spec a r :
  UserRoom_RoomId (merge_room a r) = UserRoom_RoomId a
  ∧ UserRoom_LastMessageAt (merge_room a r) = Z.max (UserRoom_LastMessageAt a) (UserRoom_LastMessageAt r)
  ∧ UserRoom_LastMessage (merge_room a r) =
      (if (UserRoom_LastMessageAt a <? UserRoom_LastMessageAt r)%Z then UserRoom_LastMessage r else UserRoom_LastMessage a)
  ∧ UserRoom_HasUnread (merge_room a r) = UserRoom_HasUnread a || UserRoom_HasUnread r.
Proof.
  unfold merge_room. destruct (_ <? _)%Z eqn:E; bool_facts;
    repeat case_match; simpl; rewrite ?orb_true_r, ?orb_false_r; split_and!; try done; lia.
Qed.

Lemma merged_from_mono seen seen' u : (∀ r, r ∈ seen → r ∈ seen') → merged_from seen u → merged_from seen' u.
Proof. intros H (r & ? & ?). exists r. by split; [apply H|]. Qed.

Lemma addRoom_inv seen st r : merge_inv seen st → merge_inv (seen ++ [r]) (addRoom st r).
Proof.
  intros Hi. assert (Hsub : ∀ x, x ∈ seen → x ∈ seen ++ [r]) by (intros x ?; apply elem_of_app; by left).
  assert (Hr : r ∈ seen ++ [r]) by (apply elem_of_app; right; by left).
  unfold addRoom. destruct (String.eqb (UserRoom_RoomId r) "") eqn:Hid.
  { apply String.eqb_eq in Hid. constructor; [apply Hi..| |].
    - intros id u Hu. destruct (mi_from _ _ Hi id u Hu). split; [done|by eapply merged_from_mono].
    - intros x Hx Hne. apply elem_of_app in Hx as [Hx|Hx]; [by apply Hi|]. apply list_elem_of_singleton in Hx. by subst. }
  apply String.eqb_neq in Hid. cbv zeta. set (r' := r <| UserRoom_RoomId := normalizeRoomID (UserRoom_RoomId r) |>).
  change (UserRoom_RoomId r') with (normalizeRoomID (UserRoom_RoomId r)).
  set (k := normalizeRoomID (UserRoom_RoomId r)) in *.
  destruct (st.1 !! k) as [a|] eqn:Ha.
  - destruct (merge_room_spec a r') as (H1 & H2 & H3 & H4). destruct (mi_from _ _ Hi k a Ha) as [Hak Hfrom].
    constructor; simpl.
    + intros id. rewrite (mi_dom _ _ Hi), lookup_insert. case_decide; [subst; rewrite Ha|done]. by split; eexists.
    + apply Hi.
    + intros id u Hu. rewrite lookup_insert in Hu. case_decide as Hd.
      * simplify_eq. split; [congruence|]. destruct (UserRoom_LastMessageAt a <? UserRoom_LastMessageAt r')%Z eqn:E; bool_facts.
        { exists r. split; [done|]. split; [done|]. rewrite H1, Hak, H2, H3. split_and!; [done|simpl in *; lia|done]. }
        destruct Hfrom as (x & Hx & Hx1 & Hx2 & Hx3 & Hx4). exists x. split; [by apply Hsub|]. split; [done|].
        rewrite H1, H2, H3. split_and!; [congruence|lia|congruence].
      * destruct (mi_from _ _ Hi id u Hu). split; [done|by eapply merged_from_mono].
    + intros x Hx Hne. rewrite lookup_insert. case_decide as Hd.
      * eexists. split; [done|]. unfold covers. rewrite H1, H2, H4. split; [congruence|].
        apply elem_of_app in Hx as [Hx|Hx].
        { destruct (mi_covers _ _ Hi x Hx Hne) as (u & Hu & _ & Hc1 & Hc2). rewrite <- Hd, Ha in Hu. simplify_eq.
          split; [lia|]. intros Hun. by rewrite Hc2. }
        apply list_elem_of_singleton in Hx as ->. split; [simpl; lia|]. intros Hun. simpl. by rewrite Hun, orb_true_r.
      * apply elem_of_app in Hx as [Hx|Hx]; [by apply Hi|]. apply list_elem_of_singleton in Hx as ->. done.
  - constructor; simpl.
    + intros id. rewrite elem_of_app, (mi_dom _ _ Hi), list_elem_of_singleton, lookup_insert.
      case_decide; [subst|naive_solver]. split; [by eexists|by right].
    + apply NoDup_app. split; [apply Hi|]. split; [|apply NoDup_singleton].
      intros x Hx Hk. apply list_elem_of_singleton in Hk as ->. apply (mi_dom _ _ Hi) in Hx. rewrite Ha in Hx. by destruct Hx.
    + intros id u Hu. rewrite lookup_insert in Hu. case_decide as Hd.
      * simplify_eq. split; [done|]. by exists r.
      * destruct (mi_from _ _ Hi id u Hu). split; [done|by eapply merged_from_mono].
    + intros x Hx Hne. rewrite lookup_insert. apply elem_of_app in Hx as [Hx|Hx].
      * destruct (mi_covers _ _ Hi x Hx Hne) as (u & Hu & Hc). rewrite decide_False by congruence. by exists u.
      * apply list_elem_of_singleton in Hx as ->. rewrite decide_True by done. exists r'. split; [done|].
        split; [done|]. split; [done|done].
Qed.

Lemma addRooms_inv l seen st : merge_inv seen st → merge_inv (seen ++ l) (foldl addRoom st l).
Proof.
  revert seen st. induction l as [|r l IH]; intros seen st Hi; [by rewrite app_nil_r|].
  rewrite (cons_middle r seen l), app_assoc. apply IH. by apply addRoom_inv.
Qed.

Lemma merged_rooms_elem seen st u : merge_inv seen st → u ∈ merged_rooms st ↔ st.1 !! UserRoom_RoomId u = Some u.
Proof.
  intros Hi. unfold merged_rooms. rewrite list_elem_of_omap. split.
  - intros (id & _ & Hu). by destruct (mi_from _ _ Hi id u Hu) as [-> _].
  - intros Hu. exists (UserRoom_RoomId u). split; [|done]. apply (mi_dom _ _ Hi). by eexists.
Qed.

Lemma merged_rooms_ids seen st : merge_inv seen st → UserRoom_RoomId <$> merged_rooms st = st.2.
Proof.
  intros Hi. unfold merged_rooms.
  assert (H : ∀ l : list string, (∀ id, id ∈ l → is_Some (st.1 !! id)) → UserRoom_RoomId <$> omap (λ id, st.1 !! id) l = l);
    [|apply H; intros id; apply (mi_dom _ _ Hi)].
  induction l as [|id l IH]; intros H; [done|]. cbn [omap list_omap].
  destruct (H id ltac:(by left)) as [u Hu]. rewrite Hu, fmap_cons.
  destruct (mi_from _ _ Hi id u Hu) as [-> _]. f_equal. apply IH. intros i ?. apply H. by right.
Qed.

Lemma merge_inv_empty : merge_inv [] ((∅, []) : merged).
Proof.
  constructor; simpl.
  - intros id. rewrite lookup_empty, elem_of_nil. split; [done|by intros []].
  - apply NoDup_nil_2.
  - intros id u. by rewrite lookup_empty.
  - intros r Hr. by apply elem_of_nil in Hr.
Qed.

Lemma GetUserRooms_merge req s :
  String.eqb (GetUserRoomsRequest_UserId req) "" = false →
  GetUserRooms req s =
    reply (mkGetUserRoomsResponse
      (merged_rooms (foldl addRoom (∅, []) (room_sources (GetUserRoomsRequest_UserId req) s)))) s.
Proof.
  intros Hu. unfold GetUserRooms, room_sources. cbv zeta. rewrite Hu, foldl_app.
  destruct (pgRooms s) as [q|]; [destruct (RoomRepository.GetUserRoomsDetailed _ _ q)|];
    (destruct (msgRepo s) as [g|]; [destruct (MessageRepository.GetUserRooms _ g)|]); done.
Qed.

(** C30: The room list merges the two stores by canonical id: each room once; each room
    comes from a report whose last message and time it shows; and every reported room is
    there, with a time no older than the report's and unread if the report says so. *)
Theorem user_rooms_merge req s s' resp :
  GetUserRooms req s = Done (s', Ok resp) →
  let l := GetUserRoomsResponse_Rooms resp in
  let sources := room_sources (GetUserRoomsRequest_UserId req) s in
  s' = s ∧ NoDup (UserRoom_RoomId <$> l)
  ∧ (∀ u, u ∈ l → merged_from sources u)
  ∧ (∀ r, r ∈ sources → UserRoom_RoomId r ≠ "" → ∃ u, u ∈ l ∧ covers u r).
Proof.
  cbv zeta. destruct (String.eqb (GetUserRoomsRequest_UserId req) "") eqn:Hu.
  { unfold GetUserRooms. cbv zeta. by rewrite Hu. }
  rewrite (GetUserRooms_merge _ _ Hu). unfold reply. intros [= <- <-].
  cbn [GetUserRoomsResponse_Rooms]. set (src := room_sources _ s). set (st := foldl addRoom _ src).
  assert (Hi : merge_inv src st) by exact (addRooms_inv src [] _ merge_inv_empty).
  clearbody src st. split; [done|]. split; [rewrite (merged_rooms_ids _ _ Hi); apply Hi|]. split.
  - intros u Hul. apply (merged_rooms_elem _ _ _ Hi) in Hul. by destruct (mi_from _ _ Hi _ _ Hul).
  - intros r Hr Hne. destruct (mi_covers _ _ Hi r Hr Hne) as (u & Hul & Hc). exists u. split; [|done].
    apply (merged_rooms_elem _ _ _ Hi). destruct Hc as [-> _]. done.
Qed.

(** ** New rooms *)

Context `{!SqlLaws Q}.

Lemma GetOrCreateDM_id now a b c (q q' : Q) m :
  RoomRepository.GetOrCreateDM now a b c q = (q', Ok m) → RoomRepository.RoomID m = dm_id a b.
Proof.
  unfold RoomRepository.GetOrCreateDM. cbv zeta. rewrite join_dm.
  destruct (RoomRepository.GetRoom (dm_id a b) q) as [[r|]|e] eqn:E; [|intros H|done].
  - intros [= <- <-]. unfold RoomRepository.GetRoom in E.
    destruct (pg_room (dm_id a b) q) as [[[[[[id ty] name] by_] at_]|]|e] eqn:Er; [|done..].
    apply pg_room_ok in Er. unfold select_room in Er. destruct (_ !! dm_id a b); [|done]. simpl in Er. simplify_eq.
    destruct (pg_members _ q); [|done]. by simplify_eq.
  - unfold RoomRepository.with_error in H.
    destruct (RoomRepository.UpsertRoom _ _ q) as [q1 [e|]]; simplify_eq/=. done.
Qed.

(** Whatever stores are configured, a direct room gets one id: with PostgreSQL or a
    message store that answers, every successful [CreateRoom] for two users returns the
    pair's canonical id, in either order, and the in-memory store is not used; without
    PostgreSQL it always succeeds. *)
Theorem direct_room_id `{!MongoReliable G} uuid nano now req a b s s' r :
  is_Some (pgRooms s) ∨ is_Some (msgRepo s) → a ≠ "" → b ≠ "" →
  CreateRoomRequest_Type req = RoomType_ROOM_TYPE_DM → CreateRoomRequest_CreatedBy req ≠ "" →
  CreateRoomRequest_MemberIds req = [a; b] →
  CreateRoom uuid nano now req s = Done (s', r) →
  rooms s' = rooms s
  ∧ match r with
    | Ok resp => CreateRoomResponse_RoomId resp = dm_id a b
    | Err st => is_Some (pgRooms s) ∧ st_code st = Internal ∧ msgRepo s' = msgRepo s
    end.
Proof.
  intros Hst Ha Hb Hty Hby Hms E. unfold CreateRoom in E. cbv zeta in E.
  rewrite (proj2 (String.eqb_neq _ _) Hby), Hty, Hms, Z.eqb_refl in E. unfold create_dm, on_pg in E. cbv zeta in E.
  assert (Hid : ∀ x : string, x = dm_id a b → String.eqb x "" = false).
  { intros x ->. by destruct (dm_id_cases a b) as [[_ ->]|[_ ->]]. }
  assert (Hmongo : ∀ s1 : t, match on_mongo (MessageRepository.CreateOrGetDirectConversation now a b
      (CreateRoomRequest_CreatedBy req)) s1 with
    | Some (s2, Ok conv) => rooms s2 = rooms s1 ∧ ConversationDetail_ConversationId conv = dm_id a b
    | Some (s2, Err _) => False
    | None => msgRepo s1 = None end).
  { intros s1. unfold on_mongo. destruct (msgRepo s1) as [g|]; [|done].
    destruct (MessageRepository.direct_conversation_spec now a b (CreateRoomRequest_CreatedBy req) g Ha Hb)
      as (g' & d & -> & Hd & _). done. }
  destruct (pgRooms s) as [q|] eqn:Hq.
  - destruct (RoomRepository.GetOrCreateDM _ _ _ _ q) as [q' [m|e]] eqn:Eq.
    + apply GetOrCreateDM_id in Eq. set (s1 := s <| pgRooms := Some q' |>) in E. specialize (Hmongo s1).
      destruct (on_mongo _ s1) as [[s2 [d|e]]|]; [|done|]; rewrite ?(Hid _ Eq) in E; unfold reply in E; simplify_eq/=.
      * by destruct Hmongo as [-> _].
      * done.
    + unfold refuse in E. simplify_eq/=. done.
  - specialize (Hmongo s). destruct (on_mongo _ s) as [[s2 [d|e]]|] eqn:Em; [|done|].
    + destruct Hmongo as [Hr Hd]. cbn [String.eqb] in E. rewrite (Hid _ Hd) in E. unfold reply in E. by simplify_eq/=.
    + exfalso. rewrite Hmongo in Hst. destruct Hst as [[? ?]|[? ?]]; done.
Qed.

(** A legacy id does not turn into a group's. *)
Lemma conv_head z : byte_at 0 (normalizeRoomID ("CONV_" +:+ itoa z)) ≠ Some "g"%char.
Proof.
  destruct (normalize_cases ("CONV_" +:+ itoa z)) as [[->|(a & b & _ & _ & -> & _)] _].
  - unfold TrimSpace, byte_at. rewrite bytes_str.
    assert (Hl : trim_left (bytes ("CONV_" +:+ itoa z)) = bytes ("CONV_" +:+ itoa z)).
    { apply trim_with_unfold. by apply (head_space_shield_head _ _ _ "C"%char), shield_byte_left. }
    rewrite Hl. destruct (trim_right_prefix (bytes ("CONV_" +:+ itoa z))) as [k Hk].
    destruct (trim_right _) as [|x l]; [done|]. simpl in Hk. injection Hk as <- _. done.
  - by destruct (dm_id_cases a b) as [[_ ->]|[_ ->]].
Qed.

(** A group that the message store holds is unknown to PostgreSQL and listed as a
    direct room: [CreateRoom] leaves PostgreSQL alone when the message store takes the group,
    so no activity or read cursor can be kept for it there; and the room list gives its id
    [CONV_<number>] the type DM and no name. *)
Theorem groups_are_listed_as_direct uuid nano now req s s1 conv :
  CreateRoomRequest_Type req = RoomType_ROOM_TYPE_GROUP → CreateRoomRequest_CreatedBy req ≠ "" →
  CreateRoomRequest_Name req ≠ "" →
  on_mongo (MessageRepository.CreateGroupConversation order nano now (CreateRoomRequest_Name req) "" ""
    (CreateRoomRequest_CreatedBy req) (CreateRoomRequest_MemberIds req)) s = Some (s1, Ok conv) →
  ∃ resp, CreateRoom uuid nano now req s = Done (s1, Ok resp) ∧ pgRooms s1 = pgRooms s
    ∧ CreateRoomResponse_RoomId resp = "CONV_" +:+ itoa nano
    ∧ ∀ u, MessageRepository.RoomID u = CreateRoomResponse_RoomId resp →
        UserRoom_RoomType (room_of_mongo u) = RoomType_ROOM_TYPE_DM ∧ UserRoom_Name (room_of_mongo u) = "".
Proof.
  intros Hty Hby Hname E.
  exists (mkCreateRoomResponse (ConversationDetail_ConversationId conv) (ConversationDetail_GroupName conv)).
  assert (Hid : ConversationDetail_ConversationId conv = "CONV_" +:+ itoa nano).
  { unfold on_mongo in E. destruct (msgRepo s) as [g|]; [|done].
    destruct (MessageRepository.CreateGroupConversation _ _ _ _ _ _ _ _ g) as [g' r] eqn:Eg. simplify_eq.
    unfold MessageRepository.CreateGroupConversation in Eg. cbv zeta in Eg.
    do 2 (case_match; [done|]). destruct (insert_one _ _ g) as [g1 [e|]]; [done|].
    destruct (if _ : bool then _ else _) as [g2 [e|]]; [done|]. by simplify_eq. }
  split_and!.
  - unfold CreateRoom. cbv zeta.
    rewrite (proj2 (String.eqb_neq _ _) Hby), Hty, (proj2 (String.eqb_neq _ _) Hname).
    change (RoomType_ROOM_TYPE_GROUP =? RoomType_ROOM_TYPE_DM)%Z with false. rewrite Z.eqb_refl.
    unfold create_group. cbv zeta. by rewrite E.
  - unfold on_mongo in E. destruct (msgRepo s); [|done]. destruct (MessageRepository.CreateGroupConversation _ _ _ _ _ _ _ _ _).
    by simplify_eq.
  - done.
  - intros u Hu. cbn [CreateRoomResponse_RoomId] in Hu. rewrite Hid in Hu. split; [|done].
    unfold room_of_mongo. cbv zeta. rewrite Hu. cbn [UserRoom_RoomType].
    assert (Hnot : ∀ x, HasPrefix x "group:" = true → byte_at 0 x = Some "g"%char).
    { intros x Hx. apply HasPrefix_true in Hx as [y ->]. done. }
    assert (Hn : HasPrefix (normalizeRoomID ("CONV_" +:+ itoa nano)) "group:" = false).
    { apply not_true_is_false. intros Hp. apply Hnot in Hp. revert Hp. apply conv_head. }
    rewrite Hn. cbn [orb]. destruct (bool_decide _); [|done].
    destruct (String.eqb _ "group:") eqn:Hg; [|done]. exfalso. apply String.eqb_eq in Hg.
    apply (f_equal (byte_at 0)) in Hg. done.
Qed.

(** ** The last activity *)

Lemma receipt_keeps_activity now rid uid msg at_ (q : Q) :
  chat_room_last_activity (pg_view (RoomRepository.UpdateReadReceipt now rid uid msg at_ q).1)
  = chat_room_last_activity (pg_view q).
Proof.
  unfold RoomRepository.UpdateReadReceipt. destruct (pg_exec _ _ q) as [q' [e|]] eqn:E; simpl.
  - by rewrite (pg_exec_err _ _ _ _ _ E).
  - apply pg_exec_ok in E. unfold Postgres.run in E.
    destruct (negb _), (String.eqb uid ""), (chat_rooms (pg_view q) !! rid); try discriminate E.
    injection E as E. by rewrite <- E.
Qed.

Lemma bad_preview_refused now rid msgID sender pre at_ (q : Q) :
  text_ok pre = false → pg_view (RoomRepository.UpdateLastActivity now rid msgID sender pre at_ q).1 = pg_view q.
Proof.
  intros Ht. unfold RoomRepository.UpdateLastActivity. destruct (pg_exec _ _ q) as [q' [e|]] eqn:E; simpl.
  - by rewrite (pg_exec_err _ _ _ _ _ E).
  - apply pg_exec_ok in E. unfold Postgres.run, texts_ok in E. cbn [forallb] in E.
    rewrite Ht, !andb_false_r in E. done.
Qed.

Lemma pg_get {A} (f : Q → Q * A) s q : pgRooms s = Some q → pgRooms (pg_ f s) = Some (f q).1.
Proof. intros E. unfold pg_, on_pg. rewrite E. by destruct (f q). Qed.
Lemma pgRooms_mongo {A} (f : G → G * A) s : pgRooms (mongo_ f s) = pgRooms s.
Proof. unfold mongo_, on_mongo. destruct (msgRepo s) as [g|]; [by destruct (f g)|done]. Qed.

(** The preview of a message is cut after 120 bytes, wherever that falls: when the
    cut splits a character, the text is not UTF-8, PostgreSQL refuses it, and no
    room's last activity changes, whatever else the goroutine stores: the message makes its
    room neither rise in the list nor unread for anyone. *)
Theorem cut_preview_loses_activity fresh now p msg s q :
  Hub.msgs (hub s) !! p = Some msg → pgRooms s = Some q →
  120 < slen (MessageRepository.preview msg) →
  ValidString (slice_to 120 (MessageRepository.preview msg)) = false →
  ∃ q', pgRooms (run_task fresh now (TaskPersist p) s) = Some q'
    ∧ chat_room_last_activity (pg_view q') = chat_room_last_activity (pg_view q).
Proof.
  intros Hp Hq Hlen Hv. cbn [run_task]. rewrite Hp. cbv zeta. rewrite pgRooms_mongo, Hq.
  set (s1 := mongo_ _ s). assert (H1 : pgRooms s1 = Some q) by (unfold s1; by rewrite pgRooms_mongo).
  assert (Ht : text_ok (persist_preview msg) = false).
  { unfold persist_preview, text_ok. cbv zeta. rewrite bool_decide_true by done. by rewrite Hv. }
  set (f := RoomRepository.UpdateLastActivity _ _ _ _ _ _). pose proof (pg_get f s1 q H1) as H2.
  assert (Hsame : pg_view (f q).1 = pg_view q) by (unfold f; apply bad_preview_refused; exact Ht).
  case_match.
  - exists (f q).1. split; [exact H2|]. by rewrite Hsame.
  - rewrite pgRooms_mongo.
    erewrite pg_get by exact H2. eexists. split; [done|]. by rewrite receipt_keeps_activity, Hsame.
Qed.
End server.
Arguments t B K P Q G T : clear implicits.
End ChatServer.

(** ** A server in memory *)

Module MemServer.
Definition t : Type := ChatServer.t Noop.t MemKV.t LocalPresence.t MemDB.t MemMongo.t CloudinaryStorage.t.

(** Alice is connected to the room of her and Bob, which holds one photograph. *)
Definition server : t :=
  ChatServer.NewChatServer NoopHub.alice.1 (RoomStore.NewRoomStore (Some MemKV.empty)) (Some MemDB.room)
    (Some MemMongo.one_message) (Some (CloudinaryStorage.mk "demo" "key" "secret"))
    LocalPresence.NewLocalPresenceStore.
Definition sort : list RoomRepository.UserRoom → list RoomRepository.UserRoom := merge_sort MemDB.newest.
Definition photo_doc : messageDoc := MessageRepository.doc_of_message "uuid" 0 MemMongo.photo.
Lemma photo_stored : photo_doc ∈ docs Messages MemMongo.one_message.
Proof. by left. Qed.

(** The states and answers of some calls. *)
Definition outcome_state {A} (d : A) (m : outcome A) : A := match m with Done a => a | _ => d end.
Definition response {R} (d : R) (m : outcome (t * result status R)) : t * R :=
  match m with Done (s, Ok r) => (s, r) | Done (s, Err _) => (s, d) | _ => (server, d) end.

Definition erased : t :=
  (response (mkDeleteMessageResponse false)
     (ChatServer.DeleteMessage (mkDeleteMessageRequest "m1" "alice" "dm-bob-alice") server)).1.
Definition paged : t * GetMessagesResponse :=
  response (mkGetMessagesResponse [] false)
    (ChatServer.GetMessages (mkGetMessagesRequest "dm-bob-alice" "bob" 10 0) server).
Definition upload : UploadRequest := mkUploadRequest "alice" "dm:alice:bob" "cat.jpg" "image/jpeg" 3.
Definition uploaded : t * UploadResponse :=
  response (mkUploadResponse "" "" 0) (ChatServer.RequestUpload 9000000 (λ _, 9000000%Z) upload server).
Definition listed : GetUserRoomsResponse :=
  (response (mkGetUserRoomsResponse []) (ChatServer.GetUserRooms sort (mkGetUserRoomsRequest "alice") server)).2.
Definition carol : CreateRoomRequest := mkCreateRoomRequest "carol" "" RoomType_ROOM_TYPE_DM ["carol"; "alice"].
Definition created : t * CreateRoomResponse :=
  response (mkCreateRoomResponse "" "") (ChatServer.CreateRoom elements "uuid" 7 9000000 carol server).
Definition team : CreateRoomRequest := mkCreateRoomRequest "alice" "team" RoomType_ROOM_TYPE_GROUP ["bob"].
Definition grouped : t * ConversationDetail :=
  match ChatServer.on_mongo (MessageRepository.CreateGroupConversation elements 7 9000000 "team" "" "" "alice" ["bob"]) server with
  | Some (s, Ok conv) => (s, conv)
  | _ => (server, ConversationDetail_zero)
  end.

(** A text of 61 two-byte characters after one byte. *)
Definition accents : ServerMessage := MemMongo.photo <| ServerMessage_Text :=
  "a" +:+ str (List.concat (replicate 61 [ascii_of_N 195; ascii_of_N 169])) |>
  <| ServerMessage_MediaKey := "" |>.
Definition cut : t := server <| ChatServer.hub := (Hub.alloc accents (ChatServer.hub server)).1 |>.
End MemServer.

Lemma calls_keep_the_hub_witness :
  ∃ s', ChatServer.run MemServer.sort elements
      (ChatServer.CallSendMessage "m2" 7000000 (mkSendMessageRequest "dm:bob:alice" "alice" "hello" 0 "" "" 0 "" ""))
      MemServer.server = Done s'
    ∧ Hub.members "dm:alice:bob" (ChatServer.hub s') = {[0]}.
Proof.
  destruct (ChatServer.calls_keep_the_hub MemServer.sort elements _
    (ChatServer.CallSendMessage "m2" 7000000 (mkSendMessageRequest "dm:bob:alice" "alice" "hello" 0 "" "" 0 "" ""))
    MemServer.server NoopHub.alice_inv) as (s' & H1 & _ & H2).
  exists s'. split; [exact H1|]. rewrite H2. decide_now.
Defined.


Lemma changes_need_ownership_witness :
  ChatServer.owned_message MemMongo.one_message "m1" "alice".
Proof.
  destruct (ChatServer.changes_need_ownership 0 ClientMessage_zero (mkDeleteMessageRequest "m1" "alice" "dm-bob-alice")
    (mkEditMessageRequest "" "" "" "") MemServer.server MemMongo.one_message eq_refl) as (_ & H & _).
  apply (H MemServer.erased (Ok (mkDeleteMessageResponse true))).
  - vm_compute. reflexivity.
  - intros E. apply (f_equal (λ h, Hub.next h)) in E. vm_compute in E. discriminate.
Defined.

Lemma claimed_owner_suffices_witness :
  ∃ s' g', ChatServer.processIncoming 9000000 (ChatServer.forged_delete "group:x" MemServer.photo_doc) MemServer.server
      = Done s' ∧ ChatServer.msgRepo s' = Some g'
    ∧ Exists (λ d', MessageRepository.has_id "m1" d' = true
        ∧ MessageRepository.owned_by "alice" d' = true ∧ md_IsDeleted d' = true) (docs Messages g').
Proof.
  destruct (ChatServer.claimed_owner_suffices _ 9000000 "group:x" MemServer.photo_doc MemServer.server
    MemMongo.one_message NoopHub.alice_inv eq_refl MemServer.photo_stored) as (s' & g' & H1 & H2 & H3 & _).
  - discriminate.
  - exists s', g'. split; [exact H1|]. split; [exact H2|]. exact H3.
Defined.

Lemma messages_page_witness :
  ∃ s' resp, ChatServer.GetMessages (mkGetMessagesRequest "dm-bob-alice" "bob" 10 0) MemServer.server
      = Done (s', Ok resp)
    ∧ length (GetMessagesResponse_Messages resp) ≤ 10 ∧ length (GetMessagesResponse_Messages resp) ≤ 200.
Proof.
  exists MemServer.paged.1, MemServer.paged.2. split; [vm_compute; reflexivity|].
  destruct (ChatServer.messages_page (mkGetMessagesRequest "dm-bob-alice" "bob" 10 0) MemServer.server
    MemMongo.one_message MemServer.paged.1 MemServer.paged.2) as (_ & H1 & H2 & _).
  - reflexivity.
  - vm_compute. reflexivity.
  - split; [exact H1|exact H2].
Defined.

Lemma upload_is_checked_witness :
  ∃ s' resp, ChatServer.RequestUpload 9000000 (λ _, 9000000%Z) MemServer.upload MemServer.server = Done (s', Ok resp)
    ∧ lacks ":"%char (UploadResponse_MediaKey resp).
Proof.
  exists MemServer.uploaded.1, MemServer.uploaded.2. split; [vm_compute; reflexivity|].
  destruct (ChatServer.upload_is_checked 9000000 (λ _, 9000000%Z) MemServer.upload MemServer.server
    MemServer.uploaded.1 (Ok MemServer.uploaded.2)) as (_ & _ & _ & _ & _ & _ & H & _).
  - vm_compute. reflexivity.
  - exact H.
Defined.

Lemma user_rooms_merge_witness :
  ∃ resp, ChatServer.GetUserRooms MemServer.sort (mkGetUserRoomsRequest "alice") MemServer.server
      = Done (MemServer.server, Ok resp)
    ∧ NoDup (UserRoom_RoomId <$> GetUserRoomsResponse_Rooms resp).
Proof.
  exists MemServer.listed. split; [vm_compute; reflexivity|].
  destruct (ChatServer.user_rooms_merge MemServer.sort (mkGetUserRoomsRequest "alice") MemServer.server
    MemServer.server MemServer.listed) as (_ & H & _).
  - vm_compute. reflexivity.
  - exact H.
Defined.

Lemma direct_room_id_witness :
  ∃ s' resp, ChatServer.CreateRoom elements "uuid" 7 9000000 MemServer.carol MemServer.server = Done (s', Ok resp)
    ∧ CreateRoomResponse_RoomId resp = dm_id "carol" "alice".
Proof.
  exists MemServer.created.1, MemServer.created.2. split; [vm_compute; reflexivity|].
  destruct (ChatServer.direct_room_id elements "uuid" 7 9000000 MemServer.carol "carol" "alice" MemServer.server
    MemServer.created.1 (Ok MemServer.created.2)) as [_ H].
  - left. eexists. reflexivity.
  - discriminate.
  - discriminate.
  - reflexivity.
  - discriminate.
  - reflexivity.
  - vm_compute. reflexivity.
  - exact H.
Defined.

Lemma groups_are_listed_as_direct_witness :
  ∃ s1 resp, ChatServer.CreateRoom elements "uuid" 7 9000000 MemServer.team MemServer.server = Done (s1, Ok resp)
    ∧ CreateRoomResponse_RoomId resp = "CONV_7"
    ∧ UserRoom_RoomType (room_of_mongo (MessageRepository.mkUserRoomSummary "CONV_7" "" 0 ["alice"])) = RoomType_ROOM_TYPE_DM.
Proof.
  destruct (ChatServer.groups_are_listed_as_direct elements "uuid" 7 9000000 MemServer.team MemServer.server
    MemServer.grouped.1 MemServer.grouped.2) as (resp & H1 & _ & H2 & H3).
  - reflexivity.
  - discriminate.
  - discriminate.
  - vm_compute. reflexivity.
  - exists MemServer.grouped.1, resp. split; [exact H1|]. split; [rewrite H2; vm_compute; reflexivity|].
    apply H3. rewrite H2. vm_compute. reflexivity.
Defined.

Lemma cut_preview_loses_activity_witness :
  ∃ q', ChatServer.pgRooms (ChatServer.run_task "uuid" 9000000 (TaskPersist 1) MemServer.cut) = Some q'
    ∧ chat_room_last_activity (MemDB.tabs q') = chat_room_last_activity (MemDB.tabs MemDB.room).
Proof.
  exact (ChatServer.cut_preview_loses_activity "uuid" 9000000 1 MemServer.accents MemServer.cut MemDB.room
    ltac:(vm_compute; reflexivity) eq_refl ltac:(vm_compute; lia) ltac:(vm_compute; reflexivity)).
Defined.
