(* ===== verification/History.v ===== *)
(** * A message that is sent can be read

    [SendMessage], the goroutine of [persistMessage] and [GetMessages] of
    [app/server/grpc_server.go], composed over [app/repository/mongodb.go]: what
    a client sends to a room, in whatever spelling of its id, is on the history
    page of that room; and the room id for which it is not. *)

From S2P Require Import Prelude GoString Pb Json RoomId Chan Broker Hub Presence RoomStore Postgres Mongo Storage Server.
Import ChatServer.

Local Open Scope go_scope.

(** ** An id is one of its own aliases *)

Lemma alias_add_keeps x id (st : gset string * list string) : x ∈ st.2 → x ∈ (alias_add id st).2.
Proof. intros H. unfold alias_add. cbv zeta. repeat case_match; simpl; set_solver. Qed.

Lemma alias_canonicalDM_keeps x a b (st : gset string * list string) : x ∈ st.2 → x ∈ (alias_canonicalDM a b st).2.
Proof. intros H. unfold alias_canonicalDM. case_match; [done|]. cbv zeta. by repeat apply alias_add_keeps. Qed.

Lemma roomIDAliases_self r : TrimSpace r ≠ "" → TrimSpace r ∈ roomIDAliases r.
Proof.
  intros Hr. unfold roomIDAliases. rewrite (proj2 (String.eqb_neq _ _) Hr). cbv zeta.
  assert (H : TrimSpace r ∈ (({[TrimSpace r]}, [TrimSpace r]) : gset string * list string).2) by (simpl; set_solver).
  repeat case_match; try done; by apply alias_canonicalDM_keeps.
Qed.

(** And every alias is trimmed. *)
Definition all_trimmed (st : gset string * list string) : Prop := Forall (λ x, TrimSpace x = x) st.2.

Lemma alias_add_trimmed id st : all_trimmed st → all_trimmed (alias_add id st).
Proof.
  intros H. unfold alias_add, all_trimmed. cbv zeta. repeat case_match; try done. simpl.
  apply Forall_app_2; [done|]. constructor; [apply TrimSpace_trimmed|done].
Qed.

Lemma alias_canonicalDM_trimmed a b st : all_trimmed st → all_trimmed (alias_canonicalDM a b st).
Proof. intros H. unfold alias_canonicalDM. case_match; [done|]. cbv zeta. by repeat apply alias_add_trimmed. Qed.

Lemma roomIDAliases_trimmed r x : x ∈ roomIDAliases r → TrimSpace x = x.
Proof.
  intros Hx. assert (H : Forall (λ x, TrimSpace x = x) (roomIDAliases r)); [|by rewrite Forall_forall in H; apply H].
  unfold roomIDAliases. cbv zeta. case_match; [constructor|].
  assert (H0 : all_trimmed ({[TrimSpace r]}, [TrimSpace r])) by (constructor; [apply TrimSpace_trimmed|done]).
  repeat case_match; try exact H0; by apply alias_canonicalDM_trimmed.
Qed.

Section history.
Context {B : Type} `{BR : Broker B} `{JC : JsonCodec ServerMessage} `{JR : JsonCodec RoomStore.RoomMeta}.
Context {K : Type} `{KV : RedisKV K} {P : Type} `{PS : PresenceStore P}.
Context {Q : Type} `{DB : SqlDB Q} {G : Type} `{MG : MongoDB G} {T : Type} `{SG : Storage T}.
Context `{!BrokerLaws B} `{!MongoLaws G} `{!MongoReliable G}.
Context (sort_slice : list RoomRepository.UserRoom → list RoomRepository.UserRoom).
Context (order : gset string → list string).

#[local] Abbreviation server := (ChatServer.t B K P Q G T).
Implicit Types (s : server) (g : G).

(** ** Saving *)

Lemma msgRepo_mongo {A} (f : G → G * A) s g : msgRepo s = Some g → msgRepo (mongo_ f s) = Some (f g).1.
Proof. intros E. unfold mongo_, on_mongo. rewrite E. by destruct (f g). Qed.

Lemma msgRepo_pg {A} (f : Q → Q * A) s : msgRepo (pg_ f s) = msgRepo s.
Proof. unfold pg_, on_pg. destruct (pgRooms s) as [q|]; [|done]. by destruct (f q). Qed.

Lemma receipt_docs roomID userID id at_ g :
  docs Messages (MessageRepository.UpdateReadReceipt roomID userID id at_ g).1 = docs Messages g.
Proof.
  unfold MessageRepository.UpdateReadReceipt. destruct (update_one _ _ _ g) as [g' r] eqn:E.
  by rewrite <- (MessageRepository.update_frame Receipts Messages _ _ _ _ _ E).
Qed.

Lemma save_new fresh now m g :
  Forall (λ d, md_ID d ≠ MessageRepository.msg_id fresh m) (docs Messages g) →
  docs Messages (MessageRepository.SaveMessage fresh now m g).1
    = docs Messages g ++ [MessageRepository.doc_of_message fresh now m].
Proof.
  intros Hn. destruct (MessageRepository.SaveMessage fresh now m g) as [g' err] eqn:E.
  pose proof (MessageRepository.SaveMessage_docs _ _ _ _ _ _ E) as H. destruct err as [e|]; [|by destruct H].
  exfalso. unfold MessageRepository.SaveMessage in E.
  assert (Hc : Forall (λ d, conflicts Messages (MessageRepository.doc_of_message fresh now m) d = false) (docs Messages g)).
  { eapply Forall_impl; [exact Hn|]. intros d Hd. apply String.eqb_neq. intros Heq. by apply Hd. }
  apply insert_one_answers in Hc. destruct (insert_one _ _ g) as [g1 err1]. simpl in Hc. subst err1.
  repeat case_match; by simplify_eq.
Qed.

(** The goroutine touches no message but the one it saves. *)
Lemma persist_saves fresh now p m s g :
  Hub.msgs (hub s) !! p = Some m → msgRepo s = Some g →
  ∃ g', msgRepo (run_task fresh now (TaskPersist p) s) = Some g'
    ∧ docs Messages g' = docs Messages (MessageRepository.SaveMessage fresh now m g).1.
Proof.
  intros Hp Hg. cbn [run_task]. rewrite Hp. cbv zeta. set (s1 := mongo_ _ s).
  assert (H1 : msgRepo s1 = Some (MessageRepository.SaveMessage fresh now m g).1) by (by apply msgRepo_mongo).
  destruct (pgRooms s1); [|by eexists; split; [exact H1|]].
  case_match.
  - rewrite msgRepo_pg. by eexists; split; [exact H1|].
  - erewrite msgRepo_mongo by (rewrite !msgRepo_pg; exact H1). eexists; split; [done|].
    apply receipt_docs.
Qed.

(** And stores that one, once. *)
Lemma persist_docs fresh now p m s g :
  Hub.msgs (hub s) !! p = Some m → msgRepo s = Some g →
  Forall (λ d, md_ID d ≠ MessageRepository.msg_id fresh m) (docs Messages g) →
  ∃ g', msgRepo (run_task fresh now (TaskPersist p) s) = Some g'
    ∧ docs Messages g' = docs Messages g ++ [MessageRepository.doc_of_message fresh now m].
Proof.
  intros Hp Hg Hn. destruct (persist_saves fresh now p m s g Hp Hg) as (g' & Hg' & Hd).
  exists g'. split; [done|]. rewrite Hd. by apply save_new.
Qed.

(** ** Reading *)

Lemma GetMessages_answers req s g :
  msgRepo s = Some g → normalizeRoomID (GetMessagesRequest_RoomId req) ≠ "" →
  ∃ s' resp, GetMessages req s = Done (s', Ok resp).
Proof.
  intros Hg Hr. unfold GetMessages. cbv zeta. rewrite (proj2 (String.eqb_neq _ _) Hr), Hg.
  assert (Hq : ∀ p limit, ∃ l, MessageRepository.queryMessages p limit g = Ok l).
  { intros p limit. unfold MessageRepository.queryMessages.
    pose proof (find_answers Messages p (λ d, [md_CreatedAt d; md_SentAt d]) (Some limit) g) as [l ->]%is_ok_true.
    by eexists. }
  match goal with |- context [MessageRepository.GetMessagesBefore ?a ?b ?c g] =>
    assert (Hl : ∃ l, MessageRepository.GetMessagesBefore a b c g = Ok l) end.
  { unfold MessageRepository.GetMessagesBefore, MessageRepository.GetMessages. cbv zeta. case_match; apply Hq. }
  destruct Hl as [l ->]. by eexists _, _.
Qed.

(** A stored message that belongs on a page that is not full is on it. *)
Lemma stored_is_served req s g s' resp d :
  msgRepo s = Some g → GetMessages req s = Done (s', Ok resp) → GetMessagesResponse_HasMore resp = false →
  d ∈ docs Messages g →
  MessageRepository.in_history (normalizeRoomID (GetMessagesRequest_RoomId req)) (GetMessagesRequest_BeforeUnixMs req) d = true →
  MessageRepository.docToServerMessage d <| ServerMessage_RoomId := normalizeRoomID (GetMessagesRequest_RoomId req) |>
    ∈ GetMessagesResponse_Messages resp.
Proof.
  intros Hg E Hn Hd Hin. destruct (GetMessages_spec req s g s' resp Hg E) as (_ & ds & Hms & _ & _ & _ & Hall & _).
  rewrite Hms. assert (Hds : d ∈ ds) by (rewrite (Hall Hn); by apply list_elem_of_filter).
  exact (list_elem_of_fmap_2 ((λ m : ServerMessage, m <| ServerMessage_RoomId := _ |>)
    ∘ MessageRepository.docToServerMessage) ds d Hds).
Qed.

(** And every message of a page is one that is stored and belongs there. *)
Lemma GetMessages_page_docs req s g s' resp :
  msgRepo s = Some g → GetMessages req s = Done (s', Ok resp) →
  ∃ ds, GetMessagesResponse_Messages resp = (λ m : ServerMessage,
        m <| ServerMessage_RoomId := normalizeRoomID (GetMessagesRequest_RoomId req) |>)
        ∘ MessageRepository.docToServerMessage <$> ds
    ∧ ∀ d, d ∈ ds → d ∈ docs Messages g ∧ MessageRepository.in_history
        (normalizeRoomID (GetMessagesRequest_RoomId req)) (GetMessagesRequest_BeforeUnixMs req) d = true.
Proof.
  intros Hg E. destruct (GetMessages_spec req s g s' resp Hg E) as (_ & ds & Hms & _ & Hin & _).
  exists ds. split; [exact Hms|]. intros d Hd. apply Hin, list_elem_of_filter in Hd as [? ?]. by split.
Qed.

(** ** Sending *)

Lemma persist_spawns p s g : msgRepo s = Some g → persistMessage p s = spawn (TaskPersist p) s.
Proof. unfold persistMessage. by intros ->. Qed.

(** What remains of a sent message when it is read back. *)
Lemma saved_shape sm id t r :
  ServerMessage_MessageId sm = id → ServerMessage_SentAtUnixMs sm = t → ServerMessage_RoomId sm = r →
  sm = sm <| ServerMessage_EventType := EventType_EVENT_TYPE_MESSAGE |> <| ServerMessage_MediaUrl := "" |>
          <| ServerMessage_ReactionEmoji := "" |> <| ServerMessage_IsDeleted := false |>
          <| ServerMessage_EditedAtUnixMs := 0%Z |> <| ServerMessage_IsOnline := false |>
          <| ServerMessage_LastSeenUnixMs := 0%Z |> →
  sm <| ServerMessage_MessageId := id |> <| ServerMessage_SentAtUnixMs := t |>
     <| ServerMessage_Type := MessageType_MESSAGE_TYPE_TEXT |>
     <| ServerMessage_EventType := EventType_EVENT_TYPE_MESSAGE |>
     <| ServerMessage_MediaUrl := "" |> <| ServerMessage_ReactionEmoji := "" |>
     <| ServerMessage_EditedAtUnixMs := 0%Z |> <| ServerMessage_Status := 0%Z |>
     <| ServerMessage_IsOnline := false |> <| ServerMessage_LastSeenUnixMs := 0%Z |> <| ServerMessage_RoomId := r |>
  = sm <| ServerMessage_Type := MessageType_MESSAGE_TYPE_TEXT |> <| ServerMessage_Status := 0%Z |>.
Proof. intros <- <- <-. destruct sm. cbn. intros [= -> -> -> -> -> -> ->]. reflexivity. Qed.

(** What [SendMessage] says and leaves: the message at a pointer, and the goroutine that will save it. *)
Lemma send_leaves R uuid now req s g :
  Hub.hub_inv R (hub s) → msgRepo s = Some g →
  normalizeRoomID (SendMessageRequest_ConversationId req) ≠ "" → SendMessageRequest_SenderId req ≠ "" →
  ∃ s1 sm p, SendMessage uuid now req s = Done (s1, Ok (mkSendMessageResponse sm))
    ∧ Hub.msgs (hub s1) !! p = Some sm ∧ msgRepo s1 = Some g ∧ tasks s1 = tasks s ++ [TaskPersist p]
    ∧ ServerMessage_RoomId sm = normalizeRoomID (SendMessageRequest_ConversationId req)
    ∧ ServerMessage_UserId sm = SendMessageRequest_SenderId req ∧ ServerMessage_MessageId sm = uuid
    ∧ ServerMessage_Text sm = SendMessageRequest_Content req
    ∧ ServerMessage_SentAtUnixMs sm = to_unix_milli now ∧ ServerMessage_DeliveredAtUnixMs sm = to_unix_milli now
    ∧ sm = sm <| ServerMessage_EventType := EventType_EVENT_TYPE_MESSAGE |> <| ServerMessage_MediaUrl := "" |>
              <| ServerMessage_ReactionEmoji := "" |> <| ServerMessage_IsDeleted := false |>
              <| ServerMessage_EditedAtUnixMs := 0%Z |> <| ServerMessage_IsOnline := false |>
              <| ServerMessage_LastSeenUnixMs := 0%Z |>.
Proof.
  intros Hi Hg Hr Hu. unfold SendMessage. cbv zeta.
  rewrite (proj2 (String.eqb_neq _ _) Hr), (proj2 (String.eqb_neq _ _) Hu). cbn [orb].
  match goal with |- context [broadcast ?m true s] => set (sm := m) end.
  destruct (broadcast_ok R sm true s Hi) as (h & p & -> & _ & _ & Hm & _). cbn [outcome_bind fst snd].
  match goal with |- context [persistMessage p ?s1] => rewrite (persist_spawns p s1 g Hg) end.
  eexists _, sm, p. split; [reflexivity|]. split; [exact Hm|]. split; [exact Hg|]. by split_and!.
Qed.

(** [SendMessage], then its goroutine, then [GetMessages] of the same room. *)
Lemma send_save_read R uuid now req fresh now2 greq s g :
  Hub.hub_inv R (hub s) → msgRepo s = Some g → uuid ≠ "" →
  Forall (λ d, md_ID d ≠ uuid) (docs Messages g) →
  normalizeRoomID (SendMessageRequest_ConversationId req) ≠ "" → SendMessageRequest_SenderId req ≠ "" →
  normalizeRoomID (GetMessagesRequest_RoomId greq) ≠ "" →
  ∃ s1 sm s2 g2 s3 page,
    SendMessage uuid now req s = Done (s1, Ok (mkSendMessageResponse sm))
    ∧ run sort_slice order (CallTask fresh now2 (length (tasks s))) s1 = Done s2
    ∧ GetMessages greq s2 = Done (s3, Ok page)
    ∧ msgRepo s2 = Some g2 ∧ docs Messages g2 = docs Messages g ++ [MessageRepository.doc_of_message fresh now2 sm]
    ∧ ServerMessage_RoomId sm = normalizeRoomID (SendMessageRequest_ConversationId req)
    ∧ ServerMessage_UserId sm = SendMessageRequest_SenderId req ∧ ServerMessage_MessageId sm = uuid
    ∧ ServerMessage_Text sm = SendMessageRequest_Content req
    ∧ ServerMessage_SentAtUnixMs sm = to_unix_milli now ∧ ServerMessage_DeliveredAtUnixMs sm = to_unix_milli now
    ∧ sm = sm <| ServerMessage_EventType := EventType_EVENT_TYPE_MESSAGE |> <| ServerMessage_MediaUrl := "" |>
              <| ServerMessage_ReactionEmoji := "" |> <| ServerMessage_IsDeleted := false |>
              <| ServerMessage_EditedAtUnixMs := 0%Z |> <| ServerMessage_IsOnline := false |>
              <| ServerMessage_LastSeenUnixMs := 0%Z |>.
Proof.
  intros Hi Hg Hu Hn Hr Hs Hgr.
  destruct (send_leaves R uuid now req s g Hi Hg Hr Hs) as (s1 & sm & p & E & Hp & Hg1 & Ht & H1 & H2 & H3 & Hrest).
  assert (Hid : MessageRepository.msg_id fresh sm = uuid).
  { unfold MessageRepository.msg_id. rewrite H3. by rewrite (proj2 (String.eqb_neq _ _) Hu). }
  set (s1' := s1 <| tasks := delete (length (tasks s)) (tasks s1) |>).
  destruct (persist_docs fresh now2 p sm s1' g) as (g2 & Hg2 & Hd2); [done..|by rewrite Hid|].
  destruct (GetMessages_answers greq _ g2 Hg2 Hgr) as (s3 & page & E3).
  exists s1, sm, (run_task fresh now2 (TaskPersist p) s1'), g2, s3, page. split_and!; try done; try apply Hrest.
  cbn [run]. rewrite Ht, list_lookup_middle by done. by rewrite <- Ht.
Qed.

(** C19: What is sent can be read: when the store answers and the id is new, [SendMessage]
    succeeds, its goroutine saves the message, and [GetMessages] of the room, under any
    spelling that normalises to the same id, returns it on a page that is not full, with
    its room, sender, text, time and media; only its type reads TEXT and its status is gone. *)
Theorem sent_message_is_served R uuid now req fresh now2 greq s g :
  Hub.hub_inv R (hub s) → msgRepo s = Some g → uuid ≠ "" → Forall (λ d, md_ID d ≠ uuid) (docs Messages g) →
  let room := normalizeRoomID (SendMessageRequest_ConversationId req) in
  room ≠ "" → TrimSpace room = room → SendMessageRequest_SenderId req ≠ "" →
  to_unix_milli now ≠ (-62135596800000)%Z →
  normalizeRoomID (GetMessagesRequest_RoomId greq) = room → GetMessagesRequest_BeforeUnixMs greq = 0%Z →
  ∃ s1 sm s2 s3 page,
    SendMessage uuid now req s = Done (s1, Ok (mkSendMessageResponse sm))
    ∧ run sort_slice order (CallTask fresh now2 (length (tasks s))) s1 = Done s2
    ∧ GetMessages greq s2 = Done (s3, Ok page)
    ∧ ServerMessage_RoomId sm = room ∧ ServerMessage_UserId sm = SendMessageRequest_SenderId req
    ∧ ServerMessage_Text sm = SendMessageRequest_Content req
    ∧ (GetMessagesResponse_HasMore page = false →
        sm <| ServerMessage_Type := MessageType_MESSAGE_TYPE_TEXT |> <| ServerMessage_Status := 0%Z |>
          ∈ GetMessagesResponse_Messages page).
Proof.
  intros Hi Hg Hu Hn room Hr Htr Hs Hnow Hgr Hb.
  destruct (send_save_read R uuid now req fresh now2 greq s g) as
    (s1 & sm & s2 & g2 & s3 & page & E1 & E2 & E3 & Hg2 & Hd2 & H1 & H2 & H3 & H4 & H5 & H6 & H7); try done; [by rewrite Hgr|].
  exists s1, sm, s2, s3, page. split_and!; try done. intros Hmore.
  set (d := MessageRepository.doc_of_message fresh now2 sm) in *.
  assert (Hin : MessageRepository.docToServerMessage d <| ServerMessage_RoomId := room |> ∈ GetMessagesResponse_Messages page).
  { rewrite <- Hgr. apply (stored_is_served greq s2 g2 s3 page d Hg2 E3 Hmore); [rewrite Hd2; set_solver|].
    unfold MessageRepository.in_history. rewrite Hb, Hgr. simpl. rewrite andb_true_r.
    unfold MessageRepository.in_room. apply orb_true_iff. left. apply bool_decide_eq_true. unfold d. simpl. rewrite H1.
    fold room. rewrite <- Htr at 1. apply roomIDAliases_self. by rewrite Htr. }
  pose proof (to_unix_milli_range now) as Hr64.
  unfold d in Hin. rewrite MessageRepository.docToServerMessage_saved in Hin by (by rewrite H6).
  assert (Hid : MessageRepository.msg_id fresh sm = uuid).
  { unfold MessageRepository.msg_id. rewrite H3. by rewrite (proj2 (String.eqb_neq _ _) Hu). }
  assert (Hc : to_unix_milli (MessageRepository.created_at now2 sm) = to_unix_milli now).
  { unfold MessageRepository.created_at. rewrite H5. cbv zeta. destruct (IsZero _) eqn:Ez.
    - by apply IsZero_of_unix_milli in Ez.
    - by apply to_of_unix_milli. }
  rewrite Hid, Hc in Hin. rewrite <- (saved_shape sm uuid (to_unix_milli now) room H3 H5 H1 H7). exact Hin.
Qed.

(** C24: Unless the room's id ends in white space, which [normalizeRoomID] leaves when the
    second user of a direct room is written with it: the message is saved under that id, but
    the history query trims the id it is given and every alias of it, so that no history page
    of the room, under any spelling, ever has the message. *)
Theorem padded_room_has_no_history R uuid now req fresh now2 greq s g :
  Hub.hub_inv R (hub s) → msgRepo s = Some g → uuid ≠ "" → Forall (λ d, md_ID d ≠ uuid) (docs Messages g) →
  let room := normalizeRoomID (SendMessageRequest_ConversationId req) in
  room ≠ "" → TrimSpace room ≠ room → SendMessageRequest_SenderId req ≠ "" →
  normalizeRoomID (GetMessagesRequest_RoomId greq) ≠ "" →
  ∃ s1 sm s2 s3 page,
    SendMessage uuid now req s = Done (s1, Ok (mkSendMessageResponse sm))
    ∧ run sort_slice order (CallTask fresh now2 (length (tasks s))) s1 = Done s2
    ∧ GetMessages greq s2 = Done (s3, Ok page)
    ∧ uuid ∉ ServerMessage_MessageId <$> GetMessagesResponse_Messages page.
Proof.
  intros Hi Hg Hu Hn room Hr Htr Hs Hgr.
  destruct (send_save_read R uuid now req fresh now2 greq s g) as
    (s1 & sm & s2 & g2 & s3 & page & E1 & E2 & E3 & Hg2 & Hd2 & H1 & _ & H3 & _); try done.
  exists s1, sm, s2, s3, page. split_and!; try done.
  destruct (GetMessages_page_docs greq s2 g2 s3 page Hg2 E3) as (ds & Hms & Hds). rewrite Hms.
  intros (m & Hm & (d & -> & Hd)%list_elem_of_fmap)%list_elem_of_fmap.
  destruct (Hds d Hd) as [Hdd Hin]. rewrite Hd2 in Hdd. apply elem_of_app in Hdd as [Hold|Hnew].
  - rewrite Forall_forall in Hn. by apply (Hn d Hold).
  - apply list_elem_of_singleton in Hnew as ->. unfold MessageRepository.in_history in Hin.
    apply andb_true_iff in Hin as [Hin _]. unfold MessageRepository.in_room, present_in in Hin. simpl in Hin.
    rewrite H1 in Hin. apply Htr. apply orb_true_iff in Hin as [Hin|Hin]; [|apply andb_true_iff in Hin as [_ Hin]];
      apply bool_decide_eq_true in Hin; by apply roomIDAliases_trimmed in Hin.
Qed.
End history.

(** ** A server in memory *)

Module Told.
Definition req : SendMessageRequest := mkSendMessageRequest "dm:bob:alice" "alice" "hello" 0 "" "" 0 "" "".
(** Bob's name is written with a space after it, and comes last of the two when they are sorted. *)
Definition padded : SendMessageRequest := mkSendMessageRequest "dm:bob :alice" "alice" "hello" 0 "" "" 0 "" "".

Lemma uuid_is_new : Forall (λ d, md_ID d ≠ "m2") (docs Messages MemMongo.one_message).
Proof. vm_compute. constructor; [discriminate|constructor]. Qed.
End Told.

Lemma sent_message_is_served_witness :
  ∃ s3 page (s2 : ChatServer.t Noop.t MemKV.t LocalPresence.t MemDB.t MemMongo.t CloudinaryStorage.t),
    ChatServer.GetMessages (mkGetMessagesRequest "dm-bob-alice" "bob" 10 0) s2 = Done (s3, Ok page)
    ∧ (GetMessagesResponse_HasMore page = false →
       Exists (λ m, ServerMessage_Text m = "hello") (GetMessagesResponse_Messages page)).
Proof.
  destruct (sent_message_is_served MemServer.sort elements _ "m2" 9000000 Told.req "" 9000001
    (mkGetMessagesRequest "dm-bob-alice" "bob" 10 0) MemServer.server MemMongo.one_message
    NoopHub.alice_inv eq_refl) as (s1 & sm & s2 & s3 & page & _ & _ & E & _ & _ & Ht & H).
  - discriminate.
  - exact Told.uuid_is_new.
  - vm_compute. discriminate.
  - vm_compute. reflexivity.
  - discriminate.
  - vm_compute. discriminate.
  - vm_compute. reflexivity.
  - reflexivity.
  - exists s3, page, s2. split; [exact E|]. intros Hm. apply Exists_exists. eexists. split; [exact (H Hm)|exact Ht].
Defined.

Lemma padded_room_has_no_history_witness :
  ∃ s1 sm (s2 : ChatServer.t Noop.t MemKV.t LocalPresence.t MemDB.t MemMongo.t CloudinaryStorage.t) s3 page,
    ChatServer.SendMessage "m2" 9000000 Told.padded MemServer.server = Done (s1, Ok (mkSendMessageResponse sm))
    ∧ ChatServer.GetMessages (mkGetMessagesRequest "dm:bob :alice" "bob" 10 0) s2 = Done (s3, Ok page)
    ∧ "m2" ∉ ServerMessage_MessageId <$> GetMessagesResponse_Messages page.
Proof.
  destruct (padded_room_has_no_history MemServer.sort elements _ "m2" 9000000 Told.padded "" 9000001
    (mkGetMessagesRequest "dm:bob :alice" "bob" 10 0) MemServer.server MemMongo.one_message
    NoopHub.alice_inv eq_refl) as (s1 & sm & s2 & s3 & page & E1 & _ & E3 & H).
  - discriminate.
  - exact Told.uuid_is_new.
  - vm_compute. discriminate.
  - vm_compute. discriminate.
  - discriminate.
  - vm_compute. discriminate.
  - exists s1, sm, s2, s3, page. split; [exact E1|]. split; [exact E3|exact H].
Defined.
