(* ===== verification/Paging.v ===== *)
(** * Reading a history page by page

    [GetMessages] of [app/server/grpc_server.go] and [GetMessagesBefore] of
    [app/repository/mongodb.go], called again and again: the next page of a
    history is asked for with the time of the oldest message of the last one.
    When no two messages of the room have the same millisecond, the pages
    together are the history; when two have, the pages lose messages. *)

From S2P Require Import Prelude GoString Pb Json RoomId Chan Broker Hub Presence RoomStore Postgres Mongo Storage Server History.
Import ChatServer.

Local Open Scope go_scope.

(** ** The time of a message *)

(** The time that a reader is shown, and pages with. *)
Definition millis (d : messageDoc) : Z := ServerMessage_SentAtUnixMs (MessageRepository.docToServerMessage d).

(** What [SaveMessage] stores of a message that was sent at any time but the epoch: both
    times, the same, to the millisecond. *)
Record timed (d : messageDoc) : Prop := {
  timed_created : md_CreatedAt d = of_unix_milli (millis d);
  timed_sent : md_SentAt d = md_CreatedAt d;
  timed_nonzero : millis d ≠ 0%Z
}.

Lemma millis_same d : md_SentAt d = md_CreatedAt d → millis d = to_unix_milli (md_CreatedAt d).
Proof.
  intros H. change (millis d) with (to_unix_milli (if IsZero (md_CreatedAt d) then md_SentAt d else md_CreatedAt d)).
  rewrite H. by destruct (IsZero _).
Qed.

(** A saved message is timed. *)
Lemma saved_timed fresh now m :
  is_i64 (ServerMessage_SentAtUnixMs m) → ServerMessage_SentAtUnixMs m ≠ 0%Z →
  ServerMessage_SentAtUnixMs m ≠ (-62135596800000)%Z →
  timed (MessageRepository.doc_of_message fresh now m).
Proof.
  intros Hr Hn Hz.
  assert (Hc : md_CreatedAt (MessageRepository.doc_of_message fresh now m) = of_unix_milli (ServerMessage_SentAtUnixMs m)).
  { cbn. unfold MessageRepository.created_at. cbv zeta.
    destruct (IsZero (of_unix_milli (ServerMessage_SentAtUnixMs m))) eqn:E.
    - by apply IsZero_of_unix_milli in E.
    - unfold bson_time. by rewrite to_of_unix_milli. }
  assert (Hm : millis (MessageRepository.doc_of_message fresh now m) = ServerMessage_SentAtUnixMs m).
  { rewrite millis_same by done. rewrite Hc. by apply to_of_unix_milli. }
  by split; rewrite ?Hm.
Qed.

Lemma timed_before c d : timed d → MessageRepository.sent_before (of_unix_milli c) d = (millis d <? c)%Z.
Proof.
  intros [Hc Hs _]. unfold MessageRepository.sent_before. rewrite Hs, Hc.
  assert (E : (of_unix_milli (millis d) <? of_unix_milli c)%Z = (millis d <? c)%Z).
  { apply eq_true_iff_eq. unfold of_unix_milli. rewrite !Z.ltb_lt. lia. }
  rewrite E. by destruct (millis d <? c)%Z, (IsZero _).
Qed.

Lemma timed_order d e : timed d → timed e → (md_CreatedAt e ≤ md_CreatedAt d)%Z ↔ (millis e ≤ millis d)%Z.
Proof. intros [-> _ _] [-> _ _]. unfold of_unix_milli. lia. Qed.

Lemma sent_before_mono a b d :
  (a ≤ b)%Z → MessageRepository.sent_before (of_unix_milli a) d = true → MessageRepository.sent_before (of_unix_milli b) d = true.
Proof.
  unfold MessageRepository.sent_before, of_unix_milli. rewrite !orb_true_iff, !andb_true_iff, !Z.ltb_lt. intros Hab H.
  assert ((a * 10 ^ 6 ≤ b * 10 ^ 6)%Z) by lia. destruct H as [H|[H1 H2]]; [left|right; split; [done|]]; lia.
Qed.

Lemma filter_ext_in {A} (P Q : A → Prop) `{!∀ x, Decision (P x), !∀ x, Decision (Q x)} (l : list A) :
  (∀ x, x ∈ l → P x ↔ Q x) → filter P l = filter Q l.
Proof.
  induction l as [|x l IH]; intros Hl; [done|]. rewrite !filter_cons, IH by (intros; apply Hl; by constructor).
  assert (HPQ : P x ↔ Q x) by (apply Hl; by constructor). by repeat case_decide; try tauto.
Qed.

Lemma filter_none {A} (P : A → Prop) `{!∀ x, Decision (P x)} (l : list A) : Forall (λ x, ¬ P x) l → filter P l = [].
Proof. induction 1; [done|]. rewrite filter_cons. by case_decide. Qed.

Lemma filter_all {A} (P : A → Prop) `{!∀ x, Decision (P x)} (l : list A) : Forall P l → filter P l = l.
Proof. induction 1 as [|x l Hx _ IH]; [done|]. rewrite filter_cons, IH. by case_decide. Qed.

(** ** The next page *)

(** The request for what comes before the time [c]. *)
Definition before (c : Z) (req : GetMessagesRequest) : GetMessagesRequest :=
  mkGetMessagesRequest (GetMessagesRequest_RoomId req) (GetMessagesRequest_UserId req) (GetMessagesRequest_Limit req) c.

Section paging.
Context {B : Type} `{BR : Broker B} `{JC : JsonCodec ServerMessage} `{JR : JsonCodec RoomStore.RoomMeta}.
Context {K : Type} `{KV : RedisKV K} {P : Type} `{PS : PresenceStore P}.
Context {Q : Type} `{DB : SqlDB Q} {G : Type} `{MG : MongoDB G} {T : Type} `{SG : Storage T}.
Context `{!BrokerLaws B} `{!MongoLaws G} `{!MongoReliable G}.

#[local] Abbreviation server := (ChatServer.t B K P Q G T).
Implicit Types (s : server) (g : G) (req : GetMessagesRequest).

Lemma in_history_spec req g d :
  d ∈ history_matches req g ↔ d ∈ docs Messages g
    ∧ MessageRepository.in_room (roomIDAliases (normalizeRoomID (GetMessagesRequest_RoomId req))) d = true
    ∧ (GetMessagesRequest_BeforeUnixMs req = 0%Z
       ∨ MessageRepository.sent_before (of_unix_milli (GetMessagesRequest_BeforeUnixMs req)) d = true).
Proof.
  unfold history_matches. rewrite list_elem_of_filter. unfold MessageRepository.in_history.
  rewrite andb_true_iff, orb_true_iff, Z.eqb_eq. tauto.
Qed.

(** The matches of the request for what comes before [c] are the older ones of [req]'s. *)
Lemma matches_before req g c :
  Forall timed (history_matches req g) → c ≠ 0%Z →
  (GetMessagesRequest_BeforeUnixMs req = 0 ∨ c ≤ GetMessagesRequest_BeforeUnixMs req)%Z →
  history_matches (before c req) g = filter (λ d, millis d < c)%Z (history_matches req g).
Proof.
  intros Ht Hc Hb. unfold history_matches at 1 2. rewrite list_filter_filter. apply filter_ext_in. intros d Hd.
  pose proof (in_history_spec req g d) as H1. pose proof (in_history_spec (before c req) g d) as H2.
  unfold history_matches in H1, H2. rewrite list_elem_of_filter in H1, H2. cbn [before GetMessagesRequest_RoomId GetMessagesRequest_BeforeUnixMs] in *.
  rewrite Forall_forall in Ht. pose proof (in_history_spec req g d) as H3.
  assert (Hm : MessageRepository.sent_before (of_unix_milli c) d = true →
               GetMessagesRequest_BeforeUnixMs req = 0%Z
               ∨ MessageRepository.sent_before (of_unix_milli (GetMessagesRequest_BeforeUnixMs req)) d = true).
  { intros H. destruct Hb as [|Hb]; [by left|right]. by eapply sent_before_mono. }
  split.
  - intros H. destruct (proj1 H2 (conj H Hd)) as (_ & Hr & [?|Hs]); [done|].
    assert (Hin : d ∈ history_matches req g) by (apply H3; tauto).
    split; [|tauto]. rewrite (timed_before c d (Ht d Hin)) in Hs. by apply Z.ltb_lt.
  - intros [Hlt H]. destruct (proj1 H1 (conj H Hd)) as (_ & Hr & Ho).
    assert (Hin : d ∈ history_matches req g) by (apply H3; tauto).
    apply (proj2 H2). split; [done|]. split; [done|]. right. rewrite (timed_before c d (Ht d Hin)). by apply Z.ltb_lt.
Qed.
(** What a reader is shown of a stored message. *)
Definition shown_as req (d : messageDoc) : ServerMessage :=
  MessageRepository.docToServerMessage d <| ServerMessage_RoomId := normalizeRoomID (GetMessagesRequest_RoomId req) |>.

(** A page that ends at the time [c] cuts the matches there: at or after [c] is shown, at or
    before [c] is left, and what comes before [c] is what is left but for [c] itself. *)
Lemma page_cut req s g s' page oldest :
  msgRepo s = Some g → Forall timed (history_matches req g) →
  GetMessages req s = Done (s', Ok page) → last (GetMessagesResponse_Messages page) = Some oldest →
  let c := ServerMessage_SentAtUnixMs oldest in
  ∃ shown left, GetMessagesResponse_Messages page = shown_as req <$> shown ∧ shown ++ left ≡ₚ history_matches req g
    ∧ (if GetMessagesResponse_HasMore page then left ≠ [] else left = [])
    ∧ c ≠ 0%Z ∧ (GetMessagesRequest_BeforeUnixMs req = 0 ∨ c ≤ GetMessagesRequest_BeforeUnixMs req)%Z
    ∧ c ∈ millis <$> shown ∧ Forall (λ d, c ≤ millis d)%Z shown ∧ Forall (λ d, millis d ≤ c)%Z left
    ∧ StronglySorted (λ d e, millis e ≤ millis d)%Z shown
    ∧ history_matches (before c req) g ≡ₚ filter (λ d, millis d < c)%Z left.
Proof.
  intros Hg Ht E Hl c.
  destruct (GetMessages_page req s g s' page Hg E) as (_ & _ & (shown & left & Hms & Hp & _ & Hif & Hold & Hsort) & _).
  assert (Hin : ∀ d, d ∈ shown ∨ d ∈ left → d ∈ history_matches req g) by (intros d; by rewrite <- Hp, elem_of_app).
  assert (Htd : ∀ d, d ∈ shown ∨ d ∈ left → timed d) by (rewrite Forall_forall in Ht; auto).
  rewrite Hms, fmap_last in Hl. destruct (last shown) as [z|] eqn:Hz; [|done]. apply Some_inj in Hl. subst oldest.
  change c with (millis z) in *. clear c. apply last_Some in Hz as [l Hz].
  assert (Hzs : z ∈ shown) by (rewrite Hz; set_solver).
  assert (Hss : StronglySorted (λ d e, millis e ≤ millis d)%Z shown).
  { clear -Hsort Htd. induction Hsort as [|d l Hs IH Hd]; constructor; [apply IH; set_solver|].
    rewrite Forall_forall in Hd |- *. intros e He. apply timed_order; [set_solver..|by apply Hd]. }
  assert (Hge : Forall (λ d, millis z ≤ millis d)%Z shown).
  { rewrite Hz in Hss |- *. apply Forall_app_2; [|by constructor]. apply Forall_forall. intros d Hd.
    apply (StronglySorted_app_1_elem_of _ _ _ d z Hss); set_solver. }
  assert (Hle : Forall (λ d, millis d ≤ millis z)%Z left).
  { rewrite !Forall_forall in Hold |- *. intros e He. apply timed_order; [auto..|]. specialize (Hold z Hzs).
    rewrite Forall_forall in Hold. by apply Hold. }
  assert (Hb : (GetMessagesRequest_BeforeUnixMs req = 0 ∨ millis z ≤ GetMessagesRequest_BeforeUnixMs req)%Z).
  { destruct (proj1 (in_history_spec req g z) (Hin z (or_introl Hzs))) as (_ & _ & [?|Hs]); [by left|right].
    rewrite timed_before in Hs by auto. apply Z.ltb_lt in Hs. lia. }
  assert (Hn : millis z ≠ 0%Z) by (apply timed_nonzero; auto).
  exists shown, left. split_and!; try done.
  - destruct (GetMessagesResponse_HasMore page); [apply Hif|done].
  - apply list_elem_of_fmap. by exists z.
  - rewrite matches_before, <- Hp, filter_app by done.
    rewrite filter_none; [done|]. eapply Forall_impl; [exact Hge|]. simpl. lia.
Qed.

(** ** Walking back *)

Lemma sorted_strictly (l : list messageDoc) :
  NoDup (millis <$> l) → StronglySorted (λ d e, millis e ≤ millis d)%Z l →
  StronglySorted (λ d e, millis e < millis d)%Z l.
Proof.
  intros Hn Hs. induction Hs as [|d l Hs IH Hd]; constructor; apply NoDup_cons in Hn as [Hd' Hn]; [by apply IH|].
  rewrite Forall_forall in Hd |- *. intros e He. specialize (Hd e He).
  destruct (decide (millis e = millis d)) as [Heq|]; [|lia]. exfalso. apply Hd'. rewrite <- Heq. by apply list_elem_of_fmap_2.
Qed.

(** The page a walk ends on, or what it shows before it goes on. *)
Lemma shown_sorted req (l : list messageDoc) :
  NoDup (millis <$> l) → StronglySorted (λ d e, millis e ≤ millis d)%Z l →
  StronglySorted (λ m m', ServerMessage_SentAtUnixMs m' < ServerMessage_SentAtUnixMs m)%Z (shown_as req <$> l).
Proof. intros Hn Hs. apply sorted_strictly in Hs; [|done]. eapply StronglySorted_fmap; [|exact Hs]. done. Qed.

(** A reader's walk: page after page, each from the time of the oldest message of the last,
    until [has_more] is false. [None] when a page is refused or the fuel is spent. *)
Fixpoint walk (fuel : nat) req s : outcome (server * option (list ServerMessage)) :=
  match fuel with
  | O => Done (s, None)
  | S fuel =>
      outcome_bind (GetMessages req s) (λ '(s, r),
        match r with
        | Err _ => Done (s, None)
        | Ok page =>
            let msgs := GetMessagesResponse_Messages page in
            match last msgs with
            | Some oldest =>
                if GetMessagesResponse_HasMore page then
                  outcome_bind (walk fuel (before (ServerMessage_SentAtUnixMs oldest) req) s) (λ '(s, older),
                    Done (s, app msgs <$> older))
                else Done (s, Some msgs)
            | None => Done (s, Some msgs)
            end
        end)
  end.

(** C21: Paging loses what shares a millisecond: the next page is asked for with the time of
    the oldest message of the last one, and the query is for times strictly before it, so a
    message that is left over when a page is full and has the very time at which the page
    ends is on no page from there on, at that time or any earlier one. *)
Theorem same_millisecond_is_skipped req s g s' page oldest :
  msgRepo s = Some g → Forall timed (history_matches req g) →
  GetMessages req s = Done (s', Ok page) → last (GetMessagesResponse_Messages page) = Some oldest →
  let c := ServerMessage_SentAtUnixMs oldest in
  ∃ shown left, GetMessagesResponse_Messages page = shown_as req <$> shown ∧ shown ++ left ≡ₚ history_matches req g
    ∧ history_matches (before c req) g ≡ₚ filter (λ d, millis d < c)%Z left
    ∧ ∀ d c', d ∈ left → millis d = c → c' ≠ 0%Z → (c' ≤ c)%Z → d ∉ history_matches (before c' req) g.
Proof.
  intros Hg Ht E Hl c.
  destruct (page_cut req s g s' page oldest Hg Ht E Hl) as (shown & left & Hms & Hp & _ & Hc & Hb & _ & _ & _ & _ & Hn).
  fold c in Hc, Hb, Hn. exists shown, left. split_and!; try done.
  intros d c' Hd Hdc Hc' Hle. rewrite matches_before by (done || lia).
  rewrite list_elem_of_filter. lia.
Qed.

(** C20: And when the messages of a room all have different times, paging is complete: asking
    for page after page ends, within one page more than there are messages, and shows every
    message of the room exactly once, the newest first. *)
Theorem walk_serves_every_message fuel req s g :
  msgRepo s = Some g → normalizeRoomID (GetMessagesRequest_RoomId req) ≠ "" →
  Forall timed (history_matches req g) → NoDup (millis <$> history_matches req g) →
  length (history_matches req g) < fuel →
  ∃ s' l, walk fuel req s = Done (s', Some l) ∧ msgRepo s' = Some g
    ∧ l ≡ₚ shown_as req <$> history_matches req g
    ∧ StronglySorted (λ m m', ServerMessage_SentAtUnixMs m' < ServerMessage_SentAtUnixMs m)%Z l.
Proof.
  revert req s. induction fuel as [|fuel IH]; intros req s Hg Hr Ht Hnd Hf; [lia|].
  destruct (GetMessages_answers req s g Hg Hr) as (s1 & page & E). cbn [walk]. rewrite E. cbn [outcome_bind].
  destruct (GetMessages_page req s g s1 page Hg E) as (_ & Hg1 & (ds & rest & Hds & Hpd & _ & Hmore & _) & _).
  destruct (last (GetMessagesResponse_Messages page)) as [oldest|] eqn:Hl.
  2:{ apply last_None in Hl. rewrite Hl in Hds |- *. symmetry in Hds. apply fmap_nil_inv in Hds as ->.
      exists s1, []. split_and!; [done|done| |constructor].
      destruct (GetMessagesResponse_HasMore page); [|by subst rest; simpl in Hpd; rewrite <- Hpd].
      exfalso. pose proof (page_size_bounds req). destruct Hmore as [H0 _]. simpl in H0. lia. }
  clear ds rest Hds Hpd Hmore.
  destruct (page_cut req s g s1 page oldest Hg Ht E Hl) as
    (shown & left & Hms & Hp & Hif & Hc & Hb & Hin & Hge & Hle & Hss & Hn).
  set (c := ServerMessage_SentAtUnixMs oldest) in *.
  rewrite <- Hp, fmap_app in Hnd. apply NoDup_app in Hnd as (Hnd1 & Hdis & Hnd2).
  pose proof (shown_sorted req shown Hnd1 Hss) as Hs1.
  destruct (GetMessagesResponse_HasMore page).
  2:{ subst left. rewrite app_nil_r in Hp. exists s1, (GetMessagesResponse_Messages page). rewrite Hms, <- Hp. by split_and!. }
  rewrite filter_all in Hn.
  2:{ rewrite Forall_forall in Hle |- *. intros d Hd. specialize (Hle d Hd).
      destruct (decide (millis d = c)) as [Heq|]; [|lia]. exfalso. apply (Hdis c Hin). rewrite <- Heq. by apply list_elem_of_fmap_2. }
  destruct (IH (before c req) s1) as (s2 & l & -> & Hg2 & Hl2 & Hs2).
  - done.
  - done.
  - rewrite Hn. rewrite <- Hp in Ht. by apply Forall_app in Ht as [_ ?].
  - by rewrite Hn.
  - rewrite Hn. rewrite <- Hp, length_app in Hf. destruct shown; [by apply elem_of_nil in Hin|]. simpl in Hf. lia.
  - cbn [outcome_bind]. eexists s2, _. split; [reflexivity|]. split; [done|].
    change (shown_as (before c req)) with (shown_as req) in Hl2. rewrite Hn in Hl2. rewrite Hms.
    split; [by rewrite Hl2, <- Hp, fmap_app|]. apply StronglySorted_app_2; [|done|done]. intros m m' Hm Hm'. rewrite Hl2 in Hm'.
    apply list_elem_of_fmap in Hm as (d & -> & Hd), Hm' as (e & -> & He).
    change (millis e < millis d)%Z. rewrite Forall_forall in Hge, Hle. specialize (Hge d Hd). specialize (Hle e He).
    destruct (decide (millis e = c)) as [Heq|]; [|lia]. exfalso. apply (Hdis c Hin). rewrite <- Heq. by apply list_elem_of_fmap_2.
Qed.

(** A page is a function of the store. *)
Lemma GetMessages_again req s s1 s2 page :
  GetMessages req s = Done (s1, Ok page) → msgRepo s2 = msgRepo s →
  ∃ s3, GetMessages req s2 = Done (s3, Ok page) ∧ msgRepo s3 = msgRepo s.
Proof.
  intros E Hs. unfold GetMessages in E |- *. cbv zeta in E |- *. rewrite Hs.
  destruct (String.eqb _ ""); [done|]. destruct (msgRepo s) as [g|] eqn:Hg.
  - destruct (MessageRepository.GetMessagesBefore _ _ _ g) as [l|e]; [|done].
    unfold reply in E |- *. injection E as _ <-. eexists. split; [reflexivity|]. by repeat case_match.
  - unfold reply in E |- *. injection E as _ <-. by eexists.
Qed.

(** One message at the epoch keeps a reader from ever finishing: the cursor of a page
    that ends with it is 0, which asks for the newest page, so that a reader whose newest page
    ends there, with more to come, is given that page for ever. *)
Theorem epoch_page_never_ends fuel req s s1 page oldest :
  GetMessagesRequest_BeforeUnixMs req = 0%Z → GetMessages req s = Done (s1, Ok page) →
  GetMessagesResponse_HasMore page = true → last (GetMessagesResponse_Messages page) = Some oldest →
  ServerMessage_SentAtUnixMs oldest = 0%Z →
  ∃ s', walk fuel req s = Done (s', None).
Proof.
  intros Hb E Hm Hl H0.
  assert (Hreq : before (ServerMessage_SentAtUnixMs oldest) req = req).
  { unfold before. rewrite H0, <- Hb. by destruct req. }
  assert (Hw : ∀ s2, msgRepo s2 = msgRepo s → ∃ s', walk fuel req s2 = Done (s', None)); [|by apply Hw].
  induction fuel as [|fuel IH]; intros s2 Hs2; cbn [walk]; [by eexists|].
  destruct (GetMessages_again req s s1 s2 page E Hs2) as (s3 & -> & Hs3). cbn [outcome_bind].
  cbv zeta. rewrite Hl, Hm, Hreq. destruct (IH s3 Hs3) as [s4 ->]. cbn [outcome_bind fmap option_fmap option_map]. by eexists.
Qed.
End paging.

(** ** A room with three messages, of two users *)

Module Paged.
Definition sent_at (id : string) (ms : Z) : ServerMessage :=
  MemMongo.photo <| ServerMessage_MessageId := id |> <| ServerMessage_SentAtUnixMs := ms |>.
Definition save (m : ServerMessage) (g : MemMongo.t) : MemMongo.t := (MessageRepository.SaveMessage "uuid" 0 m g).1.

(** One message a second; and two in the same millisecond. *)
Definition spaced : MemMongo.t := save (sent_at "m3" 7000) (save (sent_at "m2" 6000) MemMongo.one_message).
Definition tied : MemMongo.t := save (sent_at "m2" 5000) MemMongo.one_message.

(** Two messages of 1970. *)
Definition timeless : MemMongo.t := save (sent_at "m2" 0) (save (sent_at "m3" 0) MemMongo.empty).

Definition serving (g : MemMongo.t) : MemServer.t := MemServer.server <| msgRepo := Some g |>.
Definition one_by_one : GetMessagesRequest := mkGetMessagesRequest "dm-bob-alice" "" 1 0.
Definition tied_page : GetMessagesResponse :=
  (MemServer.response (mkGetMessagesResponse [] false) (ChatServer.GetMessages one_by_one (serving tied))).2.

Lemma spaced_matches : history_matches one_by_one spaced
  = MessageRepository.doc_of_message "uuid" 0 <$> [MemMongo.photo; sent_at "m2" 6000; sent_at "m3" 7000].
Proof. vm_compute. reflexivity. Qed.
Lemma tied_matches : history_matches one_by_one tied
  = MessageRepository.doc_of_message "uuid" 0 <$> [MemMongo.photo; sent_at "m2" 5000].
Proof. vm_compute. reflexivity. Qed.
Lemma tied_served : ChatServer.GetMessages one_by_one (serving tied) = Done (serving tied, Ok tied_page).
Proof. vm_compute. reflexivity. Qed.

Lemma sent_timed l :
  Forall (λ m, is_i64 (ServerMessage_SentAtUnixMs m) ∧ ServerMessage_SentAtUnixMs m ≠ 0%Z
               ∧ ServerMessage_SentAtUnixMs m ≠ (-62135596800000)%Z) l →
  Forall timed (MessageRepository.doc_of_message "uuid" 0 <$> l).
Proof. intros H. apply Forall_fmap. eapply Forall_impl; [exact H|]. intros m (? & ? & ?). by apply saved_timed. Qed.
End Paged.

Lemma same_millisecond_is_skipped_witness :
  ∃ d, d ∈ history_matches Paged.one_by_one Paged.tied
    ∧ shown_as Paged.one_by_one d ∉ GetMessagesResponse_Messages Paged.tied_page
    ∧ d ∉ history_matches (before 5000 Paged.one_by_one) Paged.tied.
Proof.
  destruct (same_millisecond_is_skipped Paged.one_by_one (Paged.serving Paged.tied) Paged.tied (Paged.serving Paged.tied)
    Paged.tied_page (shown_as Paged.one_by_one MemServer.photo_doc)) as (shown & left & Hms & Hp & _ & H).
  - reflexivity.
  - rewrite Paged.tied_matches. apply Paged.sent_timed. repeat constructor; vm_compute; discriminate.
  - exact Paged.tied_served.
  - vm_compute. reflexivity.
  - assert (Hd : MessageRepository.doc_of_message "uuid" 0 (Paged.sent_at "m2" 5000) ∈ left).
    { assert (Hin : MessageRepository.doc_of_message "uuid" 0 (Paged.sent_at "m2" 5000) ∈ shown ++ left)
        by (rewrite Hp, Paged.tied_matches; right; left).
      apply elem_of_app in Hin as [Hin|Hin]; [|done]. exfalso.
      apply (list_elem_of_fmap_2 (shown_as Paged.one_by_one)) in Hin. rewrite <- Hms in Hin.
      revert Hin. vm_compute. intros [?|[]%not_elem_of_nil]%elem_of_cons. discriminate. }
    exists (MessageRepository.doc_of_message "uuid" 0 (Paged.sent_at "m2" 5000)). split; [|split].
    + rewrite Paged.tied_matches. right. left.
    + vm_compute. intros [?|[]%not_elem_of_nil]%elem_of_cons. discriminate.
    + apply (H _ 5000%Z Hd); vm_compute; done || discriminate.
Defined.

Lemma walk_serves_every_message_witness :
  ∃ s' l, walk 4 Paged.one_by_one (Paged.serving Paged.spaced) = Done (s', Some l)
    ∧ l ≡ₚ shown_as Paged.one_by_one <$> history_matches Paged.one_by_one Paged.spaced ∧ length l = 3.
Proof.
  destruct (walk_serves_every_message 4 Paged.one_by_one (Paged.serving Paged.spaced) Paged.spaced) as (s' & l & E & _ & Hl & _).
  - reflexivity.
  - vm_compute. discriminate.
  - rewrite Paged.spaced_matches. apply Paged.sent_timed. repeat constructor; vm_compute; discriminate.
  - rewrite Paged.spaced_matches. decide_now.
  - rewrite Paged.spaced_matches. vm_compute. lia.
  - exists s', l. split; [exact E|]. split; [exact Hl|].
    rewrite (Permutation_length Hl), length_fmap, Paged.spaced_matches. reflexivity.
Defined.

Lemma epoch_page_never_ends_witness :
  (∃ d, d ∈ history_matches Paged.one_by_one Paged.timeless)
  ∧ ∃ s', walk 100 Paged.one_by_one (Paged.serving Paged.timeless) = Done (s', None).
Proof.
  split; [eexists; vm_compute; left|].
  apply (epoch_page_never_ends 100 Paged.one_by_one (Paged.serving Paged.timeless) (Paged.serving Paged.timeless)
    (MemServer.response (mkGetMessagesResponse [] false) (ChatServer.GetMessages Paged.one_by_one (Paged.serving Paged.timeless))).2
    (MessageRepository.docToServerMessage (MessageRepository.doc_of_message "uuid" 0 (Paged.sent_at "m3" 0)))).
  - reflexivity.
  - vm_compute. reflexivity.
  - vm_compute. reflexivity.
  - vm_compute. reflexivity.
  - vm_compute. reflexivity.
Defined.
