(* ===== verification/Frames.v ===== *)
(** * What a frame leaves out

    A frame with a message, from [processIncoming] of [app/server/grpc_server.go] through
    [toServerMsg] and [persistMessage] to [SaveMessage] of [app/repository/mongodb.go]:
    which time and which id the stored message has when the frame has none, and what
    becomes of a frame that has the id of another. *)

From S2P Require Import Prelude GoString Pb Json RoomId Chan Broker Hub Presence RoomStore Postgres Mongo Storage Server History Paging.
Import ChatServer.

Local Open Scope go_scope.

(** A frame with a message in it. *)
Definition has_content (m : ClientMessage) : Prop :=
  ClientMessage_EventType m = EventType_EVENT_TYPE_MESSAGE
  ∧ (ClientMessage_Text m ≠ "" ∨ ClientMessage_MediaKey m ≠ "").

(** What the room is told of it. *)
Definition announced (now : GoTime) (m : ClientMessage) : ServerMessage :=
  toServerMsg now m <| ServerMessage_Status := MessageStatus_MESSAGE_STATUS_SENT |>.

(** The events that name a message. *)
Definition names_a_message (ev : Z) : Prop :=
  ev ∈ [EventType_EVENT_TYPE_READ_RECEIPT; EventType_EVENT_TYPE_REACTION; EventType_EVENT_TYPE_DELETE; EventType_EVENT_TYPE_EDIT].

Section frames.
Context {B : Type} `{BR : Broker B} `{JC : JsonCodec ServerMessage} `{JR : JsonCodec RoomStore.RoomMeta}.
Context {K : Type} `{KV : RedisKV K} {P : Type} `{PS : PresenceStore P}.
Context {Q : Type} `{DB : SqlDB Q} {G : Type} `{MG : MongoDB G} {T : Type} `{SG : Storage T}.
Context `{!BrokerLaws B} `{!MongoLaws G} `{!MongoReliable G}.
Context (sort_slice : list RoomRepository.UserRoom → list RoomRepository.UserRoom).
Context (order : gset string → list string).

#[local] Abbreviation server := (ChatServer.t B K P Q G T).
Implicit Types (s : server) (g : G) (m : ClientMessage).

(** A frame is announced, and its goroutine saves what was announced. *)
Lemma frame_saves R now m fresh now2 s g :
  Hub.hub_inv R (hub s) → msgRepo s = Some g → has_content m →
  ∃ s1 s2 g2, processIncoming now m s = Done s1
    ∧ Hub.Broadcast_new (announced now m) true (hub s) = Done (hub s1)
    ∧ run sort_slice order (CallTask fresh now2 (length (tasks s))) s1 = Done s2 ∧ msgRepo s2 = Some g2
    ∧ docs Messages g2 = docs Messages (MessageRepository.SaveMessage fresh now2 (announced now m) g).1.
Proof.
  intros Hi Hg [He Hc]. rewrite (processIncoming_message now m s He Hc). fold (announced now m).
  destruct (broadcast_ok R (announced now m) true s Hi) as (h & p & -> & _ & _ & Hm & Eb). cbn [outcome_bind fst snd].
  match goal with |- context [persistMessage p ?s0] => rewrite (persist_spawns p s0 g Hg); set (s1 := spawn _ s0) end.
  assert (Ht : tasks s1 = tasks s ++ [TaskPersist p]) by done.
  set (s1' := s1 <| tasks := delete (length (tasks s)) (tasks s1) |>).
  destruct (persist_saves fresh now2 p (announced now m) s1' g Hm Hg) as (g2 & Hg2 & Hd2).
  exists s1, (run_task fresh now2 (TaskPersist p) s1'), g2. split_and!; try done.
  cbn [run]. by rewrite Ht, list_lookup_middle.
Qed.

(** A frame that names no message, of an event that needs one, is dropped. *)
Lemma unnamed_event_is_dropped now m s :
  names_a_message (ClientMessage_EventType m) → ClientMessage_MessageId m = "" → processIncoming now m s = Done s.
Proof.
  unfold names_a_message. intros He Hid. unfold processIncoming. cbv zeta. rewrite Hid.
  rewrite !elem_of_cons in He. destruct He as [->|[->|[->|[->|[]%not_elem_of_nil]]]]; reflexivity.
Qed.


(** C23: A message without a time is from 1970. The zero of the field is the epoch, which is
    not Go's zero time, so neither fallback to the clock is taken: the message is stored, at
    whatever time it arrives, with the first instant of 1970 as its time, behind every message
    that has one, and the cursor that a page ending with it gives a reader is the one that
    asks for the newest page again. *)
Theorem timeless_frame R now m fresh now2 s g :
  Hub.hub_inv R (hub s) → msgRepo s = Some g → has_content m → ClientMessage_SentAtUnixMs m = 0%Z →
  Forall (λ d, md_ID d ≠ MessageRepository.msg_id fresh (announced now m)) (docs Messages g) →
  ∃ s1 s2 g2 d, processIncoming now m s = Done s1
    ∧ run sort_slice order (CallTask fresh now2 (length (tasks s))) s1 = Done s2 ∧ msgRepo s2 = Some g2
    ∧ docs Messages g2 = docs Messages g ++ [d]
    ∧ md_CreatedAt d = of_unix_milli 0 ∧ md_SentAt d = of_unix_milli 0 ∧ millis d = 0%Z
    ∧ ∀ req, GetMessagesRequest_BeforeUnixMs req = 0%Z → before (millis d) req = req.
Proof.
  intros Hi Hg Hc Ht Hn.
  destruct (frame_saves R now m fresh now2 s g Hi Hg Hc) as (s1 & s2 & g2 & E1 & _ & E2 & Hg2 & Hd).
  rewrite save_new in Hd by done. set (d := MessageRepository.doc_of_message _ _ _) in Hd.
  assert (Hcr : md_CreatedAt d = of_unix_milli 0).
  { unfold d. cbn. unfold MessageRepository.created_at. cbv zeta. cbn. by rewrite Ht. }
  assert (Hm : millis d = 0%Z) by (by rewrite millis_same, Hcr).
  exists s1, s2, g2, d. split_and!; try done. intros req Hb. rewrite Hm. unfold before. rewrite <- Hb. by destruct req.
Qed.

(** A frame with the id of a stored message is announced all the same, with its own
    text, but not stored: the room sees the new text, the history keeps the old one. *)
Theorem resent_frame R now m fresh now2 s g d :
  Hub.hub_inv R (hub s) → msgRepo s = Some g → has_content m →
  d ∈ docs Messages g → ClientMessage_MessageId m = md_ID d → md_ID d ≠ "" →
  ∃ s1 s2 g2, processIncoming now m s = Done s1
    ∧ Hub.Broadcast_new (announced now m) true (hub s) = Done (hub s1)
    ∧ run sort_slice order (CallTask fresh now2 (length (tasks s))) s1 = Done s2 ∧ msgRepo s2 = Some g2
    ∧ docs Messages g2 = docs Messages g.
Proof.
  intros Hi Hg Hc Hd Hid Hne.
  destruct (frame_saves R now m fresh now2 s g Hi Hg Hc) as (s1 & s2 & g2 & E1 & Eb & E2 & Hg2 & Hd2).
  exists s1, s2, g2. split_and!; try done. rewrite Hd2.
  destruct (MessageRepository.SaveMessage fresh now2 (announced now m) g) as [g' [e|]] eqn:E;
    apply MessageRepository.SaveMessage_docs in E; [done|]. exfalso.
  destruct E as [_ Hall]. rewrite Forall_forall in Hall. apply (Hall d Hd). unfold MessageRepository.msg_id.
  change (ServerMessage_MessageId (announced now m)) with (ClientMessage_MessageId m).
  by rewrite Hid, (proj2 (String.eqb_neq _ _) Hne).
Qed.
End frames.

(** ** Frames to a server in memory *)

Module Sent.
Definition bare : ClientMessage :=
  ClientMessage_zero <| ClientMessage_RoomId := "dm:alice:bob" |> <| ClientMessage_UserId := "alice" |>
    <| ClientMessage_Text := "hello" |>.
Definition again : ClientMessage := bare <| ClientMessage_MessageId := "m1" |> <| ClientMessage_SentAtUnixMs := 6000%Z |>.
Lemma bare_content : has_content bare.
Proof. split; [reflexivity|left; discriminate]. Qed.
Lemma again_content : has_content again.
Proof. split; [reflexivity|left; discriminate]. Qed.
End Sent.


Lemma timeless_frame_witness :
  ∃ (s2 : MemServer.t) g2 d, msgRepo s2 = Some g2 ∧ docs Messages g2 = docs Messages MemMongo.one_message ++ [d]
    ∧ millis d = 0%Z.
Proof.
  destruct (timeless_frame MemServer.sort elements _ 9000000 Sent.bare "m2" 9000001 MemServer.server MemMongo.one_message
    NoopHub.alice_inv eq_refl Sent.bare_content eq_refl Told.uuid_is_new) as (s1 & s2 & g2 & d & _ & _ & Hg & Hd & _ & _ & Hm & _).
  exists s2, g2, d. split; [exact Hg|]. split; [exact Hd|exact Hm].
Defined.

Lemma resent_frame_witness :
  ∃ (s1 s2 : MemServer.t) g2, ChatServer.processIncoming 9000000 Sent.again MemServer.server = Done s1
    ∧ ServerMessage_Text (announced 9000000 Sent.again) = "hello"
    ∧ msgRepo s2 = Some g2 ∧ md_Content <$> docs Messages g2 = ["my cat"].
Proof.
  destruct (resent_frame MemServer.sort elements _ 9000000 Sent.again "m2" 9000001 MemServer.server MemMongo.one_message
    MemServer.photo_doc NoopHub.alice_inv eq_refl Sent.again_content MemServer.photo_stored) as (s1 & s2 & g2 & E1 & _ & _ & Hg & Hd).
  - reflexivity.
  - discriminate.
  - exists s1, s2, g2. split; [exact E1|]. split; [reflexivity|]. split; [exact Hg|]. rewrite Hd. reflexivity.
Defined.
