(* ===== verification/Chat.v ===== *)
(** * The bidirectional stream

    [Chat] of [app/server/grpc_server.go] (52-140): one stream is a handler that
    receives frames and a goroutine that sends what the hub queues for the
    client. A stream's state is the point its handler has reached and what its
    sender does; every access to the hub, the presence store or the stream is a
    step of its own, so that the steps of many streams, unary calls, goroutines
    and broker messages interleave. The system is the server with its streams,
    and [act] runs one step of it; [None] is a step that cannot run now. *)

From S2P Require Import Prelude GoString Pb Json RoomId Chan Broker Hub Presence RoomStore Postgres Mongo Storage Server.

Local Open Scope go_scope.

Module Chat.

(** What [Chat] returns. *)
Inductive chat_error : Type := RecvError (e : string) | Refused (st : status).

(** Where the handler is: before the first [Recv]; about to register, to go online, to
    announce it, to route the first frame; in the receive loop; in [<-done] after an error
    of [Recv]; in the deferred function after [Unregister] and after [SetOnline]; back. *)
Inductive point : Type :=
  | FirstRecv
  | Registering (first : ClientMessage)
  | GoingOnline (first : ClientMessage)
  | Announcing (first : ClientMessage)
  | FirstFrame (first : ClientMessage)
  | Receiving
  | Waiting (e : string)
  | GoingOffline (e : string)
  | Farewell (e : string)
  | Returned (r : chat_error).

(** The sender goroutine. *)
Inductive sender : Type := NotStarted | Sending | SenderDone.

(** [sent] is what the peer has been sent: the messages [stream.Send] took without an error,
    as they were then. *)
Record stream : Type := mk {
  at_ : point;
  userID : string;
  roomID : string;
  client : option nat;
  sending : sender;
  sent : list ServerMessage
}.
#[global] Instance stream_eta : Eta stream :=
  λ s, mk s.(at_) s.(userID) s.(roomID) s.(client) s.(sending) s.(sent).

Definition start : stream := mk FirstRecv "" "" None NotStarted [].

(** The stream is in the hub: from [Register] to [Unregister]. *)
Definition registered (st : stream) : option nat :=
  match at_ st with
  | GoingOnline _ | Announcing _ | FirstFrame _ | Receiving | Waiting _ => client st
  | _ => None
  end.

Definition presence_event (st : stream) (online : bool) (lastSeen : Z) : ServerMessage :=
  ServerMessage_zero
    <| ServerMessage_RoomId := roomID st |>
    <| ServerMessage_UserId := userID st |>
    <| ServerMessage_EventType := EventType_EVENT_TYPE_PRESENCE |>
    <| ServerMessage_IsOnline := online |>
    <| ServerMessage_LastSeenUnixMs := lastSeen |>.

Section chat.
Context {B : Type} `{BR : Broker B} `{JC : JsonCodec ServerMessage} `{JR : JsonCodec RoomStore.RoomMeta}.
Context {K : Type} `{KV : RedisKV K} {P : Type} `{PS : PresenceStore P}.
Context {Q : Type} `{DB : SqlDB Q} {G : Type} `{MG : MongoDB G} {T : Type} `{SG : Storage T}.
Context (sort_slice : list RoomRepository.UserRoom → list RoomRepository.UserRoom).
Context (order : gset string → list string).
(** The tick of [StartHeartbeat] if the presence store is Redis's; [None] for the local one. *)
Context (heartbeat : option (GoTime → string → P → P)).

#[local] Abbreviation server := (ChatServer.t B K P Q G T).
#[local] Abbreviation hub := ChatServer.hub.

(** The check at the top of [Chat]. *)
Definition enter (s : server) : stream :=
  if Hub.AtCapacity (hub s) then
    start <| at_ := Returned (Refused (mkStatus ResourceExhausted
      ("server at capacity (" +:+ itoa (Hub.ConnCount (hub s)) +:+ " connections): try another pod"))) |>
  else start.

(** A return of [Recv]. *)
Definition receive (now : GoTime) (in_ : result string ClientMessage) (st : stream) (s : server)
    : option (outcome (stream * server)) :=
  match at_ st with
  | FirstRecv =>
      Some (Done (match in_ with
        | Err e => st <| at_ := Returned (RecvError e) |>
        | Ok first =>
            if String.eqb (ClientMessage_UserId first) "" || String.eqb (ClientMessage_RoomId first) "" then
              st <| at_ := Returned (Refused (mkStatus InvalidArgument
                "user_id and room_id are required in the first message")) |>
            else st <| at_ := Registering first |> <| userID := ClientMessage_UserId first |>
                    <| roomID := normalizeRoomID (ClientMessage_RoomId first) |>
        end, s))
  | Receiving =>
      Some match in_ with
           | Err e => Done (st <| at_ := Waiting e |>, s)
           | Ok m => let! s := ChatServer.processIncoming now m s in Done (st, s)
           end
  | _ => None
  end.

(** The handler's next step outside [Recv]. *)
Definition handle (ctx : nat) (now : GoTime) (st : stream) (s : server) : option (outcome (stream * server)) :=
  match at_ st with
  | Registering first =>
      let '(h, c) := Hub.connect ctx (userID st) (roomID st) (hub s) in
      Some (Done (st <| at_ := GoingOnline first |> <| client := Some c |>, s <| ChatServer.hub := h |>))
  | GoingOnline first =>
      Some (Done (st <| at_ := Announcing first |>,
        s <| ChatServer.presence := SetOnline now (userID st) true (ChatServer.presence s) |>))
  | Announcing first =>
      Some (let! s := ChatServer.broadcast_ (presence_event st true 0) true s in
            Done (st <| at_ := FirstFrame first |> <| sending := Sending |>, s))
  | FirstFrame first =>
      Some (let! s := ChatServer.processIncoming now first s in Done (st <| at_ := Receiving |>, s))
  | Waiting e =>
      match sending st, client st with
      | SenderDone, Some c =>
          Some (let! h := Hub.Unregister c (hub s) in
                Done (st <| at_ := GoingOffline e |>, s <| ChatServer.hub := h |>))
      | _, _ => None
      end
  | GoingOffline e =>
      Some (Done (st <| at_ := Farewell e |>,
        s <| ChatServer.presence := SetOnline now (userID st) false (ChatServer.presence s) |>))
  | Farewell e =>
      Some (let! s := ChatServer.broadcast_ (presence_event st false (to_unix_milli now)) true s in
            Done (st <| at_ := Returned (RecvError e) |>, s))
  | _ => None
  end.

(** The fresh URL of a media message, written into the message that every receiver shares. *)
Definition attach_url (clock : nat → GoTime) (p : nat) (s : server) : server :=
  match Hub.msgs (hub s) !! p, ChatServer.storage s with
  | Some m, Some store =>
      if negb (String.eqb (ServerMessage_MediaKey m) "")
         && (ServerMessage_EventType m =? EventType_EVENT_TYPE_MESSAGE)%Z then
        match GetPresignedURL clock (ServerMessage_MediaKey m) store with
        | Ok (u, _) => s <| ChatServer.hub := (hub s) <| Hub.msgs :=
                         <[p := m <| ServerMessage_MediaUrl := u |>]> (Hub.msgs (hub s)) |> |>
        | Err _ => s
        end
      else s
  | _, _ => s
  end.

(** One turn of the sender's loop, with the error of [stream.Send] if it has one. *)
Definition send (clock : nat → GoTime) (err : option string) (st : stream) (s : server)
    : option (outcome (stream * server)) :=
  match sending st, client st with
  | Sending, Some c =>
      cl ← Hub.ptrs (hub s) !! c;
      match ct_recv (Hub.Send cl) (Hub.sends (hub s)) with
      | Some (p, tb) =>
          let s := attach_url clock p (s <| ChatServer.hub := (hub s) <| Hub.sends := tb |> |>) in
          Some (Done (match err with
                      | Some _ => st <| sending := SenderDone |>
                      | None => st <| sent := sent st ++ option_list (Hub.msgs (hub s) !! p) |>
                      end, s))
      | None =>
          ch ← ct_tab (Hub.sends (hub s)) !! Hub.Send cl;
          if chan_closed ch then Some (Done (st <| sending := SenderDone |>, s)) else None
      end
  | _, _ => None
  end.

(** A tick of the heartbeat, from [Register] until the stream is gone. *)
Definition beat (now : GoTime) (st : stream) (s : server) : option (outcome (stream * server)) :=
  match heartbeat, at_ st with
  | None, _ | _, FirstRecv | _, Registering _ | _, Returned _ => None
  | Some tick, _ => Some (Done (st, s <| ChatServer.presence := tick now (userID st) (ChatServer.presence s) |>))
  end.

(** ** The system *)

Record sys : Type := mkSys { srv : server; streams : gmap nat stream }.
#[global] Instance sys_eta : Eta sys := λ s, mkSys s.(srv) s.(streams).

Inductive event : Type :=
  | Receive (now : GoTime) (in_ : result string ClientMessage)
  | Handle (ctx : nat) (now : GoTime)
  | SendTurn (clock : nat → GoTime) (err : option string)
  | Beat (now : GoTime).

Inductive action : Type :=
  | Enter (id : nat)
  | Act (id : nat) (ev : event)
  | Call (c : ChatServer.call)
  | Forward (now : GoTime) (sub : nat).

Definition chat_step (ev : event) (st : stream) (s : server) : option (outcome (stream * server)) :=
  match ev with
  | Receive now in_ => receive now in_ st s
  | Handle ctx now => handle ctx now st s
  | SendTurn clock err => send clock err st s
  | Beat now => beat now st s
  end.

Definition act (a : action) (y : sys) : option (outcome sys) :=
  match a with
  | Enter id =>
      match streams y !! id with
      | Some _ => None
      | None => Some (Done (y <| streams := <[id := enter (srv y)]> (streams y) |>))
      end
  | Act id ev =>
      st ← streams y !! id;
      o ← chat_step ev st (srv y);
      Some (let! r := o in Done (mkSys r.2 (<[id := r.1]> (streams y))))
  | Call c => Some (let! s := ChatServer.run sort_slice order c (srv y) in Done (y <| srv := s |>))
  | Forward now sub =>
      o ← Hub.forward now sub (hub (srv y));
      Some (let! h := o in Done (y <| srv := (srv y) <| ChatServer.hub := h |> |>))
  end.

(** A list of actions, each of which can run; a panic ends the process. *)
Fixpoint acts (l : list action) (y : sys) : option (outcome sys) :=
  match l with
  | [] => Some (Done y)
  | a :: l =>
      o ← act a y;
      match o with
      | Done y => acts l y
      | o => Some o
      end
  end.
(** ** One step of a stream *)

Context `{!BrokerLaws B}.

Definition in_hub (p : point) : bool :=
  match p with
  | GoingOnline _ | Announcing _ | FirstFrame _ | Receiving | Waiting _ => true
  | _ => false
  end.

(** A stream in the hub has a client among its room's, and only such a stream sends. *)
Record stream_ok (h : Hub.t B) (st : stream) : Prop := {
  so_client : in_hub (at_ st) = true → is_Some (client st);
  so_member c : registered st = Some c → c ∈ Hub.members (roomID st) h;
  so_sending : sending st = Sending → in_hub (at_ st) = true
}.

Lemma registered_in_hub st : registered st = if in_hub (at_ st) then client st else None.
Proof. unfold registered. by destruct (at_ st). Qed.

Lemma stream_ok_ext h h' st :
  stream_ok h st → (∀ c, registered st = Some c → c ∈ Hub.members (roomID st) h → c ∈ Hub.members (roomID st) h') →
  stream_ok h' st.
Proof. intros [H1 H2 H3] H. constructor; eauto. Qed.

(** The hub is sound and nobody came or went. *)
Definition kept (R : gset nat) (s s' : server) : Prop :=
  Hub.hub_inv R (hub s') ∧ ∀ r, Hub.members r (hub s') = Hub.members r (hub s).

(** What a step of a stream does to the hub. *)
Inductive effect (R : gset nat) (st st' : stream) (s s' : server) : Prop :=
  | effect_none : registered st' = registered st → kept R s s' → effect R st st' s s'
  | effect_join c :
      registered st = None → registered st' = Some c → c ∉ R → Hub.hub_inv ({[c]} ∪ R) (hub s') →
      (∀ r, Hub.members r (hub s') = if decide (roomID st' = r) then {[c]} ∪ Hub.members r (hub s)
                                     else Hub.members r (hub s)) → effect R st st' s s'
  | effect_leave c :
      registered st = Some c → registered st' = None → Hub.hub_inv (R ∖ {[c]}) (hub s') →
      (∀ r, Hub.members r (hub s') = Hub.members r (hub s) ∖ {[c]}) → effect R st st' s s'.

Lemma kept_refl R s : Hub.hub_inv R (hub s) → kept R s s.
Proof. done. Qed.

Lemma kept_frame R now m s : Hub.hub_inv R (hub s) → ∃ s', ChatServer.processIncoming now m s = Done s' ∧ kept R s s'.
Proof. apply ChatServer.safe_frame. Qed.

Lemma kept_broadcast R m pub s :
  Hub.hub_inv R (hub s) → ∃ s', ChatServer.broadcast_ m pub s = Done s' ∧ kept R s s'.
Proof. intros H. by apply ChatServer.safe_broadcast_. Qed.

Lemma attach_url_hub clock p s :
  ∃ msgs, hub (attach_url clock p s) = (hub s) <| Hub.msgs := msgs |>.
Proof.
  assert (Hs : ∃ msgs, hub s = (hub s) <| Hub.msgs := msgs |>) by (exists (Hub.msgs (hub s)); by destruct (hub s)).
  unfold attach_url. repeat case_match; try exact Hs. by eexists.
Qed.

Lemma send_effect R clock err st s o :
  Hub.hub_inv R (hub s) → stream_ok (hub s) st → send clock err st s = Some o →
  ∃ st' s', o = Done (st', s') ∧ kept R s s' ∧ at_ st' = at_ st ∧ client st' = client st ∧ roomID st' = roomID st
    ∧ (sending st' = Sending → sending st = Sending).
Proof.
  intros Hi [_ Hm Hs] E. unfold send in E. destruct (sending st) eqn:Es; try done.
  destruct (client st) as [c|] eqn:Ec; [|done]. destruct (Hub.ptrs (hub s) !! c) as [cl|]; [|done].
  cbn [mbind option_bind] in E. destruct (ct_recv _ _) as [[p tb]|] eqn:Er.
  - set (s1 := s <| ChatServer.hub := _ |>) in E. simplify_eq.
    destruct (attach_url_hub clock p s1) as [ms Hms].
    destruct (ct_recv_spec _ _ _ _ (Hub.inv_sends _ _ Hi) Er) as [Hf Ho].
    assert (Hk : kept R s (attach_url clock p s1)).
    { unfold kept. rewrite Hms. apply (Hub.hub_inv_ext R (hub s)); try apply Hi; done. }
    destruct err; eexists _, _; (split; [done|]); done.
  - destruct (ct_tab _ !! _) as [ch|]; [|done]. cbn [mbind option_bind] in E. destruct (chan_closed ch); simplify_eq.
    eexists _, _. split; [done|]. done.
Qed.

(** A step that moves within the hub. *)
Lemma stay R s s' st st' :
  stream_ok (hub s) st → kept R s s' → in_hub (at_ st') = in_hub (at_ st) → client st' = client st →
  roomID st' = roomID st → (sending st' = Sending → in_hub (at_ st') = true) →
  stream_ok (hub s') st' ∧ effect R st st' s s'.
Proof.
  intros [H1 H2 H3] [Hi Hm] Ha Hc Hr Hs.
  assert (Hreg : registered st' = registered st) by (by rewrite !registered_in_hub, Ha, Hc).
  split.
  - constructor; [rewrite Ha, Hc; exact H1| |exact Hs]. intros c. rewrite Hreg, Hm, Hr. apply H2.
  - by apply effect_none.
Qed.

(** A step outside the hub. *)
Lemma outside R s s' st st' :
  kept R s s' → in_hub (at_ st) = false → in_hub (at_ st') = false → sending st' ≠ Sending →
  stream_ok (hub s') st' ∧ effect R st st' s s'.
Proof.
  intros Hk Ha Ha' Hs.
  assert (Hreg : ∀ st, in_hub (at_ st) = false → registered st = None)
    by (intros x Hx; by rewrite registered_in_hub, Hx).
  split; [|apply effect_none; [by rewrite !Hreg|done]].
  constructor; [congruence|intros c; by rewrite Hreg|done].
Qed.

Lemma not_sending h st : stream_ok h st → in_hub (at_ st) = false → sending st ≠ Sending.
Proof. intros Hok Ha Hs. apply (so_sending _ _ Hok) in Hs. congruence. Qed.

Lemma receive_effect R now in_ st s o :
  Hub.hub_inv R (hub s) → stream_ok (hub s) st → receive now in_ st s = Some o →
  ∃ st' s', o = Done (st', s') ∧ stream_ok (hub s') st' ∧ effect R st st' s s'.
Proof.
  intros Hi Hok E. unfold receive in E. destruct (at_ st) eqn:Ea; try done.
  - injection E as <-. eexists _, s. split; [reflexivity|].
    pose proof (not_sending _ _ Hok ltac:(by rewrite Ea)) as Hs.
    apply outside; [done|by rewrite Ea| |]; repeat case_match; first [reflexivity|exact Hs].
  - destruct in_ as [m|e].
    + destruct (kept_frame R now m s Hi) as (s' & Es & Hk). rewrite Es in E. injection E as <-.
      eexists st, s'. split; [reflexivity|]. apply stay; try done. apply Hok.
    + injection E as <-. eexists _, s. split; [reflexivity|]. apply stay; try done. by rewrite Ea.
Qed.

Lemma handle_effect R ctx now st s o :
  Hub.hub_inv R (hub s) → stream_ok (hub s) st → handle ctx now st s = Some o →
  ∃ st' s', o = Done (st', s') ∧ stream_ok (hub s') st' ∧ effect R st st' s s'.
Proof.
  intros Hi Hok E. unfold handle in E.
  destruct (at_ st) as [|first|first|first|first| |e|e|e|] eqn:Ea; try done.
  - destruct (Hub.connect ctx (userID st) (roomID st) (hub s)) as [h c] eqn:Ec. injection E as <-.
    destruct (Hub.connect_spec _ _ _ _ _ _ _ Hi Ec) as (Hi' & Hn & Hm & _).
    eexists _, _. split; [reflexivity|]. split.
    + constructor; simpl; [by eexists| |done]. intros c' [= <-]. rewrite Hm, decide_True by done. set_solver.
    + apply (effect_join _ _ _ _ _ c); try done. by rewrite registered_in_hub, Ea.
  - injection E as <-. eexists _, _. split; [reflexivity|]. apply stay; try done; by rewrite Ea.
  - destruct (kept_broadcast R (presence_event st true 0) true s Hi) as (s' & Es & Hk). rewrite Es in E.
    injection E as <-. eexists _, _. split; [reflexivity|]. apply stay; try done; by rewrite Ea.
  - destruct (kept_frame R now first s Hi) as (s' & Es & Hk). rewrite Es in E.
    injection E as <-. eexists _, _. split; [reflexivity|]. apply stay; try done; by rewrite Ea.
  - destruct (sending st) eqn:Es; try done. destruct (client st) as [c|] eqn:Ec; [|done].
    assert (Hr : registered st = Some c). { by rewrite registered_in_hub, Ea. }
    assert (Hc : c ∈ R).
    { pose proof (so_member _ _ Hok c Hr) as Hm. apply (Hub.inv_members _ _ Hi) in Hm as [Hm _]. exact Hm. }
    destruct (Hub.inv_open _ _ Hi c Hc) as (cl & Hcl & _).
    destruct (Hub.Unregister_spec c cl R (hub s) Hi Hc Hcl) as (h & r0 & Eu & Hi' & _ & _ & _ & Hm & _).
    rewrite Eu in E. injection E as <-. eexists _, _. split; [reflexivity|]. split.
    + constructor; simpl; [done|done|]. by rewrite Es.
    + by apply (effect_leave _ _ _ _ _ c).
  - injection E as <-. eexists _, _. split; [reflexivity|].
    apply outside; [done|by rewrite Ea|done|]. simpl. apply (not_sending _ _ Hok). by rewrite Ea.
  - destruct (kept_broadcast R (presence_event st false (to_unix_milli now)) true s Hi) as (s' & Es & Hk).
    rewrite Es in E. injection E as <-. eexists _, _. split; [reflexivity|].
    apply outside; [done|by rewrite Ea|done|]. simpl. apply (not_sending _ _ Hok). by rewrite Ea.
Qed.

Lemma step_effect R ev st s o :
  Hub.hub_inv R (hub s) → stream_ok (hub s) st → chat_step ev st s = Some o →
  ∃ st' s', o = Done (st', s') ∧ stream_ok (hub s') st' ∧ effect R st st' s s'.
Proof.
  intros Hi Hok E. destruct ev as [now in_|ctx now|clock err|now]; cbn [chat_step] in E.
  - by eapply receive_effect.
  - by eapply handle_effect.
  - destruct (send_effect R clock err st s o Hi Hok E) as (st' & s' & -> & Hk & Ha & Hc & Hr & Hs).
    exists st', s'. split; [done|]. apply stay; try congruence. rewrite Ha. intros H. by apply Hok, Hs.
  - unfold beat in E. destruct heartbeat as [tick|]; [|done].
    destruct (at_ st) eqn:Ea; simplify_eq; (eexists _, _; split; [reflexivity|]; apply stay; try done; apply Hok).
Qed.
(** ** The system's invariant *)

(** The client of each stream that is in the hub. *)
Definition seats (y : sys) : gmap nat nat := omap registered (streams y).

Record sys_inv (R : gset nat) (y : sys) : Prop := {
  si_hub : Hub.hub_inv R (hub (srv y));
  si_stream id st : streams y !! id = Some st → stream_ok (hub (srv y)) st;
  si_seat c : c ∈ R ↔ ∃ id, seats y !! id = Some c;
  si_inj id1 id2 c : seats y !! id1 = Some c → seats y !! id2 = Some c → id1 = id2
}.

Lemma seats_insert id st y s i :
  seats (mkSys s (<[id := st]> (streams y))) !! i = if decide (id = i) then registered st else seats y !! i.
Proof.
  unfold seats. simpl. rewrite !lookup_omap. case_decide as H.
  - subst. by rewrite lookup_insert_eq.
  - by rewrite lookup_insert_ne.
Qed.

Lemma seats_lookup y id st : streams y !! id = Some st → seats y !! id = registered st.
Proof. intros H. unfold seats. by rewrite lookup_omap, H. Qed.

Lemma seats_absent y id : streams y !! id = None → seats y !! id = None.
Proof. intros H. unfold seats. by rewrite lookup_omap, H. Qed.

(** The server moves and the streams do not. *)
Lemma server_moves R y s : sys_inv R y → kept R (srv y) s → sys_inv R (y <| srv := s |>).
Proof.
  intros [H1 H2 H3 H4] [Hi Hm]. constructor; simpl; [done| |apply H3|apply H4].
  intros id st Hst. eapply stream_ok_ext; [by eapply H2|]. intros c _. by rewrite Hm.
Qed.

(** Another stream's client stays in its room. *)
Lemma effect_others R y s id st st' id2 st2 :
  sys_inv R y → streams y !! id = Some st → streams y !! id2 = Some st2 → id ≠ id2 →
  effect R st st' (srv y) s → stream_ok (hub s) st2.
Proof.
  intros [H1 H2 H3 H4] Hid Hid2 Hne He. apply (stream_ok_ext _ _ _ (H2 _ _ Hid2)). intros c Hc Hin.
  destruct He as [_ [_ Hm]|c' _ _ _ _ Hm|c' Hr _ _ Hm]; rewrite Hm; [done|case_decide; set_solver|].
  apply elem_of_difference. split; [done|]. intros ->%elem_of_singleton. apply Hne.
  apply (H4 _ _ c'); [by rewrite (seats_lookup _ _ _ Hid)|by rewrite (seats_lookup _ _ _ Hid2)].
Qed.

Lemma seats_iff (R R' : gset nat) y s id st st' :
  (∀ c, c ∈ R ↔ ∃ i, seats y !! i = Some c) → streams y !! id = Some st →
  (∀ c, c ∈ R' ↔ registered st' = Some c ∨ (c ∈ R ∧ registered st ≠ Some c)) →
  (∀ id1 id2 c, seats y !! id1 = Some c → seats y !! id2 = Some c → id1 = id2) →
  ∀ c, c ∈ R' ↔ ∃ i, seats (mkSys s (<[id := st']> (streams y))) !! i = Some c.
Proof.
  intros H3 Hid HR H4 c. rewrite HR. setoid_rewrite seats_insert. split.
  - intros [Hr|[Hc Hn]]; [exists id; by rewrite decide_True|].
    apply H3 in Hc as [i Hi]. exists i. rewrite decide_False; [done|]. intros <-.
    by rewrite (seats_lookup _ _ _ Hid) in Hi.
  - intros [i Hi]. case_decide as He; [by left|]. right. split; [apply H3; by exists i|].
    intros Hr. apply He, (H4 _ _ c); [by rewrite (seats_lookup _ _ _ Hid)|done].
Qed.

Lemma effect_inv R y s id st st' :
  sys_inv R y → streams y !! id = Some st → stream_ok (hub s) st' → effect R st st' (srv y) s →
  ∃ R', sys_inv R' (mkSys s (<[id := st']> (streams y))).
Proof.
  intros Hy Hid Hok He. pose proof Hy as [H1 H2 H3 H4].
  assert (Hs : ∀ i x, <[id := st']> (streams y) !! i = Some x → stream_ok (hub s) x).
  { intros i x. rewrite lookup_insert_Some. intros [[<- <-]|[Hne Hx]]; [done|]. exact (effect_others R y s id st st' i x Hy Hid Hx Hne He). }
  assert (Hinj : (∀ c, registered st' = Some c → registered st = Some c ∨ c ∉ R) → ∀ i1 i2 c,
    seats (mkSys s (<[id := st']> (streams y))) !! i1 = Some c →
    seats (mkSys s (<[id := st']> (streams y))) !! i2 = Some c → i1 = i2).
  { intros Hnew i1 i2 c. rewrite !seats_insert.
    assert (Hno : ∀ i, id ≠ i → registered st' = Some c → seats y !! i = Some c → False).
    { intros i Hne Hr Hi. destruct (Hnew c Hr) as [Ho|Ho]; [|apply Ho, H3; by exists i].
      apply Hne, (H4 _ _ c); [by rewrite (seats_lookup _ _ _ Hid)|done]. }
    case_decide; case_decide; [congruence|intros ? ?; exfalso; eauto..|apply H4]. }
  destruct He as [Hr [Hi _]|c Hr Hr' Hn Hi _|c Hr Hr' Hi _].
  - exists R. constructor; simpl; [done|done| |apply Hinj; intros c; rewrite Hr; by left].
    apply (seats_iff R R y s id st st'); try done. intros c. rewrite Hr. split.
    + intros Hc. destruct (decide (registered st = Some c)); tauto.
    + intros [Hc|[Hc _]]; [|done]. apply H3. exists id. by rewrite (seats_lookup _ _ _ Hid).
  - exists ({[c]} ∪ R). constructor; simpl; [done|done| |apply Hinj; intros c'; rewrite Hr'; intros [= <-]; by right].
    apply (seats_iff R _ y s id st st'); try done. intros c'. rewrite Hr, Hr', elem_of_union, elem_of_singleton.
    naive_solver.
  - exists (R ∖ {[c]}). constructor; simpl; [done|done| |apply Hinj; by rewrite Hr'].
    apply (seats_iff R _ y s id st st'); try done. intros c'.
    rewrite Hr, Hr', elem_of_difference, elem_of_singleton. naive_solver.
Qed.

Lemma enter_ok h s : stream_ok h (enter s) ∧ registered (enter s) = None.
Proof. unfold enter. case_match; (split; [constructor|]; done). Qed.

Lemma kept_forward R now sub s o :
  Hub.hub_inv R (hub s) → Hub.forward now sub (hub s) = Some o → ∃ h, o = Done h ∧ kept R s (s <| ChatServer.hub := h |>).
Proof.
  intros Hi E. unfold Hub.forward in E. destruct (Recv sub _) as [[raw b]|] eqn:Er; [|done].
  destruct (Recv_live _ _ _ _ (Hub.inv_broker _ _ Hi) Er) as [Hb Hl].
  destruct (Hub.hub_inv_ext R (hub s) ((hub s) <| Hub.broker := b |>) Hi) as [Hi1 Hm1]; try apply Hi; try done.
  set (h1 := (hub s) <| Hub.broker := b |>) in *. cbn [mbind option_bind] in E.
  cbv zeta in E. fold h1 in E. destruct (Unmarshal raw) as [m|]; [|simplify_eq; by exists h1].
  match type of E with context [Hub.Broadcast_new ?m false _] => set (m1 := m) in E end. set (s1 := s <| ChatServer.hub := h1 |>).
  destruct (ChatServer.broadcast_ok R m1 false s1 Hi1) as (h & p & _ & Hi2 & Hm2 & _ & Eb).
  change (hub s1) with h1 in Eb, Hm2. rewrite Eb in E. simplify_eq. exists h. split; [done|].
  split; [done|]. intros r. simpl. by rewrite Hm2, Hm1.
Qed.

Lemma act_inv R a y o : sys_inv R y → act a y = Some o → ∃ y' R', o = Done y' ∧ sys_inv R' y'.
Proof.
  intros Hy E. pose proof Hy as [H1 H2 H3 H4]. destruct a as [id|id ev|c|now sub]; cbn [act] in E.
  - destruct (streams y !! id) eqn:Hid; [done|]. injection E as <-. eexists _, R. split; [done|].
    destruct (enter_ok (hub (srv y)) (srv y)) as [Hok Hr].
    assert (Hseats : ∀ i, seats (mkSys (srv y) (<[id := enter (srv y)]> (streams y))) !! i = seats y !! i).
    { intros i. rewrite seats_insert. case_decide as Hi; [subst; by rewrite Hr, seats_absent|done]. }
    constructor; simpl; [done| |intros c; setoid_rewrite Hseats; apply H3|intros i1 i2 c; rewrite !Hseats; apply H4].
    intros i st. rewrite lookup_insert_Some. intros [[<- <-]|[_ Hi]]; [done|by eapply H2].
  - destruct (streams y !! id) as [st|] eqn:Hid; [|done]. cbn [mbind option_bind] in E.
    destruct (chat_step ev st (srv y)) as [o'|] eqn:Es; [|done]. cbn [mbind option_bind] in E.
    destruct (step_effect R ev st (srv y) o' H1 (H2 _ _ Hid) Es) as (st' & s' & -> & Hok & He).
    injection E as <-. destruct (effect_inv R y s' id st st' Hy Hid Hok He) as [R' HR]. by eexists _, R'.
  - destruct (ChatServer.run_safe sort_slice order R c (srv y) H1) as (s' & Es & Hk). rewrite Es in E.
    injection E as <-. eexists _, R. split; [done|]. by apply server_moves.
  - destruct (Hub.forward now sub _) as [o'|] eqn:Ef; [|done].
    destruct (kept_forward R now sub _ _ H1 Ef) as (h & -> & Hk). injection E as <-.
    eexists _, R. split; [done|]. by apply server_moves.
Qed.

Lemma acts_inv R l y o : sys_inv R y → acts l y = Some o → ∃ y' R', o = Done y' ∧ sys_inv R' y'.
Proof.
  revert R y. induction l as [|a l IH]; intros R y Hy E; cbn [acts] in E; [injection E as <-; by eexists _, R|].
  destruct (act a y) as [o1|] eqn:Ea; [|done].
  destruct (act_inv R a y o1 Hy Ea) as (y1 & R1 & -> & Hy1). cbn [mbind option_bind] in E. by eapply IH.
Qed.

Lemma acts_done_inv R l y y' : sys_inv R y → acts l y = Some (Done y') → ∃ R', sys_inv R' y'.
Proof. intros Hy E. destruct (acts_inv R l y _ Hy E) as (y1 & R' & [= <-] & H). by exists R'. Qed.

Lemma start_inv s b n :
  hub s = Hub.NewHubWithLimit b n → broker_ok b → sys_inv ∅ (mkSys s ∅).
Proof.
  intros Hh Hb. assert (Hn : ∀ id, seats (mkSys s ∅) !! id = None) by (intros id; by rewrite seats_absent).
  constructor; simpl.
  - rewrite Hh. by apply Hub.NewHub_inv.
  - intros id st H. by rewrite lookup_empty in H.
  - intros c. setoid_rewrite Hn. split; [set_solver|by intros []].
  - intros id1 id2 c. by rewrite Hn.
Qed.

(** The clients of all streams that are in the hub. *)
Definition seated (y : sys) : gset nat := list_to_set (map_to_list (seats y)).*2.

Lemma seated_inv R y : sys_inv R y → R = seated y.
Proof.
  intros [_ _ H3 _]. apply set_eq. intros c. unfold seated. rewrite H3, elem_of_list_to_set, list_elem_of_fmap. split.
  - intros [i Hi]. exists (i, c). split; [done|]. by apply elem_of_map_to_list.
  - intros ([i c'] & -> & Hi%elem_of_map_to_list). by exists i.
Qed.

Lemma size_seats R y : sys_inv R y → size R = size (seats y).
Proof.
  intros Hy. rewrite (seated_inv R y Hy). destruct Hy as [_ _ _ H4]. unfold seated.
  rewrite size_list_to_set; [by rewrite length_fmap, length_map_to_list|].
  apply NoDup_fmap_2_strong; [|apply NoDup_map_to_list].
  intros [i c] [i' c'] Hx%elem_of_map_to_list Hy%elem_of_map_to_list. simpl. intros <-. by rewrite (H4 _ _ _ Hx Hy).
Qed.
(** ** Properties *)

(** C1: However streams start, receive, send, fail and end, interleaved with each other,
    with unary calls, goroutines and messages of the broker, no step panics, each room's
    clients are exactly those of the streams between [Register] and [Unregister] with that
    room, and the connection counter is their number. *)
Theorem streams_are_safe s b n l o :
  hub s = Hub.NewHubWithLimit b n → broker_ok b → acts l (mkSys s ∅) = Some o →
  ∃ y, o = Done y
    ∧ (∀ r c, c ∈ Hub.members r (hub (srv y)) ↔
         ∃ id st, streams y !! id = Some st ∧ registered st = Some c ∧ roomID st = r)
    ∧ ((Z.of_nat (size (seats y)) < 2 ^ 63)%Z → Hub.ConnCount (hub (srv y)) = Z.of_nat (size (seats y))).
Proof.
  intros Hh Hb E. destruct (acts_inv ∅ l _ o (start_inv s b n Hh Hb) E) as (y & R & -> & Hy).
  pose proof Hy as [H1 H2 H3 H4]. exists y. split; [done|]. split.
  - intros r c. split.
    + intros Hc. pose proof Hc as [HR Hr]%(Hub.inv_members _ _ H1). apply H3 in HR as [id Hid].
      unfold seats in Hid. rewrite lookup_omap in Hid. destruct (streams y !! id) as [st|] eqn:Es; [|done].
      exists id, st. split; [done|]. split; [done|].
      pose proof (so_member _ _ (H2 _ _ Es) c Hid) as [_ Hm]%(Hub.inv_members _ _ H1). congruence.
    + intros (id & st & Hst & Hr & <-). exact (so_member _ _ (H2 _ _ Hst) c Hr).
  - intros Hs. unfold Hub.ConnCount. rewrite (Hub.inv_cnt _ _ H1), (size_seats R y Hy).
    apply wrap_i64_small. unfold is_i64. lia.
Qed.

Lemma waiting_client y R id st e :
  sys_inv R y → streams y !! id = Some st → at_ st = Waiting e →
  ∃ c cl, client st = Some c ∧ c ∈ Hub.members (roomID st) (hub (srv y)) ∧ c ∈ R
    ∧ Hub.ptrs (hub (srv y)) !! c = Some cl ∧ Hub.Send cl ∈ ct_open (Hub.sends (hub (srv y))).
Proof.
  intros [H1 H2 _ _] Hst Ha. destruct (H2 _ _ Hst) as [Hc Hm _]. rewrite Ha in Hc.
  destruct (Hc eq_refl) as [c Hcl]. assert (Hr : registered st = Some c) by (by rewrite registered_in_hub, Ha).
  pose proof (Hm c Hr) as Hin. pose proof Hin as [HR _]%(Hub.inv_members _ _ H1).
  destruct (Hub.inv_open _ _ H1 c HR) as (cl & H & Ho). exists c, cl. done.
Qed.

(** While it waits, only a [Send] that fails moves a stream. *)
Lemma waiting_step R y y' a id st e :
  sys_inv R y → streams y !! id = Some st → at_ st = Waiting e → sending st = Sending →
  (∀ clock er, a ≠ Act id (SendTurn clock (Some er))) → act a y = Some (Done y') →
  ∃ l, streams y' !! id = Some (st <| sent := l |>).
Proof.
  intros Hy Hst Ha Hs Hne E.
  assert (Hst0 : streams y !! id = Some (st <| sent := sent st |>)) by (rewrite Hst; by destruct st). destruct (waiting_client y R id st e Hy Hst Ha) as (c & cl & Hc & _ & _ & Hcl & Ho).
  destruct a as [id'|id' ev|c'|now sub]; cbn [act] in E.
  - destruct (streams y !! id') eqn:Hid; [done|]. injection E as <-. eexists. simpl. rewrite lookup_insert_ne; [exact Hst0|].
    intros <-. congruence.
  - destruct (decide (id' = id)) as [->|Hid].
    + rewrite Hst in E. cbn [mbind option_bind] in E. destruct ev as [now in_|ctx now|clock err|now]; cbn [chat_step] in E.
      * unfold receive in E. by rewrite Ha in E.
      * unfold handle in E. by rewrite Ha, Hs in E.
      * unfold send in E. rewrite Hs, Hc, Hcl in E. cbn [mbind option_bind] in E.
        destruct (ct_recv _ _) as [[p tb]|].
        -- destruct err as [er|]; [by destruct (Hne clock er)|]. injection E as <-. eexists. simpl.
           by rewrite lookup_insert_eq.
        -- apply elem_ct_open in Ho as (ch & Hch & Hcc). rewrite Hch in E. cbn [mbind option_bind] in E.
           by rewrite Hcc in E.
      * unfold beat in E. rewrite Ha in E. destruct heartbeat; [|done]. injection E as <-. exists (sent st).
        simpl. rewrite lookup_insert_eq. by destruct st.
    + destruct (streams y !! id') as [st'|]; [|done]. cbn [mbind option_bind] in E.
      destruct (chat_step ev st' (srv y)) as [[r|]|]; try done. injection E as <-.
      exists (sent st). simpl. by rewrite lookup_insert_ne.
  - destruct (ChatServer.run _ _ _ _); [|done]. injection E as <-. by exists (sent st).
  - destruct (Hub.forward _ _ _) as [[]|]; try done. injection E as <-. by exists (sent st).
Qed.

(** C34: A client that disconnects stays connected: after [Recv] has failed the handler waits
    for its sender, the sender waits for a message, and the channel is closed only by the
    handler; so with an empty queue no step of the stream can run but its heartbeat's
    tick, and whatever else happens, until a [Send] of this very stream fails, the stream
    waits and its client stays in the room, counted against the limit and never announced
    offline. *)
Theorem disconnected_stream_stays R y id st e :
  sys_inv R y → streams y !! id = Some st → at_ st = Waiting e → sending st = Sending →
  ((∀ c cl, client st = Some c → Hub.ptrs (hub (srv y)) !! c = Some cl →
      ct_recv (Hub.Send cl) (Hub.sends (hub (srv y))) = None) →
   ∀ ev, (∀ now, ev ≠ Beat now) → chat_step ev st (srv y) = None)
  ∧ ∀ l y', acts l y = Some (Done y') → (∀ clock er, Act id (SendTurn clock (Some er)) ∉ l) →
      (∃ l, streams y' !! id = Some (st <| sent := l |>))
      ∧ ∃ c, registered st = Some c ∧ c ∈ Hub.members (roomID st) (hub (srv y')).
Proof.
  intros Hy Hst Ha Hs. split.
  - intros Hq ev Hev. destruct (waiting_client y R id st e Hy Hst Ha) as (c & cl & Hc & _ & _ & Hcl & Ho).
    specialize (Hq c cl Hc Hcl). destruct ev as [now in_|ctx now|clock err|now]; cbn [chat_step].
    + unfold receive. by rewrite Ha.
    + unfold handle. by rewrite Ha, Hs.
    + unfold send. rewrite Hs, Hc, Hcl. cbn [mbind option_bind]. rewrite Hq.
      apply elem_ct_open in Ho as (ch & -> & Hcc). cbn [mbind option_bind]. by rewrite Hcc.
    + by destruct (Hev now).
  - intros l. revert R y st Hy Hst Ha Hs. induction l as [|a l IH]; intros R y st Hy Hst Ha Hs y' E Hl.
    + injection E as <-. split; [exists (sent st); rewrite Hst; by destruct st|].
      destruct (waiting_client y R id st e Hy Hst Ha) as (c & cl & Hc & Hm & _).
      exists c. split; [by rewrite registered_in_hub, Ha|done].
    + cbn [acts] in E. destruct (act a y) as [o|] eqn:Eo; [|done]. cbn [mbind option_bind] in E.
      destruct (act_inv R a y o Hy Eo) as (y1 & R1 & -> & Hy1).
      destruct (waiting_step R y y1 a id st e Hy Hst Ha Hs) as [k Hk]; [|done|].
      { intros clock er ->. apply (Hl clock er). by left. }
      destruct (IH R1 y1 (st <| sent := k |>) Hy1 Hk Ha Hs y' E) as [[k' Hk'] H]; [|by split; [exists k'|]].
      intros clock er Hin. apply (Hl clock er). by right.
Qed.
Lemma acts_cons a l y y1 : act a y = Some (Done y1) → acts (a :: l) y = acts l y1.
Proof. intros E. cbn [acts]. by rewrite E. Qed.

Lemma act_stream id ev y st st' s :
  streams y !! id = Some st → chat_step ev st (srv y) = Some (Done (st', s)) →
  act (Act id ev) y = Some (Done (mkSys s (<[id := st']> (streams y)))).
Proof. intros Hst E. cbn [act]. rewrite Hst. cbn [mbind option_bind]. by rewrite E. Qed.

(** The deferred function of a stream whose sender is done. *)
Lemma leave R y id st e c ctx t1 t2 t3 :
  sys_inv R y → streams y !! id = Some st → at_ st = Waiting e → sending st = SenderDone → client st = Some c →
  ∃ y', acts [Act id (Handle ctx t1); Act id (Handle ctx t2); Act id (Handle ctx t3)] y = Some (Done y')
    ∧ at_ <$> streams y' !! id = Some (Returned (RecvError e))
    ∧ (∀ r, Hub.members r (hub (srv y')) = Hub.members r (hub (srv y)) ∖ {[c]})
    ∧ ∃ q, Hub.msgs (hub (srv y')) !! q = Some (presence_event st false (to_unix_milli t3)).
Proof.
  intros Hy Hst Ha Hs Hc. pose proof Hy as [H1 _ _ _].
  destruct (waiting_client y R id st e Hy Hst Ha) as (c' & cl & Hc' & _ & HR & Hcl & _).
  rewrite Hc in Hc'. injection Hc' as <-.
  destruct (Hub.Unregister_spec c cl R _ H1 HR Hcl) as (h & r0 & Eu & Hi & _ & _ & _ & Hm & _).
  set (s1 := (srv y) <| ChatServer.hub := h |>). set (st1 := st <| at_ := GoingOffline e |>).
  set (y1 := mkSys s1 (<[id := st1]> (streams y))).
  assert (E1 : act (Act id (Handle ctx t1)) y = Some (Done y1)).
  { apply (act_stream id _ y st); [done|]. cbn [chat_step]. unfold handle. by rewrite Ha, Hs, Hc, Eu. }
  set (s2 := s1 <| ChatServer.presence := SetOnline t2 (userID st) false (ChatServer.presence s1) |>).
  set (st2 := st1 <| at_ := Farewell e |>). set (y2 := mkSys s2 (<[id := st2]> (streams y1))).
  assert (E2 : act (Act id (Handle ctx t2)) y1 = Some (Done y2)).
  { apply (act_stream id _ y1 st1); [|done]. simpl. by rewrite lookup_insert_eq. }
  assert (Hi2 : Hub.hub_inv (R ∖ {[c]}) (hub s2)) by done.
  destruct (ChatServer.broadcast_ok _ (presence_event st false (to_unix_milli t3)) true s2 Hi2)
    as (h3 & q & Eb & _ & Hm3 & Hq & _).
  set (s3 := s2 <| ChatServer.hub := h3 |>).
  set (y3 := mkSys s3 (<[id := st2 <| at_ := Returned (RecvError e) |>]> (streams y2))).
  assert (E3 : act (Act id (Handle ctx t3)) y2 = Some (Done y3)).
  { apply (act_stream id _ y2 st2); [simpl; by rewrite lookup_insert_eq|].
    assert (Eb' : ChatServer.broadcast_ (presence_event st false (to_unix_milli t3)) true s2 = Done s3)
      by (unfold ChatServer.broadcast_; by rewrite Eb).
    exact (f_equal (λ o, Some (let! s := o in Done (st2 <| at_ := Returned (RecvError e) |>, s))) Eb'). }
  exists y3. rewrite (acts_cons _ _ _ _ E1), (acts_cons _ _ _ _ E2), (acts_cons _ _ _ _ E3). split; [done|].
  split; [simpl; by rewrite lookup_insert_eq|]. split; [|by exists q].
  intros r. simpl. rewrite Hm3. apply Hm.
Qed.

End chat.
End Chat.

(** ** One stream in memory *)

Module MemChat.
Definition first : ClientMessage :=
  ClientMessage_zero <| ClientMessage_UserId := "alice" |> <| ClientMessage_RoomId := "dm:bob:alice" |>.
Definition base : MemServer.t := MemServer.server <| ChatServer.hub := NoopHub.empty |>.

(** Alice connects, is announced to herself, and the connection breaks. *)
Definition opening : list Chat.action :=
  [Chat.Enter 0; Chat.Act 0 (Chat.Receive 1 (Ok first)); Chat.Act 0 (Chat.Handle 7 2);
   Chat.Act 0 (Chat.Handle 7 3); Chat.Act 0 (Chat.Handle 7 4); Chat.Act 0 (Chat.Handle 7 5);
   Chat.Act 0 (Chat.Receive 6 (Err "canceled"))].

Definition sys : Type := Chat.sys (B:=Noop.t) (K:=MemKV.t) (P:=LocalPresence.t) (Q:=MemDB.t) (G:=MemMongo.t)
  (T:=CloudinaryStorage.t).
Abbreviation run := (Chat.acts (B:=Noop.t) (K:=MemKV.t) (P:=LocalPresence.t) (Q:=MemDB.t) (G:=MemMongo.t)
  (T:=CloudinaryStorage.t) MemServer.sort elements None).
Definition idle : sys := Chat.mkSys base ∅.
Definition state (o : option (outcome sys)) : sys := match o with Some (Done y) => y | _ => idle end.

Definition runs (o : option (outcome sys)) : bool := match o with Some (Done _) => true | _ => false end.
Lemma runs_state o : runs o = true → o = Some (Done (state o)).
Proof. by destruct o as [[]|]. Qed.

Definition broken : sys := state (run opening idle).
(** The announcement was sent before the connection broke. *)
Definition drained : sys := state (run [Chat.Act 0 (Chat.SendTurn (λ _, 0%Z) None)] broken).

Definition announced : ServerMessage :=
  ServerMessage_zero <| ServerMessage_RoomId := "dm:alice:bob" |> <| ServerMessage_UserId := "alice" |>
    <| ServerMessage_EventType := EventType_EVENT_TYPE_PRESENCE |> <| ServerMessage_IsOnline := true |>.

Definition the_stream : Chat.stream := Chat.mk (Chat.Waiting "canceled") "alice" "dm:alice:bob" (Some 0) Chat.Sending [].
Definition heard_stream : Chat.stream := the_stream <| Chat.sent := [announced] |>.

Lemma idle_inv : Chat.sys_inv ∅ idle.
Proof. exact (Chat.start_inv base ct_empty 2 eq_refl NoopHub.empty_broker_ok). Qed.

Lemma broken_run : run opening idle = Some (Done broken).
Proof. apply runs_state. vm_compute. reflexivity. Qed.

Lemma broken_inv : ∃ R, Chat.sys_inv R broken.
Proof. exact (Chat.acts_done_inv MemServer.sort elements None ∅ opening idle broken idle_inv broken_run). Qed.

Lemma drained_run : run [Chat.Act 0 (Chat.SendTurn (λ _, 0%Z) None)] broken = Some (Done drained).
Proof. apply runs_state. vm_compute. reflexivity. Qed.

Lemma drained_inv : ∃ R, Chat.sys_inv R drained.
Proof.
  destruct broken_inv as [R H].
  exact (Chat.acts_done_inv MemServer.sort elements None R _ broken drained H drained_run).
Qed.
End MemChat.

Lemma streams_are_safe_witness :
  Hub.members "dm:alice:bob" (ChatServer.hub (Chat.srv MemChat.broken)) = {[0]}
  ∧ Hub.ConnCount (ChatServer.hub (Chat.srv MemChat.broken)) = 1%Z.
Proof.
  destruct (Chat.streams_are_safe MemServer.sort elements None MemChat.base ct_empty 2 MemChat.opening
    (Done MemChat.broken) eq_refl NoopHub.empty_broker_ok MemChat.broken_run) as (y & E & _ & H).
  pose proof (f_equal (λ o, match o with Done a => a | Panic _ => MemChat.idle end) E) as Ey. cbv beta iota in Ey.
  rewrite <- Ey in H. split; [decide_now|]. rewrite H; [decide_now|]. decide_now.
Defined.

Lemma disconnected_stream_stays_witness :
  (∀ ctx now, Chat.chat_step None (Chat.Handle ctx now) MemChat.heard_stream (Chat.srv MemChat.drained) = None)
  ∧ ∃ c, Chat.registered MemChat.heard_stream = Some c
      ∧ c ∈ Hub.members "dm:alice:bob" (ChatServer.hub (Chat.srv MemChat.drained)).
Proof.
  destruct MemChat.drained_inv as [R Hy].
  destruct (Chat.disconnected_stream_stays MemServer.sort elements None R MemChat.drained 0 MemChat.heard_stream
    "canceled" Hy ltac:(vm_compute; reflexivity) eq_refl eq_refl) as [H1 H2].
  split.
  - intros ctx now. apply H1; [|discriminate]. intros c cl [= <-].
    intros Hcl. assert (E : Some cl = Some (Hub.mkClient "alice" "dm:alice:bob" 0))
      by (rewrite <- Hcl; vm_compute; reflexivity).
    injection E as ->. vm_compute. reflexivity.
  - destruct (H2 [] MemChat.drained eq_refl) as [_ H]; [|exact H]. intros clock er Hin. by apply elem_of_nil in Hin.
Defined.

