(* ===== verification/Typing.v ===== *)
(** * Messages stay within their types

    The Go compiler gives the fields of a [pb.ServerMessage] their widths; the
    model's integers have none. Here the handlers of [app/server/grpc_server.go]
    are shown to build, from frames and requests within their types, only
    messages within theirs, and the system of streams to keep it so; what
    another pod sends is within its types because [json.Unmarshal] refuses the rest. *)

From S2P Require Import Prelude GoString Pb Json RoomId Chan Broker Hub HubSpec Presence RoomStore Postgres Mongo Storage Server Chat.

Local Open Scope go_scope.

(** The widths of the fields of a frame and of the requests that become messages. *)
Record frame_wf (m : ClientMessage) : Prop := {
  fw_sent : is_i64 (ClientMessage_SentAtUnixMs m);
  fw_type : is_i32 (ClientMessage_Type m);
  fw_size : is_i64 (ClientMessage_MediaSizeBytes m);
  fw_event : is_i32 (ClientMessage_EventType m)
}.

Definition call_wf (c : ChatServer.call) : Prop :=
  match c with
  | ChatServer.CallFrame _ m => frame_wf m
  | ChatServer.CallSendMessage _ _ req =>
      is_i32 (SendMessageRequest_MessageType req) ∧ is_i64 (SendMessageRequest_MediaSizeBytes req)
  | _ => True
  end.

(** A message built from constants, clock readings and fields within their types. *)
Ltac in_range :=
  lazymatch goal with
  | |- _ (to_unix_milli _) => apply to_unix_milli_range
  | H : frame_wf ?m |- is_i64 (ClientMessage_SentAtUnixMs ?m) => exact (fw_sent m H)
  | H : frame_wf ?m |- is_i32 (ClientMessage_Type ?m) => exact (fw_type m H)
  | H : frame_wf ?m |- is_i64 (ClientMessage_MediaSizeBytes ?m) => exact (fw_size m H)
  | H : frame_wf ?m |- is_i32 (ClientMessage_EventType ?m) => exact (fw_event m H)
  | H : is_i32 ?z |- is_i32 ?z => exact H
  | H : is_i64 ?z |- is_i64 ?z => exact H
  | |- _ => split; [vm_compute; discriminate|vm_compute; reflexivity]
  end.
Ltac message_wf :=
  constructor; cbn -[is_i64 is_i32 to_unix_milli]; in_range.

Section typing.
Context {B : Type} `{BR : Broker B} `{JR : JsonCodec RoomStore.RoomMeta} `{!BrokerLaws B}.
Context {K : Type} `{KV : RedisKV K} {P : Type} `{PS : PresenceStore P}.
Context {Q : Type} `{DB : SqlDB Q} {G : Type} `{MG : MongoDB G} {T : Type} `{SG : Storage T}.
Context (sort_slice : list RoomRepository.UserRoom → list RoomRepository.UserRoom).
Context (order : gset string → list string).
Context (heartbeat : option (GoTime → string → P → P)).

#[local] Abbreviation server := (ChatServer.t B K P Q G T).
#[local] Abbreviation hub := ChatServer.hub.
#[local] Abbreviation sys := (Chat.sys (B:=B) (K:=K) (P:=P) (Q:=Q) (G:=G) (T:=T)).
Implicit Types (s : server).

(** ** What the handlers build *)

Lemma edited_at now id u text s s1 z :
  ChatServer.on_mongo (MessageRepository.EditMessage now id u text) s = Some (s1, Ok z) → z = to_unix_milli now.
Proof.
  unfold ChatServer.on_mongo. destruct (ChatServer.msgRepo s) as [g|]; [|done].
  unfold MessageRepository.EditMessage. destruct (update_one _ _ _ g) as [g' [n|e]]; [|by intros [= <- ?]].
  by case_bool_decide; intros [= <- ?].
Qed.

Lemma frame_says R now m s :
  Hub.hub_inv R (hub s) → frame_wf m → ChatServer.says message_wf s (ChatServer.processIncoming now m s).
Proof.
  intros Hi Hm. unfold ChatServer.processIncoming. cbv zeta.
  repeat case_match;
    lazymatch goal with
    | |- ChatServer.says _ _ (Done _) => apply ChatServer.says_quiet; first [done|by eapply ChatServer.on_mongo_quiet]
    | |- ChatServer.says _ _ (ChatServer.broadcast_ _ _ _) =>
        apply (ChatServer.says_broadcast_ _ R); [exact Hi|first [done|by eapply ChatServer.on_mongo_quiet]|try message_wf]
    | |- _ => idtac
    end.
  - match goal with E : ChatServer.on_mongo _ _ = Some (_, Ok _) |- _ => apply edited_at in E as -> end.
    message_wf.
  - apply (ChatServer.says_persisted _ R _ _ (λ p s1, Done (ChatServer.persistMessage p s1))); [exact Hi|message_wf|].
    intros p s1. eexists. split; [done|apply ChatServer.persist_quiet].
Qed.

Lemma send_says R uuid now req s :
  Hub.hub_inv R (hub s) → call_wf (ChatServer.CallSendMessage uuid now req) →
  ChatServer.says message_wf s (ChatServer.state_of (ChatServer.SendMessage uuid now req s)).
Proof.
  intros Hi [Ht Hs]. unfold ChatServer.SendMessage. cbv zeta. case_match; [by apply ChatServer.says_quiet|].
  match goal with |- context [ChatServer.broadcast ?m true s] => set (sm := m) end.
  assert (Hm : message_wf sm) by (unfold sm; message_wf). clearbody sm.
  destruct (ChatServer.says_broadcast message_wf R sm true s s Hi) as (h & p & E & Eb); [done..|].
  rewrite E. eexists. split; [reflexivity|]. right. exists sm, true. split; [done|].
  cbn [outcome_bind fst snd]. by destruct (ChatServer.persist_quiet p (s <| ChatServer.hub := h |>)) as [-> _].
Qed.

Lemma delete_says R req s :
  Hub.hub_inv R (hub s) → ChatServer.says message_wf s (ChatServer.state_of (ChatServer.DeleteMessage req s)).
Proof.
  intros Hi. unfold ChatServer.DeleteMessage. cbv zeta. case_match; [by apply ChatServer.says_quiet|].
  destruct (ChatServer.on_mongo _ s) as [[s1 [d|e]]|] eqn:E;
    [|by apply ChatServer.says_quiet; eapply ChatServer.on_mongo_quiet|by apply ChatServer.says_quiet].
  apply ChatServer.on_mongo_quiet in E. apply ChatServer.says_state_of.
  case_match; [|by apply ChatServer.says_quiet]. apply (ChatServer.says_broadcast_ _ R); [done..|message_wf].
Qed.

Lemma edit_says R now req s :
  Hub.hub_inv R (hub s) → ChatServer.says message_wf s (ChatServer.state_of (ChatServer.EditMessage now req s)).
Proof.
  intros Hi. unfold ChatServer.EditMessage. cbv zeta. case_match; [by apply ChatServer.says_quiet|].
  destruct (ChatServer.on_mongo _ s) as [[s1 [d|e]]|] eqn:E;
    [|by apply ChatServer.says_quiet; eapply ChatServer.on_mongo_quiet|by apply ChatServer.says_quiet].
  pose proof (edited_at _ _ _ _ _ _ _ E) as ->. apply ChatServer.on_mongo_quiet in E. apply ChatServer.says_state_of.
  case_match; [|by apply ChatServer.says_quiet]. apply (ChatServer.says_broadcast_ _ R); [done..|message_wf].
Qed.

Lemma run_says R c s :
  Hub.hub_inv R (hub s) → call_wf c → ChatServer.says message_wf s (ChatServer.run sort_slice order c s).
Proof.
  intros Hi Hc. destruct (ChatServer.speaks c) eqn:Hs.
  - destruct c; try done; cbn [ChatServer.run];
      first [by apply (frame_says R)|by apply (send_says R)|by apply (delete_says R)|by apply (edit_says R)].
  - destruct (ChatServer.run_quiet sort_slice order c s Hs) as (s' & -> & Hq). by apply ChatServer.says_quiet.
Qed.

(** ** What waits in the hub *)

Definition typed (h : Hub.t B) : Prop := ∀ p m, Hub.msgs h !! p = Some m → message_wf m.

Lemma typed_Broadcast R h h' m pub :
  Hub.hub_inv R h → typed h → message_wf m → Hub.Broadcast_new m pub h = Done h' → typed h'.
Proof.
  intros Hi Ht Hm E. destruct (Hub.alloc_inv m R h Hi) as [Hi1 _].
  destruct (Hub.Broadcast_spec (Hub.next h) pub m R _ Hi1) as (h1 & Hb & _ & _ & _ & Hms & _);
    [simpl; by rewrite lookup_insert_eq|].
  unfold Hub.Broadcast_new in E. simpl in E. simpl in Hb. rewrite Hb in E. injection E as <-.
  intros p m'. rewrite Hms. simpl. intros [[_ <-]|[_ H]]%lookup_insert_Some; [done|by eapply Ht].
Qed.

Lemma typed_says R s s' o :
  Hub.hub_inv R (hub s) → typed (hub s) → ChatServer.says message_wf s o → o = Done s' → typed (hub s').
Proof.
  intros Hi Ht (s1 & -> & Hor) [= ->]. destruct Hor as [->|(m & pub & Hm & E)]; [done|].
  exact (typed_Broadcast R _ _ m pub Hi Ht Hm E).
Qed.

Lemma typed_broadcast_ R s s' m pub :
  Hub.hub_inv R (hub s) → typed (hub s) → message_wf m → ChatServer.broadcast_ m pub s = Done s' → typed (hub s').
Proof.
  intros Hi Ht Hm. apply (typed_says R s); [done..|]. by apply (ChatServer.says_broadcast_ _ R).
Qed.

(** Broker messages: [json.Unmarshal] lets nothing else through. *)
Lemma typed_forward R h h' now sub :
  Hub.hub_inv R h → typed h → is_i64 now → Hub.forward now sub h = Some (Done h') → typed h'.
Proof.
  intros Hi Ht Hn E. unfold Hub.forward in E. destruct (Recv sub _) as [[raw b]|] eqn:Er; [|done].
  destruct (Recv_live _ _ _ _ (Hub.inv_broker _ _ Hi) Er) as [Hb Hl]. cbn [mbind option_bind] in E. cbv zeta in E.
  assert (Hi1 : Hub.hub_inv R (h <| Hub.broker := b |>)) by (apply (Hub.hub_inv_ext R h); try apply Hi; done).
  destruct (Unmarshal raw) as [m|] eqn:Eu; [|by injection E as <-].
  injection E as E. eapply (typed_Broadcast R); [exact Hi1|done| |exact E].
  pose proof (unmarshal_wf raw m Eu) as Hm. case_match; [|done]. destruct Hm. by constructor.
Qed.

Lemma typed_attach_url clock p s : typed (hub s) → typed (hub (Chat.attach_url clock p s)).
Proof.
  intros Ht. unfold Chat.attach_url. repeat case_match; try done.
  intros p' m'. simpl. intros [[_ <-]|[_ H']]%lookup_insert_Some; [|by eapply Ht].
  destruct (Ht p _ ltac:(eassumption)). by constructor.
Qed.

(** ** The system *)

(** The first frame of a stream, while its handler still holds it. *)
Definition first_of (p : Chat.point) : option ClientMessage :=
  match p with
  | Chat.Registering m | Chat.GoingOnline m | Chat.Announcing m | Chat.FirstFrame m => Some m
  | _ => None
  end.

Definition typed_stream (st : Chat.stream) : Prop := ∀ m, first_of (Chat.at_ st) = Some m → frame_wf m.

Definition event_wf (ev : Chat.event) : Prop :=
  match ev with Chat.Receive _ (Ok m) => frame_wf m | _ => True end.

Definition action_wf (a : Chat.action) : Prop :=
  match a with
  | Chat.Act _ ev => event_wf ev
  | Chat.Call c => call_wf c
  | Chat.Forward now _ => is_i64 now
  | Chat.Enter _ => True
  end.

Lemma presence_event_wf st b t : message_wf (Chat.presence_event st b (to_unix_milli t)).
Proof. message_wf. Qed.
Lemma presence_event_wf0 st b : message_wf (Chat.presence_event st b 0).
Proof. message_wf. Qed.

Lemma typed_receive R now in_ st s st' s' :
  Hub.hub_inv R (hub s) → typed (hub s) → typed_stream st → event_wf (Chat.Receive now in_) →
  Chat.receive now in_ st s = Some (Done (st', s')) → typed (hub s') ∧ typed_stream st'.
Proof.
  intros Hi Ht Hst Hev E. unfold Chat.receive in E. destruct (Chat.at_ st) eqn:Ea; try done.
  - destruct in_ as [m|e]; [|injection E as <- <-; by split].
    case_match; injection E as <- <-; (split; [done|]); intros m'; simpl; [done|by intros [= <-]].
  - destruct in_ as [m|e]; [|injection E as <- <-; by split].
    destruct (ChatServer.processIncoming now m s) as [s1|] eqn:Ep; [|done]. injection E as <- <-.
    split; [|done]. by apply (typed_says R s s1 _ Hi Ht (frame_says R now m s Hi Hev)).
Qed.

Lemma typed_handle R ctx now st s st' s' :
  Hub.hub_inv R (hub s) → typed (hub s) → typed_stream st →
  Chat.handle ctx now st s = Some (Done (st', s')) → typed (hub s') ∧ typed_stream st'.
Proof.
  intros Hi Ht Hst E. unfold Chat.handle in E. unfold typed_stream in Hst.
  destruct (Chat.at_ st) as [|first|first|first|first| |e|e|e|] eqn:Ea; try done.
  - destruct (Hub.connect _ _ _ _) as [h c] eqn:Ec. injection E as <- <-. split; [|by intros m; simpl; apply Hst].
    intros p m. simpl. destruct (connect_frame _ _ _ _ _ _ Ec) as (-> & _). apply Ht.
  - injection E as <- <-. split; [done|by intros m; simpl; apply Hst].
  - destruct (ChatServer.broadcast_ _ true s) as [s1|] eqn:Eb; [|done]. injection E as <- <-.
    split; [|by intros m; simpl; apply Hst]. exact (typed_broadcast_ R s s1 _ _ Hi Ht (presence_event_wf0 st true) Eb).
  - destruct (ChatServer.processIncoming now first s) as [s1|] eqn:Ep; [|done]. injection E as <- <-.
    split; [|done]. apply (typed_says R s s1 _ Hi Ht (frame_says R now first s Hi (Hst first eq_refl)) Ep).
  - destruct (Chat.sending st); try done. destruct (Chat.client st) as [c|]; [|done].
    destruct (Hub.Unregister c (hub s)) as [h|] eqn:Eu; [|done]. injection E as <- <-. split; [|done].
    intros p m. simpl. rewrite (proj1 (Unregister_frame _ _ _ Eu)). apply Ht.
  - injection E as <- <-. by split.
  - destruct (ChatServer.broadcast_ _ true s) as [s1|] eqn:Eb; [|done]. injection E as <- <-.
    split; [|done]. exact (typed_broadcast_ R s s1 _ _ Hi Ht (presence_event_wf st false now) Eb).
Qed.

Lemma typed_step R ev st s st' s' :
  Hub.hub_inv R (hub s) → typed (hub s) → typed_stream st → event_wf ev →
  Chat.chat_step heartbeat ev st s = Some (Done (st', s')) → typed (hub s') ∧ typed_stream st'.
Proof.
  intros Hi Ht Hst Hev E. destruct ev as [now in_|ctx now|clock err|now]; cbn [Chat.chat_step] in E.
  - by eapply typed_receive.
  - by eapply typed_handle.
  - unfold Chat.send in E. destruct (Chat.sending st); try done. destruct (Chat.client st) as [c|]; [|done].
    destruct (Hub.ptrs (hub s) !! c) as [cl|]; [|done]. cbn [mbind option_bind] in E.
    destruct (ct_recv _ _) as [[p tb]|].
    + set (s1 := s <| ChatServer.hub := _ |>) in E. injection E as <- <-.
      split; [by apply typed_attach_url|]. by destruct err.
    + destruct (ct_tab _ !! _) as [ch|]; [|done]. cbn [mbind option_bind] in E.
      destruct (chan_closed ch); [|done]. by injection E as <- <-.
  - unfold Chat.beat in E. destruct heartbeat; [|done]. destruct (Chat.at_ st) eqn:Ea; try done;
      injection E as <- <-; by split.
Qed.

Record sys_typed (y : sys) : Prop := {
  st_hub : typed (hub (Chat.srv y));
  st_stream id st : Chat.streams y !! id = Some st → typed_stream st
}.

#[local] Abbreviation act := (Chat.act sort_slice order heartbeat).
#[local] Abbreviation acts := (Chat.acts sort_slice order heartbeat).

Lemma typed_act R a (y y' : sys) :
  Chat.sys_inv R y → sys_typed y → action_wf a → act a y = Some (Done y') → sys_typed y'.
Proof.
  intros Hy [Ht Hst] Ha E. pose proof (Chat.si_hub _ _ Hy) as Hi.
  assert (Hins : ∀ id st (m : gmap nat Chat.stream), typed_stream st → (∀ i x, m !! i = Some x → typed_stream x) →
    ∀ i x, <[id := st]> m !! i = Some x → typed_stream x).
  { intros id st m H1 H2 i x [[_ <-]|[_ H]]%lookup_insert_Some; [done|by eapply H2]. }
  destruct a as [id|id ev|c|now sub]; cbn [Chat.act] in E.
  - destruct (Chat.streams y !! id); [done|]. injection E as <-. constructor; [done|]. apply Hins; [|done].
    unfold Chat.enter. by case_match.
  - destruct (Chat.streams y !! id) as [st|] eqn:Hid; [|done]. cbn [mbind option_bind] in E.
    destruct (Chat.chat_step heartbeat ev st (Chat.srv y)) as [[[st' s']|]|] eqn:Es; try done. injection E as <-.
    destruct (typed_step R ev st _ st' s' Hi Ht (Hst _ _ Hid) Ha Es) as [H1 H2].
    constructor; [done|]. by apply Hins.
  - destruct (ChatServer.run _ _ c _) as [s'|] eqn:Er; [|done]. injection E as <-. constructor; [|done].
    exact (typed_says R _ s' _ Hi Ht (run_says R c _ Hi Ha) Er).
  - destruct (Hub.forward now sub _) as [[h|]|] eqn:Ef; try done. injection E as <-. constructor; [|done].
    exact (typed_forward R _ h now sub Hi Ht Ha Ef).
Qed.

Lemma typed_acts R l (y y' : sys) :
  Chat.sys_inv R y → sys_typed y → Forall action_wf l → acts l y = Some (Done y') → sys_typed y'.
Proof.
  revert R y. induction l as [|a l IH]; intros R y Hy Ht Hl E; cbn [Chat.acts] in E; [by injection E as <-|].
  apply Forall_cons in Hl as [Ha Hl]. destruct (act a y) as [o|] eqn:Ea; [|done].
  destruct (Chat.act_inv sort_slice order heartbeat R a y o Hy Ea) as (y1 & R1 & -> & Hy1).
  cbn [mbind option_bind] in E. eapply (IH R1 y1); try done. by apply (typed_act R a y).
Qed.

End typing.

(** The hub of the broken connection still holds the announcement. *)
Lemma announced_held : Hub.msgs (ChatServer.hub (Chat.srv MemChat.broken)) !! 1 = Some MemChat.announced.
Proof. vm_compute. reflexivity. Qed.

