(* ===== verification/Delivery.v ===== *)
(** * From a frame to the streams of its room

    The whole process of [app/server/grpc_server.go] and [app/chat/hub.go]
    against the room service of [HubSpec]: each action of a stream, a unary call,
    a goroutine or the broker is at most one operation of the service, and what a
    stream sends is what the service hands out. Senders write presigned URLs into
    messages that other queues hold too, so the service's messages are compared
    without their URL. *)

From S2P Require Import Prelude GoString Pb Json RoomId Chan Broker Hub HubSpec Presence RoomStore Postgres Mongo Storage Server Chat Typing.

Local Open Scope go_scope.

(** ** Messages without their URL *)

Definition erase (m : ServerMessage) : ServerMessage := m <| ServerMessage_MediaUrl := "" |>.

Definition calm (s : Rooms.t) : Rooms.t := Rooms.mk (Rooms.seats s) ((λ q : list ServerMessage, erase <$> q) <$> Rooms.inbox s).

(** What an action does to the service. *)
Inductive deed : Type :=
  | Nothing
  | Joins (c : nat) (r : string)
  | Leaves (c : nat)
  | Says (m : ServerMessage)
  | Takes (c : nat) (m : ServerMessage).

Definition does (d : deed) (s s' : Rooms.t) : Prop :=
  match d with
  | Nothing => s' = s
  | Joins c r => s' = Rooms.join c r s
  | Leaves c => s' = Rooms.leave c s
  | Says m => s' = Rooms.say m s
  | Takes c m => Rooms.take c s = Some (m, s')
  end.

Lemma calm_join c r s : calm (Rooms.join c r s) = Rooms.join c r (calm s).
Proof. unfold calm, Rooms.join. simpl. by rewrite fmap_insert. Qed.

Lemma calm_leave c s : calm (Rooms.leave c s) = Rooms.leave c (calm s).
Proof. unfold calm, Rooms.leave. simpl. by rewrite fmap_delete. Qed.

Lemma calm_offer m q : erase <$> Rooms.offer m q = Rooms.offer (erase m) (erase <$> q).
Proof. unfold Rooms.offer. rewrite length_fmap. case_bool_decide; [|done]. by rewrite fmap_app. Qed.

Lemma calm_say m s : calm (Rooms.say m s) = Rooms.say (erase m) (calm s).
Proof.
  apply rooms_ext; [done|]. intros c. simpl. rewrite lookup_fmap, !map_lookup_imap, lookup_fmap.
  destruct (Rooms.inbox s !! c) as [q|]; [|done]. simpl. f_equal. case_decide; [apply calm_offer|done].
Qed.

Lemma calm_take c s m s' : Rooms.take c s = Some (m, s') → Rooms.take c (calm s) = Some (erase m, calm s').
Proof.
  unfold Rooms.take. simpl. rewrite lookup_fmap. destruct (Rooms.inbox s !! c) as [[|x q]|]; try done.
  intros [= -> <-]. simpl. unfold calm. simpl. by rewrite fmap_insert.
Qed.

Lemma take_next c s m s' m' q :
  Rooms.take c s = Some (m, s') → Rooms.inbox s !! c = Some (m' :: q) → Rooms.inbox s' !! c = Some q.
Proof. unfold Rooms.take. intros Ht Hq. rewrite Hq in Ht. injection Ht as _ <-. simpl. by rewrite lookup_insert_eq. Qed.

Section delivery.
Context {B : Type} `{BR : Broker B} `{JR : JsonCodec RoomStore.RoomMeta} `{!BrokerLaws B}.
Context {K : Type} `{KV : RedisKV K} {P : Type} `{PS : PresenceStore P}.
Context {Q : Type} `{DB : SqlDB Q} {G : Type} `{MG : MongoDB G} {T : Type} `{SG : Storage T}.
Context (sort_slice : list RoomRepository.UserRoom → list RoomRepository.UserRoom).
Context (order : gset string → list string).
Context (heartbeat : option (GoTime → string → P → P)).

#[local] Abbreviation server := (ChatServer.t B K P Q G T).
#[local] Abbreviation hub := ChatServer.hub.
#[local] Abbreviation sys := (Chat.sys (B:=B) (K:=K) (P:=P) (Q:=Q) (G:=G) (T:=T)).
#[local] Abbreviation act := (Chat.act sort_slice order heartbeat).
#[local] Abbreviation acts := (Chat.acts sort_slice order heartbeat).
Implicit Types (s : server) (h : Hub.t B).

(** ** The hub *)

Record hub_ok (R : gset nat) h : Prop := { ho_inv : Hub.hub_inv R h; ho_pointers : pointers_ok R h }.

(** The service that a hub is. *)
Definition service (R : gset nat) h : Rooms.t := calm (abs R h).

Lemma hub_inv_unique R1 R2 h : Hub.hub_inv R1 h → Hub.hub_inv R2 h → R1 = R2.
Proof.
  assert (Hs : ∀ R1 R2, Hub.hub_inv R1 h → Hub.hub_inv R2 h → R1 ⊆ R2).
  { intros S1 S2 H1 H2 c Hc. destruct (Hub.inv_open _ _ H1 c Hc) as (cl & Hcl & _).
    assert (Hm : c ∈ Hub.members (Hub.RoomID cl) h) by (apply (Hub.inv_members _ _ H1); by rewrite Hcl).
    by apply (Hub.inv_members _ _ H2) in Hm as [Hm _]. }
  intros H1 H2. apply set_eq. intros c. by split; apply Hs.
Qed.

Lemma contents_rewrite ms p m m' o :
  ms !! p = Some m → erase m' = erase m → erase <$> contents (<[p := m']> ms) o = erase <$> contents ms o.
Proof.
  intros Hp He. destruct o as [ch|]; [|done]. simpl. induction (chan_buf ch) as [|q l IH]; [done|]. simpl.
  destruct (decide (p = q)) as [<-|Hne].
  - rewrite lookup_insert_eq, Hp. simpl. f_equal; [done|exact IH].
  - rewrite lookup_insert_ne by done. destruct (ms !! q); simpl; [by f_equal|exact IH].
Qed.

(** Writing a URL into a message that many queues hold. *)
Lemma rewrite_ok R h p m m' :
  Hub.msgs h !! p = Some m → erase m' = erase m → hub_ok R h →
  hub_ok R (h <| Hub.msgs := <[p := m']> (Hub.msgs h) |>)
  ∧ service R (h <| Hub.msgs := <[p := m']> (Hub.msgs h) |>) = service R h.
Proof.
  intros Hp He [Hi [Hn Hq]].
  assert (Hsame : ∀ q, is_Some (<[p := m']> (Hub.msgs h) !! q) ↔ is_Some (Hub.msgs h !! q)).
  { intros q. rewrite lookup_insert_is_Some'. split; [intros [<-|]; [by eexists|done]|by right]. }
  split; [split|].
  - apply (Hub.hub_inv_ext R h); try apply Hi; done.
  - constructor; simpl; [intros q Hs; by apply Hn, Hsame|]. intros c cl ch Hc Hcl Hch.
    destruct (Hq c cl ch Hc Hcl Hch) as [? Hf]. split; [done|]. eapply Forall_impl; [exact Hf|]. intros q. apply Hsame.
  - apply rooms_ext; [done|]. intros c. unfold service, calm. cbn [Rooms.inbox]. rewrite !lookup_fmap, !inbox_abs.
    case_decide; [|done]. cbn [Hub.ptrs set_field]. simpl. destruct (Hub.ptrs h !! c) as [cl|]; [|done]. simpl.
    f_equal. by apply (contents_rewrite _ p m m').
Qed.

Lemma attach_url_ok clock p R s :
  hub_ok R (hub s) →
  hub_ok R (hub (Chat.attach_url clock p s)) ∧ service R (hub (Chat.attach_url clock p s)) = service R (hub s).
Proof.
  intros Hok. unfold Chat.attach_url. destruct (Hub.msgs (hub s) !! p) as [m|] eqn:Hp; [|done].
  repeat case_match; try done. by apply (rewrite_ok R (hub s) p m).
Qed.

(** The message that the sender hands to the stream. *)
Lemma attach_url_msg clock p m s :
  Hub.msgs (hub s) !! p = Some m →
  ∃ m', Hub.msgs (hub (Chat.attach_url clock p s)) !! p = Some m' ∧ erase m' = erase m
    ∧ ChatServer.storage (Chat.attach_url clock p s) = ChatServer.storage s
    ∧ ∀ store u t, ChatServer.storage s = Some store → ServerMessage_MediaKey m ≠ "" →
        ServerMessage_EventType m = EventType_EVENT_TYPE_MESSAGE →
        GetPresignedURL clock (ServerMessage_MediaKey m) store = Ok (u, t) → ServerMessage_MediaUrl m' = u.
Proof.
  intros Hp. unfold Chat.attach_url. rewrite Hp. destruct (ChatServer.storage s) as [store|] eqn:Est; [|by exists m].
  destruct (negb _ && _) eqn:Ec.
  - destruct (GetPresignedURL _ _ _) as [[u t]|e] eqn:Eu.
    + exists (m <| ServerMessage_MediaUrl := u |>). simpl. rewrite lookup_insert_eq. split_and!; [done..|].
      intros store' u' t' [= <-] _ _ Hu. rewrite Eu in Hu. by injection Hu as <- _.
    + exists m. split_and!; [done..|]. intros store' u' t' [= <-] _ _ Hu. congruence.
  - exists m. split_and!; [done..|]. intros store' u' t' _ Hk He.
    apply andb_false_iff in Ec as [Ec%negb_false_iff%String.eqb_eq|Ec%Z.eqb_neq]; done.
Qed.

(** ** The operations *)

Lemma says_does φ R s s' :
  hub_ok R (hub s) → ChatServer.says φ s (Done s') →
  hub_ok R (hub s') ∧ ∃ d, does d (service R (hub s)) (service R (hub s'))
    ∧ match d with Nothing => True | Says m => ∃ sm, φ sm ∧ m = erase sm | _ => False end.
Proof.
  intros [Hi Hp] (s1 & [= <-] & Hor). destruct Hor as [->|(m & pub & Hm & E)]; [by split; [|exists Nothing]|].
  destruct (abs_Broadcast m pub R (hub s) Hi Hp) as (h & Eb & Hp' & Ha). rewrite E in Eb. injection Eb as <-.
  pose proof (Hub.op_broadcast R (hub s) m pub) as Hop. rewrite E in Hop.
  destruct (Hub.op_inv _ _ _ Hi Hop) as (R' & h' & [= <- <-] & Hi'). split; [done|].
  exists (Says (erase m)). split; [|by exists m]. unfold service. simpl. by rewrite Ha, calm_say.
Qed.

Lemma connect_does ctx u r R h h' c :
  hub_ok R h → Hub.connect ctx u r h = (h', c) →
  hub_ok ({[c]} ∪ R) h' ∧ service ({[c]} ∪ R) h' = Rooms.join c r (service R h).
Proof.
  intros [Hi Hp] E. destruct (abs_connect _ _ _ _ _ _ _ Hi Hp E) as [Hp' Ha].
  destruct (Hub.op_inv _ _ _ Hi (Hub.op_connect R h ctx u r h' c E)) as (R' & h1 & [= <- <-] & Hi').
  split; [done|]. unfold service. by rewrite Ha, calm_join.
Qed.

Lemma unregister_does c R h h' :
  hub_ok R h → c ∈ R → Hub.Unregister c h = Done h' →
  hub_ok (R ∖ {[c]}) h' ∧ service (R ∖ {[c]}) h' = Rooms.leave c (service R h).
Proof.
  intros [Hi Hp] Hc E. destruct (abs_Unregister c R h Hi Hp Hc) as (h1 & E1 & Hp' & Ha). rewrite E in E1. injection E1 as <-.
  pose proof (Hub.op_disconnect R h c Hc) as Hop. rewrite E in Hop.
  destruct (Hub.op_inv _ _ _ Hi Hop) as (R' & h2 & [= <- <-] & Hi'). split; [done|].
  unfold service. by rewrite Ha, calm_leave.
Qed.

Lemma forward_does now sub R h h' :
  hub_ok R h → Hub.forward now sub h = Some (Done h') →
  hub_ok R h' ∧ ∃ d, does d (service R h) (service R h') ∧ match d with Nothing | Says _ => True | _ => False end.
Proof.
  intros [Hi Hp] E. destruct (abs_forward now sub R h _ Hi Hp E) as (h1 & raw & b & [= <-] & _ & Hp' & Ha).
  destruct (Hub.op_inv _ _ _ Hi (Hub.op_forward R h now sub _ E)) as (R' & h1 & [= <- <-] & Hi'). split; [done|].
  unfold service. rewrite Ha. destruct (Unmarshal raw) as [m|]; [|by exists Nothing].
  exists (Says (erase (stamped now m))). by rewrite calm_say.
Qed.

(** What a turn of a sender hands to its stream. *)
Definition handed (ev : Chat.event) (d : deed) : list ServerMessage :=
  match ev, d with Chat.SendTurn _ None, Takes _ m => [m] | _, _ => [] end.

Lemma send_does clock err R st s st' s' c :
  hub_ok R (hub s) → c ∈ R → Chat.client st = Some c →
  Chat.send clock err st s = Some (Done (st', s')) →
  hub_ok R (hub s') ∧ ∃ d, does d (service R (hub s)) (service R (hub s'))
    ∧ match d with Nothing => True | Takes c' _ => c' = c | _ => False end
    ∧ erase <$> Chat.sent st' = (erase <$> Chat.sent st) ++ handed (Chat.SendTurn clock err) d.
Proof.
  intros Hok Hc Hcl E. unfold Chat.send in E. rewrite Hcl in E. destruct (Chat.sending st); try done.
  destruct (Hub.ptrs (hub s) !! c) as [cl|] eqn:Hp; [|done]. cbn [mbind option_bind] in E.
  destruct (ct_recv _ _) as [[p tb]|] eqn:Er.
  - set (s1 := s <| ChatServer.hub := _ |>) in E. injection E as Est Es.
    destruct (abs_receive R (hub s) c cl p tb (ho_inv _ _ Hok) (ho_pointers _ _ Hok) Hc Hp Er) as (Hp1 & m & Hm & Ht).
    destruct (Hub.op_inv _ _ _ (ho_inv _ _ Hok) (Hub.op_receive R (hub s) c cl p tb Hc Hp Er)) as (R' & h1 & [= <- <-] & Hi1).
    assert (Hok1 : hub_ok R (hub s1)) by (by split).
    destruct (attach_url_ok clock p R s1 Hok1) as [Hok2 Hs2]. rewrite Es in Hok2, Hs2. split; [done|].
    exists (Takes c (erase m)). split_and!.
    + rewrite Hs2. by apply calm_take.
    + done.
    + destruct (attach_url_msg clock p m s1) as (m' & Hm' & He & _); [exact Hm|]. rewrite Hm' in Est.
      destruct err; subst st'; cbn [handed]; [by rewrite app_nil_r|]. simpl. rewrite fmap_app. simpl. by rewrite He.
  - destruct (ct_tab _ !! _) as [ch|]; [|done]. cbn [mbind option_bind] in E. destruct (chan_closed ch); [|done].
    injection E as <- <-. split; [done|]. exists Nothing. split_and!; [done..|]. by destruct err; rewrite app_nil_r.
Qed.

(** ** A stream's step *)

(** Who may do what: a stream joins and leaves for itself, and takes what waits for itself. *)
Definition own (d : deed) (st st' : Chat.stream) : Prop :=
  match d with
  | Nothing | Says _ => True
  | Joins c r => Chat.registered st = None ∧ Chat.registered st' = Some c ∧ Chat.roomID st' = r
  | Leaves c => Chat.registered st = Some c ∧ Chat.registered st' = None
  | Takes c _ => Chat.registered st = Some c
  end.

Lemma receive_does R now in_ st s st' s' :
  hub_ok R (hub s) → event_wf (Chat.Receive now in_) → Chat.receive now in_ st s = Some (Done (st', s')) →
  hub_ok R (hub s') ∧ ∃ d, does d (service R (hub s)) (service R (hub s')) ∧ own d st st' ∧ Chat.sent st' = Chat.sent st.
Proof.
  intros Hok Hev E. unfold Chat.receive in E. destruct (Chat.at_ st) eqn:Ea; try done.
  - injection E as <- <-. split; [done|]. exists Nothing. split_and!; [done..|]. by repeat case_match.
  - destruct in_ as [m|e]; [|injection E as <- <-; split; [done|by exists Nothing]].
    destruct (ChatServer.processIncoming now m s) as [s1|] eqn:Ep; [|done]. injection E as <- <-.
    pose proof (frame_says R now m s (ho_inv _ _ Hok) Hev) as Hs. rewrite Ep in Hs.
    destruct (says_does _ R s s1 Hok Hs) as (Hok' & d & Hd & Hm). split; [done|]. exists d.
    by destruct d.
Qed.

Lemma handle_does R ctx now st s st' s' :
  hub_ok R (hub s) → Chat.stream_ok (hub s) st → typed_stream st → Chat.handle ctx now st s = Some (Done (st', s')) →
  ∃ R', hub_ok R' (hub s') ∧ ∃ d, does d (service R (hub s)) (service R' (hub s')) ∧ own d st st'
    ∧ Chat.sent st' = Chat.sent st.
Proof.
  intros Hok Hst Ht E. unfold Chat.handle in E. unfold typed_stream in Ht.
  assert (Hsay : ∀ φ s1, ChatServer.says φ s (Done s1) → ∃ R', hub_ok R' (hub s1) ∧ ∃ d,
    does d (service R (hub s)) (service R' (hub s1)) ∧ match d with Nothing | Says _ => True | _ => False end).
  { intros φ s1 Hs. destruct (says_does φ R s s1 Hok Hs) as (Hok' & d & Hd & Hm). exists R. split; [done|].
    exists d. by destruct d. }
  pose proof (ho_inv _ _ Hok) as Hi.
  destruct (Chat.at_ st) as [|first|first|first|first| |e|e|e|] eqn:Ea; try done.
  - destruct (Hub.connect _ _ _ _) as [h c] eqn:Ec. injection E as <- <-.
    destruct (connect_does _ _ _ _ _ _ _ Hok Ec) as [Hok' Hs]. exists ({[c]} ∪ R). split; [done|].
    exists (Joins c (Chat.roomID st)). cbn [own]. split_and!; [exact Hs| |done..]. by rewrite Chat.registered_in_hub, Ea.
  - injection E as <- <-. exists R. split; [done|]. by exists Nothing.
  - destruct (ChatServer.broadcast_ _ true s) as [s1|] eqn:Eb; [|done]. injection E as <- <-.
    pose proof (ChatServer.says_broadcast_ message_wf R _ true s s Hi ltac:(done) (presence_event_wf0 st true)) as Hs.
    rewrite Eb in Hs. destruct (Hsay _ _ Hs) as (R' & Hok' & d & Hd & Hm). exists R'. split; [done|]. exists d. by destruct d.
  - destruct (ChatServer.processIncoming now first s) as [s1|] eqn:Ep; [|done]. injection E as <- <-.
    pose proof (frame_says R now first s Hi (Ht first eq_refl)) as Hs. rewrite Ep in Hs.
    destruct (Hsay _ _ Hs) as (R' & Hok' & d & Hd & Hm). exists R'. split; [done|]. exists d. by destruct d.
  - destruct (Chat.sending st); try done. destruct (Chat.client st) as [c|] eqn:Ec; [|done].
    assert (Hr : Chat.registered st = Some c) by (by rewrite Chat.registered_in_hub, Ea).
    pose proof (Chat.so_member _ _ Hst c Hr) as [Hc _]%(Hub.inv_members _ _ Hi).
    destruct (Hub.Unregister c (hub s)) as [h|] eqn:Eu; [|done]. injection E as <- <-.
    destruct (unregister_does c R (hub s) h Hok Hc Eu) as [Hok' Hs]. exists (R ∖ {[c]}). split; [done|].
    by exists (Leaves c).
  - injection E as <- <-. exists R. split; [done|]. by exists Nothing.
  - destruct (ChatServer.broadcast_ _ true s) as [s1|] eqn:Eb; [|done]. injection E as <- <-.
    pose proof (ChatServer.says_broadcast_ message_wf R _ true s s Hi ltac:(done) (presence_event_wf st false now)) as Hs.
    rewrite Eb in Hs. destruct (Hsay _ _ Hs) as (R' & Hok' & d & Hd & Hm). exists R'. split; [done|]. exists d. by destruct d.
Qed.

Lemma step_does R ev st s st' s' :
  hub_ok R (hub s) → Chat.stream_ok (hub s) st → typed_stream st → event_wf ev →
  Chat.chat_step heartbeat ev st s = Some (Done (st', s')) →
  ∃ R', hub_ok R' (hub s') ∧ ∃ d, does d (service R (hub s)) (service R' (hub s')) ∧ own d st st'
    ∧ erase <$> Chat.sent st' = (erase <$> Chat.sent st) ++ handed ev d.
Proof.
  intros Hok Hst Ht Hev E. destruct ev as [now in_|ctx now|clock err|now]; cbn [Chat.chat_step] in E.
  - destruct (receive_does R now in_ st s st' s' Hok Hev E) as (Hok' & d & Hd & Ho & ->). exists R. split; [done|].
    exists d. by rewrite app_nil_r.
  - destruct (handle_does R ctx now st s st' s' Hok Hst Ht E) as (R' & Hok' & d & Hd & Ho & ->). exists R'. split; [done|].
    exists d. by rewrite app_nil_r.
  - assert (∃ c, Chat.client st = Some c ∧ Chat.sending st = Chat.Sending) as (c & Hc & Hs).
    { unfold Chat.send in E. destruct (Chat.sending st), (Chat.client st); try done. by eexists. }
    assert (Hr : Chat.registered st = Some c) by (by rewrite Chat.registered_in_hub, (Chat.so_sending _ _ Hst Hs)).
    pose proof (Chat.so_member _ _ Hst c Hr) as [Hin _]%(Hub.inv_members _ _ (ho_inv _ _ Hok)).
    destruct (send_does clock err R st s st' s' c Hok Hin Hc E) as (Hok' & d & Hd & Hm & Hsent). exists R. split; [done|].
    exists d. split_and!; [done| |done]. destruct d; try done. by subst.
  - unfold Chat.beat in E. exists R. destruct heartbeat; [|done]. destruct (Chat.at_ st) eqn:Ea; try done;
      injection E as <- <-; (split; [done|]); exists Nothing; by rewrite app_nil_r.
Qed.

(** ** The process *)

Record sys_ok (y : sys) : Prop := {
  ok_inv : Chat.sys_inv (Chat.seated y) y;
  ok_typed : sys_typed y;
  ok_pointers : pointers_ok (Chat.seated y) (hub (Chat.srv y))
}.

(** The room service that the process is. *)
Definition rooms (y : sys) : Rooms.t := service (Chat.seated y) (hub (Chat.srv y)).

(** What an action hands to a stream. *)
Definition hears (a : Chat.action) (d : deed) (id : nat) : list ServerMessage :=
  match a with Chat.Act id' ev => if decide (id' = id) then handed ev d else [] | _ => [] end.

(** What an action may do. *)
Definition by_action (a : Chat.action) (d : deed) (y y' : sys) : Prop :=
  match a with
  | Chat.Enter _ => d = Nothing
  | Chat.Act id _ => ∃ st st', Chat.streams y !! id = Some st ∧ Chat.streams y' !! id = Some st' ∧ own d st st'
  | Chat.Call _ | Chat.Forward _ _ => match d with Nothing | Says _ => True | _ => False end
  end.

Lemma sys_hub_ok y : sys_ok y → hub_ok (Chat.seated y) (hub (Chat.srv y)).
Proof. intros [Hi _ Hp]. split; [exact (Chat.si_hub _ _ Hi)|done]. Qed.

(** From a step of the hub to a step of the process. *)
Lemma lift a y y' (φ : deed → Prop) R' :
  sys_ok y → action_wf a → act a y = Some (Done y') → hub_ok R' (hub (Chat.srv y')) →
  (∃ d, does d (rooms y) (service R' (hub (Chat.srv y'))) ∧ φ d) →
  sys_ok y' ∧ ∃ d, does d (rooms y) (rooms y') ∧ φ d.
Proof.
  intros [Hi Ht Hp] Ha E Hok Hd.
  destruct (Chat.act_inv sort_slice order heartbeat _ a y _ Hi E) as (y1 & R1 & [= <-] & Hi').
  pose proof (Chat.seated_inv R1 y' Hi') as ->.
  assert (R' = Chat.seated y') as -> by (eapply hub_inv_unique; [exact (ho_inv _ _ Hok)|exact (Chat.si_hub _ _ Hi')]).
  split; [|done]. constructor; [done|exact (typed_act sort_slice order heartbeat _ a y y' Hi Ht Ha E)|exact (ho_pointers _ _ Hok)].
Qed.

Lemma act_does a y y' :
  sys_ok y → action_wf a → act a y = Some (Done y') →
  sys_ok y' ∧ ∃ d, does d (rooms y) (rooms y') ∧ by_action a d y y'
    ∧ ∀ id st, Chat.streams y !! id = Some st →
        ∃ st', Chat.streams y' !! id = Some st' ∧ erase <$> Chat.sent st' = (erase <$> Chat.sent st) ++ hears a d id.
Proof.
  intros Hok Ha E. pose proof (sys_hub_ok y Hok) as Hh. pose proof Hok as [Hi Ht _].
  pose proof E as E0. destruct a as [id|id ev|c|now sub]; cbn [Chat.act] in E.
  - destruct (Chat.streams y !! id) eqn:Hid; [done|]. injection E as <-. apply (lift _ _ _ _ _ Hok Ha E0 Hh).
    exists Nothing. split_and!; [done..|]. intros i st Hst. exists st. simpl. rewrite app_nil_r.
    rewrite lookup_insert_ne; [done|congruence].
  - destruct (Chat.streams y !! id) as [st|] eqn:Hid; [|done]. cbn [mbind option_bind] in E.
    destruct (Chat.chat_step heartbeat ev st (Chat.srv y)) as [[[st' s']|]|] eqn:Es; try done. injection E as <-.
    destruct (step_does _ ev st _ st' s' Hh (Chat.si_stream _ _ Hi _ _ Hid) (st_stream _ Ht _ _ Hid) Ha Es)
      as (R' & Hh' & d & Hd & Ho & Hsent).
    apply (lift _ _ _ _ R' Hok Ha E0 Hh'). exists d. split_and!; [exact Hd| |].
    + exists st, st'. simpl. by rewrite lookup_insert_eq.
    + intros i x Hx. cbn [hears Chat.streams]. case_decide as Hd'.
      * subst i. rewrite Hid in Hx. injection Hx as <-. exists st'. by rewrite lookup_insert_eq.
      * exists x. by rewrite lookup_insert_ne, app_nil_r.
  - destruct (ChatServer.run _ _ c _) as [s'|] eqn:Er; [|done]. injection E as <-.
    pose proof (run_says sort_slice order _ c _ (ho_inv _ _ Hh) Ha) as Hs. rewrite Er in Hs.
    destruct (says_does _ _ _ s' Hh Hs) as (Hh' & d & Hd & Hm). apply (lift _ _ _ _ _ Hok Ha E0 Hh').
    exists d. split_and!; [exact Hd|by destruct d|]. intros i st Hst. exists st. by rewrite app_nil_r.
  - destruct (Hub.forward now sub _) as [[h|]|] eqn:Ef; try done. injection E as <-.
    destruct (forward_does now sub _ _ h Hh Ef) as (Hh' & d & Hd & Hm). apply (lift _ _ _ _ _ Hok Ha E0 Hh').
    exists d. split_and!; [exact Hd|by destruct d|]. intros i st Hst. exists st. by rewrite app_nil_r.
Qed.

Lemma acts_ok l y y' : sys_ok y → Forall action_wf l → acts l y = Some (Done y') → sys_ok y'.
Proof.
  revert y. induction l as [|a l IH]; intros y Hok Hl E; cbn [Chat.acts] in E; [by injection E as <-|].
  apply Forall_cons in Hl as [Ha Hl]. destruct (act a y) as [o|] eqn:Ea; [|done].
  destruct (Chat.act_inv sort_slice order heartbeat _ a y o (ok_inv _ Hok) Ea) as (y1 & R1 & -> & _).
  cbn [mbind option_bind] in E. apply (IH y1); [|done..]. by apply (act_does a y).
Qed.

Lemma start_ok s b n : hub s = Hub.NewHubWithLimit b n → broker_ok b → sys_ok (Chat.mkSys s ∅).
Proof.
  intros Hh Hb. pose proof (Chat.start_inv s b n Hh Hb) as Hi. rewrite (Chat.seated_inv _ _ Hi) in Hi.
  constructor; [done| |].
  - constructor; [|done]. simpl. rewrite Hh. by intros ? ? ?.
  - rewrite <- (Chat.seated_inv _ _ (Chat.start_inv s b n Hh Hb)). simpl. rewrite Hh. apply pointers_start.
Qed.

(** ** A sender at work *)

Lemma acts_app l1 l2 y y1 : acts l1 y = Some (Done y1) → acts (l1 ++ l2) y = acts l2 y1.
Proof.
  revert y. induction l1 as [|a l1 IH]; intros y E; cbn [Chat.acts app] in *; [by injection E as <-|].
  destruct (act a y) as [o|]; [|done]. cbn [mbind option_bind] in *. destruct o; [by apply IH|done].
Qed.

(** A turn with a message that waits. *)
Lemma turn y b sb c m q clock :
  sys_ok y → Chat.streams y !! b = Some sb → Chat.sending sb = Chat.Sending → Chat.client sb = Some c →
  Rooms.inbox (rooms y) !! c = Some (m :: q) →
  ∃ y' m', act (Chat.Act b (Chat.SendTurn clock None)) y = Some (Done y') ∧ sys_ok y'
    ∧ Chat.streams y' !! b = Some (sb <| Chat.sent := Chat.sent sb ++ [m'] |>) ∧ erase m' = m
    ∧ Rooms.inbox (rooms y') !! c = Some q
    ∧ ChatServer.storage (Chat.srv y') = ChatServer.storage (Chat.srv y)
    ∧ ∀ store u t, ChatServer.storage (Chat.srv y) = Some store → ServerMessage_MediaKey m ≠ "" →
        ServerMessage_EventType m = EventType_EVENT_TYPE_MESSAGE →
        GetPresignedURL clock (ServerMessage_MediaKey m) store = Ok (u, t) → ServerMessage_MediaUrl m' = u.
Proof.
  intros Hok Hb Hs Hc Hq. pose proof (sys_hub_ok y Hok) as [Hi Hp].
  pose proof (Chat.si_stream _ _ (ok_inv _ Hok) _ _ Hb) as Hst.
  assert (Hr : Chat.registered sb = Some c) by (by rewrite Chat.registered_in_hub, (Chat.so_sending _ _ Hst Hs)).
  pose proof (Chat.so_member _ _ Hst c Hr) as [Hin _]%(Hub.inv_members _ _ Hi).
  destruct (Hub.inv_open _ _ Hi c Hin) as (cl & Hcl & (ch & Hch & _)%elem_ct_open).
  unfold rooms, service, calm in Hq. cbn [Rooms.inbox] in Hq. rewrite lookup_fmap, inbox_abs, decide_True, Hcl in Hq by done.
  cbn [fmap option_fmap option_map] in Hq. rewrite Hch in Hq. cbn [contents] in Hq.
  destruct (po_queue _ _ Hp c cl ch Hin Hcl Hch) as [_ Hf].
  destruct (chan_buf ch) as [|p buf] eqn:Hbuf; [done|]. apply Forall_cons in Hf as [[m0 Hm0] _].
  assert (Hm : erase m0 = m) by (simpl in Hq; rewrite Hm0 in Hq; simpl in Hq; by injection Hq as <-).
  set (tb := ct_set (Hub.Send cl) (mkChan buf (chan_cap ch) (chan_closed ch)) (Hub.sends (hub (Chat.srv y)))).
  assert (Er : ct_recv (Hub.Send cl) (Hub.sends (hub (Chat.srv y))) = Some (p, tb)).
  { unfold ct_recv. rewrite Hch. cbn [mbind option_bind]. unfold recv_chan. by rewrite Hbuf. }
  set (s1 := (Chat.srv y) <| ChatServer.hub := (hub (Chat.srv y)) <| Hub.sends := tb |> |>).
  destruct (attach_url_msg clock p m0 s1 Hm0) as (m' & Hm' & He & Hstore & Hurl).
  set (sb' := sb <| Chat.sent := Chat.sent sb ++ [m'] |>).
  set (y' := Chat.mkSys (Chat.attach_url clock p s1) (<[b := sb']> (Chat.streams y))).
  assert (Ea : act (Chat.Act b (Chat.SendTurn clock None)) y = Some (Done y')).
  { apply (Chat.act_stream _ _ _ b _ y sb); [done|]. cbn [Chat.chat_step]. unfold Chat.send.
    rewrite Hs, Hc, Hcl. cbn [mbind option_bind]. rewrite Er. fold s1. by rewrite Hm'. }
  destruct (act_does (Chat.Act b (Chat.SendTurn clock None)) y y' Hok I Ea) as (Hok' & d & Hd & (st & st' & Hst1 & _ & Ho) & Hh). exists y', m'.
  destruct (Hh b sb Hb) as (sb2 & Hsb2 & Hsent). simpl in Hsb2. rewrite lookup_insert_eq in Hsb2. injection Hsb2 as <-.
  rewrite Hb in Hst1. injection Hst1 as <-.
  cbn [hears] in Hsent. rewrite decide_True in Hsent by done. unfold sb' in Hsent. simpl in Hsent.
  rewrite fmap_app in Hsent. apply app_inv_head in Hsent. simpl in Hsent.
  destruct d as [|c' r'|c'|m1|c' m1]; try done. injection Hsent as <-. cbn [own] in Ho. rewrite Hr in Ho. injection Ho as <-.
  cbn [does] in Hd. split_and!; [exact Ea|exact Hok'|exact (lookup_insert_eq _ _ _)|congruence| |done|].
  - assert (Hi0 : Rooms.inbox (rooms y) !! c = Some (m :: q)).
    { unfold rooms, service, calm. cbn [Rooms.inbox]. rewrite lookup_fmap, inbox_abs, decide_True, Hcl by done.
      cbn [fmap option_fmap option_map]. rewrite Hch. cbn [contents]. by rewrite Hbuf. }
    exact (take_next _ _ _ _ _ _ Hd Hi0).
  - subst m. exact Hurl.
Qed.

Lemma drain q y b sb c clock :
  sys_ok y → Chat.streams y !! b = Some sb → Chat.sending sb = Chat.Sending → Chat.client sb = Some c →
  ∀ q2, Rooms.inbox (rooms y) !! c = Some (q ++ q2) →
  ∃ y' l, acts (replicate (length q) (Chat.Act b (Chat.SendTurn clock None))) y = Some (Done y') ∧ sys_ok y'
    ∧ Chat.streams y' !! b = Some (sb <| Chat.sent := Chat.sent sb ++ l |>) ∧ erase <$> l = q
    ∧ Rooms.inbox (rooms y') !! c = Some q2
    ∧ ChatServer.storage (Chat.srv y') = ChatServer.storage (Chat.srv y).
Proof.
  revert y sb. induction q as [|m q IH]; intros y sb Hok Hb Hs Hc q2 Hq.
  - exists y, []. split_and!; try done. rewrite app_nil_r, Hb. by destruct sb.
  - destruct (turn y b sb c m (q ++ q2) clock Hok Hb Hs Hc Hq) as (y1 & m' & E1 & Hok1 & Hb1 & He & Hq1 & Hst & _).
    destruct (IH y1 _ Hok1 Hb1 Hs Hc q2 Hq1) as (y2 & l & E2 & Hok2 & Hb2 & Hl & Hq2 & Hst2).
    exists y2, (m' :: l). cbn [length replicate]. rewrite (Chat.acts_cons _ _ _ _ _ _ _ E1).
    split_and!; [done|done| |by rewrite fmap_cons, He, Hl|done|congruence].
    rewrite Hb2. simpl. by rewrite <- app_assoc.
Qed.

(** A frame with a message says it in its room. *)
Lemma frame_message R now m s :
  Hub.hub_inv R (hub s) → ClientMessage_EventType m = EventType_EVENT_TYPE_MESSAGE →
  ClientMessage_Text m ≠ "" ∨ ClientMessage_MediaKey m ≠ "" →
  ∃ s', ChatServer.processIncoming now m s = Done s'
    ∧ Hub.Broadcast_new (toServerMsg now m <| ServerMessage_Status := MessageStatus_MESSAGE_STATUS_SENT |>) true (hub s)
      = Done (hub s').
Proof.
  intros Hi He Hc. rewrite (ChatServer.processIncoming_message now m s He Hc).
  match goal with |- context [ChatServer.broadcast ?x true s] => set (sm := x) end.
  destruct (ChatServer.broadcast_ok R sm true s Hi) as (h & p & E & _ & _ & _ & Eb). rewrite E. cbn [outcome_bind fst snd].
  eexists. split; [reflexivity|]. destruct (ChatServer.persist_quiet p (s <| ChatServer.hub := h |>)) as [-> _]. exact Eb.
Qed.

(** ** Properties *)

(** C3: The process implements the room service, stream by stream: after any run, each
    further action of a stream, a call, a goroutine or the broker is at most one operation
    of the service, a stream joins, leaves and takes only for its own client, and what a
    stream has sent grows exactly by the message that it took when its [Send] succeeds:
    every client gets what was said in its room, in order and once, up to the URLs. *)
Theorem process_refines_rooms s b n l (y : sys) a y' :
  hub s = Hub.NewHubWithLimit b n → broker_ok b → Forall action_wf (l ++ [a]) →
  acts l (Chat.mkSys s ∅) = Some (Done y) → act a y = Some (Done y') →
  ∃ d, does d (rooms y) (rooms y') ∧ by_action a d y y'
    ∧ ∀ id st, Chat.streams y !! id = Some st →
        ∃ st', Chat.streams y' !! id = Some st' ∧ erase <$> Chat.sent st' = (erase <$> Chat.sent st) ++ hears a d id.
Proof.
  intros Hh Hb [Hl [Ha _]%Forall_cons]%Forall_app E Ea.
  by apply (act_does a y y' (acts_ok l _ y (start_ok s b n Hh Hb) Hl E) Ha Ea).
Qed.

(** After the frame, it waits behind what waited, in each queue of its room that has place. *)
Lemma frame_waits y a sa b sb c q now m :
  sys_ok y → Chat.streams y !! a = Some sa → Chat.at_ sa = Chat.Receiving → frame_wf m →
  ClientMessage_EventType m = EventType_EVENT_TYPE_MESSAGE → ClientMessage_Text m ≠ "" ∨ ClientMessage_MediaKey m ≠ "" →
  Chat.streams y !! b = Some sb → Chat.sending sb = Chat.Sending → Chat.client sb = Some c →
  Chat.roomID sb = normalizeRoomID (ClientMessage_RoomId m) →
  Rooms.inbox (rooms y) !! c = Some q → length q < 256 →
  let sm := toServerMsg now m <| ServerMessage_Status := MessageStatus_MESSAGE_STATUS_SENT |> in
  ∃ y1, act (Chat.Act a (Chat.Receive now (Ok m))) y = Some (Done y1) ∧ sys_ok y1
    ∧ Chat.streams y1 !! b = Some sb ∧ Rooms.inbox (rooms y1) !! c = Some (q ++ [erase sm]).
Proof.
  intros Hok Ha Hat Hwf Hev Hcon Hb Hs Hc Hroom Hq Hlen sm. pose proof (sys_hub_ok y Hok) as [Hi Hp].
  destruct (frame_message _ now m (Chat.srv y) Hi Hev Hcon) as (s1 & E1 & Eb). fold sm in Eb.
  set (y1 := Chat.mkSys s1 (<[a := sa]> (Chat.streams y))).
  assert (Ea : act (Chat.Act a (Chat.Receive now (Ok m))) y = Some (Done y1)).
  { apply (Chat.act_stream _ _ _ a _ y sa); [done|]. cbn [Chat.chat_step]. unfold Chat.receive. by rewrite Hat, E1. }
  destruct (act_does (Chat.Act a (Chat.Receive now (Ok m))) y y1 Hok Hwf Ea) as (Hok1 & _).
  assert (Hb1 : Chat.streams y1 !! b = Some sb).
  { unfold y1. cbn [Chat.streams]. rewrite insert_id; done. }
  assert (Hseat : Chat.seated y1 = Chat.seated y).
  { unfold Chat.seated, Chat.seats, y1. cbn [Chat.streams]. by rewrite insert_id. }
  destruct (abs_Broadcast sm true _ _ Hi Hp) as (h1 & Eb' & _ & Habs). rewrite Eb in Eb'. injection Eb' as <-.
  pose proof (Chat.si_stream _ _ (ok_inv _ Hok) _ _ Hb) as Hst.
  assert (Hr : Chat.registered sb = Some c) by (by rewrite Chat.registered_in_hub, (Chat.so_sending _ _ Hst Hs)).
  pose proof (Chat.so_member _ _ Hst c Hr) as [Hin Hrc]%(Hub.inv_members _ _ Hi).
  assert (Hq1 : Rooms.inbox (rooms y1) !! c = Some (q ++ [erase sm])).
  { unfold rooms, service. rewrite Hseat. cbn [Chat.srv y1]. rewrite Habs, calm_say. cbn [Rooms.say Rooms.inbox].
    rewrite map_lookup_imap. unfold rooms, service in Hq. rewrite Hq. cbn [mbind option_bind]. rewrite decide_True.
    - f_equal. unfold Rooms.offer. by rewrite bool_decide_eq_true_2.
    - cbn [calm Rooms.seats]. rewrite seats_abs, decide_True, Hrc, Hroom by done. reflexivity. }
  by exists y1.
Qed.

(** C4: A message that is sent is received: when a stream's frame carries a text or a
    media key, then for every stream that sits in the frame's room under any spelling, sends,
    and has place in its queue, the sender's next turns, as many as messages waited and one
    more, hand the stream exactly those that waited, in their order, and then this message
    with its room, sender, text and media, at most its URL written anew; and a media
    message goes out with the URL that the storage signs at that moment. *)
Theorem frame_is_delivered s0 k n l (y : sys) a sa b sb c q now m clock :
  hub s0 = Hub.NewHubWithLimit k n → broker_ok k → Forall action_wf l → acts l (Chat.mkSys s0 ∅) = Some (Done y) →
  Chat.streams y !! a = Some sa → Chat.at_ sa = Chat.Receiving → frame_wf m →
  ClientMessage_EventType m = EventType_EVENT_TYPE_MESSAGE → ClientMessage_Text m ≠ "" ∨ ClientMessage_MediaKey m ≠ "" →
  Chat.streams y !! b = Some sb → Chat.sending sb = Chat.Sending → Chat.client sb = Some c →
  Chat.roomID sb = normalizeRoomID (ClientMessage_RoomId m) →
  Rooms.inbox (rooms y) !! c = Some q → length q < 256 →
  let sm := toServerMsg now m <| ServerMessage_Status := MessageStatus_MESSAGE_STATUS_SENT |> in
  ∃ y1 y2 sb2 waited sm',
    act (Chat.Act a (Chat.Receive now (Ok m))) y = Some (Done y1)
    ∧ acts (replicate (length q + 1) (Chat.Act b (Chat.SendTurn clock None))) y1 = Some (Done y2)
    ∧ Chat.streams y2 !! b = Some sb2 ∧ Chat.sent sb2 = Chat.sent sb ++ waited ++ [sm']
    ∧ erase <$> waited = q ∧ erase sm' = erase sm
    ∧ ∀ store u t, ChatServer.storage (Chat.srv y1) = Some store → ClientMessage_MediaKey m ≠ "" →
        GetPresignedURL clock (ClientMessage_MediaKey m) store = Ok (u, t) → ServerMessage_MediaUrl sm' = u.
Proof.
  intros Hh0 Hk Hl E0 Ha Hat Hwf Hev Hcon Hb Hs Hc Hroom Hq Hlen sm.
  pose proof (acts_ok l _ y (start_ok s0 k n Hh0 Hk) Hl E0) as Hok.
  destruct (frame_waits y a sa b sb c q now m Hok Ha Hat Hwf Hev Hcon Hb Hs Hc Hroom Hq Hlen) as (y1 & Ea & Hok1 & Hb1 & Hq1).
  destruct (drain q y1 b sb c clock Hok1 Hb1 Hs Hc _ Hq1) as (y2 & waited & E2 & Hok2 & Hb2 & Hw & Hq2 & Hst2).
  destruct (turn y2 b _ c (erase sm) [] clock Hok2 Hb2 Hs Hc Hq2) as (y3 & sm' & E3 & _ & Hb3 & He & _ & _ & Hurl).
  eexists y1, y3, _, waited, sm'. split; [exact Ea|]. split.
  - rewrite replicate_add, (acts_app _ _ _ _ E2). cbn [replicate]. by rewrite (Chat.acts_cons _ _ _ _ _ _ _ E3).
  - split; [exact Hb3|]. split; [simpl; by rewrite <- app_assoc|]. split; [done|]. split; [done|].
    intros store u t Hstore Hkey Hu. apply (Hurl store u t); [by rewrite Hst2|done..].
Qed.
End delivery.

(** ** Alice and Bob in memory *)

Module MemTalk.
(** A stream from its start to its receive loop. *)
Definition opening (id : nat) (first : ClientMessage) : list Chat.action :=
  [Chat.Enter id; Chat.Act id (Chat.Receive 1 (Ok first)); Chat.Act id (Chat.Handle 7 2);
   Chat.Act id (Chat.Handle 7 3); Chat.Act id (Chat.Handle 7 4); Chat.Act id (Chat.Handle 7 5)].
Definition bob : ClientMessage :=
  ClientMessage_zero <| ClientMessage_UserId := "bob" |> <| ClientMessage_RoomId := "dm-alice-bob" |>.
Definition start : list Chat.action := opening 0 MemChat.first ++ opening 1 bob.
Definition talking : MemChat.sys := MemChat.state (MemChat.run start MemChat.idle).

Definition hello : ClientMessage :=
  ClientMessage_zero <| ClientMessage_UserId := "alice" |>
    <| ClientMessage_RoomId := "dm:bob:alice" |> <| ClientMessage_Text := "hello" |>.
Definition stream_of (user : string) (c : nat) : Chat.stream :=
  Chat.mk Chat.Receiving user "dm:alice:bob" (Some c) Chat.Sending [].
Definition bob_online : ServerMessage := MemChat.announced <| ServerMessage_UserId := "bob" |>.
Definition turn : Chat.action := Chat.Act 1 (Chat.SendTurn (λ _, 0%Z) None).
Definition turned : MemChat.sys := MemChat.state (MemChat.run [turn] talking).

Lemma start_run : MemChat.run start MemChat.idle = Some (Done talking).
Proof. apply MemChat.runs_state. vm_compute. reflexivity. Qed.

Lemma frame_zero_wf user room : frame_wf (ClientMessage_zero <| ClientMessage_UserId := user |> <| ClientMessage_RoomId := room |>).
Proof. constructor; (split; [vm_compute; discriminate|vm_compute; reflexivity]). Qed.

Lemma start_wf : Forall action_wf start.
Proof. repeat (apply Forall_cons_2; [try exact I; apply frame_zero_wf|]). apply Forall_nil_2. Qed.

Lemma turn_act : Chat.act MemServer.sort elements None turn talking = Some (Done turned).
Proof.
  assert (H : MemChat.run [turn] talking = Some (Done turned)) by (apply MemChat.runs_state; vm_compute; reflexivity).
  cbn [Chat.acts] in H. destruct (Chat.act _ _ _ _ _) as [[]|]; [exact H|done..].
Qed.
End MemTalk.

Lemma process_refines_rooms_witness :
  ∃ d, does d (rooms MemTalk.talking) (rooms MemTalk.turned) ∧ by_action MemTalk.turn d MemTalk.talking MemTalk.turned.
Proof.
  destruct (process_refines_rooms MemServer.sort elements None MemChat.base ct_empty 2 MemTalk.start MemTalk.talking
    MemTalk.turn MemTalk.turned eq_refl NoopHub.empty_broker_ok) as (d & H1 & H2 & _).
  - apply Forall_app_2; [exact MemTalk.start_wf|]. apply Forall_cons_2; [exact I|apply Forall_nil_2].
  - exact MemTalk.start_run.
  - exact MemTalk.turn_act.
  - exists d. exact (conj H1 H2).
Defined.

(** Bob gets his own announcement, which waited, and then the message. *)
Lemma frame_is_delivered_witness :
  ∃ y1 y2 sb waited sm,
    MemChat.run [Chat.Act 0 (Chat.Receive 9 (Ok MemTalk.hello))] MemTalk.talking = Some (Done y1)
    ∧ MemChat.run [MemTalk.turn; MemTalk.turn] y1 = Some (Done y2)
    ∧ Chat.streams y2 !! 1 = Some sb ∧ Chat.sent sb = waited ++ [sm] ∧ erase <$> waited = [MemTalk.bob_online]
    ∧ ServerMessage_Text (erase sm) = "hello".
Proof.
  destruct (frame_is_delivered MemServer.sort elements None MemChat.base ct_empty 2 MemTalk.start MemTalk.talking
    0 (MemTalk.stream_of "alice" 0) 1 (MemTalk.stream_of "bob" 2) 2 [MemTalk.bob_online] 9 MemTalk.hello (λ _, 0%Z)
    eq_refl NoopHub.empty_broker_ok MemTalk.start_wf MemTalk.start_run)
    as (y1 & y2 & sb & waited & sm & E1 & E2 & Hb & Hs & Hw & He & _).
  - vm_compute. reflexivity.
  - reflexivity.
  - constructor; (split; [vm_compute; discriminate|vm_compute; reflexivity]).
  - reflexivity.
  - left. discriminate.
  - vm_compute. reflexivity.
  - reflexivity.
  - reflexivity.
  - vm_compute. reflexivity.
  - vm_compute. reflexivity.
  - simpl. lia.
  - exists y1, y2, sb, waited, sm. rewrite He. split_and!; [|exact E2|exact Hb|exact Hs|exact Hw|reflexivity].
    cbn [Chat.acts]. by rewrite E1.
Defined.
