(* ===== verification/Config.v ===== *)
(** * Configuration

    [app/config/config.go]: the settings, their defaults, the file and the
    environment. The environment and the files are parameters, as is the YAML
    decoder, which may set any field and whose error is dropped. *)

From S2P Require Import Prelude GoString Strconv.
From Stdlib Require Import Ascii.

Record Config : Type := mkConfig {
  ServiceName : string;
  Port : Z;
  LogLevel : string;
  RedisURL : string;
  RedisAddr : string;
  RedisPassword : string;
  StorageBackend : string;
  MinioBucket : string;
  MinioEndpoint : string;
  MinioAccessKey : string;
  MinioSecretKey : string;
  MinioUseSSL : bool;
  S3Bucket : string;
  S3Region : string;
  S3Endpoint : string;
  S3AccessKeyID : string;
  S3SecretAccessKey : string;
  S3ForcePathStyle : bool;
  CloudinaryCloudName : string;
  CloudinaryAPIKey : string;
  CloudinaryAPISecret : string;
  MongoURI : string;
  MongoDB : string;
  PostgresDSN : string;
  PostgresHost : string;
  PostgresPort : Z;
  PostgresUser : string;
  PostgresPass : string;
  PostgresDB : string;
  PostgresSSL : string;
  KafkaBrokersRaw : string;
  KafkaTopic : string;
  KafkaGroupID : string;
  MaxConnsPerPod : Z;
  JWTPublicKeyPath : string;
  JWTAudience : string;
  JWTIssuer : string;
  JWTDisabled : bool
}.

#[global] Instance config_eta : Eta Config := λ c, mkConfig
  c.(ServiceName) c.(Port) c.(LogLevel) c.(RedisURL) c.(RedisAddr) c.(RedisPassword) c.(StorageBackend)
  c.(MinioBucket) c.(MinioEndpoint) c.(MinioAccessKey) c.(MinioSecretKey) c.(MinioUseSSL) c.(S3Bucket)
  c.(S3Region) c.(S3Endpoint) c.(S3AccessKeyID) c.(S3SecretAccessKey) c.(S3ForcePathStyle)
  c.(CloudinaryCloudName) c.(CloudinaryAPIKey) c.(CloudinaryAPISecret) c.(MongoURI) c.(MongoDB)
  c.(PostgresDSN) c.(PostgresHost) c.(PostgresPort) c.(PostgresUser) c.(PostgresPass) c.(PostgresDB)
  c.(PostgresSSL) c.(KafkaBrokersRaw) c.(KafkaTopic) c.(KafkaGroupID) c.(MaxConnsPerPod) c.(JWTPublicKeyPath)
  c.(JWTAudience) c.(JWTIssuer) c.(JWTDisabled).

Local Open Scope Z_scope.

Definition Config_zero : Config := mkConfig "" 0 "" "" "" "" "" "" "" "" "" false
  "" "" "" "" "" false "" "" "" "" "" "" "" 0 "" "" "" "" "" "" "" 0 "" "" "" false.

Definition Default : Config :=
  Config_zero
    <| ServiceName := "chat-service" |> <| Port := 50051 |> <| LogLevel := "info" |>
    <| StorageBackend := "minio" |> <| MinioBucket := "chat-media" |> <| S3Bucket := "chat-media" |>
    <| S3Region := "us-east-1" |> <| MongoDB := "zpc_chat" |> <| PostgresHost := "localhost" |>
    <| PostgresPort := 5432 |> <| PostgresSSL := "disable" |> <| KafkaTopic := "chat-messages" |>
    <| KafkaGroupID := "chat-service" |> <| MaxConnsPerPod := 80000 |>
    <| JWTPublicKeyPath := "config/public.pem" |> <| JWTAudience := "graphql-api" |> <| JWTIssuer := "ZPC" |>.

(** [s[start:i]] *)
Definition slice (start i : nat) (s : string) : string := str (take (i - start) (drop start (bytes s))).

(** The loop of [splitComma], at the index [i] with the rest of the bytes. *)
Fixpoint split_loop (s : string) (rest : list byte) (i start : nat) (out : list string) : nat * list string :=
  match rest with
  | [] => (start, out)
  | c :: rest =>
      if Ascii.eqb c "," then split_loop s rest (S i) (S i) (out ++ [TrimSpace (slice start i s)])
      else split_loop s rest (S i) start out
  end.

Definition splitComma (s : string) : list string :=
  let '(start, out) := split_loop s (bytes s) 0 0 [] in
  out ++ [TrimSpace (slice_from start s)].

Definition KafkaBrokers (env : string → string) (c : Config) : list string :=
  let raw := if String.eqb (KafkaBrokersRaw c) "" then
               let v := env "KAFKA_BROKERS" in if String.eqb v "" then KafkaBrokersRaw c else v
             else KafkaBrokersRaw c in
  filter (λ b, b ≠ "") (splitComma raw).

Definition PostgresDSNBuilt (c : Config) : string :=
  if negb (String.eqb (PostgresDSN c) "") then PostgresDSN c
  else if String.eqb (PostgresHost c) "" then ""
  else
    let ssl := if String.eqb (PostgresSSL c) "" then "disable" else PostgresSSL c in
    "host=" +:+ PostgresHost c +:+ " port=" +:+ itoa (PostgresPort c) +:+ " user=" +:+ PostgresUser c
    +:+ " password=" +:+ PostgresPass c +:+ " dbname=" +:+ PostgresDB c +:+ " sslmode=" +:+ ssl.

(** ** Loading *)

Section load.
Context (env : string → string) (read_file : string → option string) (unmarshal : string → Config → Config).

Definition getenv (key fallback : string) : string := if String.eqb (env key) "" then fallback else env key.

(** The three kinds of variables: a text, a number that [Atoi] reads, and [true]. *)
Definition env_string (key : string) (set : string → Config → Config) (c : Config) : Config :=
  if String.eqb (env key) "" then c else set (env key) c.
Definition env_int (key : string) (set : Z → Config → Config) (c : Config) : Config :=
  if String.eqb (env key) "" then c else match Atoi (env key) with Some p => set p c | None => c end.
Definition env_true (key : string) (set : Config → Config) (c : Config) : Config :=
  if String.eqb (env key) "true" then set c else c.

Definition overrides : list (Config → Config) :=
  [
   env_string "SERVICE_NAME" (λ v c, c <| ServiceName := v |>);
   env_int "PORT" (λ v c, c <| Port := v |>);
   env_string "LOG_LEVEL" (λ v c, c <| LogLevel := v |>);
   env_string "REDIS_URL" (λ v c, c <| RedisURL := v |>);
   env_string "REDIS_ADDR" (λ v c, c <| RedisAddr := v |>);
   env_string "REDIS_PASSWORD" (λ v c, c <| RedisPassword := v |>);
   env_string "STORAGE_BACKEND" (λ v c, c <| StorageBackend := v |>);
   env_string "MINIO_ENDPOINT" (λ v c, c <| MinioEndpoint := v |>);
   env_string "MINIO_ACCESS_KEY" (λ v c, c <| MinioAccessKey := v |>);
   env_string "MINIO_SECRET_KEY" (λ v c, c <| MinioSecretKey := v |>);
   env_string "MINIO_BUCKET" (λ v c, c <| MinioBucket := v |>);
   env_true "MINIO_USE_SSL" (λ c, c <| MinioUseSSL := true |>);
   env_string "S3_BUCKET" (λ v c, c <| S3Bucket := v |>);
   env_string "S3_REGION" (λ v c, c <| S3Region := v |>);
   env_string "S3_ENDPOINT" (λ v c, c <| S3Endpoint := v |>);
   env_string "AWS_ACCESS_KEY_ID" (λ v c, c <| S3AccessKeyID := v |>);
   env_string "AWS_SECRET_ACCESS_KEY" (λ v c, c <| S3SecretAccessKey := v |>);
   env_true "S3_FORCE_PATH_STYLE" (λ c, c <| S3ForcePathStyle := true |>);
   env_string "CLOUDINARY_CLOUD_NAME" (λ v c, c <| CloudinaryCloudName := v |>);
   env_string "CLOUDINARY_API_KEY" (λ v c, c <| CloudinaryAPIKey := v |>);
   env_string "CLOUDINARY_API_SECRET" (λ v c, c <| CloudinaryAPISecret := v |>);
   env_string "MONGO_URI" (λ v c, c <| MongoURI := v |>);
   env_string "MONGO_DB" (λ v c, c <| MongoDB := v |>);
   env_string "POSTGRES_DSN" (λ v c, c <| PostgresDSN := v |>);
   env_string "POSTGRES_HOST" (λ v c, c <| PostgresHost := v |>);
   env_int "POSTGRES_PORT" (λ v c, c <| PostgresPort := v |>);
   env_string "POSTGRES_USER" (λ v c, c <| PostgresUser := v |>);
   env_string "POSTGRES_PASSWORD" (λ v c, c <| PostgresPass := v |>);
   env_string "POSTGRES_DB" (λ v c, c <| PostgresDB := v |>);
   env_string "POSTGRES_SSLMODE" (λ v c, c <| PostgresSSL := v |>);
   env_string "KAFKA_BROKERS" (λ v c, c <| KafkaBrokersRaw := v |>);
   env_string "KAFKA_TOPIC" (λ v c, c <| KafkaTopic := v |>);
   env_string "KAFKA_GROUP_ID" (λ v c, c <| KafkaGroupID := v |>);
   env_int "MAX_CONNS_PER_POD" (λ v c, c <| MaxConnsPerPod := v |>);
   env_string "JWT_PUBLIC_KEY_PATH" (λ v c, c <| JWTPublicKeyPath := v |>);
   env_string "JWT_AUDIENCE" (λ v c, c <| JWTAudience := v |>);
   env_string "JWT_ISSUER" (λ v c, c <| JWTIssuer := v |>);
   env_true "JWT_DISABLED" (λ c, c <| JWTDisabled := true |>)
  ].

Definition validate (c : Config) : option string :=
  if (Port c <=? 0) || (65535 <? Port c) then Some "invalid port" else None.

(** The configuration before the environment. *)
Definition from_file : Config :=
  match read_file (getenv "CONFIG_FILE" "config/config.yaml") with
  | Some y => unmarshal y Default
  | None => Default
  end.

Definition Load : Config * option string :=
  let cfg := foldl (λ c f, f c) from_file overrides in
  (cfg, validate cfg).

End load.

Definition Addr (port : Z) : string := ":" +:+ itoa port.

(** [DurationEnv], over [time.ParseDuration]. *)
Definition DurationEnv (env : string → string) (parse : string → option Z) (key : string) (def : Z) : Z :=
  if String.eqb (env key) "" then def else match parse (env key) with Some d => d | None => def end.

(** The variables of each kind, with their fields. *)
Definition string_settings : list (string * (Config → string)) :=
  [
   ("SERVICE_NAME", ServiceName); ("LOG_LEVEL", LogLevel); ("REDIS_URL", RedisURL);
   ("REDIS_ADDR", RedisAddr); ("REDIS_PASSWORD", RedisPassword); ("STORAGE_BACKEND", StorageBackend);
   ("MINIO_ENDPOINT", MinioEndpoint); ("MINIO_ACCESS_KEY", MinioAccessKey);
   ("MINIO_SECRET_KEY", MinioSecretKey); ("MINIO_BUCKET", MinioBucket); ("S3_BUCKET", S3Bucket);
   ("S3_REGION", S3Region); ("S3_ENDPOINT", S3Endpoint); ("AWS_ACCESS_KEY_ID", S3AccessKeyID);
   ("AWS_SECRET_ACCESS_KEY", S3SecretAccessKey); ("CLOUDINARY_CLOUD_NAME", CloudinaryCloudName);
   ("CLOUDINARY_API_KEY", CloudinaryAPIKey); ("CLOUDINARY_API_SECRET", CloudinaryAPISecret);
   ("MONGO_URI", MongoURI); ("MONGO_DB", MongoDB); ("POSTGRES_DSN", PostgresDSN);
   ("POSTGRES_HOST", PostgresHost); ("POSTGRES_USER", PostgresUser);
   ("POSTGRES_PASSWORD", PostgresPass); ("POSTGRES_DB", PostgresDB);
   ("POSTGRES_SSLMODE", PostgresSSL); ("KAFKA_BROKERS", KafkaBrokersRaw);
   ("KAFKA_TOPIC", KafkaTopic); ("KAFKA_GROUP_ID", KafkaGroupID);
   ("JWT_PUBLIC_KEY_PATH", JWTPublicKeyPath); ("JWT_AUDIENCE", JWTAudience);
   ("JWT_ISSUER", JWTIssuer)
  ].
Definition int_settings : list (string * (Config → Z)) :=
  [("PORT", Port); ("POSTGRES_PORT", PostgresPort); ("MAX_CONNS_PER_POD", MaxConnsPerPod)].
Definition bool_settings : list (string * (Config → bool)) :=
  [("MINIO_USE_SSL", MinioUseSSL); ("S3_FORCE_PATH_STYLE", S3ForcePathStyle); ("JWT_DISABLED", JWTDisabled)].

(** ** Lemmas *)

Lemma env_string_get {A} env key set c (F : Config → A) :
  F (env_string env key set c) = if String.eqb (env key) "" then F c else F (set (env key) c).
Proof. unfold env_string. by case_match. Qed.
Lemma env_int_get {A} env key set c (F : Config → A) :
  F (env_int env key set c) =
    if String.eqb (env key) "" then F c else match Atoi (env key) with Some p => F (set p c) | None => F c end.
Proof. unfold env_int. repeat case_match; done. Qed.
Lemma env_true_get {A} env key set c (F : Config → A) :
  F (env_true env key set c) = if String.eqb (env key) "true" then F (set c) else F c.
Proof. unfold env_true. by case_match. Qed.

(** An override that leaves a field alone. *)
Definition keeps {A} (F : Config → A) (f : Config → Config) : Prop := ∀ c, F (f c) = F c.
Lemma keeps_string {A} env key set (F : Config → A) : (∀ v, keeps F (set v)) → keeps F (env_string env key set).
Proof. intros H c. rewrite env_string_get. case_match; [done|apply H]. Qed.
Lemma keeps_int {A} env key set (F : Config → A) : (∀ v, keeps F (set v)) → keeps F (env_int env key set).
Proof. intros H c. rewrite env_int_get. repeat case_match; try done. apply H. Qed.
Lemma keeps_true {A} env key set (F : Config → A) : keeps F set → keeps F (env_true env key set).
Proof. intros H c. rewrite env_true_get. case_match; [apply H|done]. Qed.

Lemma foldl_keeps {A} (F : Config → A) l c : Forall (keeps F) l → F (foldl (λ c f, f c) c l) = F c.
Proof. intros H. revert c. induction H as [|f l Hf _ IH]; intros c; simpl; [done|]. by rewrite IH, Hf. Qed.

(** One override sets the field and the others leave it alone. *)
Lemma foldl_one {A} (F : Config → A) l1 f l2 c x :
  Forall (keeps F) l1 → Forall (keeps F) l2 → (∀ c, F (f c) = x (F c)) →
  F (foldl (λ c f, f c) c (l1 ++ f :: l2)) = x (F c).
Proof. intros H1 H2 Hf. rewrite foldl_app. simpl. by rewrite foldl_keeps, Hf, foldl_keeps. Qed.

Ltac skip_override :=
  match goal with
  | |- ?F (env_string ?env ?k ?set ?c) = _ =>
      transitivity (F c); [apply (keeps_string env k set F); intros ? ?; reflexivity|]
  | |- ?F (env_int ?env ?k ?set ?c) = _ =>
      transitivity (F c); [apply (keeps_int env k set F); intros ? ?; reflexivity|]
  | |- ?F (env_true ?env ?k ?set ?c) = _ =>
      transitivity (F c); [apply (keeps_true env k set F); intros ?; reflexivity|]
  end.

(** The field of an override: those after it and those before it are skipped. *)
Ltac setting :=
  unfold Load; cbn [fst]; unfold overrides; cbn [foldl];
  repeat skip_override;
  match goal with
  | |- ?F (env_string ?env ?k ?set ?c) = _ =>
      rewrite (env_string_get env k set c F); destruct (String.eqb (env k) ""); [repeat skip_override; reflexivity|reflexivity]
  | |- ?F (env_int ?env ?k ?set ?c) = _ =>
      rewrite (env_int_get env k set c F);
      destruct (String.eqb_spec (env k) "") as [He|He]; [rewrite He; repeat skip_override; reflexivity|];
      destruct (Atoi (env k)); [reflexivity|repeat skip_override; reflexivity]
  | |- ?F (env_true ?env ?k ?set ?c) = _ =>
      rewrite (env_true_get env k set c F); destruct (String.eqb (env k) "true"); [reflexivity|repeat skip_override; reflexivity]
  end.

(** C32: Each setting comes from its variable if that is set, else from the file, else from the
    default: a text variable counts if it is not empty, a number only if it parses (a
    malformed one is ignored without an error), and the switches can only be turned on:
    with [jwt_disabled: true] in the file no environment turns authentication on again. *)
Theorem settings_precedence env read_file unmarshal :
  let base := from_file env read_file unmarshal in
  let cfg := (Load env read_file unmarshal).1 in
  Forall (λ '(k, F), F cfg = if String.eqb (env k) "" then F base else env k) string_settings
  ∧ Forall (λ '(k, F), F cfg = default (F base) (Atoi (env k))) int_settings
  ∧ Forall (λ '(k, F), F cfg = String.eqb (env k) "true" || F base) bool_settings.
Proof.
  intros base cfg. split; [|split].
  all: repeat (apply Forall_cons; split); try apply Forall_nil; try exact I; unfold cfg, base; setting.
Qed.

(** Start-up refuses exactly the ports that are none: [Load] returns an error if and only
    if the port is outside 1 to 65535, and the address of a port that it accepts is a
    colon and a number that reads back as the port. *)
Theorem load_validates_port env read_file unmarshal :
  let '(cfg, err) := Load env read_file unmarshal in
  (err = None ↔ 1 ≤ Port cfg ≤ 65535)
  ∧ (err = None → HasPrefix (Addr (Port cfg)) ":" = true ∧ Atoi (slice_from 1 (Addr (Port cfg))) = Some (Port cfg)).
Proof.
  unfold Load. set (cfg := foldl _ _ _). unfold validate.
  destruct ((Port cfg <=? 0) || (65535 <? Port cfg)) eqn:E.
  - split; [|done]. split; [done|]. intros H. exfalso. apply orb_true_iff in E as [E|E]; lia.
  - apply orb_false_iff in E as [E1 E2]. split; [split; [lia|done]|]. intros _. split; [apply (HasPrefix_app ":")|].
    assert (Ha : slice_from 1 (Addr (Port cfg)) = itoa (Port cfg)) by apply (slice_from_app ":").
    rewrite Ha. unfold Atoi.
    rewrite ParseInt_itoa; [done|]. unfold is_i64. lia.
Qed.

(** ** The list of brokers *)

Lemma slice_app a cur rest : slice (length a) (length a + length cur) (str (a ++ cur ++ rest)) = str cur.
Proof.
  unfold slice. rewrite bytes_str, drop_app_length. f_equal.
  replace (length a + length cur - length a)%nat with (length cur) by lia. by rewrite take_app_length.
Qed.

Lemma split_loop_spec rest : ∀ done cur out,
  ","%char ∉ cur →
  let s := str (done ++ cur ++ rest) in
  let '(start, out') := split_loop s rest (length done + length cur) (length done) out in
  out' ++ [TrimSpace (slice_from start s)] = out ++ (TrimSpace ∘ str <$> split_bytes "," (cur ++ rest)).
Proof.
  induction rest as [|c rest IH]; intros l cur out Hc; cbn zeta; cbn [split_loop].
  - rewrite app_nil_r. rewrite split_bytes_nosep by (rewrite ?app_nil_r; exact Hc). unfold slice_from. rewrite bytes_str, drop_app_length. done.
  - destruct (Ascii.eqb_spec c ",") as [->|Hne].
    + specialize (IH (l ++ cur ++ [","%char]) [] (out ++ [TrimSpace (str cur)]) ltac:(set_solver)).
      cbn zeta in IH. rewrite !length_app in IH. cbn [length] in IH. cbn [app] in IH.
      replace (length l + (length cur + 1) + 0)%nat with (S (length l + length cur)) in IH by lia.
      replace (length l + (length cur + 1))%nat with (S (length l + length cur)) in IH by lia.
      rewrite <-!app_assoc in IH. cbn [app] in IH. rewrite slice_app.
      destruct (split_loop _ rest _ _ _) as [start out']. rewrite IH, split_bytes_app by done. done.
    + specialize (IH l (cur ++ [c]) out ltac:(set_solver)). cbn zeta in IH.
      rewrite length_app in IH. cbn [length] in IH.
      replace (length l + (length cur + 1))%nat with (S (length l + length cur)) in IH by lia.
      rewrite <-!app_assoc in IH. cbn [app] in IH. exact IH.
Qed.

(** C33: The hand-written split is the library's: [splitComma] returns the parts of
    [strings.Split] at the commas, each without surrounding white space; and the brokers
    are those parts that are not empty, so that a value of commas and blanks, like an unset
    one, gives no broker at all. *)
Theorem splitComma_is_Split s env c :
  splitComma s = TrimSpace <$> Split s ","
  ∧ KafkaBrokers env c =
      filter (λ b, b ≠ "") (TrimSpace <$> Split (if String.eqb (KafkaBrokersRaw c) "" then env "KAFKA_BROKERS" else KafkaBrokersRaw c) ",")
  ∧ ∀ b, b ∈ KafkaBrokers env c → b ≠ "" ∧ trimmed b.
Proof.
  assert (Hs : ∀ x, splitComma x = TrimSpace <$> Split x ",").
  { intros x. unfold splitComma, Split. pose proof (split_loop_spec (bytes x) [] [] [] ltac:(set_solver)) as H.
    cbn zeta in H. cbn [app length Nat.add] in H. rewrite str_bytes in H.
    destruct (split_loop _ _ _ _ _) as [start out]. rewrite H. by rewrite <-list_fmap_compose. }
  assert (Hk : KafkaBrokers env c = filter (λ b, b ≠ "") (TrimSpace <$> Split
    (if String.eqb (KafkaBrokersRaw c) "" then env "KAFKA_BROKERS" else KafkaBrokersRaw c) ",")).
  { unfold KafkaBrokers. cbn zeta. rewrite Hs. f_equal. f_equal. f_equal.
    destruct (String.eqb_spec (KafkaBrokersRaw c) "") as [E|]; [|done].
    destruct (String.eqb_spec (env "KAFKA_BROKERS") "") as [E'|]; congruence. }
  split; [apply Hs|]. split; [exact Hk|]. intros b. rewrite Hk, list_elem_of_filter. intros [Hb Hin]. split; [done|].
  apply list_elem_of_fmap in Hin as (x & -> & _). apply TrimSpace_trimmed.
Qed.
