(* ===== verification/Auth.v ===== *)
(** * The auth interceptor

    [app/interceptors/auth.go]: the token of the metadata, its verification and
    the two interceptors. The JWT library is a parameter with what its
    documentation says of [Parse]; a handler is a state transformer that takes
    the request's context. *)

From S2P Require Import Prelude GoString Server.

Local Open Scope go_scope.

(** [context.Context]: the incoming metadata and the value of [ContextKeyUserID]. *)
Record context : Type := mkContext {
  incoming : option (gmap string (list string));
  user_value : option string
}.
#[global] Instance context_eta : Eta context := λ c, mkContext c.(incoming) c.(user_value).

(** A claim: a string or another value of JSON. *)
Inductive claim : Type := ClaimString (s : string) | ClaimOther.

(** [*jwt.Token]: whether its method is one of RSA, the header's algorithm, the claims if
    they are a map, and [Valid]. *)
Record token : Type := mkToken {
  is_rsa : bool;
  alg : string;
  claims : option (gmap string claim);
  valid : bool
}.

(** [jwt.Parse] with a key function and the options for the audience, the issuer and the
    methods; [ParseRSAPublicKeyFromPEM] and [pem.Decode] (whether there is a block). *)
Class Jwt (key : Type) := {
  jwt_Parse : string → (token → result status key) → string → string → list string → result string token;
  pem_Decode : string → bool;
  ParseRSAPublicKeyFromPEM : string → result string key;
  (** Ghost: a signature that verifies, and the claims that [Parse] checks. *)
  signed : key → string → Prop;
  names_audience : string → string → Prop;
  names_issuer : string → string → Prop
}.

(** Documented: [Parse] succeeds only on a token whose method is one of the given ones, whose
    signature verifies under the key that the function gave for it, and it marks it valid;
    the audience and the issuer are checked where an expected one is given: an empty one
    asks for none. *)
Class JwtLaws (key : Type) `{Jwt key} := {
  parse_ok s f aud iss methods t :
    jwt_Parse s f aud iss methods = Ok t →
    valid t = true ∧ alg t ∈ methods ∧ (aud ≠ "" → names_audience s aud) ∧ (iss ≠ "" → names_issuer s iss)
    ∧ ∃ k, f t = Ok k ∧ signed k s
}.

Module AuthInterceptor.
Section auth.
Context {key : Type} `{JW : Jwt key}.

Record t : Type := mk { publicKey : key; audience : string; issuer : string }.

Definition NewAuthInterceptor (read_file : string → result string string) (keyPath audience issuer : string)
    : result string t :=
  match read_file keyPath with
  | Err e => Err e
  | Ok raw =>
      if pem_Decode raw then
        match ParseRSAPublicKeyFromPEM raw with
        | Err e => Err e
        | Ok pub => Ok (mk pub audience issuer)
        end
      else Err "failed to decode PEM block from public key file"
  end.

Definition exempt (fullMethod : string) : bool :=
  HasPrefix fullMethod "/grpc.health" || HasPrefix fullMethod "/grpc.reflection".

Definition unauthenticated (msg : string) : status := mkStatus Unauthenticated msg.

(** The function that gives [Parse] the key. *)
Definition key_func (a : t) (tok : token) : result status key :=
  if is_rsa tok then Ok (publicKey a)
  else Err (unauthenticated ("unexpected signing method: " +:+ alg tok)).

Definition verify (a : t) (tokenStr : string) : result status string :=
  match jwt_Parse tokenStr (key_func a) (audience a) (issuer a) ["RS256"] with
  | Err e => Err (unauthenticated ("invalid token: " +:+ e))
  | Ok tok =>
      match claims tok with
      | Some cs => if valid tok then
                     Ok (match cs !! "sub" with Some (ClaimString sub) => sub | _ => "" end)
                   else Err (unauthenticated "invalid token claims")
      | None => Err (unauthenticated "invalid token claims")
      end
  end.

Definition extractToken (ctx : context) : result status string :=
  match incoming ctx with
  | None => Err (unauthenticated "missing metadata")
  | Some md =>
      match md !! "authorization" with
      | Some (v :: _) =>
          let raw := TrimPrefix v "Bearer " in
          let raw := TrimPrefix raw "bearer " in
          if String.eqb raw "" then Err (unauthenticated "empty token") else Ok raw
      | _ => Err (unauthenticated "missing authorization header")
      end
  end.

Definition UnaryServerInterceptor {St R} (a : t) (ctx : context) (fullMethod : string)
    (handler : context → St → outcome (St * result status R)) (s : St) : outcome (St * result status R) :=
  if exempt fullMethod then handler ctx s
  else
    match extractToken ctx with
    | Err e => Done (s, Err e)
    | Ok tokenStr =>
        match verify a tokenStr with
        | Err e => Done (s, Err e)
        | Ok userID => handler (ctx <| user_value := Some userID |>) s
        end
    end.

(** The stream's handler gets the stream whose [Context] is the result; [wrappedStream]. *)
Definition StreamServerInterceptor {St R} (a : t) (ctx : context) (fullMethod : string)
    (handler : context → St → outcome (St * result status R)) (s : St) : outcome (St * result status R) :=
  if exempt fullMethod then handler ctx s
  else
    match extractToken ctx with
    | Err e => Done (s, Err e)
    | Ok tokenStr =>
        match verify a tokenStr with
        | Err e => Done (s, Err e)
        | Ok userID => handler (ctx <| user_value := Some userID |>) s
        end
    end.

Definition UserIDFromContext (ctx : context) : string := default "" (user_value ctx).

(** The methods of the chat service. *)
Definition chat_method (m : string) : string := "/chat.v1.ChatService/" +:+ m.

Lemma chat_not_exempt m : exempt (chat_method m) = false.
Proof. reflexivity. Qed.

(** ** Lemmas *)

Context `{!JwtLaws key}.

(** A token that the interceptor accepts. *)
Definition accepted (a : t) (raw : string) (tok : token) : Prop :=
  jwt_Parse raw (key_func a) (audience a) (issuer a) ["RS256"] = Ok tok
  ∧ alg tok = "RS256" ∧ is_rsa tok = true ∧ signed (publicKey a) raw
  ∧ (audience a ≠ "" → names_audience raw (audience a)) ∧ (issuer a ≠ "" → names_issuer raw (issuer a)).

(** The user of a token: its subject, or nobody. *)
Definition subject (tok : token) : string :=
  match claims tok with
  | Some cs => match cs !! "sub" with Some (ClaimString sub) => sub | _ => "" end
  | None => ""
  end.

Lemma verify_ok a raw u : verify a raw = Ok u → ∃ tok, accepted a raw tok ∧ u = subject tok ∧ is_Some (claims tok).
Proof.
  unfold verify. destruct (jwt_Parse _ _ _ _ _) as [tok|e] eqn:E; [|done].
  destruct (parse_ok _ _ _ _ _ _ E) as (Hv & Ha & Haud & Hiss & k & Hk & Hs).
  unfold key_func in Hk. destruct (is_rsa tok) eqn:Er; [|done]. injection Hk as <-.
  apply list_elem_of_singleton in Ha.
  destruct (claims tok) as [cs|] eqn:Ec; [|done]. rewrite Hv. intros [= <-]. exists tok.
  split; [done|]. split; [|by eexists]. unfold subject. by rewrite Ec.
Qed.

Lemma verify_err a raw st : verify a raw = Err st → st_code st = Unauthenticated.
Proof. unfold verify. repeat case_match; by intros [= <-]. Qed.

Lemma extract_err ctx st : extractToken ctx = Err st → st_code st = Unauthenticated.
Proof. unfold extractToken. cbv zeta. repeat case_match; by intros [= <-]. Qed.

(** C11: No call of the chat service reaches its handler without a token: unary or stream,
    either the handler runs with the subject of a token that the request carried, that
    names RS256, the configured audience and issuer, where they are set, and whose signature
    verifies under the configured key; or the call is refused as Unauthenticated and changes nothing. A token
    without a subject passes too, as the user without a name. *)
Theorem auth_gate {St R} a ctx m (handler : context → St → outcome (St * result status R)) s :
  let call := UnaryServerInterceptor a ctx (chat_method m) handler s in
  StreamServerInterceptor a ctx (chat_method m) handler s = call
  ∧ ((∃ raw tok, extractToken ctx = Ok raw ∧ accepted a raw tok ∧ is_Some (claims tok)
        ∧ call = handler (ctx <| user_value := Some (subject tok) |>) s
        ∧ UserIDFromContext (ctx <| user_value := Some (subject tok) |>) = subject tok)
     ∨ (∃ st, call = Done (s, Err st) ∧ st_code st = Unauthenticated)).
Proof.
  cbv zeta. split; [reflexivity|]. unfold UnaryServerInterceptor. rewrite chat_not_exempt.
  destruct (extractToken ctx) as [raw|st] eqn:E; [|right; exists st; split; [done|by eapply extract_err]].
  destruct (verify a raw) as [u|st] eqn:Ev; [|right; exists st; split; [done|by eapply verify_err]].
  left. apply verify_ok in Ev as (tok & Hacc & -> & Hc). exists raw, tok. done.
Qed.

Lemma TrimPrefix_other s p : HasPrefix s p = false → TrimPrefix s p = s.
Proof. unfold TrimPrefix. by intros ->. Qed.

(** The scheme is optional: the header's first value is the token with or without
    [Bearer] or [bearer] before it, and one after the other are both dropped, so a token that
    itself begins with [bearer ] is not the one that was sent. *)
Theorem bearer_is_optional md v tok vs :
  md !! "authorization" = Some (v :: vs) → tok ≠ "" →
  HasPrefix tok "Bearer " = false → HasPrefix tok "bearer " = false →
  v = tok ∨ v = "Bearer " +:+ tok ∨ v = "bearer " +:+ tok ∨ v = "Bearer bearer " +:+ tok →
  extractToken (mkContext (Some md) None) = Ok tok.
Proof.
  intros Hmd Hne Hb Hl Hv. unfold extractToken. cbn [incoming]. rewrite Hmd. cbv zeta.
  assert (Ht : TrimPrefix (TrimPrefix v "Bearer ") "bearer " = tok).
  { destruct Hv as [ -> | [ -> | [ -> | -> ]]].
    - by rewrite (TrimPrefix_other tok "Bearer "), TrimPrefix_other.
    - by rewrite TrimPrefix_app, TrimPrefix_other.
    - rewrite (TrimPrefix_other _ "Bearer ") by reflexivity. apply TrimPrefix_app.
    - change ("Bearer bearer " +:+ tok) with ("Bearer " +:+ ("bearer " +:+ tok)).
      rewrite TrimPrefix_app. apply TrimPrefix_app. }
  rewrite Ht. by rewrite (proj2 (String.eqb_neq _ _) Hne).
Qed.
End auth.
Arguments t key : clear implicits.
End AuthInterceptor.

(** ** One key and one good token *)

Module OneToken.
Definition good : token := mkToken true "RS256" (Some {["sub" := ClaimString "alice"]}) true.

Definition parse (s : string) (f : token → result status unit) (aud iss : string) (methods : list string)
    : result string token :=
  if String.eqb s "t1" && String.eqb aud "graphql-api" && String.eqb iss "ZPC" && bool_decide ("RS256" ∈ methods) then
    match f good with Ok _ => Ok good | Err _ => Err "keyfunc" end
  else Err "signature is invalid".

#[global] Instance one_token : Jwt unit := {|
  jwt_Parse := parse;
  pem_Decode s := negb (String.eqb s "");
  ParseRSAPublicKeyFromPEM s := Ok tt;
  signed _ s := s = "t1";
  names_audience s a := a = "graphql-api";
  names_issuer s i := i = "ZPC"
|}.
#[global] Instance one_token_laws : JwtLaws unit.
Proof.
  constructor. intros s f aud iss methods t. simpl. unfold parse.
  destruct (String.eqb_spec s "t1"); [|done]. destruct (String.eqb_spec aud "graphql-api"); [|done].
  destruct (String.eqb_spec iss "ZPC"); [|done]. case_bool_decide; [|done]. simpl.
  destruct (f good) as [k|] eqn:E; [|done]. intros [= <-]. split_and!; try done. by exists k.
Qed.

Definition interceptor : AuthInterceptor.t unit := AuthInterceptor.mk tt "graphql-api" "ZPC".
Definition request : context := mkContext (Some {["authorization" := ["Bearer t1"]]}) None.
Definition who (c : context) (s : nat) : outcome (nat * result status string) :=
  Done (S s, Ok (AuthInterceptor.UserIDFromContext c)).
End OneToken.

Lemma auth_gate_witness :
  AuthInterceptor.UnaryServerInterceptor OneToken.interceptor OneToken.request
    (AuthInterceptor.chat_method "SendMessage") OneToken.who 0 = Done (1, Ok "alice").
Proof.
  destruct (AuthInterceptor.auth_gate OneToken.interceptor OneToken.request "SendMessage" OneToken.who 0)
    as [_ [(raw & tok & E & Hacc & _ & H & Hu)|(st & H & _)]].
  - destruct Hacc as [Hp _]. assert (Hr : raw = "t1") by (vm_compute in E; congruence). subst raw.
    assert (Ht : tok = OneToken.good) by (vm_compute in Hp; vm_compute; congruence). subst tok.
    rewrite H. reflexivity.
  - exfalso. vm_compute in H. discriminate.
Defined.

Lemma bearer_is_optional_witness :
  AuthInterceptor.extractToken (mkContext (Some {["authorization" := ["t1"]]}) None) = Ok "t1".
Proof.
  apply (AuthInterceptor.bearer_is_optional {["authorization" := ["t1"]]} "t1" "t1" []).
  - reflexivity.
  - discriminate.
  - reflexivity.
  - reflexivity.
  - left. reflexivity.
Defined.
