(* ===== verification/Grpc.v ===== *)
(** * The calls of the service

    The generated [app/pb/chat_grpc.pb.go]: the full names, a handler for each unary
    method, which decodes the request and calls the server through the interceptor, and
    the service's descriptor. The decoder is the library's, and a parameter. *)

From S2P Require Import Prelude GoString Pb Json RoomId Chan Broker Hub Presence RoomStore Postgres Mongo Storage Server Auth.

Local Open Scope go_scope.

Definition ChatService_Chat_FullMethodName : string := "/chat.v1.ChatService/Chat".
Definition ChatService_CreateRoom_FullMethodName : string := "/chat.v1.ChatService/CreateRoom".
Definition ChatService_GetConversation_FullMethodName : string := "/chat.v1.ChatService/GetConversation".
Definition ChatService_GetMessages_FullMethodName : string := "/chat.v1.ChatService/GetMessages".
Definition ChatService_SendMessage_FullMethodName : string := "/chat.v1.ChatService/SendMessage".
Definition ChatService_SearchMessages_FullMethodName : string := "/chat.v1.ChatService/SearchMessages".
Definition ChatService_DeleteMessage_FullMethodName : string := "/chat.v1.ChatService/DeleteMessage".
Definition ChatService_EditMessage_FullMethodName : string := "/chat.v1.ChatService/EditMessage".
Definition ChatService_MarkMessageRead_FullMethodName : string := "/chat.v1.ChatService/MarkMessageRead".
Definition ChatService_GetUnreadCount_FullMethodName : string := "/chat.v1.ChatService/GetUnreadCount".
Definition ChatService_RequestUpload_FullMethodName : string := "/chat.v1.ChatService/RequestUpload".
Definition ChatService_GetDownloadUrl_FullMethodName : string := "/chat.v1.ChatService/GetDownloadUrl".
Definition ChatService_GetPresence_FullMethodName : string := "/chat.v1.ChatService/GetPresence".
Definition ChatService_GetUserRooms_FullMethodName : string := "/chat.v1.ChatService/GetUserRooms".
Definition ChatService_CreateGroup_FullMethodName : string := "/chat.v1.ChatService/CreateGroup".
Definition ChatService_AddGroupMember_FullMethodName : string := "/chat.v1.ChatService/AddGroupMember".
Definition ChatService_RemoveGroupMember_FullMethodName : string := "/chat.v1.ChatService/RemoveGroupMember".
Definition ChatService_LeaveGroup_FullMethodName : string := "/chat.v1.ChatService/LeaveGroup".
Definition ChatService_PromoteAdmin_FullMethodName : string := "/chat.v1.ChatService/PromoteAdmin".
Definition ChatService_TransferOwnership_FullMethodName : string := "/chat.v1.ChatService/TransferOwnership".
Definition ChatService_DeleteGroup_FullMethodName : string := "/chat.v1.ChatService/DeleteGroup".

(** An answer: [interface{}]. *)
Record any : Type := mkAny { any_type : Type; any_value : any_type }.
Arguments mkAny {any_type}.

(** [dec]: the library's decoder, for a type of request. *)
Class GrpcDecode (Req : Type) := dec : string → result status Req.

(** The decoders that the handlers use. *)
Class GrpcDecodes := {
  decodes_CreateRoomRequest :: GrpcDecode CreateRoomRequest;
  decodes_GetConversationRequest :: GrpcDecode GetConversationRequest;
  decodes_GetMessagesRequest :: GrpcDecode GetMessagesRequest;
  decodes_SendMessageRequest :: GrpcDecode SendMessageRequest;
  decodes_SearchMessagesRequest :: GrpcDecode SearchMessagesRequest;
  decodes_DeleteMessageRequest :: GrpcDecode DeleteMessageRequest;
  decodes_EditMessageRequest :: GrpcDecode EditMessageRequest;
  decodes_MarkMessageReadRequest :: GrpcDecode MarkMessageReadRequest;
  decodes_GetUnreadCountRequest :: GrpcDecode GetUnreadCountRequest;
  decodes_UploadRequest :: GrpcDecode UploadRequest;
  decodes_GetDownloadUrlRequest :: GrpcDecode GetDownloadUrlRequest;
  decodes_GetPresenceRequest :: GrpcDecode GetPresenceRequest;
  decodes_GetUserRoomsRequest :: GrpcDecode GetUserRoomsRequest;
  decodes_CreateGroupRequest :: GrpcDecode CreateGroupRequest;
  decodes_AddGroupMemberRequest :: GrpcDecode AddGroupMemberRequest;
  decodes_RemoveGroupMemberRequest :: GrpcDecode RemoveGroupMemberRequest;
  decodes_LeaveGroupRequest :: GrpcDecode LeaveGroupRequest;
  decodes_PromoteAdminRequest :: GrpcDecode PromoteAdminRequest;
  decodes_TransferOwnershipRequest :: GrpcDecode TransferOwnershipRequest;
  decodes_DeleteGroupRequest :: GrpcDecode DeleteGroupRequest
}.

(** What a handler takes from outside: [uuid.NewString], [UnixNano], the clock when it starts
    and as it goes on. *)
Record inputs : Type := mkInputs {
  in_uuid : string;
  in_unix_nano : Z;
  in_now : GoTime;
  in_clock : nat → GoTime
}.

Section grpc.
Context {B : Type} `{BR : Broker B} `{JC : JsonCodec ServerMessage} `{JR : JsonCodec RoomStore.RoomMeta}.
Context {K : Type} `{KV : RedisKV K} {P : Type} `{PS : PresenceStore P}.
Context {Q : Type} `{DB : SqlDB Q} {G : Type} `{MG : MongoDB G} {T : Type} `{SG : Storage T}.
Context {key : Type} `{JW : Jwt key}.
Context (sort_slice : list RoomRepository.UserRoom → list RoomRepository.UserRoom).
Context (order : gset string → list string).

#[local] Abbreviation server := (ChatServer.t B K P Q G T).
#[local] Abbreviation handled R := (outcome (server * result status R)).

(** What all the handlers are: decode, then the server's method, through the interceptor if
    there is one. *)
Definition to_any {R : Type} (m : handled R) : handled any :=
  outcome_bind m (λ r, Done (r.1, result_map mkAny r.2)).

Definition unary_handler {Req R : Type} `{!GrpcDecode Req} (fullMethod : string) (method : Req → server → handled R)
    (interceptor : option (AuthInterceptor.t key)) (ctx : context) (raw : string) (s : server) : handled any :=
  match dec raw with
  | Err e => Done (s, Err e)
  | Ok req =>
      match interceptor with
      | None => to_any (method req s)
      | Some a => AuthInterceptor.UnaryServerInterceptor a ctx fullMethod (λ _ s, to_any (method req s)) s
      end
  end.

Context {GD : GrpcDecodes}.
Implicit Types (i : inputs) (s : server).

Definition _ChatService_CreateRoom_Handler i :=
  unary_handler ChatService_CreateRoom_FullMethodName (λ (req : CreateRoomRequest) s, ChatServer.CreateRoom order (in_uuid i) (in_unix_nano i) (in_now i) req s).
Definition _ChatService_GetConversation_Handler i :=
  unary_handler ChatService_GetConversation_FullMethodName (λ (req : GetConversationRequest) s, ChatServer.GetConversation req s).
Definition _ChatService_GetMessages_Handler i :=
  unary_handler ChatService_GetMessages_FullMethodName (λ (req : GetMessagesRequest) s, ChatServer.GetMessages req s).
Definition _ChatService_SendMessage_Handler i :=
  unary_handler ChatService_SendMessage_FullMethodName (λ (req : SendMessageRequest) s, ChatServer.SendMessage (in_uuid i) (in_now i) req s).
Definition _ChatService_SearchMessages_Handler i :=
  unary_handler ChatService_SearchMessages_FullMethodName (λ (req : SearchMessagesRequest) s, ChatServer.SearchMessages req s).
Definition _ChatService_DeleteMessage_Handler i :=
  unary_handler ChatService_DeleteMessage_FullMethodName (λ (req : DeleteMessageRequest) s, ChatServer.DeleteMessage req s).
Definition _ChatService_EditMessage_Handler i :=
  unary_handler ChatService_EditMessage_FullMethodName (λ (req : EditMessageRequest) s, ChatServer.EditMessage (in_now i) req s).
Definition _ChatService_MarkMessageRead_Handler i :=
  unary_handler ChatService_MarkMessageRead_FullMethodName (λ (req : MarkMessageReadRequest) s, ChatServer.MarkMessageRead (in_now i) req s).
Definition _ChatService_GetUnreadCount_Handler i :=
  unary_handler ChatService_GetUnreadCount_FullMethodName (λ (req : GetUnreadCountRequest) s, ChatServer.GetUnreadCount req s).
Definition _ChatService_RequestUpload_Handler i :=
  unary_handler ChatService_RequestUpload_FullMethodName (λ (req : UploadRequest) s, ChatServer.RequestUpload (in_now i) (in_clock i) req s).
Definition _ChatService_GetDownloadUrl_Handler i :=
  unary_handler ChatService_GetDownloadUrl_FullMethodName (λ (req : GetDownloadUrlRequest) s, ChatServer.GetDownloadUrl (in_clock i) req s).
Definition _ChatService_GetPresence_Handler i :=
  unary_handler ChatService_GetPresence_FullMethodName (λ (req : GetPresenceRequest) s, ChatServer.GetPresence (in_now i) req s).
Definition _ChatService_GetUserRooms_Handler i :=
  unary_handler ChatService_GetUserRooms_FullMethodName (λ (req : GetUserRoomsRequest) s, ChatServer.GetUserRooms sort_slice req s).
Definition _ChatService_CreateGroup_Handler i :=
  unary_handler ChatService_CreateGroup_FullMethodName (λ (req : CreateGroupRequest) s, ChatServer.CreateGroup order (in_unix_nano i) (in_now i) req s).
Definition _ChatService_AddGroupMember_Handler i :=
  unary_handler ChatService_AddGroupMember_FullMethodName (λ (req : AddGroupMemberRequest) s, ChatServer.AddGroupMember (in_now i) req s).
Definition _ChatService_RemoveGroupMember_Handler i :=
  unary_handler ChatService_RemoveGroupMember_FullMethodName (λ (req : RemoveGroupMemberRequest) s, ChatServer.RemoveGroupMember req s).
Definition _ChatService_LeaveGroup_Handler i :=
  unary_handler ChatService_LeaveGroup_FullMethodName (λ (req : LeaveGroupRequest) s, ChatServer.LeaveGroup req s).
Definition _ChatService_PromoteAdmin_Handler i :=
  unary_handler ChatService_PromoteAdmin_FullMethodName (λ (req : PromoteAdminRequest) s, ChatServer.PromoteAdmin req s).
Definition _ChatService_TransferOwnership_Handler i :=
  unary_handler ChatService_TransferOwnership_FullMethodName (λ (req : TransferOwnershipRequest) s, ChatServer.TransferOwnership req s).
Definition _ChatService_DeleteGroup_Handler i :=
  unary_handler ChatService_DeleteGroup_FullMethodName (λ (req : DeleteGroupRequest) s, ChatServer.DeleteGroup req s).

Record MethodDesc : Type := mkMethodDesc {
  MethodName : string;
  Handler : inputs → option (AuthInterceptor.t key) → context → string → server → handled any
}.

(** [ChatService_ServiceDesc]: its name and its methods. *)
Definition ServiceName : string := "chat.v1.ChatService".
Definition Methods : list MethodDesc :=
  [
   mkMethodDesc "CreateRoom" _ChatService_CreateRoom_Handler;
   mkMethodDesc "GetConversation" _ChatService_GetConversation_Handler;
   mkMethodDesc "GetMessages" _ChatService_GetMessages_Handler;
   mkMethodDesc "SendMessage" _ChatService_SendMessage_Handler;
   mkMethodDesc "SearchMessages" _ChatService_SearchMessages_Handler;
   mkMethodDesc "DeleteMessage" _ChatService_DeleteMessage_Handler;
   mkMethodDesc "EditMessage" _ChatService_EditMessage_Handler;
   mkMethodDesc "MarkMessageRead" _ChatService_MarkMessageRead_Handler;
   mkMethodDesc "GetUnreadCount" _ChatService_GetUnreadCount_Handler;
   mkMethodDesc "RequestUpload" _ChatService_RequestUpload_Handler;
   mkMethodDesc "GetDownloadUrl" _ChatService_GetDownloadUrl_Handler;
   mkMethodDesc "GetPresence" _ChatService_GetPresence_Handler;
   mkMethodDesc "GetUserRooms" _ChatService_GetUserRooms_Handler;
   mkMethodDesc "CreateGroup" _ChatService_CreateGroup_Handler;
   mkMethodDesc "AddGroupMember" _ChatService_AddGroupMember_Handler;
   mkMethodDesc "RemoveGroupMember" _ChatService_RemoveGroupMember_Handler;
   mkMethodDesc "LeaveGroup" _ChatService_LeaveGroup_Handler;
   mkMethodDesc "PromoteAdmin" _ChatService_PromoteAdmin_Handler;
   mkMethodDesc "TransferOwnership" _ChatService_TransferOwnership_Handler;
   mkMethodDesc "DeleteGroup" _ChatService_DeleteGroup_Handler].

(** ** Lemmas *)

(** A handler that decodes its request, and then makes one call of the server through the
    interceptor, which is told the method's full name. *)
Definition makes_a_call (i : inputs) (d : MethodDesc) : Prop :=
  ∃ (Req R : Type) (D : GrpcDecode Req) (method : Req → server → handled R) (call_of : Req → ChatServer.call),
    Handler d i = unary_handler (AuthInterceptor.chat_method (MethodName d)) method
    ∧ ∀ req s, ChatServer.run sort_slice order (call_of req) s = ChatServer.state_of (method req s).

Lemma makes_it {Req R : Type} (call_of : Req → ChatServer.call) i d (D : GrpcDecode Req) (method : Req → server → handled R) :
  Handler d i = unary_handler (AuthInterceptor.chat_method (MethodName d)) method →
  (∀ req s, ChatServer.run sort_slice order (call_of req) s = ChatServer.state_of (method req s)) → makes_a_call i d.
Proof. intros H1 H2. by exists Req, R, D, method, call_of. Qed.

Lemma methods_make_calls i : Forall (makes_a_call i) Methods.
Proof.
  repeat apply Forall_cons_2; [..|apply Forall_nil_2].
  - by eapply (makes_it (ChatServer.CallCreateRoom (in_uuid i) (in_unix_nano i) (in_now i))).
  - by eapply (makes_it ChatServer.CallGetConversation).
  - by eapply (makes_it ChatServer.CallGetMessages).
  - by eapply (makes_it (ChatServer.CallSendMessage (in_uuid i) (in_now i))).
  - by eapply (makes_it ChatServer.CallSearchMessages).
  - by eapply (makes_it ChatServer.CallDeleteMessage).
  - by eapply (makes_it (ChatServer.CallEditMessage (in_now i))).
  - by eapply (makes_it (ChatServer.CallMarkMessageRead (in_now i))).
  - by eapply (makes_it ChatServer.CallGetUnreadCount).
  - by eapply (makes_it (ChatServer.CallRequestUpload (in_now i) (in_clock i))).
  - by eapply (makes_it (ChatServer.CallGetDownloadUrl (in_clock i))).
  - by eapply (makes_it (ChatServer.CallGetPresence (in_now i))).
  - by eapply (makes_it ChatServer.CallGetUserRooms).
  - by eapply (makes_it (ChatServer.CallCreateGroup (in_unix_nano i) (in_now i))).
  - by eapply (makes_it (ChatServer.CallAddGroupMember (in_now i))).
  - by eapply (makes_it ChatServer.CallRemoveGroupMember).
  - by eapply (makes_it ChatServer.CallLeaveGroup).
  - by eapply (makes_it ChatServer.CallPromoteAdmin).
  - by eapply (makes_it ChatServer.CallTransferOwnership).
  - by eapply (makes_it ChatServer.CallDeleteGroup).
Qed.

(** No two methods have a name in common. *)
Lemma method_names_distinct : NoDup (MethodName <$> Methods).
Proof. change (NoDup ["CreateRoom"; "GetConversation"; "GetMessages"; "SendMessage"; "SearchMessages"; "DeleteMessage";
  "EditMessage"; "MarkMessageRead"; "GetUnreadCount"; "RequestUpload"; "GetDownloadUrl"; "GetPresence"; "GetUserRooms";
  "CreateGroup"; "AddGroupMember"; "RemoveGroupMember"; "LeaveGroup"; "PromoteAdmin"; "TransferOwnership"; "DeleteGroup"]).
  decide_now.
Qed.

Lemma method_makes_a_call i d : d ∈ Methods → makes_a_call i d.
Proof. pose proof (methods_make_calls i) as H. rewrite Forall_forall in H. apply H. Qed.

Lemma state_of_done {R} (m : handled R) s' : ChatServer.state_of m = Done s' → ∃ r, m = Done (s', r).
Proof. unfold ChatServer.state_of. destruct m as [[s1 r]|]; [|done]. intros [= <-]. by exists r. Qed.

Lemma state_of_to_any {R} (m : handled R) : ChatServer.state_of (to_any m) = ChatServer.state_of m.
Proof. by destruct m as [[s r]|]. Qed.

(** With a token that it accepts, the interceptor is not there. *)
Lemma unary_admitted {Req R} `{!GrpcDecode Req} a m (method : Req → server → handled R) ctx raw s tok u :
  AuthInterceptor.extractToken ctx = Ok tok → AuthInterceptor.verify a tok = Ok u →
  unary_handler (AuthInterceptor.chat_method m) method (Some a) ctx raw s
  = unary_handler (AuthInterceptor.chat_method m) method None ctx raw s.
Proof.
  intros E Ev. unfold unary_handler. destruct (dec raw); [|done].
  unfold AuthInterceptor.UnaryServerInterceptor. by rewrite AuthInterceptor.chat_not_exempt, E, Ev.
Qed.

(** Every call is answered and none is let in without a token. Whichever method of the
    service is called and whatever bytes are sent, the call ends without a panic and leaves
    the hub as sound and its rooms as they were; it changes nothing unless it is a call of the
    server, which, with authentication on, needs a token that the interceptor accepts. *)
Theorem every_call_is_answered `{!BrokerLaws B} `{!JwtLaws key} R i d a ctx raw s :
  d ∈ Methods → Hub.hub_inv R (ChatServer.hub s) →
  ∃ s' r, Handler d i a ctx raw s = Done (s', r) ∧ ChatServer.hub_kept R s s'
    ∧ (s' = s ∧ (∃ st, r = Err st)
       ∨ (∃ c, ChatServer.run sort_slice order c s = Done s')
         ∧ (∀ a', a = Some a' → ∃ raw tok, AuthInterceptor.extractToken ctx = Ok raw ∧ AuthInterceptor.accepted a' raw tok)).
Proof.
  intros Hd Hi. assert (Hk : ChatServer.hub_kept R s s) by (by apply ChatServer.quiet_kept).
  destruct (method_makes_a_call i d Hd) as (Req & Rs & D & method & call_of & -> & Hrun).
  assert (Hrefused : ∀ st, ∃ s' r, Done (s, Err st : result status any) = Done (s', r) ∧ ChatServer.hub_kept R s s'
    ∧ (s' = s ∧ (∃ st, r = Err st)
       ∨ (∃ c, ChatServer.run sort_slice order c s = Done s')
         ∧ (∀ a', a = Some a' → ∃ raw tok, AuthInterceptor.extractToken ctx = Ok raw ∧ AuthInterceptor.accepted a' raw tok))).
  { intros st. eexists s, _. split; [reflexivity|]. split; [done|]. left. by eauto. }
  unfold unary_handler. destruct (dec raw) as [req|e]; [|apply Hrefused].
  pose proof (ChatServer.run_safe sort_slice order R (call_of req) s Hi) as (s' & Er & Hs').
  pose proof Er as Em. rewrite Hrun, <- state_of_to_any in Em. apply state_of_done in Em as [r Em].
  destruct a as [a|]; [|eexists s', r; split; [exact Em|]; split; [done|]; right; split; [by eexists|done]].
  unfold AuthInterceptor.UnaryServerInterceptor. rewrite AuthInterceptor.chat_not_exempt.
  destruct (AuthInterceptor.extractToken ctx) as [tk|st] eqn:E; [|apply Hrefused].
  destruct (AuthInterceptor.verify a tk) as [u|st] eqn:Ev; [|apply Hrefused].
  exists s', r. split; [exact Em|]. split; [done|]. right. split; [by eexists|]. intros a' [= <-].
  apply AuthInterceptor.verify_ok in Ev as (tok & Ht & _). by exists tk, tok.
Qed.

End grpc.

(** ** A call in memory *)

Module OneCall.
(** Bytes that decode to one request of [SendMessage], in Bob's name. *)
Definition as_bob : SendMessageRequest := mkSendMessageRequest "dm:bob:alice" "bob" "hello" 0 "" "" 0 "" "".
Definition cannot_parse {A} : GrpcDecode A := λ _, Err (mkStatus Internal "cannot parse").
Definition parse_send : GrpcDecode SendMessageRequest :=
  λ raw, if String.eqb raw "send" then Ok as_bob else Err (mkStatus Internal "cannot parse").
#[global] Instance decoders : GrpcDecodes := {|
  decodes_CreateRoomRequest := cannot_parse;
  decodes_GetConversationRequest := cannot_parse;
  decodes_GetMessagesRequest := cannot_parse;
  decodes_SendMessageRequest := parse_send;
  decodes_SearchMessagesRequest := cannot_parse;
  decodes_DeleteMessageRequest := cannot_parse;
  decodes_EditMessageRequest := cannot_parse;
  decodes_MarkMessageReadRequest := cannot_parse;
  decodes_GetUnreadCountRequest := cannot_parse;
  decodes_UploadRequest := cannot_parse;
  decodes_GetDownloadUrlRequest := cannot_parse;
  decodes_GetPresenceRequest := cannot_parse;
  decodes_GetUserRoomsRequest := cannot_parse;
  decodes_CreateGroupRequest := cannot_parse;
  decodes_AddGroupMemberRequest := cannot_parse;
  decodes_RemoveGroupMemberRequest := cannot_parse;
  decodes_LeaveGroupRequest := cannot_parse;
  decodes_PromoteAdminRequest := cannot_parse;
  decodes_TransferOwnershipRequest := cannot_parse;
  decodes_DeleteGroupRequest := cannot_parse
|}.
Definition i : inputs := mkInputs "m2" 7 9000000 (λ _, 9000000%Z).
Definition desc : MethodDesc := mkMethodDesc (B := Noop.t) (K := MemKV.t) (P := LocalPresence.t) (Q := MemDB.t) (G := MemMongo.t)
  (T := CloudinaryStorage.t) (key := unit) "SendMessage" _ChatService_SendMessage_Handler.
Lemma desc_in : desc ∈ Methods MemServer.sort elements.
Proof. unfold Methods. do 3 right. left. Qed.
Definition call (a : option (AuthInterceptor.t unit)) (ctx : context) : outcome (MemServer.t * result status any) :=
  Handler desc i a ctx "send" MemServer.server.
Definition sent : MemServer.t * SendMessageResponse :=
  MemServer.response (mkSendMessageResponse ServerMessage_zero) (ChatServer.SendMessage "m2" 9000000 as_bob MemServer.server).
Lemma call_sent : call None (mkContext None None) = Done (sent.1, Ok (mkAny sent.2)).
Proof. vm_compute. reflexivity. Qed.
End OneCall.


Lemma every_call_is_answered_witness :
  ∃ s' r, OneCall.call (Some OneToken.interceptor) (mkContext None None) = Done (s', r)
    ∧ s' = MemServer.server ∧ ∃ st, r = Err st.
Proof.
  destruct (every_call_is_answered MemServer.sort elements _ OneCall.i OneCall.desc (Some OneToken.interceptor)
    (mkContext None None) "send" MemServer.server OneCall.desc_in NoopHub.alice_inv)
    as (s' & r & E & _ & [[-> Hr]|[_ H]]).
  - exists MemServer.server, r. split; [exact E|]. split; [reflexivity|exact Hr].
  - exfalso. destruct (H _ eq_refl) as (raw & tok & Ht & _). discriminate.
Defined.
