(* ===== verification/Main.v ===== *)
(** * Start-up

    [cmd/server/main.go], with the constructors that it calls: which backend serves
    what, what an unavailable one is replaced by, and when authentication is on. The
    connections themselves are parameters. *)

From S2P Require Import Prelude GoString Pb Json RoomId Chan Broker Kafka Hub Presence RoomStore Postgres Mongo Indexes Storage Server History Chat Config Auth Grpc.

(** ** Connections *)

Section connections.
Context {Opts C : Type}.

(** [NewRedisClient], over [redis.ParseURL] and [redis.NewClient]. *)
Definition NewRedisClient (ParseURL : string → result string Opts) (of_addr : string → string → Opts)
    (NewClient : Opts → C) (url addr password : string) : option C :=
  if negb (String.eqb url "") then
    match ParseURL url with Err _ => None | Ok opt => Some (NewClient opt) end
  else if String.eqb addr "" then None
  else Some (NewClient (of_addr addr password)).

(** [NewMessageRepository], over the driver's [Connect], [Ping], [Database] and [CreateMany]. *)
Definition NewMessageRepository {G} (Connect : string → result string C) (Ping : C → option string)
    (Database : string → C → G) (CreateMany : string → list IndexModel → G → G * option string)
    (uri dbName : string) : result string G :=
  let dbName := if String.eqb dbName "" then "zpc_chat" else dbName in
  match Connect uri with
  | Err e => Err ("mongodb connect: " +:+ e)
  | Ok client =>
      match Ping client with
      | Some e => Err ("mongodb ping: " +:+ e)
      | None => Ok (ensureIndexes CreateMany (Database dbName client))
      end
  end.

(** [NewRoomRepository], over [sql.Open] and [PingContext]. *)
Definition NewRoomRepository {Q} (Open : string → result string Q) (Ping : Q → option string) (dsn : string)
    : result string Q :=
  match Open dsn with
  | Err e => Err ("postgres open: " +:+ e)
  | Ok db => match Ping db with Some e => Err ("postgres ping: " +:+ e) | None => Ok db end
  end.
End connections.

(** ** The log *)

(** [logger.New] of [app/logger/logger.go], over zerolog's [ParseLevel]: the level of the
    configuration, in whatever case, and [InfoLevel] for one that there is not. *)
Definition logger_New {Level} (ParseLevel : string → result string Level) (InfoLevel : Level) (level : string) : Level :=
  match ParseLevel (ToLower level) with Err _ => InfoLevel | Ok lvl => lvl end.

(** ** The storage of the process *)

Inductive any_storage (M A : Type) : Type :=
  | OfCloudinary (c : CloudinaryStorage.t)
  | OfS3 (s : S3Storage.t A)
  | OfMinio (m : MinioStorage.t M).
Arguments OfCloudinary {M A}.
Arguments OfS3 {M A}.
Arguments OfMinio {M A}.

#[global] Instance any_storage_storage {M A} `{MinioClient M} `{S3SDK A} : Storage (any_storage M A) := {|
  PutPresignedURL clock key mime size s :=
    match s with
    | OfCloudinary c => PutPresignedURL clock key mime size c
    | OfS3 c => PutPresignedURL clock key mime size c
    | OfMinio c => PutPresignedURL clock key mime size c
    end;
  GetPresignedURL clock key s :=
    match s with
    | OfCloudinary c => GetPresignedURL clock key c
    | OfS3 c => GetPresignedURL clock key c
    | OfMinio c => GetPresignedURL clock key c
    end
|}.

(** [STORAGE_BACKEND]; an error is [log.Fatal], which ends the process. *)
Definition choose_storage {M A} `{MinioClient M} `{S3SDK A} (cfg : Config) : result string (option (any_storage M A)) :=
  let backend := ToLower (StorageBackend cfg) in
  if String.eqb backend "cloudinary" then
    Ok (OfCloudinary <$> CloudinaryStorage.NewCloudinaryStorage (CloudinaryCloudName cfg) (CloudinaryAPIKey cfg)
          (CloudinaryAPISecret cfg))
  else if String.eqb backend "s3" then
    if String.eqb (S3Bucket cfg) "" then Ok None
    else
      match S3Storage.NewS3Storage (S3Storage.mkS3Config (S3Bucket cfg) (S3Region cfg) (S3Endpoint cfg)
              (S3AccessKeyID cfg) (S3SecretAccessKey cfg) (S3ForcePathStyle cfg)) with
      | Err e => Err ("failed to initialise S3 storage: " +:+ e)
      | Ok st => Ok (OfS3 <$> st)
      end
  else if String.eqb (MinioEndpoint cfg) "" then Ok None
  else
    match MinioStorage.NewMinioStorage (MinioEndpoint cfg) (MinioAccessKey cfg) (MinioSecretKey cfg)
            (MinioBucket cfg) (MinioUseSSL cfg) with
    | Err e => Err ("failed to initialise MinIO storage: " +:+ e)
    | Ok None => Ok None
    | Ok (Some ms) => Ok (Some (OfMinio (MinioStorage.EnsureBucket ms).1))
    end.

(** ** The process *)

Section main.
Context {B : Type} `{BR : Broker B} `{JC : JsonCodec ServerMessage} `{JR : JsonCodec RoomStore.RoomMeta}.
Context {K : Type} `{KV : RedisKV K} {P : Type} `{PS : PresenceStore P}.
Context {Q : Type} `{DB : SqlDB Q} {G : Type} `{MG : Mongo.MongoDB G}.
Context {M A : Type} `{MC : MinioClient M} `{SDK : S3SDK A}.
Context {key : Type} `{JW : Jwt key}.

(** What the process can reach: its variables and files, and the outcome of connecting. *)
Record world : Type := mkWorld {
  w_env : string → string;
  w_file : string → result string string;
  w_yaml : string → Config → Config;
  w_redis : string → string → string → option K;
  w_redis_broker : K → B;
  w_noop : B;
  w_kafka : Kafka.Writer → Kafka.Reader → B;
  w_mongo : string → string → result string G;
  w_postgres : string → result string Q;
  w_redis_presence : K → P;
  w_local_presence : P;
  w_listen : string → option string
}.

#[local] Abbreviation server := (ChatServer.t B K P Q G (any_storage M A)).

Definition choose_messages (w : world) (cfg : Config) : option G :=
  if String.eqb (MongoURI cfg) "" then None
  else match w_mongo w (MongoURI cfg) (MongoDB cfg) with Err _ => None | Ok mr => Some mr end.

Definition choose_rooms (w : world) (cfg : Config) : option Q :=
  let dsn := PostgresDSNBuilt cfg in
  if String.eqb dsn "" then None
  else match w_postgres w dsn with
       | Err _ => None
       | Ok pr => match RoomRepository.Migrate pr with (_, Some _) => None | (pr, None) => Some pr end
       end.

Definition choose_broker (w : world) (cfg : Config) (redis : option K) : B :=
  let b := match redis with Some c => w_redis_broker w c | None => w_noop w end in
  match KafkaBrokers (w_env w) cfg with
  | [] => b
  | brokers =>
      match Kafka.NewKafkaBroker (Kafka.mkConfig brokers (KafkaTopic cfg) (KafkaGroupID cfg)) with
      | Err _ => b
      | Ok (writer, reader) => w_kafka w writer reader
      end
  end.

Definition choose_auth (w : world) (cfg : Config) : option (AuthInterceptor.t key) :=
  if JWTDisabled cfg then None
  else match AuthInterceptor.NewAuthInterceptor (w_file w) (JWTPublicKeyPath cfg) (JWTAudience cfg) (JWTIssuer cfg) with
       | Err _ => None
       | Ok a => Some a
       end.

Record process : Type := mkProcess { serving : server; auth : option (AuthInterceptor.t key); addr : string }.

(** [main] up to [Serve]: a panic for the configuration, [log.Fatal] for the storage and the
    listener. *)
Definition main (w : world) : result string process :=
  match Load (w_env w) (λ f, match w_file w f with Ok y => Some y | Err _ => None end) (w_yaml w) with
  | (_, Some e) => Err e
  | (cfg, None) =>
      let redis := w_redis w (RedisURL cfg) (RedisAddr cfg) (RedisPassword cfg) in
      match choose_storage cfg with
      | Err e => Err e
      | Ok st =>
          let msgRepo := choose_messages w cfg in
          let pgRepo := choose_rooms w cfg in
          let b := choose_broker w cfg redis in
          let ps := match redis with Some c => w_redis_presence w c | None => w_local_presence w end in
          let rs := RoomStore.NewRoomStore redis in
          let h := Hub.NewHubWithLimit b (MaxConnsPerPod cfg) in
          match w_listen w (Addr (Port cfg)) with
          | Some e => Err ("failed to listen: " +:+ e)
          | None => Ok (mkProcess (ChatServer.NewChatServer h rs pgRepo msgRepo st ps) (choose_auth w cfg) (Addr (Port cfg)))
          end
      end
  end.

(** A unary call of the chat service. *)
Definition unary {R} (p : process) (ctx : context) (m : string)
    (handler : context → server → outcome (server * result status R)) (s : server) : outcome (server * result status R) :=
  match auth p with
  | Some a => AuthInterceptor.UnaryServerInterceptor a ctx (AuthInterceptor.chat_method m) handler s
  | None => handler ctx s
  end.

(** The shutdown after a signal: [GracefulStop] waits for the calls, and after 5 seconds [Stop]
    ends them; then the repositories are closed and [main] returns, which ends the
    goroutines that are left. *)
Inductive closing : Type := StopServer | CloseMessages | ClosePostgres.

Definition shutdown (drained : bool) (s : server) : server * list closing :=
  (s <| ChatServer.tasks := [] |>,
   (if drained then [] else [StopServer])
   ++ match ChatServer.msgRepo s with Some _ => [CloseMessages] | None => [] end
   ++ match ChatServer.pgRooms s with Some _ => [ClosePostgres] | None => [] end).

(** The configuration of a world. *)
Definition config (w : world) : Config :=
  (Load (w_env w) (λ f, match w_file w f with Ok y => Some y | Err _ => None end) (w_yaml w)).1.

Lemma main_ok w p :
  main w = Ok p →
  auth p = choose_auth w (config w) ∧ ChatServer.msgRepo (serving p) = choose_messages w (config w)
  ∧ ChatServer.pgRooms (serving p) = choose_rooms w (config w) ∧ validate (config w) = None.
Proof.
  unfold main, config. destruct (Load _ _ _) as [cfg [e|]] eqn:E; [done|].
  destruct (choose_storage cfg) as [st|e]; [|done]. destruct (w_listen w _); [done|]. intros [= <-]. simpl. split_and!; try done.
  unfold Load in E. by injection E as <- E.
Qed.


Context `{!BrokerLaws B}.
Context (sort_slice : list RoomRepository.UserRoom → list RoomRepository.UserRoom).
Context (order : gset string → list string).

(** A world whose brokers are as their constructors make them. *)
Record fresh_brokers (w : world) : Prop := {
  fresh_noop : broker_ok (w_noop w);
  fresh_redis c : broker_ok (w_redis_broker w c);
  fresh_kafka writer reader : broker_ok (w_kafka w writer reader)
}.

Lemma choose_broker_ok w cfg redis : fresh_brokers w → broker_ok (choose_broker w cfg redis).
Proof.
  intros [Hn Hr Hk]. assert (Hb : broker_ok match redis with Some c => w_redis_broker w c | None => w_noop w end)
    by (destruct redis; done).
  unfold choose_broker. cbv zeta. repeat case_match; done.
Qed.

Lemma main_hub w p : main w = Ok p → ∃ cfg redis, ChatServer.hub (serving p)
  = Hub.NewHubWithLimit (choose_broker w cfg redis) (MaxConnsPerPod cfg).
Proof.
  unfold main. destruct (Load _ _ _) as [cfg [e|]]; [done|].
  destruct (choose_storage cfg) as [st|e]; [|done]. destruct (w_listen w _); [done|]. intros [= <-]. by eexists _, _.
Qed.


(** A message that was acknowledged can be lost at shutdown: [SendMessage] has answered and its
    goroutine has not run; neither [GracefulStop], however long it takes, nor anything after
    it waits for the goroutine, and the store is closed without the message. *)
Theorem acknowledged_message_is_lost R uuid now req drained (s : server) g :
  Hub.hub_inv R (ChatServer.hub s) → ChatServer.msgRepo s = Some g →
  normalizeRoomID (SendMessageRequest_ConversationId req) ≠ "" → SendMessageRequest_SenderId req ≠ "" →
  Forall (λ d, Mongo.md_ID d ≠ uuid) (Mongo.docs Mongo.Messages g) →
  ∃ s1 sm p, ChatServer.SendMessage uuid now req s = Done (s1, Ok (mkSendMessageResponse sm))
    ∧ ServerMessage_MessageId sm = uuid ∧ TaskPersist p ∈ ChatServer.tasks s1
    ∧ let '(s2, closed) := shutdown drained s1 in
      CloseMessages ∈ closed ∧ ChatServer.tasks s2 = [] ∧ ChatServer.msgRepo s2 = Some g
      ∧ Forall (λ d, Mongo.md_ID d ≠ uuid) (Mongo.docs Mongo.Messages g).
Proof.
  intros Hi Hg Hr Hu Hn. destruct (send_leaves R uuid now req s g Hi Hg Hr Hu) as
    (s1 & sm & p & E & _ & Hg1 & Ht & _ & _ & Hid & _).
  exists s1, sm, p. split_and!; [done|done|rewrite Ht; set_solver|]. unfold shutdown. rewrite Hg1.
  split_and!; [set_solver|done|exact Hg1|done].
Qed.

(** Without MongoDB there is no history: with no URI, or when the connection fails at
    start-up, the process starts and nothing takes the store's place; sending answers
    with the message as sent, and every page of history is empty, without an error. *)
Theorem history_needs_mongo w p :
  main w = Ok p →
  (MongoURI (config w) = "" ∨ ∃ e, w_mongo w (MongoURI (config w)) (Config.MongoDB (config w)) = Err e) →
  ChatServer.msgRepo (serving p) = None
  ∧ ∀ R (s : server) uuid now req, Hub.hub_inv R (ChatServer.hub s) → ChatServer.msgRepo s = None →
      normalizeRoomID (SendMessageRequest_ConversationId req) ≠ "" → SendMessageRequest_SenderId req ≠ "" →
      ∃ s1 resp, ChatServer.SendMessage uuid now req s = Done (s1, Ok resp)
        ∧ ServerMessage_MessageId (SendMessageResponse_Message resp) = uuid
        ∧ ChatServer.msgRepo s1 = None
        ∧ ∀ greq, normalizeRoomID (GetMessagesRequest_RoomId greq) ≠ "" →
            ChatServer.GetMessages greq s1 = Done (s1, Ok (mkGetMessagesResponse [] false)).
Proof.
  intros (_ & Hm & _)%main_ok Hu. split.
  - rewrite Hm. unfold choose_messages. destruct Hu as [->|[e He]]; [done|]. case_match; [done|]. by rewrite He.
  - intros R s uuid now req Hi Hn Hc Hs. unfold ChatServer.SendMessage. cbv zeta.
    rewrite (proj2 (String.eqb_neq _ _) Hc), (proj2 (String.eqb_neq _ _) Hs). cbn [orb].
    match goal with |- context [ChatServer.broadcast ?m true s] => set (sm := m) end.
    destruct (ChatServer.broadcast_ok R sm true s Hi) as (h & q & Eb & _). rewrite Eb.
    eexists _, _. split; [reflexivity|]. split; [reflexivity|].
    assert (Hn1 : ChatServer.msgRepo (ChatServer.persistMessage q (s <| ChatServer.hub := h |>)) = None).
    { unfold ChatServer.persistMessage. simpl. rewrite Hn. by case_match. }
    split; [exact Hn1|]. intros greq Hg. unfold ChatServer.GetMessages. cbv zeta.
    rewrite (proj2 (String.eqb_neq _ _) Hg). cbn [fst snd]. by rewrite Hn1.
Qed.
End main.

(** ** A machine with nothing configured *)

Module Bare.
#[global] Instance no_s3 : S3SDK unit := {|
  AwsConfig := unit;
  LoadDefaultConfig c r := Err "no region";
  NewFromConfig a o := tt;
  PresignPutObject b k m ttl c := Err "no region";
  PresignGetObject b k ttl c := Err "no region"
|}.

Definition machine : world (B:=Noop.t) (K:=MemKV.t) (P:=LocalPresence.t) (Q:=MemDB.t) (G:=MemMongo.t) := {|
  w_env k := "";
  w_file f := Err "no such file";
  w_yaml y c := c;
  w_redis u a p := None;
  w_redis_broker c := ct_empty;
  w_noop := ct_empty;
  w_kafka _ _ := ct_empty;
  w_mongo u d := Err "no server";
  w_postgres d := Err "connection refused";
  w_redis_presence c := LocalPresence.NewLocalPresenceStore;
  w_local_presence := LocalPresence.NewLocalPresenceStore;
  w_listen a := None
|}.

Definition server : ChatServer.t Noop.t MemKV.t LocalPresence.t MemDB.t MemMongo.t (any_storage MemBuckets.t unit) :=
  ChatServer.NewChatServer (Hub.NewHubWithLimit ct_empty 80000) (RoomStore.NewRoomStore None) None None None
    LocalPresence.NewLocalPresenceStore.
Definition running := mkProcess (key:=unit) server None ":50051".

Lemma fresh : fresh_brokers machine.
Proof. split; intros; exact NoopHub.empty_broker_ok. Qed.
Lemma starts : main machine = Ok running.
Proof. vm_compute. reflexivity. Qed.
End Bare.




Lemma history_needs_mongo_witness :
  ∃ s1 resp, ChatServer.SendMessage "m" 5 (mkSendMessageRequest "r" "alice" "hi" 0 "" "" 0 "" "") Bare.server
      = Done (s1, Ok resp)
    ∧ ChatServer.GetMessages (mkGetMessagesRequest "r" "bob" 10 0) s1 = Done (s1, Ok (mkGetMessagesResponse [] false)).
Proof.
  destruct (history_needs_mongo Bare.machine Bare.running Bare.starts) as [_ H].
  - left. vm_compute. reflexivity.
  - destruct (H ∅ Bare.server "m" 5%Z (mkSendMessageRequest "r" "alice" "hi" 0 "" "" 0 "" ""))
      as (s1 & resp & H1 & _ & _ & H2).
    + apply Hub.NewHub_inv, NoopHub.empty_broker_ok.
    + reflexivity.
    + vm_compute. discriminate.
    + discriminate.
    + exists s1, resp. split; [exact H1|]. apply H2. vm_compute. discriminate.
Defined.

Lemma acknowledged_message_is_lost_witness :
  ∃ s1 sm p, ChatServer.SendMessage "m2" 9000000 Told.req
      (ChatServer.NewChatServer (T := any_storage MemBuckets.t unit) NoopHub.alice.1
        (RoomStore.NewRoomStore (Some MemKV.empty)) (Some MemDB.room) (Some MemMongo.one_message) None
        LocalPresence.NewLocalPresenceStore) = Done (s1, Ok (mkSendMessageResponse sm))
    ∧ ServerMessage_MessageId sm = "m2" ∧ TaskPersist p ∈ ChatServer.tasks s1 ∧ CloseMessages ∈ (shutdown true s1).2.
Proof.
  destruct (acknowledged_message_is_lost _ "m2" 9000000 Told.req true
    (ChatServer.NewChatServer (T := any_storage MemBuckets.t unit) NoopHub.alice.1
      (RoomStore.NewRoomStore (Some MemKV.empty)) (Some MemDB.room) (Some MemMongo.one_message) None
      LocalPresence.NewLocalPresenceStore) MemMongo.one_message NoopHub.alice_inv eq_refl)
    as (s1 & sm & p & H1 & H2 & H3 & H4 & _).
  - vm_compute. discriminate.
  - discriminate.
  - exact Told.uuid_is_new.
  - exists s1, sm, p. split; [exact H1|]. split; [exact H2|]. split; [exact H3|exact H4].
Defined.
